(** * Downloads organizer: classification-and-move engine

    A shallow embedding of [organizer_downloads_files.py]: the rule table
    ([build_rules], [resolve_folder_for_ext]), the move planner
    ([organize_by_type_then_date] and its two siblings), the safe mover
    ([ensure_dir], [safe_move]), the directory scanner
    ([deep_scan_and_organize]) and the empty-directory reaper
    ([delete_empty_folders]), over a tree model of the file system.

    Python's [str] is modelled by [string] (8-bit characters), [int] by [Z]
    for the counters and [nat] for the rename index, a [dict] by an
    association list in insertion order, and the mutable [stats] dictionary
    together with the file system and the log by an explicit state.

    The model stands for the program on a POSIX file system, within these
    bounds: names are strings of bytes, and upper and lower case are told
    apart for the letters of ASCII only; a time stamp is the whole second
    that [datetime.fromtimestamp] makes of the float [st_mtime]; the
    file-system calls fail for what the tree shows (a missing entry, a file
    where a directory is needed), not for lack of permission or space nor
    for a name or path beyond the limits of the platform. *)

From Stdlib Require Import List String Ascii ZArith Lia Bool Arith.
From Stdlib Require Import Decimal DecimalNat DecimalString FinFun.
Import ListNotations.

Local Open Scope string_scope.
Local Open Scope list_scope.

(* ================================================================== *)
(** * Strings *)
(* ================================================================== *)

Module Str.

(** [c.lower()] on one character: ['A'..'Z'] go to ['a'..'z'], every other
    8-bit character is left as it is.  Python lowers every cased character
    of Unicode: the two agree on the characters of ASCII. *)
Definition lower_ascii (c : ascii) : ascii :=
  let n := nat_of_ascii c in
  if ((65 <=? n)%nat && (n <=? 90)%nat)%bool then ascii_of_nat (n + 32) else c.

(** [s.lower()], for a string of ASCII characters. *)
Fixpoint lower (s : string) : string :=
  match s with
  | EmptyString => EmptyString
  | String c r => String (lower_ascii c) (lower r)
  end.

(** [s.lstrip(".")]: every leading dot is removed. *)
Fixpoint lstrip_dots (s : string) : string :=
  match s with
  | String c r => if Ascii.eqb c "." then lstrip_dots r else s
  | EmptyString => EmptyString
  end.

(** [s.rfind(".")], [None] standing for Python's [-1]. *)
Fixpoint rfind_dot (s : string) : option nat :=
  match s with
  | EmptyString => None
  | String c r =>
      match rfind_dot r with
      | Some i => Some (S i)
      | None => if Ascii.eqb c "." then Some 0 else None
      end
  end.

(** [str(n)] for a non-negative integer. *)
Definition of_nat (n : nat) : string := NilEmpty.string_of_uint (Nat.to_uint n).

(** [x in xs] for a list of strings. *)
Definition mem (x : string) (xs : list string) : bool :=
  existsb (String.eqb x) xs.

End Str.

(** [normalize_ext(p)] is [p.lstrip(".").lower()]. *)
Definition normalize_ext (p : string) : string :=
  Str.lower (Str.lstrip_dots p).

(* ================================================================== *)
(** * Rule table *)
(* ================================================================== *)

(** One entry of a rule table: the category and its extension list. *)
Definition rule : Type := string * list string.

(** A Python [dict] from category names to extension lists, as the list of
    its items in insertion order.  A dictionary holds each key once: *)
Definition rules_dict : Type := list rule.

Definition dict_keys (d : rules_dict) : list string := map fst d.

Definition dict_wf (d : rules_dict) : Prop := NoDup (dict_keys d).

(** [k in d] *)
Definition dict_mem (k : string) (d : rules_dict) : bool :=
  Str.mem k (dict_keys d).

Definition DEFAULT_RULES : rules_dict :=
  [ ("Images",     ["jpg"; "jpeg"; "png"; "gif"; "bmp"; "svg"; "webp"; "heic"]);
    ("Videos",     ["mp4"; "mkv"; "mov"; "avi"; "webm"]);
    ("Audio",      ["mp3"; "wav"; "flac"; "aac"; "m4a"]);
    ("Documents",  ["pdf"; "doc"; "docx"; "xls"; "xlsx"; "ppt"; "pptx"; "txt"; "rtf"]);
    ("Archives",   ["zip"; "rar"; "7z"; "tar"; "gz"; "bz2"]);
    ("Code",       ["js"; "jsx"; "ts"; "tsx"; "py"; "java"; "c"; "cpp"; "html"; "css"; "json"]);
    ("Installers", ["exe"; "msi"; "deb"; "rpm"]);
    ("Others",     []) ].

(** The tuple [(k, [normalize_ext(x) for x in v])]. *)
Definition normalize_rule (r : rule) : rule :=
  (fst r, map normalize_ext (snd r)).

(** [build_rules(custom_rules)]: the custom items first, then every default
    whose key is not a key of the custom dictionary.  (The guard
    [if custom_rules:] only skips a loop over an empty dictionary.) *)
Definition build_rules (custom_rules : rules_dict) : list rule :=
  let rules := [] in
  let rules :=
    match custom_rules with
    | [] => rules
    | _ :: _ => rules ++ map normalize_rule custom_rules
    end in
  rules ++ map normalize_rule
             (filter (fun kv => negb (dict_mem (fst kv) custom_rules))
                     DEFAULT_RULES).

(** [resolve_folder_for_ext(ext, ordered_rules)] *)
Fixpoint resolve_folder_for_ext (ext : string) (ordered_rules : list rule)
  : string :=
  match ordered_rules with
  | [] => "Others"
  | (folder, exts) :: rest =>
      if Str.mem ext exts then folder
      else resolve_folder_for_ext ext rest
  end.

(* ================================================================== *)
(** * Paths *)
(* ================================================================== *)

(** A [pathlib.Path], as the list of its segments below the root of the
    file system. *)
Definition path : Type := list string.

(** Joining drops an empty segment and a ["."] segment; every other string
    is taken as one segment.  (A string holding a separator, or equal to
    [".."], is outside this model: [proper_name] below excludes them.) *)
Definition plain (s : string) : bool :=
  negb (s =? "") && negb (s =? ".").

(** [p / s] *)
Definition path_div (p : path) (s : string) : path :=
  if plain s then p ++ [s] else p.

Declare Scope path_scope.
Delimit Scope path_scope with path.
Notation "p // s" := (path_div p s) (at level 40, left associativity) : path_scope.
Local Open Scope path_scope.

(** [p.name] *)
Definition path_name (p : path) : string := last p "".

(** [p.suffix]: [i = name.rfind('.')], and [name[i:]] when
    [0 < i < len(name) - 1], the empty string otherwise. *)
Definition suffix_of (name : string) : string :=
  match Str.rfind_dot name with
  | Some i =>
      if ((0 <? i)%nat && (i <? String.length name - 1)%nat)%bool
      then substring i (String.length name - i) name
      else ""
  | None => ""
  end.

(** [p.stem]: [name[:i]] under the same test, the whole name otherwise. *)
Definition stem_of (name : string) : string :=
  match Str.rfind_dot name with
  | Some i =>
      if ((0 <? i)%nat && (i <? String.length name - 1)%nat)%bool
      then substring 0 i name
      else name
  | None => name
  end.

Definition path_suffix (p : path) : string := suffix_of (path_name p).
Definition path_stem (p : path) : string := stem_of (path_name p).

Fixpoint has_slash (s : string) : bool :=
  match s with
  | EmptyString => false
  | String c r => Ascii.eqb c "/" || has_slash r
  end.

(** A name a directory entry can bear. *)
Definition proper_name (s : string) : bool :=
  plain s && negb (s =? "..") && negb (has_slash s).

Definition proper_path (p : path) : bool := forallb proper_name p.

(* ================================================================== *)
(** * File system *)
(* ================================================================== *)

(** A regular file carries its last-modified time and its contents; a
    directory carries its entries, in the order [os.scandir] lists them.
    The time is in whole seconds since the epoch, as the program comes to
    use it: [st_mtime] is a float, which [datetime.fromtimestamp] rounds to
    the nearest microsecond before it takes the date of the second this
    falls in, and that second is what a [File] holds (for a file stamped a
    fraction of a microsecond before a full second, the second after).
    Links, permissions and devices are not modelled. *)
Inductive node : Type :=
| File (mtime : Z) (data : string)
| Dir (entries : list (string * node)).

Definition entries : Type := list (string * node).

Fixpoint find_entry (n : string) (es : entries) : option node :=
  match es with
  | [] => None
  | (m, c) :: r => if n =? m then Some c else find_entry n r
  end.

(** Replace the entry named [n], or add it after the others. *)
Fixpoint set_entry (n : string) (c : node) (es : entries) : entries :=
  match es with
  | [] => [(n, c)]
  | (m, c0) :: r => if n =? m then (n, c) :: r else (m, c0) :: set_entry n c r
  end.

Definition remove_entry (n : string) (es : entries) : entries :=
  filter (fun e => negb (n =? fst e)) es.

(** The node a path leads to. *)
Fixpoint lookup (p : path) (t : node) : option node :=
  match p with
  | [] => Some t
  | n :: q =>
      match t with
      | Dir es =>
          match find_entry n es with
          | Some c => lookup q c
          | None => None
          end
      | File _ _ => None
      end
  end.

(** [p.exists()] *)
Definition exists_at (p : path) (t : node) : bool :=
  match lookup p t with Some _ => true | None => false end.

(** [p.is_dir()] *)
Definition is_dir_at (p : path) (t : node) : bool :=
  match lookup p t with Some (Dir _) => true | _ => false end.

(** Taking the entry at [p] out of its directory; [None] when there is no
    such entry. *)
Fixpoint detach (p : path) (t : node) : option node :=
  match p, t with
  | [], _ => None
  | _, File _ _ => None
  | [n], Dir es =>
      match find_entry n es with
      | Some _ => Some (Dir (remove_entry n es))
      | None => None
      end
  | n :: q, Dir es =>
      match find_entry n es with
      | Some c =>
          match detach q c with
          | Some c' => Some (Dir (set_entry n c' es))
          | None => None
          end
      | None => None
      end
  end.

(** Putting [c] at [p], whose parent has to be a directory; [None]
    otherwise. *)
Fixpoint attach (p : path) (c : node) (t : node) : option node :=
  match p, t with
  | [], _ => None
  | _, File _ _ => None
  | [n], Dir es => Some (Dir (set_entry n c es))
  | n :: q, Dir es =>
      match find_entry n es with
      | Some d =>
          match attach q c d with
          | Some d' => Some (Dir (set_entry n d' es))
          | None => None
          end
      | None => None
      end
  end.

(** [p.mkdir(parents=True, exist_ok=True)]: the segments of [p] are followed
    from the root; the first missing one and all after it are created; a
    regular file on the way makes the call fail, and then nothing is
    created. *)
Fixpoint mkdir_p (p : path) (t : node) : option node :=
  match t with
  | File _ _ => None
  | Dir es =>
      match p with
      | [] => Some t
      | n :: q =>
          match find_entry n es with
          | Some c =>
              match mkdir_p q c with
              | Some c' => Some (Dir (set_entry n c' es))
              | None => None
              end
          | None =>
              match mkdir_p q (Dir []) with
              | Some c' => Some (Dir (es ++ [(n, c')]))
              | None => None
              end
          end
      end
  end.

Definition is_dir_node (c : node) : bool :=
  match c with Dir _ => true | File _ _ => false end.

(** What [os.walk] reads of a directory: the names of its sub-directories
    and the names of its other entries. *)
Definition listing (es : entries) : list string * list string :=
  (map fst (filter (fun e => is_dir_node (snd e)) es),
   map fst (filter (fun e => negb (is_dir_node (snd e))) es)).

(** Number of directories strictly below a node, and the number of levels
    of directories below it. *)
Fixpoint count_dirs (t : node) : nat :=
  match t with
  | File _ _ => 0
  | Dir es =>
      (fix go (l : entries) : nat :=
         match l with
         | [] => 0
         | (_, c) :: r => (if is_dir_node c then 1 else 0) + count_dirs c + go r
         end) es
  end.

Fixpoint height (t : node) : nat :=
  match t with
  | File _ _ => 0
  | Dir es =>
      (fix go (l : entries) : nat :=
         match l with
         | [] => 0
         | (_, c) :: r => Nat.max (S (height c)) (go r)
         end) es
  end.

(** A tree that holds directories only. *)
Fixpoint dirs_only (t : node) : bool :=
  match t with
  | File _ _ => false
  | Dir es =>
      (fix go (l : entries) : bool :=
         match l with
         | [] => true
         | (_, c) :: r => dirs_only c && go r
         end) es
  end.

Fixpoint distinct (l : list string) : bool :=
  match l with
  | [] => true
  | x :: r => negb (Str.mem x r) && distinct r
  end.

(** A well-formed tree: in every directory the names are proper and
    pairwise distinct. *)
Fixpoint wf_node (t : node) : bool :=
  match t with
  | File _ _ => true
  | Dir es =>
      forallb proper_name (map fst es) && distinct (map fst es) &&
      (fix go (l : entries) : bool :=
         match l with
         | [] => true
         | (_, c) :: r => wf_node c && go r
         end) es
  end.

(* ================================================================== *)
(** * Run statistics, log and state *)
(* ================================================================== *)

(** The [stats] dictionary: five integer counters under fixed keys. *)
Record Stats : Type := mkStats {
  scanned : Z;
  folders_created : Z;
  files_moved : Z;
  folders_deleted : Z;
  errors : Z
}.

(** [make_stats()] *)
Definition make_stats : Stats :=
  {| scanned := 0; folders_created := 0; files_moved := 0;
     folders_deleted := 0; errors := 0 |}.

(** The records handed to [logging]. *)
Inductive event : Type :=
| LogMoved (src dest : path)            (* info: MOVED *)
| LogMovedRenamed (src dest : path)     (* info: MOVED (renamed) *)
| LogFailedMove (src : path)            (* exception: Failed to move *)
| LogDeletedEmpty (full : path)         (* info: DELETED EMPTY *)
| LogCouldNotDelete (full : path)       (* debug: Could not delete folder *)
| LogTargetMissing (target : path).     (* error: Target folder does not exist *)

(** What a call can change: the file system, the counters, the log. *)
Record world : Type := mkWorld {
  w_fs : node;
  w_stats : Stats;
  w_log : list event
}.

(** The exceptions that can be raised: [OSError] stands for itself and its
    subclasses ([FileNotFoundError], [NotADirectoryError], [shutil.Error],
    ...), which no handler of the program tells apart. *)
Inductive exn : Type := OSError | ValueError.

(** How a call ends: it returns, it raises, or its loop bound ran out. *)
Inductive outcome (A : Type) : Type :=
| Ret (a : A)
| Raise (e : exn)
| OutOfFuel.
Arguments Ret {A} a.
Arguments Raise {A} e.
Arguments OutOfFuel {A}.

Definition M (A : Type) : Type := world -> outcome A * world.

Definition ret {A} (a : A) : M A := fun w => (Ret a, w).

Definition bind {A B} (m : M A) (k : A -> M B) : M B :=
  fun w =>
    match m w with
    | (Ret a, w') => k a w'
    | (Raise e, w') => (Raise e, w')
    | (OutOfFuel, w') => (OutOfFuel, w')
    end.

Definition raise {A} (e : exn) : M A := fun w => (Raise e, w).
Definition out_of_fuel {A} : M A := fun w => (OutOfFuel, w).

(** [try: m  except Exception as e: h e] *)
Definition try_except {A} (m : M A) (h : exn -> M A) : M A :=
  fun w =>
    match m w with
    | (Raise e, w') => h e w'
    | r => r
    end.

Declare Scope monad_scope.
Delimit Scope monad_scope with monad.
Notation "x <- m ;; k" := (bind m (fun x => k))
  (at level 61, m at next level, right associativity) : monad_scope.
Notation "m ;; k" := (bind m (fun _ => k))
  (at level 61, right associativity) : monad_scope.
Local Open Scope monad_scope.

(** [for x in xs: body x] *)
Fixpoint for_each {A} (xs : list A) (body : A -> M unit) : M unit :=
  match xs with
  | [] => ret tt
  | x :: r => body x ;; for_each r body
  end.

Definition get_fs : M node := fun w => (Ret (w_fs w), w).

Definition put_fs (t : node) : M unit :=
  fun w => (Ret tt, {| w_fs := t; w_stats := w_stats w; w_log := w_log w |}).

Definition modify_stats (f : Stats -> Stats) : M unit :=
  fun w => (Ret tt, {| w_fs := w_fs w; w_stats := f (w_stats w); w_log := w_log w |}).

Definition log (e : event) : M unit :=
  fun w => (Ret tt, {| w_fs := w_fs w; w_stats := w_stats w; w_log := w_log w ++ [e] |}).

(** [stats[key] += 1], key by key. *)
Definition incr_scanned (s : Stats) : Stats :=
  {| scanned := scanned s + 1; folders_created := folders_created s;
     files_moved := files_moved s; folders_deleted := folders_deleted s;
     errors := errors s |}.
Definition incr_folders_created (s : Stats) : Stats :=
  {| scanned := scanned s; folders_created := folders_created s + 1;
     files_moved := files_moved s; folders_deleted := folders_deleted s;
     errors := errors s |}.
Definition incr_files_moved (s : Stats) : Stats :=
  {| scanned := scanned s; folders_created := folders_created s;
     files_moved := files_moved s + 1; folders_deleted := folders_deleted s;
     errors := errors s |}.
Definition incr_folders_deleted (s : Stats) : Stats :=
  {| scanned := scanned s; folders_created := folders_created s;
     files_moved := files_moved s; folders_deleted := folders_deleted s + 1;
     errors := errors s |}.
Definition incr_errors (s : Stats) : Stats :=
  {| scanned := scanned s; folders_created := folders_created s;
     files_moved := files_moved s; folders_deleted := folders_deleted s;
     errors := errors s + 1 |}.

(* ================================================================== *)
(** * File-system calls *)
(* ================================================================== *)

(** [p.exists()], for a path within the limits of the platform. *)
Definition path_exists (p : path) : M bool :=
  t <- get_fs ;; ret (exists_at p t).

(** [p.mkdir(parents=True, exist_ok=True)] *)
Definition path_mkdir (p : path) : M unit :=
  t <- get_fs ;;
  match mkdir_p p t with
  | Some t' => put_fs t'
  | None => raise OSError
  end.

(** [p.stat().st_mtime], as the second a [File] holds.  The program reads
    it of the entries [os.walk] lists as files and of the watcher's
    non-directory events, and hands it to [datetime.fromtimestamp] only;
    the time of a directory is not modelled. *)
Definition st_mtime (p : path) : M Z :=
  t <- get_fs ;;
  match lookup p t with
  | Some (File mtime _) => ret mtime
  | _ => raise OSError
  end.

(** [shutil.move(src, dst)].  An existing directory [dst] receives the entry
    under its own name; otherwise the entry is renamed to [dst], which
    needs the parent of [dst] to be a directory.  [safe_move] calls it with
    a [dst] that does not exist and whose parent it has ensured. *)
Definition shutil_move (src dst : path) : M unit :=
  t <- get_fs ;;
  let into := is_dir_at dst t in
  let real_dst := if into then dst ++ [path_name src] else dst in
  if (into && exists_at real_dst t)%bool then raise OSError
  else
    match lookup src t with
    | None => raise OSError
    | Some c =>
        match detach src t with
        | None => raise OSError
        | Some t1 =>
            match attach real_dst c t1 with
            | None => raise OSError
            | Some t2 => put_fs t2
            end
        end
    end.

(** [any(p.iterdir())] *)
Definition iterdir_any (p : path) : M bool :=
  t <- get_fs ;;
  match lookup p t with
  | Some (Dir es) => ret (match es with [] => false | _ :: _ => true end)
  | _ => raise OSError
  end.

(** [p.rmdir()] *)
Definition path_rmdir (p : path) : M unit :=
  t <- get_fs ;;
  match lookup p t with
  | Some (Dir []) =>
      match detach p t with
      | Some t' => put_fs t'
      | None => raise OSError
      end
  | _ => raise OSError
  end.

(** One [os.scandir] of [os.walk]: [None] when the directory cannot be
    listed, which [os.walk] passes over in silence. *)
Definition scandir (top : path) : M (option (list string * list string)) :=
  t <- get_fs ;;
  match lookup top t with
  | Some (Dir es) => ret (Some (listing es))
  | _ => ret None
  end.

(* ================================================================== *)
(** * Safe mover *)
(* ================================================================== *)

(** [ensure_dir(p, stats)] *)
Definition ensure_dir (p : path) : M unit :=
  e <- path_exists p ;;
  if negb e then
    path_mkdir p ;;
    modify_stats incr_folders_created
  else ret tt.

(** The name tried at round [i] of the renaming loop:
    [f"{name} ({i}){ext}"]. *)
Definition candidate_name (name ext : string) (i : nat) : string :=
  name ++ " (" ++ Str.of_nat i ++ ")" ++ ext.

(** The [while True] loop of [safe_move], from index [i] on, run for at most
    [fuel] rounds. *)
Fixpoint rename_loop (fuel : nat) (src dest_dir : path) (name ext : string)
    (i : nat) : M path :=
  match fuel with
  | O => out_of_fuel
  | S fuel' =>
      let candidate := dest_dir // candidate_name name ext i in
      e <- path_exists candidate ;;
      if negb e then
        shutil_move src candidate ;;
        modify_stats incr_files_moved ;;
        log (LogMovedRenamed src candidate) ;;
        ret candidate
      else rename_loop fuel' src dest_dir name ext (S i)
  end.

(** A number of rounds the loop cannot exceed: one more than the number of
    entries of the destination directory ([safe_move_never_out_of_fuel] below). *)
Definition loop_bound (dest_dir : path) (t : node) : nat :=
  match lookup dest_dir t with
  | Some (Dir es) => S (List.length es)
  | _ => 1
  end.

(** [safe_move(src, dest_dir, stats)] *)
Definition safe_move (src dest_dir : path) : M path :=
  ensure_dir dest_dir ;;
  modify_stats incr_scanned ;;
  let dest := dest_dir // path_name src in
  try_except
    (e <- path_exists dest ;;
     if negb e then
       shutil_move src dest ;;
       modify_stats incr_files_moved ;;
       log (LogMoved src dest) ;;
       ret dest
     else
       (* auto rename *)
       let name := path_stem src in
       let ext := path_suffix src in
       t <- get_fs ;;
       rename_loop (loop_bound dest_dir t) src dest_dir name ext 1)
    (fun e =>
       modify_stats incr_errors ;;
       log (LogFailedMove src) ;;
       raise e).

(* ================================================================== *)
(** * Calendar *)
(* ================================================================== *)

(** Year and month of the day that lies [days] days after 1970-01-01, in
    the proleptic Gregorian calendar [datetime] uses. *)
Definition civil_of_days (days : Z) : Z * Z :=
  let z := (days + 719468)%Z in
  let era := (z / 146097)%Z in
  let doe := (z - era * 146097)%Z in
  let yoe := ((doe - doe / 1460 + doe / 36524 - doe / 146096) / 365)%Z in
  let y := (yoe + era * 400)%Z in
  let doy := (doe - (365 * yoe + yoe / 4 - yoe / 100))%Z in
  let mp := ((5 * doy + 2) / 153)%Z in
  let m := if (mp <? 10)%Z then (mp + 3)%Z else (mp - 9)%Z in
  (if (m <=? 2)%Z then (y + 1)%Z else y, m).

(** [strftime("%b")] of month [m], in the C locale. *)
Definition month_abbr (m : Z) : string :=
  nth (Z.to_nat (m - 1))
      ["Jan"; "Feb"; "Mar"; "Apr"; "May"; "Jun";
       "Jul"; "Aug"; "Sep"; "Oct"; "Nov"; "Dec"] "".

(** [str(n)] for an integer. *)
Definition str_of_Z (n : Z) : string := NilZero.string_of_int (Z.to_int n).

(* ================================================================== *)
(** * Move planner, scanner and reaper *)
(* ================================================================== *)

Section Organizer.

(** The offset of local time from UTC, in seconds, at a given instant: what
    the time zone of the process makes of [datetime.fromtimestamp]. *)
Variable utcoffset : Z -> Z.

(** Year and month of [datetime.fromtimestamp(ts)], for a time stamp in
    whole seconds; a [datetime] holds the years 1 to 9999 only.  (The
    library converts two more instants next to [ts] and raises if one of
    them leaves these years, which happens within a day of their first
    instant: see [convertible].) *)
Definition fromtimestamp (ts : Z) : M (Z * Z) :=
  let ym := civil_of_days ((ts + utcoffset ts) / 86400)%Z in
  if ((1 <=? fst ym)%Z && (fst ym <=? 9999)%Z)%bool then ret ym
  else raise ValueError.

(** [month_name_from_ts(ts)] *)
Definition month_name_from_ts (ts : Z) : M string :=
  ym <- fromtimestamp ts ;;
  ret (month_abbr (snd ym)).

(** [organize_by_type_then_date(path, target, ordered_rules, stats)] *)
Definition organize_by_type_then_date (p target : path)
    (ordered_rules : list rule) : M path :=
  let ext := normalize_ext (path_suffix p) in
  let folder_name := resolve_folder_for_ext ext ordered_rules in
  ts <- st_mtime p ;;
  ym <- fromtimestamp ts ;;
  let year := str_of_Z (fst ym) in
  mon <- month_name_from_ts ts ;;
  let dest := target // folder_name // year // mon in
  safe_move p dest.

(** [organize_by_date_then_type(path, target, ordered_rules, stats)] *)
Definition organize_by_date_then_type (p target : path)
    (ordered_rules : list rule) : M path :=
  ts <- st_mtime p ;;
  ym <- fromtimestamp ts ;;
  let year := str_of_Z (fst ym) in
  mon <- month_name_from_ts ts ;;
  let ext := normalize_ext (path_suffix p) in
  let folder_name := resolve_folder_for_ext ext ordered_rules in
  let dest := target // year // mon // folder_name in
  safe_move p dest.

(** [organize_flat_type(path, target, ordered_rules, stats)] *)
Definition organize_flat_type (p target : path)
    (ordered_rules : list rule) : M path :=
  let ext := normalize_ext (path_suffix p) in
  let folder_name := resolve_folder_for_ext ext ordered_rules in
  let dest := target // folder_name in
  safe_move p dest.

(** The [if method == ... elif ... else] of the scanner and of the watch
    handler. *)
Definition organize (method : string) (src target : path)
    (ordered_rules : list rule) : M path :=
  if method =? "type_date" then
    organize_by_type_then_date src target ordered_rules
  else if method =? "date_type" then
    organize_by_date_then_type src target ordered_rules
  else
    organize_flat_type src target ordered_rules.

(** How the body of a [for] loop over [os.walk] ends: the loop goes on
    ([continue], or the end of the body) or stops ([break]). *)
Inductive flow : Type := Next | Break.

(** [os.walk(top)], top-down, fused with the loop that consumes it: a
    directory is listed, the body runs on the listing, and then each of the
    listed sub-directories is walked in turn, one level of [fuel] each. *)
Fixpoint walk_topdown (fuel : nat)
    (body : path -> list string -> list string -> M flow) (top : path)
  : M flow :=
  match fuel with
  | O => out_of_fuel
  | S fuel' =>
      l <- scandir top ;;
      match l with
      | None => ret Next
      | Some (dirs, files) =>
          f <- body top dirs files ;;
          match f with
          | Break => ret Break
          | Next =>
              (fix each (ds : list string) : M flow :=
                 match ds with
                 | [] => ret Next
                 | d :: r =>
                     f' <- walk_topdown fuel' body (top ++ [d]) ;;
                     match f' with
                     | Break => ret Break
                     | Next => each r
                     end
                 end) dirs
          end
      end
  end.

(** [os.walk(top, topdown=False)], fused with its loop: a directory is
    listed, its listed sub-directories are walked, and only then the body
    runs, on the listing taken before. *)
Fixpoint walk_bottomup (fuel : nat)
    (body : path -> list string -> list string -> M unit) (top : path)
  : M unit :=
  match fuel with
  | O => out_of_fuel
  | S fuel' =>
      l <- scandir top ;;
      match l with
      | None => ret tt
      | Some (dirs, files) =>
          for_each dirs (fun d => walk_bottomup fuel' body (top ++ [d])) ;;
          body top dirs files
      end
  end.

(** The body of the loop of [delete_empty_folders]. *)
Definition reap_body (root : path) (dirs files : list string) : M unit :=
  for_each dirs (fun d =>
    let full := root // d in
    try_except
      (b <- iterdir_any full ;;
       if negb b then
         path_rmdir full ;;
         modify_stats incr_folders_deleted ;;
         log (LogDeletedEmpty full)
       else ret tt)
      (fun _ => log (LogCouldNotDelete full))).

(** [delete_empty_folders(path, stats)] *)
Definition delete_empty_folders (fuel : nat) (p : path) : M unit :=
  walk_bottomup fuel reap_body p.

(** The body of the loop of [deep_scan_and_organize]. *)
Definition scan_body (target : path) (method : string) (recursive : bool)
    (ordered_rules : list rule)
    (root : path) (dirs files : list string) : M flow :=
  let rel_root := skipn (List.length target) root in
  let top_dir := hd_error rel_root in
  let organized :=
    match top_dir with
    | Some d => (negb (d =? "") && Str.mem d (map fst ordered_rules))%bool
    | None => false
    end in
  if (organized && negb recursive)%bool then ret Next
  else
    for_each files (fun f =>
      let src := root // f in
      try_except
        (organize method src target ordered_rules ;; ret tt)
        (fun _ => log (LogFailedMove src))) ;;
    if negb recursive then ret Break else ret Next.

(** [deep_scan_and_organize(target_folder, method, recursive, delete_empty,
    cfg_rules, stats)]; [cfg_rules] may be [None]. *)
Definition deep_scan_and_organize (fuel : nat) (target : path)
    (method : string) (recursive delete_empty : bool)
    (cfg_rules : option rules_dict) : M unit :=
  let ordered_rules :=
    build_rules (match cfg_rules with Some d => d | None => [] end) in
  e <- path_exists target ;;
  if negb e then log (LogTargetMissing target)
  else
    walk_topdown fuel (scan_body target method recursive ordered_rules) target ;;
    if delete_empty then delete_empty_folders fuel target else ret tt.

End Organizer.

(* ================================================================== *)
(** * Auxiliary notions for the statements *)
(* ================================================================== *)

(** What a path shows of a node without its contents below: a regular file
    with its time and data, or a directory. *)
Inductive kind : Type :=
| KFile (mtime : Z) (data : string)
| KDir.

Definition kind_of (c : node) : kind :=
  match c with
  | File m d => KFile m d
  | Dir _ => KDir
  end.

Definition kind_at (p : path) (t : node) : option kind :=
  option_map kind_of (lookup p t).

(** [is_prefix p q]: the path [q] is [p] or lies below [p]. *)
Fixpoint is_prefix (p q : path) : bool :=
  match p, q with
  | [], _ => true
  | _ :: _, [] => false
  | a :: p', b :: q' => (a =? b) && is_prefix p' q'
  end.

Definition path_eqb (p q : path) : bool :=
  is_prefix p q && is_prefix q p.

(** No regular file stands at [p] or at a path above [p]: the directory
    [p] is there or can be made. *)
Definition no_file_on (p : path) (t : node) : bool :=
  forallb (fun k => match kind_at (firstn k p) t with
                    | Some (KFile _ _) => false
                    | _ => true
                    end)
          (seq 0 (S (List.length p))).

(** The number of segments of [p] that do not exist yet in [t]. *)
Fixpoint missing_segments (p : path) (t : node) : nat :=
  match p with
  | [] => 0
  | n :: q =>
      match t with
      | Dir es =>
          match find_entry n es with
          | Some c => missing_segments q c
          | None => S (List.length q)
          end
      | File _ _ => 0
      end
  end.

(** The sources and the destinations of the moves a log records. *)
Definition move_of (e : event) : option (path * path) :=
  match e with
  | LogMoved s d => Some (s, d)
  | LogMovedRenamed s d => Some (s, d)
  | _ => None
  end.

Fixpoint moves (l : list event) : list (path * path) :=
  match l with
  | [] => []
  | e :: r =>
      match move_of e with
      | Some m => m :: moves r
      | None => moves r
      end
  end.

(** The state with another file system. *)
Definition set_fs (t : node) (w : world) : world :=
  {| w_fs := t; w_stats := w_stats w; w_log := w_log w |}.

(** The same counters or larger ones. *)
Definition stats_le (a b : Stats) : Prop :=
  (scanned a <= scanned b)%Z /\
  (folders_created a <= folders_created b)%Z /\
  (files_moved a <= files_moved b)%Z /\
  (folders_deleted a <= folders_deleted b)%Z /\
  (errors a <= errors b)%Z.

(** [f] holds of the [n] integers from [z] on. *)
Fixpoint all_from (f : Z -> bool) (n : nat) (z : Z) : bool :=
  match n with
  | O => true
  | S k => f z && all_from f k (z + 1)%Z
  end.

(** The counters are sound: none is negative, no more files are moved than
    scanned, and moved files and errors together are no more than the files
    scanned. *)
Definition stats_ok (s : Stats) : Prop :=
  (0 <= scanned s)%Z /\ (0 <= folders_created s)%Z /\
  (0 <= files_moved s)%Z /\ (0 <= folders_deleted s)%Z /\
  (0 <= errors s)%Z /\
  (files_moved s <= scanned s)%Z /\
  (errors s + files_moved s <= scanned s)%Z.

(** The operations that write to the counters, as a caller issues them. *)
Inductive op : Type :=
| OpSafeMove (src dest_dir : path)
| OpEnsureDir (p : path)
| OpDeleteEmpty (fuel : nat) (p : path)
| OpOrganize (method : string) (src target : path) (ordered_rules : list rule)
| OpDeepScan (fuel : nat) (target : path) (method : string)
             (recursive delete_empty : bool) (cfg_rules : option rules_dict).

(** One operation; what it returns or raises is left to the caller, the
    state goes on. *)
Definition run_op (utcoffset : Z -> Z) (o : op) (w : world) : world :=
  match o with
  | OpSafeMove src dest_dir => snd (safe_move src dest_dir w)
  | OpEnsureDir p => snd (ensure_dir p w)
  | OpDeleteEmpty fuel p => snd (delete_empty_folders fuel p w)
  | OpOrganize method src target rules =>
      snd (organize utcoffset method src target rules w)
  | OpDeepScan fuel target method recursive delete_empty cfg_rules =>
      snd (deep_scan_and_organize utcoffset fuel target method recursive
             delete_empty cfg_rules w)
  end.

Definition run_ops (utcoffset : Z -> Z) (ops : list op) (w : world) : world :=
  fold_left (fun w o => run_op utcoffset o w) ops w.

(** A run starts on fresh counters. *)
Definition start_run (fs : node) : world :=
  {| w_fs := fs; w_stats := make_stats; w_log := [] |}.

(** The weight of an entry in [count_dirs]. *)
Definition weight (c : node) : nat :=
  (if is_dir_node c then 1 else 0) + count_dirs c.

(** [graft p c t]: the tree [t] with [c] in the place of what [p] leads
    to. *)
Fixpoint graft (p : path) (c : node) (t : node) : node :=
  match p with
  | [] => c
  | n :: q =>
      match t with
      | Dir es =>
          match find_entry n es with
          | Some d => Dir (set_entry n (graft q c d) es)
          | None => t
          end
      | File _ _ => t
      end
  end.

(** One step of the counters: none goes down, and sound counters stay
    sound. *)
Definition stats_step (s s' : Stats) : Prop :=
  stats_le s s' /\ (stats_ok s -> stats_ok s').

(** A computation all of whose runs are such steps. *)
Definition counts_well {A} (m : M A) : Prop :=
  forall w, stats_step (w_stats w) (w_stats (snd (m w))).

(** [m] at a path below [p] does what [ms] does inside the tree that [p]
    leads to, and nothing else; the logs apart. *)
Definition zoomed {A} (p : path) (m ms : M A) : Prop :=
  forall w ws,
    wf_node (w_fs ws) = true ->
    lookup p (w_fs w) = Some (w_fs ws) ->
    w_stats w = w_stats ws ->
    fst (m w) = fst (ms ws) /\
    w_stats (snd (m w)) = w_stats (snd (ms ws)) /\
    w_fs (snd (m w)) = graft p (w_fs (snd (ms ws))) (w_fs w) /\
    wf_node (w_fs (snd (ms ws))) = true.

(** The counters with [n] more folders deleted. *)
Definition add_folders_deleted (n : nat) (s : Stats) : Stats :=
  {| scanned := scanned s; folders_created := folders_created s;
     files_moved := files_moved s;
     folders_deleted := folders_deleted s + Z.of_nat n;
     errors := errors s |}.

(** An entry with its contents taken away. *)
Definition emptied (e : string * node) : string * node := (fst e, Dir []).

(** A move of the scanner that stays in place: its source is an entry of
    the target directory, its destination lies below a sub-directory of
    the target. *)
Definition move_in_place (target : path) (m : path * path) : Prop :=
  List.length (fst m) = S (List.length target) /\
  S (S (List.length target)) <= List.length (snd m) /\
  is_prefix target (fst m) = true /\
  is_prefix target (snd m) = true.

(** A computation that keeps what holds of the state. *)
Definition keeps {A} (I : world -> Prop) (m : M A) : Prop :=
  forall w, I w -> I (snd (m w)).

(** Every path that exists has at most [b] segments. *)
Definition deep_le (b : nat) (t : node) : Prop :=
  forall q, kind_at q t <> None -> List.length q <= b.

(** What the scanner keeps of the state: the tree is well formed and no
    deeper than [b], and the moves logged so far stay in place. *)
Definition scan_inv (target : path) (b : nat) (w : world) : Prop :=
  wf_node (w_fs w) = true /\
  deep_le b (w_fs w) /\
  Forall (move_in_place target) (moves (w_log w)).

(** Induction on trees, with the hypothesis on every entry of a
    directory. *)
Fixpoint node_induction (P : node -> Prop)
    (Hf : forall m x, P (File m x))
    (Hd : forall es, Forall (fun e => P (snd e)) es -> P (Dir es))
    (t : node) : P t :=
  match t with
  | File m x => Hf m x
  | Dir es =>
      Hd es ((fix go (l : entries) : Forall (fun e => P (snd e)) l :=
                match l with
                | [] => Forall_nil _
                | e :: r => Forall_cons e (node_induction P Hf Hd (snd e)) (go r)
                end) es)
  end.

(** A destination directory the planner can ask for: one to three proper
    segments below the target. *)
Definition planned (target dd : path) : Prop :=
  exists rest,
    dd = target ++ rest /\ proper_path rest = true /\
    1 <= List.length rest <= 3.

(** The body of the loop of the scanner over the files of a directory, for
    one file. *)
Definition scan_file (utcoffset : Z -> Z) (target : path) (method : string)
    (ordered_rules : list rule) (root : path) (f : string) : M unit :=
  let src := root // f in
  try_except
    (organize utcoffset method src target ordered_rules ;; ret tt)
    (fun _ => log (LogFailedMove src)).

(** A computation that only adds to the log. *)
Definition grows {A} (m : M A) : Prop :=
  forall w, exists l, w_log (snd (m w)) = w_log w ++ l.

(** The directories a log records as removed, in the order of removal. *)
Definition deleted_of (e : event) : option path :=
  match e with
  | LogDeletedEmpty p => Some p
  | _ => None
  end.

Fixpoint deletions (l : list event) : list path :=
  match l with
  | [] => []
  | e :: r =>
      match deleted_of e with
      | Some p => p :: deletions r
      | None => deletions r
      end
  end.

(** [below p q]: the path [q] lies strictly below [p]. *)
Definition below (p q : path) : Prop :=
  is_prefix p q = true /\ List.length p < List.length q.

(** No path of the list comes before a path that lies below it: children
    come first. *)
Fixpoint children_first (l : list path) : Prop :=
  match l with
  | [] => True
  | a :: r => (forall c, In c r -> ~ below a c) /\ children_first r
  end.

(** Between [w] and [w'], [folders_deleted] grew by the number of removals
    the log entries [new] record. *)
Definition removed_count (w w' : world) (new : list event) : Prop :=
  folders_deleted (w_stats w') =
    (folders_deleted (w_stats w) + Z.of_nat (List.length (deletions new)))%Z.

(* ================================================================== *)
(** * Watch handler and headless run *)
(* ================================================================== *)

(** What the handler and the runner add to the output of the engine: the
    [logging] records of their own and the printed summary. *)
Inductive notice : Type :=
| NoteRunning (target : path) (method : string) (recursive : bool)
                                        (* info: Running organize -> ... *)
| NoteSummary (s : Stats)               (* print_summary(stats) *)
| NoteErrorHandling (src : path).       (* exception: Error handling new file *)

(** The state of a session: the file system, the [stats] dictionary the
    session holds, and what was logged or printed, in order, by the engine
    (on the left) and by the handler and the runner (on the right). *)
Record session : Type := mkSession {
  s_fs : node;
  s_stats : Stats;
  s_out : list (event + notice)
}.

(** A call of the engine within a session. *)
Definition engine {A} (m : M A) (s : session) : outcome A * session :=
  let r := m {| w_fs := s_fs s; w_stats := s_stats s; w_log := [] |} in
  (fst r,
   {| s_fs := w_fs (snd r); s_stats := w_stats (snd r);
      s_out := s_out s ++ map inl (w_log (snd r)) |}).

Definition note (n : notice) (s : session) : session :=
  {| s_fs := s_fs s; s_stats := s_stats s; s_out := s_out s ++ [inr n] |}.

(** [NewFileHandler.on_created(event)], for an event with its
    [is_directory] and [src_path]; [target], [method], [delete_empty] and
    [ordered_rules] are the fields of the handler, which shares its [stats]
    with the session.  The pause before the move changes nothing of the
    state. *)
Definition on_created (utcoffset : Z -> Z) (fuel : nat)
    (target : path) (method : string) (delete_empty : bool)
    (ordered_rules : list rule)
    (is_directory : bool) (src_path : path) (s : session)
  : outcome unit * session :=
  if is_directory then (Ret tt, s)
  else
    let src := src_path in
    let r :=
      engine (organize utcoffset method src target ordered_rules ;;
              if delete_empty then delete_empty_folders fuel target
              else ret tt) s in
    match fst r with
    | Raise _ => (Ret tt, note (NoteErrorHandling src) (snd r))
    | _ => r
    end.

(** The [if args.run:] block of [run_headless], from [stats = make_stats()]
    on, with the settings the function has resolved: the scan, then the
    reaper once more, then the summary.  The thread of [run_now] makes the
    same two calls of the engine. *)
Definition run_headless_run (utcoffset : Z -> Z) (fuel : nat)
    (target : path) (method : string) (recursive delete_empty : bool)
    (custom_rules : option rules_dict) (s : session)
  : outcome unit * session :=
  let s0 := {| s_fs := s_fs s; s_stats := make_stats; s_out := s_out s |} in
  let s1 := note (NoteRunning target method recursive) s0 in
  let r :=
    engine (deep_scan_and_organize utcoffset fuel target method recursive
              delete_empty custom_rules ;;
            delete_empty_folders fuel target) s1 in
  match fst r with
  | Ret _ => (Ret tt, note (NoteSummary (s_stats (snd r))) (snd r))
  | _ => r
  end.

(* ================================================================== *)
(** * Further notions for the statements *)
(* ================================================================== *)

(** The tree without the directories that hold no regular file at any
    depth; the root itself stays. *)
Fixpoint prune (t : node) : node :=
  match t with
  | File _ _ => t
  | Dir es =>
      Dir ((fix go (l : entries) : entries :=
              match l with
              | [] => []
              | (n, c) :: r =>
                  match prune c with
                  | Dir [] => go r
                  | c' => (n, c') :: go r
                  end
              end) es)
  end.

(** The number of directories [prune] takes away. *)
Fixpoint reaped (t : node) : nat :=
  match t with
  | File _ _ => 0
  | Dir es =>
      (fix go (l : entries) : nat :=
         match l with
         | [] => 0
         | (_, c) :: r =>
             reaped c + match prune c with Dir [] => 1 | _ => 0 end + go r
         end) es
  end.

Definition is_empty_dir (c : node) : bool :=
  match c with Dir [] => true | _ => false end.

(** An entry with its contents pruned. *)
Definition pruned (e : string * node) : string * node := (fst e, prune (snd e)).

(** The pruned entries that stay. *)
Definition kept (e : string * node) : bool := negb (is_empty_dir (snd e)).

(** The directory the planner asks for, for a file of the given name and
    modification time. *)
Definition plan (utcoffset : Z -> Z) (method : string) (target : path)
    (ordered_rules : list rule) (name : string) (mtime : Z) : path :=
  let folder_name :=
    resolve_folder_for_ext (normalize_ext (suffix_of name)) ordered_rules in
  let ym := civil_of_days ((mtime + utcoffset mtime) / 86400)%Z in
  let year := str_of_Z (fst ym) in
  let mon := month_abbr (snd ym) in
  if method =? "type_date" then target // folder_name // year // mon
  else if method =? "date_type" then target // year // mon // folder_name
  else target // folder_name.

(** The number of segments the planner adds to the target. *)
Definition plan_depth (method : string) : nat :=
  if method =? "type_date" then 3
  else if method =? "date_type" then 3
  else 1.

(** A file of the target ready to be moved: a regular file of a proper
    name, of a year [datetime] has, with no regular file standing on the
    way to its planned directory. *)
Definition ready (utcoffset : Z -> Z) (method : string) (target : path)
    (ordered_rules : list rule) (w : world) (f : string) : Prop :=
  proper_name f = true /\
  exists m x,
    lookup (target ++ [f]) (w_fs w) = Some (File m x) /\
    (1 <= fst (civil_of_days ((m + utcoffset m) / 86400)) <= 9999)%Z /\
    forall q m' x',
      is_prefix q (plan utcoffset method target ordered_rules f m) = true ->
      kind_at q (w_fs w) <> Some (KFile m' x').

(** The counters agree with the log: as many files moved as moves logged,
    as many folders deleted as removals logged. *)
Definition log_agrees (w : world) : Prop :=
  files_moved (w_stats w) = Z.of_nat (List.length (moves (w_log w))) /\
  folders_deleted (w_stats w) = Z.of_nat (List.length (deletions (w_log w))).

(** The log extends [old], and every move recorded since ends in a folder
    below the target. *)
Definition moves_inside (old : list event) (target : path) (w : world) : Prop :=
  exists new,
    w_log w = old ++ new /\
    Forall (fun mv : path * path =>
              is_prefix target (snd mv) = true /\
              S (List.length target) < List.length (snd mv))
           (moves new).

(* ================================================================== *)
(** * Limits of the platform *)
(* ================================================================== *)

(** The longest name of a directory entry and the longest path that the
    file system takes, in bytes ([NAME_MAX] and [PATH_MAX] of [limits.h],
    the latter counting the closing zero byte).  On a longer one every
    file-system call, [exists()] included, fails with [OSError]
    ([ENAMETOOLONG]).  The calls modelled above know no such failure: they
    stand for the calls of the program on paths within the limits, and a
    theorem that promises a move says so of the names it needs. *)
Definition NAME_MAX : nat := 255.
Definition PATH_MAX : nat := 4096.

(** The bytes of [str(p)]: a separator and the name, for each segment. *)
Definition path_bytes (p : path) : nat :=
  list_sum (map (fun s => S (String.length s)) p).

(** A path within the limits. *)
Definition nameable (p : path) : bool :=
  (forallb (fun s => (String.length s <=? NAME_MAX)%nat) p &&
   (path_bytes p <? PATH_MAX)%nat)%bool.

(** [s.isascii()].  On such a string [Str.lower] is [s.lower()]; on others
    Python lowers cased letters that [Str.lower] leaves as they are. *)
Fixpoint isascii (s : string) : bool :=
  match s with
  | EmptyString => true
  | String c r => ((nat_of_ascii c <? 128)%nat && isascii r)%bool
  end.

(* ================================================================== *)
(** * Time stamps that can be converted *)
(* ================================================================== *)

(** The year of local time at the instant [t]. *)
Definition local_year (utcoffset : Z -> Z) (t : Z) : Z :=
  fst (civil_of_days ((t + utcoffset t) / 86400)%Z).

(** The instants that [datetime.fromtimestamp(ts)] converts to local time:
    [ts] itself; the instant 24 hours before it, which the library probes
    to tell whether the local hour of [ts] is a repeated one; and, when the
    UTC offset has dropped between the two, [ts] moved back by the drop. *)
Definition probes (utcoffset : Z -> Z) (ts : Z) : list Z :=
  let drop := (utcoffset ts - utcoffset (ts - 86400))%Z in
  ts :: (ts - 86400)%Z :: (if (drop <? 0)%Z then [(ts + drop)%Z] else []).

(** Each of these conversions raises [ValueError] unless its local year is
    one of the years 1 to 9999; [fromtimestamp] above has the test of [ts]
    itself, so that it agrees with the library on the time stamps that
    pass all of them. *)
Definition convertible (utcoffset : Z -> Z) (ts : Z) : bool :=
  forallb (fun t => ((1 <=? local_year utcoffset t)%Z &&
                     (local_year utcoffset t <=? 9999)%Z)%bool)
          (probes utcoffset ts).

(* ================================================================== *)
(** * Facts on strings and names *)
(* ================================================================== *)

Lemma mem_In (x : string) (xs : list string) :
  Str.mem x xs = true <-> In x xs.
Proof.
  unfold Str.mem. rewrite existsb_exists. split.
  - intros [y [Hy E]]. apply String.eqb_eq in E. now subst.
  - intros H. exists x. split; [assumption | apply String.eqb_refl].
Qed.

Lemma mem_not_In (x : string) (xs : list string) :
  Str.mem x xs = false <-> ~ In x xs.
Proof.
  rewrite <- mem_In. destruct (Str.mem x xs); split; intros; congruence.
Qed.

Lemma distinct_NoDup (l : list string) : distinct l = true <-> NoDup l.
Proof.
  induction l as [|x r IH]; simpl.
  - split; [constructor | reflexivity].
  - rewrite andb_true_iff, negb_true_iff, mem_not_In, IH. split.
    + intros [? ?]. now constructor.
    + intros H. inversion H. now split.
Qed.

Lemma string_app_assoc (a b c : string) : ((a ++ b) ++ c = a ++ (b ++ c))%string.
Proof. induction a as [|x a IH]; simpl; [reflexivity | now rewrite IH]. Qed.

Lemma string_app_length (a b : string) :
  String.length (a ++ b)%string = String.length a + String.length b.
Proof. induction a as [|x a IH]; simpl; [reflexivity | now rewrite IH]. Qed.

Lemma string_app_inv_head (a b c : string) : (a ++ b = a ++ c)%string -> b = c.
Proof. induction a as [|x a IH]; simpl; intros H; [assumption | injection H; auto]. Qed.

(** Two strings of one length that open equal concatenations are equal. *)
Lemma string_app_inv_length (a b c d : string) :
  String.length a = String.length c -> (a ++ b = c ++ d)%string -> a = c.
Proof.
  revert c. induction a as [|x a IH]; intros [|y c]; simpl; intros L H;
    try discriminate; [reflexivity|].
  injection H as -> H. f_equal. apply IH; [lia | assumption].
Qed.

Lemma string_app_inv_tail_length (a b c d : string) :
  String.length b = String.length d -> (a ++ b = c ++ d)%string -> a = c.
Proof.
  intros L H.
  assert (La : String.length a = String.length c).
  { apply (f_equal String.length) in H. rewrite !string_app_length in H. lia. }
  eapply string_app_inv_length; eassumption.
Qed.

Lemma substring_split (s : string) (i : nat) :
  i <= String.length s ->
  (substring 0 i s ++ substring i (String.length s - i) s)%string = s.
Proof.
  revert i. induction s as [|c s IH]; intros [|i] L; simpl in *; try reflexivity; try lia.
  - f_equal. specialize (IH 0). simpl in IH. rewrite Nat.sub_0_r in IH.
    destruct s; simpl in *; [reflexivity|]. apply IH. lia.
  - f_equal. apply IH. lia.
Qed.

Lemma rfind_dot_bound (s : string) (i : nat) :
  Str.rfind_dot s = Some i -> i < String.length s.
Proof.
  revert i. induction s as [|c s IH]; simpl; intros i H; [discriminate|].
  destruct (Str.rfind_dot s) as [j|].
  - injection H as <-. specialize (IH j eq_refl). lia.
  - destruct (Ascii.eqb c "."); [injection H as <-; lia | discriminate].
Qed.

(** A name is its stem followed by its suffix. *)
Lemma stem_suffix (name : string) : (stem_of name ++ suffix_of name)%string = name.
Proof.
  unfold stem_of, suffix_of.
  destruct (Str.rfind_dot name) as [i|] eqn:E.
  - destruct ((0 <? i)%nat && (i <? String.length name - 1)%nat)%bool.
    + apply substring_split. apply rfind_dot_bound in E. lia.
    + clear E. induction name; simpl; [reflexivity | now f_equal].
  - clear E. induction name; simpl; [reflexivity | now f_equal].
Qed.

Lemma of_nat_inj (i j : nat) : Str.of_nat i = Str.of_nat j -> i = j.
Proof.
  unfold Str.of_nat. intros H.
  apply Unsigned.to_uint_inj.
  apply (f_equal NilEmpty.uint_of_string) in H.
  rewrite !NilEmpty.usu in H. congruence.
Qed.

(** The candidate names of the renaming loop are pairwise different. *)
Lemma candidate_name_inj (name ext : string) (i j : nat) :
  candidate_name name ext i = candidate_name name ext j -> i = j.
Proof.
  unfold candidate_name. intros H.
  apply string_app_inv_head in H.
  change (" (" ++ Str.of_nat i ++ ")" ++ ext)%string with (String " " (String "(" (Str.of_nat i ++ ")" ++ ext)%string)) in H.
  change (" (" ++ Str.of_nat j ++ ")" ++ ext)%string with (String " " (String "(" (Str.of_nat j ++ ")" ++ ext)%string)) in H.
  injection H as H.
  apply of_nat_inj.
  eapply string_app_inv_tail_length; [reflexivity | exact H].
Qed.

Lemma plain_app_space (a b : string) : plain (a ++ String " " b)%string = true.
Proof.
  unfold plain.
  destruct a as [|x a]; simpl.
  - reflexivity.
  - destruct a as [|y a]; simpl.
    + destruct (Ascii.eqb x "."); reflexivity.
    + destruct (Ascii.eqb x "."); reflexivity.
Qed.

Lemma plain_candidate (name ext : string) (i : nat) :
  plain (candidate_name name ext i) = true.
Proof. unfold candidate_name. apply plain_app_space. Qed.

Lemma path_div_plain (p : path) (s : string) :
  plain s = true -> p // s = p ++ [s].
Proof. unfold path_div. now intros ->. Qed.

Lemma path_div_candidate (d : path) (name ext : string) (i : nat) :
  d // candidate_name name ext i = d ++ [candidate_name name ext i].
Proof. apply path_div_plain, plain_candidate. Qed.

Lemma proper_name_plain (s : string) : proper_name s = true -> plain s = true.
Proof.
  unfold proper_name. rewrite !andb_true_iff. tauto.
Qed.

Lemma path_div_length (p : path) (s : string) :
  List.length p <= List.length (p // s) <= S (List.length p).
Proof.
  unfold path_div. destruct (plain s); rewrite ?length_app; simpl; lia.
Qed.

Lemma path_div_prefix (p : path) (s : string) : exists q, p // s = p ++ q.
Proof.
  unfold path_div. destruct (plain s); [now exists [s] | exists []; now rewrite app_nil_r].
Qed.

Lemma path_name_snoc (p : path) (s : string) : path_name (p ++ [s]) = s.
Proof. unfold path_name. apply last_last. Qed.

(* ================================================================== *)
(** * Rule table: classifier and builder *)
(* ================================================================== *)

Lemma resolve_app_skip (ext : string) (pre rest : list rule) :
  (forall r, In r pre -> ~ In ext (snd r)) ->
  resolve_folder_for_ext ext (pre ++ rest) = resolve_folder_for_ext ext rest.
Proof.
  induction pre as [|[f exts] pre IH]; simpl; intros H; [reflexivity|].
  assert (E : Str.mem ext exts = false).
  { apply mem_not_In. apply (H (f, exts)). now left. }
  rewrite E. apply IH. intros r Hr. apply H. now right.
Qed.

Lemma resolve_none (ext : string) (rules : list rule) :
  (forall r, In r rules -> ~ In ext (snd r)) ->
  resolve_folder_for_ext ext rules = "Others".
Proof.
  intros H. rewrite <- (app_nil_r rules). now rewrite resolve_app_skip.
Qed.

Lemma dict_mem_In (k : string) (d : rules_dict) :
  dict_mem k d = true <-> In k (dict_keys d).
Proof. apply mem_In. Qed.

Lemma normalize_rule_keys (l : list rule) :
  map fst (map normalize_rule l) = map fst l.
Proof. rewrite map_map. apply map_ext. now intros [k v]. Qed.

Lemma build_rules_eq (custom : rules_dict) :
  build_rules custom =
  map normalize_rule custom ++
  map normalize_rule
    (filter (fun kv => negb (dict_mem (fst kv) custom)) DEFAULT_RULES).
Proof. unfold build_rules. now destruct custom. Qed.

Lemma NoDup_filter {A} (f : A -> bool) (l : list A) :
  NoDup l -> NoDup (filter f l).
Proof.
  induction 1 as [|x l Hx Hl IH]; simpl; [constructor|].
  destruct (f x); [constructor|]; auto.
  rewrite filter_In. tauto.
Qed.

Lemma map_fst_filter_key {B} (f : string -> bool) (l : list (string * B)) :
  map fst (filter (fun kv => f (fst kv)) l) = filter f (map fst l).
Proof.
  induction l as [|[k v] l IH]; simpl; [reflexivity|].
  destruct (f k); simpl; now rewrite IH.
Qed.

Lemma default_keys_NoDup : NoDup (dict_keys DEFAULT_RULES).
Proof. apply distinct_NoDup. reflexivity. Qed.

Lemma build_rules_keys (custom : rules_dict) :
  map fst (build_rules custom) =
  dict_keys custom ++
  filter (fun k => negb (dict_mem k custom)) (dict_keys DEFAULT_RULES).
Proof.
  rewrite build_rules_eq, map_app, !normalize_rule_keys.
  f_equal. apply (map_fst_filter_key (fun k => negb (dict_mem k custom))).
Qed.

Lemma build_rules_NoDup (custom : rules_dict) :
  dict_wf custom -> NoDup (map fst (build_rules custom)).
Proof.
  intros W. rewrite build_rules_keys.
  apply NoDup_app.
  - exact W.
  - apply NoDup_filter, default_keys_NoDup.
  - intros k Hk Hf. apply filter_In in Hf. destruct Hf as [_ Hf].
    apply negb_true_iff in Hf. apply dict_mem_In in Hk. congruence.
Qed.

Lemma NoDup_keys_functional {B} (l : list (string * B)) k v v' :
  NoDup (map fst l) -> In (k, v) l -> In (k, v') l -> v = v'.
Proof.
  induction l as [|[k0 v0] l IH]; simpl; intros N H H'; [contradiction|].
  inversion N as [|? ? Hk Hl]; subst.
  destruct H as [H|H], H' as [H'|H'].
  - congruence.
  - injection H as -> ->. exfalso. apply Hk. apply (in_map fst) in H'. exact H'.
  - injection H' as -> ->. exfalso. apply Hk. apply (in_map fst) in H. exact H.
  - now apply IH.
Qed.
(* ================================================================== *)
(** * The classifier and the rule-table builder *)
(* ================================================================== *)

(** C1 (as amended).  For every rule table and every extension,
    [resolve_folder_for_ext] returns the category of the first entry whose
    extension list holds the extension: for an entry that holds it while no
    entry before it does, exactly that entry's category; and it returns
    ["Others"] when no entry holds the extension. *)
Theorem resolve_folder_for_ext_first_match :
  forall (ext : string) (rules : list rule),
    (forall pre r post,
        rules = pre ++ r :: post ->
        (forall r', In r' pre -> ~ In ext (snd r')) ->
        In ext (snd r) ->
        resolve_folder_for_ext ext rules = fst r)
    /\ ((forall r, In r rules -> ~ In ext (snd r)) ->
        resolve_folder_for_ext ext rules = "Others").
Proof.
  intros ext rules. split.
  - intros pre [f exts] post -> Hpre Hin.
    rewrite resolve_app_skip by assumption.
    simpl in *. apply mem_In in Hin. now rewrite Hin.
  - apply resolve_none.
Qed.

(** C1 as it is stated does not hold: an extension can be in the list of a
    rule whose category is not the answer.  With the custom rule
    [Pics: jpg], the table built by [build_rules] still holds the default
    rule of [Images], whose list has ["jpg"], and the classifier answers
    ["Pics"]. *)
Lemma resolve_folder_for_ext_overlap :
  let rules := build_rules [("Pics", ["jpg"])] in
  let r := ("Images",
            ["jpg"; "jpeg"; "png"; "gif"; "bmp"; "svg"; "webp"; "heic"]) in
  In r rules /\ In "jpg" (snd r) /\
  resolve_folder_for_ext "jpg" rules = "Pics" /\
  resolve_folder_for_ext "jpg" rules <> fst r.
Proof.
  cbv zeta. repeat split.
  - right. left. reflexivity.
  - left. reflexivity.
  - discriminate.
Qed.

Lemma resolve_folder_for_ext_first_match_witness :
  let rules := [("Pics", ["jpg"]); ("Images", ["jpg"; "png"])] in
  resolve_folder_for_ext "png" rules = "Images" /\
  resolve_folder_for_ext "xyz" rules = "Others".
Proof.
  cbv zeta.
  destruct (resolve_folder_for_ext_first_match "png"
              [("Pics", ["jpg"]); ("Images", ["jpg"; "png"])]) as [F _].
  destruct (resolve_folder_for_ext_first_match "xyz"
              [("Pics", ["jpg"]); ("Images", ["jpg"; "png"])]) as [_ N].
  split.
  - apply (F [("Pics", ["jpg"])] ("Images", ["jpg"; "png"]) [] eq_refl).
    + intros r' [<-|[]]. cbn. intros [H|[]]. discriminate.
    + right; left; reflexivity.
  - apply N. intros r [<-|[<-|[]]]; cbn; intuition discriminate.
Defined.

(** C2.  For every custom dictionary, [build_rules] returns the custom
    entries in their order, extensions normalized, followed by the default
    entries, in their order, whose category is not a key of the custom
    dictionary and by no other; no two entries of the result share a
    category; and the entry of a custom category carries the normalized
    custom list and nothing of a default list. *)
Theorem build_rules_spec :
  forall custom : rules_dict,
    dict_wf custom ->
    let kept :=
      filter (fun kv => negb (dict_mem (fst kv) custom)) DEFAULT_RULES in
    build_rules custom = map normalize_rule custom ++ map normalize_rule kept
    /\ (forall r, In r kept <->
                  In r DEFAULT_RULES /\ ~ In (fst r) (dict_keys custom))
    /\ NoDup (map fst (build_rules custom))
    /\ (forall k v exts,
          In (k, v) custom ->
          In (k, exts) (build_rules custom) ->
          exts = map normalize_ext v).
Proof.
  intros custom W kept. repeat split.
  - apply build_rules_eq.
  - apply filter_In in H. tauto.
  - intros K. apply filter_In in H. destruct H as [_ H].
    apply negb_true_iff in H. apply dict_mem_In in K. congruence.
  - intros [H1 H2]. apply filter_In. split; [assumption|].
    apply negb_true_iff. apply mem_not_In. exact H2.
  - now apply build_rules_NoDup.
  - intros k v exts Hc Hb.
    assert (Hn : In (k, map normalize_ext v) (build_rules custom)).
    { rewrite build_rules_eq. apply in_or_app. left.
      apply (in_map normalize_rule) in Hc. exact Hc. }
    eapply NoDup_keys_functional; [apply build_rules_NoDup; exact W | exact Hb | exact Hn].
Qed.

Lemma build_rules_spec_witness :
  let custom := [("Images", [".PNG"]); ("Pics", ["JPG"])] in
  dict_wf custom /\
  build_rules custom =
    [("Images", ["png"]); ("Pics", ["jpg"])] ++
    map normalize_rule (tl DEFAULT_RULES) /\
  (forall exts, In ("Images", exts) (build_rules custom) -> exts = ["png"]).
Proof.
  cbv zeta.
  assert (W : dict_wf [("Images", [".PNG"]); ("Pics", ["JPG"])]).
  { apply distinct_NoDup. reflexivity. }
  split; [exact W|].
  destruct (build_rules_spec _ W) as (E & _ & _ & R).
  split.
  - exact E.
  - intros exts H. apply (R "Images" [".PNG"] exts); [left; reflexivity | exact H].
Defined.
(* ================================================================== *)
(** * Facts on the file-system model *)
(* ================================================================== *)

Lemma find_entry_set_same n c es : find_entry n (set_entry n c es) = Some c.
Proof.
  induction es as [|[m c0] es IH]; simpl.
  - now rewrite String.eqb_refl.
  - destruct (n =? m) eqn:E; simpl; [now rewrite String.eqb_refl | now rewrite E].
Qed.

Lemma find_entry_set_other n m c es :
  m <> n -> find_entry m (set_entry n c es) = find_entry m es.
Proof.
  intros D. induction es as [|[k c0] es IH]; simpl.
  - apply String.eqb_neq in D. now rewrite D.
  - destruct (n =? k) eqn:E; simpl.
    + apply String.eqb_eq in E. subst k.
      apply String.eqb_neq in D. now rewrite D.
    + destruct (m =? k); [reflexivity | exact IH].
Qed.

Lemma find_entry_set n m c es :
  find_entry m (set_entry n c es) = if m =? n then Some c else find_entry m es.
Proof.
  destruct (m =? n) eqn:E.
  - apply String.eqb_eq in E. subst. apply find_entry_set_same.
  - apply String.eqb_neq in E. now apply find_entry_set_other.
Qed.

Lemma find_entry_remove n m es :
  find_entry m (remove_entry n es) = if m =? n then None else find_entry m es.
Proof.
  unfold remove_entry. induction es as [|[k c0] es IH]; simpl.
  - now destruct (m =? n).
  - destruct (n =? k) eqn:E; simpl.
    + apply String.eqb_eq in E. subst k. rewrite IH.
      destruct (m =? n); reflexivity.
    + destruct (m =? k) eqn:E2.
      * apply String.eqb_eq in E2. subst k.
        rewrite String.eqb_sym in E. now rewrite E.
      * exact IH.
Qed.

Lemma set_entry_absent n c es :
  find_entry n es = None -> set_entry n c es = es ++ [(n, c)].
Proof.
  induction es as [|[m c0] es IH]; simpl; intros H; [reflexivity|].
  destruct (n =? m); [discriminate | now rewrite IH].
Qed.

Lemma find_entry_In n es c : find_entry n es = Some c -> In n (map fst es).
Proof.
  induction es as [|[m c0] es IH]; simpl; intros H; [discriminate|].
  destruct (n =? m) eqn:E.
  - apply String.eqb_eq in E. now left.
  - right. now apply IH.
Qed.

Lemma lookup_app p q t :
  lookup (p ++ q) t =
  match lookup p t with Some c => lookup q c | None => None end.
Proof.
  revert t. induction p as [|n p IH]; intros t; simpl; [reflexivity|].
  destruct t as [|es]; [reflexivity|].
  destruct (find_entry n es); [apply IH | reflexivity].
Qed.

Lemma lookup_snoc d n t es :
  lookup d t = Some (Dir es) -> lookup (d ++ [n]) t = find_entry n es.
Proof.
  intros H. rewrite lookup_app, H. simpl. now destruct (find_entry n es).
Qed.

Lemma is_prefix_refl p : is_prefix p p = true.
Proof. induction p; simpl; [reflexivity | now rewrite String.eqb_refl]. Qed.

Lemma is_prefix_app p q : is_prefix p (p ++ q) = true.
Proof. induction p; simpl; [reflexivity | now rewrite String.eqb_refl]. Qed.

Lemma is_prefix_spec p q : is_prefix p q = true <-> exists r, q = p ++ r.
Proof.
  revert q. induction p as [|a p IH]; intros q; simpl.
  - split; [now exists q | reflexivity].
  - destruct q as [|b q].
    + split; [discriminate | intros [r H]; discriminate].
    + rewrite andb_true_iff, String.eqb_eq, IH. split.
      * intros [-> [r ->]]. now exists r.
      * intros [r H]. injection H as -> ->. split; [reflexivity | now exists r].
Qed.

Lemma path_eqb_eq p q : path_eqb p q = true <-> p = q.
Proof.
  unfold path_eqb. rewrite andb_true_iff, !is_prefix_spec. split.
  - intros [[r ->] [r' H]].
    rewrite <- app_assoc in H. rewrite <- (app_nil_r p) in H at 1.
    apply app_inv_head in H. symmetry in H. apply app_eq_nil in H.
    destruct H as [-> _]. now rewrite app_nil_r.
  - intros ->. split; exists []; now rewrite app_nil_r.
Qed.

Lemma path_eqb_refl p : path_eqb p p = true.
Proof. now apply path_eqb_eq. Qed.

Lemma path_eqb_neq p q : path_eqb p q = false <-> p <> q.
Proof.
  rewrite <- path_eqb_eq. destruct (path_eqb p q); split; congruence.
Qed.

Lemma kind_at_nil t : kind_at [] t = Some (kind_of t).
Proof. reflexivity. Qed.

Lemma kind_at_cons n q es :
  kind_at (n :: q) (Dir es) =
  match find_entry n es with Some c => kind_at q c | None => None end.
Proof. unfold kind_at. simpl. now destruct (find_entry n es). Qed.

Lemma kind_at_file_below n q m d : kind_at (n :: q) (File m d) = None.
Proof. reflexivity. Qed.

Lemma exists_at_kind p t :
  exists_at p t = match kind_at p t with Some _ => true | None => false end.
Proof. unfold exists_at, kind_at. now destruct (lookup p t). Qed.

Lemma is_dir_at_kind p t :
  is_dir_at p t = match kind_at p t with Some KDir => true | _ => false end.
Proof. unfold is_dir_at, kind_at. now destruct (lookup p t) as [[|]|]. Qed.

Lemma kind_at_file_lookup p t m d :
  kind_at p t = Some (KFile m d) <-> lookup p t = Some (File m d).
Proof.
  unfold kind_at. destruct (lookup p t) as [[m' d'|es]|]; simpl; split; intros H;
    try discriminate; injection H as -> ->; reflexivity.
Qed.

Lemma kind_at_dir_lookup p t :
  kind_at p t = Some KDir <-> exists es, lookup p t = Some (Dir es).
Proof.
  unfold kind_at. destruct (lookup p t) as [[m' d'|es]|]; simpl; split; intros H.
  - discriminate.
  - destruct H as [es' H]; discriminate.
  - now exists es.
  - reflexivity.
  - discriminate.
  - destruct H as [es' H]; discriminate.
Qed.

(** ** Taking an entry out, putting one in, creating directories *)

Lemma path_eqb_cons a p b q :
  path_eqb (a :: p) (b :: q) = ((a =? b) && path_eqb p q)%bool.
Proof.
  unfold path_eqb. simpl. rewrite (String.eqb_sym b a).
  destruct (a =? b), (is_prefix p q), (is_prefix q p); reflexivity.
Qed.

Lemma detach_kind p : forall t c,
  p <> [] ->
  lookup p t = Some c ->
  exists t1,
    detach p t = Some t1 /\
    forall q, kind_at q t1 = if is_prefix p q then None else kind_at q t.
Proof.
  induction p as [|n p IH]; intros t c NE H; [congruence|].
  destruct t as [m d|es]; [discriminate|].
  simpl in H. destruct (find_entry n es) as [c0|] eqn:F; [|discriminate].
  destruct p as [|n' p'].
  - exists (Dir (remove_entry n es)). split.
    + simpl. now rewrite F.
    + intros [|k q]; [reflexivity|].
      rewrite !kind_at_cons, find_entry_remove. simpl.
      rewrite (String.eqb_sym n k). now destruct (k =? n).
  - destruct (IH c0 c ltac:(discriminate) H) as (c1 & D & K).
    exists (Dir (set_entry n c1 es)). split.
    + change (detach (n :: n' :: p') (Dir es)) with
        (match find_entry n es with
         | Some c => match detach (n' :: p') c with
                     | Some c' => Some (Dir (set_entry n c' es))
                     | None => None
                     end
         | None => None
         end).
      now rewrite F, D.
    + intros [|k q]; [reflexivity|].
      rewrite !kind_at_cons, find_entry_set.
      change (is_prefix (n :: n' :: p') (k :: q)) with
        ((n =? k) && is_prefix (n' :: p') q)%bool.
      rewrite (String.eqb_sym n k).
      destruct (k =? n) eqn:E; simpl.
      * apply String.eqb_eq in E. subst k. rewrite F. apply K.
      * reflexivity.
Qed.

Lemma attach_cons_cons a p c es :
  p <> [] ->
  attach (a :: p) c (Dir es) =
  match find_entry a es with
  | Some d =>
      match attach p c d with
      | Some d' => Some (Dir (set_entry a d' es))
      | None => None
      end
  | None => None
  end.
Proof. destruct p; [congruence | reflexivity]. Qed.

Lemma attach_kind d : forall t es n c,
  lookup d t = Some (Dir es) ->
  exists t2,
    attach (d ++ [n]) c t = Some t2 /\
    forall q,
      kind_at q t2 =
      if is_prefix (d ++ [n]) q
      then kind_at (skipn (S (List.length d)) q) c
      else kind_at q t.
Proof.
  induction d as [|a d IH]; intros t es n c H.
  - simpl in H. injection H as ->.
    exists (Dir (set_entry n c es)). split; [reflexivity|].
    intros [|k q]; [reflexivity|].
    rewrite !kind_at_cons, find_entry_set. simpl.
    rewrite (String.eqb_sym n k). now destruct (k =? n).
  - destruct t as [m0 d0|es0]; [discriminate|].
    simpl in H. destruct (find_entry a es0) as [c0|] eqn:F; [|discriminate].
    destruct (IH c0 es n c H) as (c1 & A & K).
    exists (Dir (set_entry a c1 es0)). split.
    + change ((a :: d) ++ [n]) with (a :: (d ++ [n])).
      rewrite attach_cons_cons by (now destruct d).
      now rewrite F, A.
    + intros [|k q]; [reflexivity|].
      rewrite !kind_at_cons, find_entry_set.
      change (is_prefix ((a :: d) ++ [n]) (k :: q)) with
        ((a =? k) && is_prefix (d ++ [n]) q)%bool.
      rewrite (String.eqb_sym a k).
      destruct (k =? a) eqn:E; simpl.
      * apply String.eqb_eq in E. subst k. rewrite F. apply K.
      * reflexivity.
Qed.

(** Putting a regular file at a path changes what that path shows and
    nothing else, when nothing was there. *)
Lemma attach_file_fresh d t es n m x :
  lookup d t = Some (Dir es) ->
  find_entry n es = None ->
  exists t2,
    attach (d ++ [n]) (File m x) t = Some t2 /\
    forall q,
      kind_at q t2 =
      if path_eqb q (d ++ [n]) then Some (KFile m x) else kind_at q t.
Proof.
  intros H F.
  destruct (attach_kind d t es n (File m x) H) as (t2 & A & K).
  exists t2. split; [assumption|].
  intros q. rewrite K.
  destruct (is_prefix (d ++ [n]) q) eqn:P.
  - apply is_prefix_spec in P. destruct P as [r ->].
    replace (S (List.length d)) with (List.length (d ++ [n]))
      by (rewrite length_app; simpl; lia).
    rewrite skipn_app, Nat.sub_diag, skipn_all. simpl.
    destruct r as [|k r].
    + rewrite app_nil_r, path_eqb_refl. reflexivity.
    + simpl.
      assert (N : path_eqb ((d ++ [n]) ++ k :: r) (d ++ [n]) = false).
      { apply path_eqb_neq. intros E.
        rewrite <- (app_nil_r (d ++ [n])) in E at 2.
        apply app_inv_head in E. discriminate. }
      rewrite N. unfold kind_at.
      rewrite lookup_app, (lookup_snoc d n t es H), F. reflexivity.
  - assert (N : path_eqb q (d ++ [n]) = false).
    { unfold path_eqb. now rewrite P, andb_false_r. }
    now rewrite N.
Qed.

Lemma mkdir_p_kind p : forall t t',
  mkdir_p p t = Some t' ->
  forall q,
    kind_at q t' =
    match kind_at q t with
    | Some k => Some k
    | None => if is_prefix q p then Some KDir else None
    end.
Proof.
  induction p as [|n p IH]; intros t t' H q.
  - destruct t; simpl in H; [discriminate|]. injection H as <-.
    destruct (kind_at q (Dir entries0)) eqn:E; [reflexivity|].
    destruct q; [discriminate | reflexivity].
  - destruct t as [m d|es]; [discriminate|].
    simpl in H.
    assert (G : exists c c',
               (find_entry n es = Some c \/ (find_entry n es = None /\ c = Dir [])) /\
               mkdir_p p c = Some c' /\ t' = Dir (set_entry n c' es)).
    { destruct (find_entry n es) as [c|] eqn:F.
      - destruct (mkdir_p p c) as [c'|] eqn:Mk; [|discriminate].
        injection H as <-. exists c, c'. auto.
      - destruct (mkdir_p p (Dir [])) as [c'|] eqn:Mk; [|discriminate].
        injection H as <-. exists (Dir []), c'. rewrite set_entry_absent by assumption. auto. }
    destruct G as (c & c' & F & Mk & ->).
    destruct q as [|k q]; [reflexivity|].
    rewrite !kind_at_cons, find_entry_set. simpl.
    destruct (k =? n) eqn:E.
    + apply String.eqb_eq in E. subst k.
      rewrite (IH _ _ Mk q).
      destruct F as [F|[F ->]]; rewrite F; [reflexivity|].
      destruct q; reflexivity.
    + destruct (find_entry k es); [|reflexivity].
      destruct (kind_at q n0); reflexivity.
Qed.

(** The directories can be created unless a regular file is in the way. *)
Lemma mkdir_p_succeeds p : forall t,
  (forall q m d, is_prefix q p = true -> kind_at q t <> Some (KFile m d)) ->
  exists t', mkdir_p p t = Some t'.
Proof.
  induction p as [|n p IH]; intros t H.
  - destruct t as [m d|es].
    + exfalso. apply (H [] m d); reflexivity.
    + now exists (Dir es).
  - destruct t as [m d|es].
    + exfalso. apply (H [] m d); reflexivity.
    + simpl. destruct (find_entry n es) as [c|] eqn:F.
      * destruct (IH c) as [c' ->]; [|eauto].
        intros q m d P K. apply (H (n :: q) m d).
        -- simpl. now rewrite String.eqb_refl.
        -- now rewrite kind_at_cons, F.
      * destruct (IH (Dir [])) as [c' ->]; [|eauto].
        intros q m d P K. destruct q; discriminate.
Qed.

Lemma mkdir_p_fails p : forall t,
  mkdir_p p t = None ->
  exists q m d, is_prefix q p = true /\ kind_at q t = Some (KFile m d).
Proof.
  intros t H.
  destruct (List.find (fun q => match kind_at q t with Some (KFile _ _) => true | _ => false end)
              (map (fun k => firstn k p) (seq 0 (S (List.length p))))) as [q|] eqn:Fd.
  - apply find_some in Fd. destruct Fd as [I K].
    apply in_map_iff in I. destruct I as (k & <- & _).
    destruct (kind_at (firstn k p) t) as [[m d|]|] eqn:E; try discriminate.
    exists (firstn k p), m, d. split; [|assumption].
    apply is_prefix_spec. exists (skipn k p). symmetry. apply firstn_skipn.
  - exfalso.
    destruct (mkdir_p_succeeds p t) as [t' E]; [|congruence].
    intros q m d P K.
    apply is_prefix_spec in P. destruct P as [r ->].
    assert (I : In q (map (fun k => firstn k (q ++ r))
                          (seq 0 (S (List.length (q ++ r)))))).
    { apply in_map_iff. exists (List.length q). split.
      - now rewrite firstn_app, Nat.sub_diag, firstn_all, app_nil_r.
      - apply in_seq. rewrite length_app. lia. }
    pose proof (find_none _ _ Fd q I) as N. cbv beta in N.
    rewrite K in N. discriminate.
Qed.
(* ================================================================== *)
(** * The safe mover, step by step *)
(* ================================================================== *)

(** Unfolding the monad: the calls are run up to the next test on the
    state. *)
Ltac mrun :=
  cbv beta iota zeta delta
    [bind ret raise out_of_fuel get_fs put_fs modify_stats log try_except
     path_exists path_mkdir st_mtime iterdir_any path_rmdir scandir];
  cbn [w_fs w_stats w_log fst snd negb].

Lemma lookup_prefix_exists p r t c :
  lookup (p ++ r) t = Some c -> exists c', lookup p t = Some c'.
Proof.
  rewrite lookup_app. destruct (lookup p t) as [c'|]; [eauto | discriminate].
Qed.

Lemma kind_at_prefix_exists q p t :
  is_prefix q p = true -> kind_at p t <> None -> kind_at q t <> None.
Proof.
  intros P H. apply is_prefix_spec in P. destruct P as [r ->].
  unfold kind_at in *. rewrite lookup_app in H.
  destruct (lookup q t); [discriminate | contradiction].
Qed.

(** Below a regular file there is nothing. *)
Lemma kind_at_below_file p r t m x :
  kind_at p t = Some (KFile m x) -> r <> [] -> kind_at (p ++ r) t = None.
Proof.
  intros H NE. apply kind_at_file_lookup in H.
  unfold kind_at. rewrite lookup_app, H. destruct r; [congruence | reflexivity].
Qed.

Lemma detach_file p t m x :
  lookup p t = Some (File m x) ->
  p <> [] ->
  exists t1,
    detach p t = Some t1 /\
    forall q, kind_at q t1 = if path_eqb q p then None else kind_at q t.
Proof.
  intros H NE.
  destruct (detach_kind p t _ NE H) as (t1 & D & K).
  exists t1. split; [assumption|].
  intros q. rewrite K.
  destruct (is_prefix p q) eqn:P.
  - apply is_prefix_spec in P. destruct P as [r ->].
    destruct r as [|k r].
    + now rewrite app_nil_r, path_eqb_refl.
    + assert (N : path_eqb (p ++ k :: r) p = false).
      { apply path_eqb_neq. intros E. rewrite <- (app_nil_r p) in E at 2.
        apply app_inv_head in E. discriminate. }
      rewrite N. symmetry. eapply kind_at_below_file; [|discriminate].
      apply kind_at_file_lookup. eassumption.
  - assert (N : path_eqb q p = false).
    { unfold path_eqb. now rewrite P, andb_false_r. }
    now rewrite N.
Qed.

Lemma ensure_dir_present p w :
  exists_at p (w_fs w) = true -> ensure_dir p w = (Ret tt, w).
Proof.
  intros E. unfold ensure_dir. mrun. rewrite E. now destruct w.
Qed.

Lemma ensure_dir_created p w t' :
  exists_at p (w_fs w) = false ->
  mkdir_p p (w_fs w) = Some t' ->
  ensure_dir p w =
  (Ret tt, {| w_fs := t'; w_stats := incr_folders_created (w_stats w);
              w_log := w_log w |}).
Proof.
  intros E Mk. unfold ensure_dir. mrun. rewrite E. mrun. rewrite Mk.
  try reflexivity; now destruct w.
Qed.

Lemma ensure_dir_failed p w :
  exists_at p (w_fs w) = false ->
  mkdir_p p (w_fs w) = None ->
  ensure_dir p w = (Raise OSError, w).
Proof.
  intros E Mk. unfold ensure_dir. mrun. rewrite E. mrun. rewrite Mk.
  try reflexivity; now destruct w.
Qed.

(** What [ensure_dir] leaves when it returns: the counter moves by one
    exactly when the path was not there, and the missing directories on the
    way to it are the only new thing. *)
Lemma ensure_dir_returns p w :
  (forall q m d, is_prefix q p = true -> kind_at q (w_fs w) <> Some (KFile m d)) ->
  exists t',
    ensure_dir p w =
      (Ret tt, {| w_fs := t';
                  w_stats := if exists_at p (w_fs w) then w_stats w
                             else incr_folders_created (w_stats w);
                  w_log := w_log w |}) /\
    forall q,
      kind_at q t' =
      match kind_at q (w_fs w) with
      | Some k => Some k
      | None => if is_prefix q p then Some KDir else None
      end.
Proof.
  intros H.
  destruct (exists_at p (w_fs w)) eqn:E.
  - exists (w_fs w). split.
    + rewrite ensure_dir_present by assumption. now destruct w.
    + intros q. destruct (kind_at q (w_fs w)) eqn:K; [reflexivity|].
      destruct (is_prefix q p) eqn:P; [|reflexivity].
      exfalso. rewrite exists_at_kind in E.
      apply (kind_at_prefix_exists q p (w_fs w) P); [|assumption].
      destruct (kind_at p (w_fs w)); [discriminate | discriminate].
  - destruct (mkdir_p_succeeds p (w_fs w) H) as [t' Mk].
    exists t'. split.
    + now apply ensure_dir_created.
    + now apply mkdir_p_kind.
Qed.

(** Moving a regular file to a free name of a directory. *)
Lemma shutil_move_file src d n w m x :
  lookup src (w_fs w) = Some (File m x) ->
  src <> [] ->
  kind_at d (w_fs w) = Some KDir ->
  kind_at (d ++ [n]) (w_fs w) = None ->
  exists t2,
    shutil_move src (d ++ [n]) w = (Ret tt, set_fs t2 w) /\
    forall q,
      kind_at q t2 =
      if path_eqb q (d ++ [n]) then Some (KFile m x)
      else if path_eqb q src then None
      else kind_at q (w_fs w).
Proof.
  intros Hs NE D Fr.
  destruct (detach_file src (w_fs w) m x Hs NE) as (t1 & Dt & K1).
  assert (D1 : kind_at d t1 = Some KDir).
  { rewrite K1. destruct (path_eqb d src) eqn:E; [|assumption].
    apply path_eqb_eq in E. subst d.
    apply kind_at_file_lookup in Hs. congruence. }
  assert (F1 : kind_at (d ++ [n]) t1 = None).
  { rewrite K1. now destruct (path_eqb (d ++ [n]) src). }
  apply kind_at_dir_lookup in D1. destruct D1 as [es1 L1].
  assert (Fe : find_entry n es1 = None).
  { unfold kind_at in F1. rewrite (lookup_snoc d n t1 es1 L1) in F1.
    destruct (find_entry n es1); [discriminate | reflexivity]. }
  destruct (attach_file_fresh d t1 es1 n m x L1 Fe) as (t2 & At & K2).
  exists t2. split.
  - assert (I : is_dir_at (d ++ [n]) (w_fs w) = false).
    { rewrite is_dir_at_kind, Fr. reflexivity. }
    unfold shutil_move. mrun. rewrite I. cbn [andb]. mrun.
    rewrite Hs, Dt, At. reflexivity.
  - intros q. rewrite K2, K1. reflexivity.
Qed.

(** ** The renaming loop *)

Section RenameLoop.

Variables (src dest_dir : path) (name ext : string).

Local Abbreviation cand i := (dest_dir ++ [candidate_name name ext i]).

Lemma rename_loop_finds fuel : forall i w N m x,
  lookup src (w_fs w) = Some (File m x) ->
  src <> [] ->
  kind_at dest_dir (w_fs w) = Some KDir ->
  i <= N < i + fuel ->
  (forall j, i <= j < N -> exists_at (cand j) (w_fs w) = true) ->
  exists_at (cand N) (w_fs w) = false ->
  exists t2,
    rename_loop fuel src dest_dir name ext i w =
      (Ret (cand N),
       {| w_fs := t2; w_stats := incr_files_moved (w_stats w);
          w_log := w_log w ++ [LogMovedRenamed src (cand N)] |}) /\
    forall q,
      kind_at q t2 =
      if path_eqb q (cand N) then Some (KFile m x)
      else if path_eqb q src then None
      else kind_at q (w_fs w).
Proof.
  induction fuel as [|fuel IH]; intros i w N m x Hs NE D R Tk Fr; [lia|].
  cbn [rename_loop]. rewrite path_div_candidate.
  destruct (Nat.eq_dec i N) as [->|Ne].
  - assert (Fk : kind_at (cand N) (w_fs w) = None).
    { rewrite exists_at_kind in Fr. now destruct (kind_at (cand N) (w_fs w)). }
    destruct (shutil_move_file src dest_dir _ w m x Hs NE D Fk) as (t2 & Mv & K).
    exists t2. split; [|exact K].
    mrun. rewrite Fr. mrun. rewrite Mv. reflexivity.
  - mrun. rewrite (Tk i) by lia. mrun.
    apply (IH (S i) w N m x); auto; try lia.
    intros j Hj. apply Tk. lia.
Qed.

End RenameLoop.

Lemma least_witness (P : nat -> bool) (a n : nat) :
  (exists k, a <= k < a + n /\ P k = true) ->
  exists N, a <= N < a + n /\ P N = true /\ forall j, a <= j < N -> P j = false.
Proof.
  revert a. induction n as [|n IH]; intros a [k [R Pk]]; [lia|].
  destruct (P a) eqn:Pa.
  - exists a. repeat split; try lia. assumption.
  - destruct (IH (S a)) as (N & RN & PN & Least).
    + exists k. split; [|assumption].
      destruct (Nat.eq_dec k a) as [->|]; [congruence | lia].
    + exists N. repeat split; try lia; [assumption|].
      intros j Hj. destruct (Nat.eq_dec j a) as [->|]; [assumption|].
      apply Least. lia.
Qed.

(** Among [S (length es)] candidate names one is free. *)
Lemma some_candidate_free (es : entries) (name ext : string) :
  exists k, 1 <= k < 1 + S (List.length es) /\
            (match find_entry (candidate_name name ext k) es with
             | None => true | Some _ => false end) = true.
Proof.
  set (free := fun k => match find_entry (candidate_name name ext k) es with
                        | None => true | Some _ => false end).
  destruct (existsb free (seq 1 (S (List.length es)))) eqn:E.
  - apply existsb_exists in E. destruct E as (k & I & Fk).
    apply in_seq in I. exists k. split; [lia | exact Fk].
  - exfalso.
    assert (Inc : incl (map (candidate_name name ext) (seq 1 (S (List.length es))))
                       (map fst es)).
    { intros s I. apply in_map_iff in I. destruct I as (k & <- & I).
      pose proof (existsb_nth) as _.
      assert (Fk : free k = false).
      { destruct (free k) eqn:Fk; [|reflexivity].
        assert (existsb free (seq 1 (S (List.length es))) = true)
          by (apply existsb_exists; eauto).
        congruence. }
      unfold free in Fk.
      destruct (find_entry (candidate_name name ext k) es) eqn:F; [|discriminate].
      eapply find_entry_In; eassumption. }
    assert (ND : NoDup (map (candidate_name name ext) (seq 1 (S (List.length es))))).
    { apply Injective_map_NoDup; [|apply seq_NoDup].
      intros i j. apply candidate_name_inj. }
    pose proof (NoDup_incl_length ND Inc) as L.
    rewrite !length_map, length_seq in L. lia.
Qed.

Lemma first_free_candidate (es : entries) (name ext : string) :
  exists N, 1 <= N <= S (List.length es) /\
            find_entry (candidate_name name ext N) es = None /\
            forall j, 1 <= j < N -> find_entry (candidate_name name ext j) es <> None.
Proof.
  destruct (least_witness _ 1 (S (List.length es)) (some_candidate_free es name ext))
    as (N & R & Fn & Least).
  exists N. split; [lia|]. split.
  - now destruct (find_entry (candidate_name name ext N) es).
  - intros j Hj. specialize (Least j Hj).
    now destruct (find_entry (candidate_name name ext j) es).
Qed.

Lemma plain_name_nonempty (src : path) : plain (path_name src) = true -> src <> [].
Proof. intros H ->. discriminate. Qed.

Lemma exists_at_snoc d n t es :
  lookup d t = Some (Dir es) ->
  exists_at (d ++ [n]) t = match find_entry n es with Some _ => true | None => false end.
Proof. intros H. unfold exists_at. now rewrite (lookup_snoc d n t es H). Qed.

Lemma kind_at_none_exists p t : kind_at p t = None <-> exists_at p t = false.
Proof.
  rewrite exists_at_kind. destruct (kind_at p t); split; congruence.
Qed.

Lemma exists_at_parent d n t :
  exists_at (d ++ [n]) t = true -> kind_at d t = Some KDir.
Proof.
  unfold exists_at, kind_at. rewrite lookup_app.
  destruct (lookup d t) as [[m x|es]|]; simpl; try discriminate. reflexivity.
Qed.

(** The state [safe_move] leaves when the source is a regular file and no
    regular file stands where the destination directory has to be. *)
Lemma safe_move_moves src dd w m x :
  lookup src (w_fs w) = Some (File m x) ->
  plain (path_name src) = true ->
  (forall q m' x', is_prefix q dd = true ->
                   kind_at q (w_fs w) <> Some (KFile m' x')) ->
  exists (dest : path) (t' : node) (ev : event),
    safe_move src dd w =
      (Ret dest,
       {| w_fs := t';
          w_stats := incr_files_moved (incr_scanned
                       (if exists_at dd (w_fs w) then w_stats w
                        else incr_folders_created (w_stats w)));
          w_log := w_log w ++ [ev] |}) /\
    ((exists_at (dd ++ [path_name src]) (w_fs w) = false /\
      dest = dd ++ [path_name src] /\ ev = LogMoved src dest)
     \/
     (exists_at (dd ++ [path_name src]) (w_fs w) = true /\
      exists N,
        1 <= N /\
        dest = dd ++ [candidate_name (path_stem src) (path_suffix src) N] /\
        ev = LogMovedRenamed src dest /\
        (forall j, 1 <= j < N ->
           exists_at (dd ++ [candidate_name (path_stem src) (path_suffix src) j])
                     (w_fs w) = true) /\
        exists_at dest (w_fs w) = false)) /\
    forall q,
      kind_at q t' =
      if path_eqb q dest then Some (KFile m x)
      else if path_eqb q src then None
      else match kind_at q (w_fs w) with
           | Some k => Some k
           | None => if is_prefix q dd then Some KDir else None
           end.
Proof.
  intros Hs Pl Free.
  pose proof (plain_name_nonempty src Pl) as NE.
  destruct (ensure_dir_returns dd w Free) as (t1 & En & K1).
  set (s1 := if exists_at dd (w_fs w) then w_stats w
             else incr_folders_created (w_stats w)) in *.
  assert (Hs1 : lookup src t1 = Some (File m x)).
  { apply kind_at_file_lookup. rewrite K1.
    apply kind_at_file_lookup in Hs. now rewrite Hs. }
  assert (D1 : kind_at dd t1 = Some KDir).
  { rewrite K1. destruct (kind_at dd (w_fs w)) as [[m' x'|]|] eqn:E.
    - exfalso. apply (Free dd m' x' (is_prefix_refl dd) E).
    - reflexivity.
    - now rewrite is_prefix_refl. }
  assert (X1 : forall n, exists_at (dd ++ [n]) t1 = exists_at (dd ++ [n]) (w_fs w)).
  { intros n. rewrite !exists_at_kind, K1.
    destruct (kind_at (dd ++ [n]) (w_fs w)); [reflexivity|].
    assert (P : is_prefix (dd ++ [n]) dd = false).
    { destruct (is_prefix (dd ++ [n]) dd) eqn:P; [|reflexivity].
      apply is_prefix_spec in P. destruct P as [r P].
      apply (f_equal (@List.length string)) in P.
      rewrite !length_app in P. simpl in P. lia. }
    now rewrite P. }
  unfold safe_move. unfold bind at 1. rewrite En.
  rewrite (path_div_plain dd (path_name src) Pl).
  mrun. rewrite X1.
  destruct (exists_at (dd ++ [path_name src]) (w_fs w)) eqn:Ex.
  - (* a file of that name is there: the renaming loop *)
    pose proof (exists_at_parent dd _ _ Ex) as Dd.
    assert (Edd : exists_at dd (w_fs w) = true).
    { rewrite exists_at_kind, Dd. reflexivity. }
    assert (Same : forall q, kind_at q t1 = kind_at q (w_fs w)).
    { intros q. rewrite K1. destruct (kind_at q (w_fs w)) eqn:E; [reflexivity|].
      destruct (is_prefix q dd) eqn:P; [|reflexivity].
      exfalso. apply (kind_at_prefix_exists q dd (w_fs w) P); congruence. }
    assert (SameX : forall q, exists_at q t1 = exists_at q (w_fs w)).
    { intros q. now rewrite !exists_at_kind, Same. }
    pose proof D1 as D1'. apply kind_at_dir_lookup in D1'. destruct D1' as [es L1].
    destruct (first_free_candidate es (path_stem src) (path_suffix src))
      as (N & RN & FN & Least).
    set (w1 := {| w_fs := t1; w_stats := incr_scanned s1; w_log := w_log w |}).
    destruct (rename_loop_finds src dd (path_stem src) (path_suffix src)
                (S (List.length es)) 1 w1 N m x)
      as (t2 & Lp & K2); try assumption.
    + lia.
    + intros j Hj. cbn [w1 w_fs]. rewrite (exists_at_snoc dd _ t1 es L1).
      specialize (Least j Hj).
      destruct (find_entry (candidate_name _ _ j) es); [reflexivity | congruence].
    + cbn [w1 w_fs]. rewrite (exists_at_snoc dd _ t1 es L1). now rewrite FN.
    + exists (dd ++ [candidate_name (path_stem src) (path_suffix src) N]), t2,
        (LogMovedRenamed src (dd ++ [candidate_name (path_stem src) (path_suffix src) N])).
      split; [|split].
      * cbn [negb]. mrun. unfold loop_bound. cbn [w1 w_fs]. rewrite L1. fold w1. rewrite Lp.
        reflexivity.
      * right. split; [reflexivity|]. exists N. repeat split; try lia.
        -- intros j Hj. rewrite <- SameX, (exists_at_snoc dd _ t1 es L1).
           specialize (Least j Hj).
      destruct (find_entry (candidate_name _ _ j) es); [reflexivity | congruence].
        -- rewrite <- SameX, (exists_at_snoc dd _ t1 es L1). now rewrite FN.
      * intros q. rewrite K2. cbn [w1 w_fs]. rewrite K1. reflexivity.
  - (* the name is free *)
    set (w1 := {| w_fs := t1; w_stats := incr_scanned s1; w_log := w_log w |}).
    assert (Fr : kind_at (dd ++ [path_name src]) (w_fs w1) = None).
    { apply kind_at_none_exists. cbn [w1 w_fs]. now rewrite X1. }
    destruct (shutil_move_file src dd (path_name src) w1 m x Hs1 NE D1 Fr)
      as (t2 & Mv & K2).
    exists (dd ++ [path_name src]), t2, (LogMoved src (dd ++ [path_name src])).
    split; [|split].
    + cbn [negb]. mrun. fold w1. rewrite Mv. reflexivity.
    + left. auto.
    + intros q. rewrite K2. cbn [w1 w_fs]. rewrite K1. reflexivity.
Qed.

(** An existing directory has no regular file above it. *)
Lemma dir_has_no_file_above dd t :
  kind_at dd t = Some KDir ->
  forall q m x, is_prefix q dd = true -> kind_at q t <> Some (KFile m x).
Proof.
  intros D q m x P K. apply is_prefix_spec in P. destruct P as [r ->].
  destruct r as [|k r].
  - rewrite app_nil_r in D. congruence.
  - rewrite (kind_at_below_file q (k :: r) t m x K) in D; discriminate.
Qed.

Lemma snoc_not_prefix (d : path) (n : string) : is_prefix (d ++ [n]) d = false.
Proof.
  destruct (is_prefix (d ++ [n]) d) eqn:P; [|reflexivity].
  apply is_prefix_spec in P. destruct P as [r P].
  apply (f_equal (@List.length string)) in P.
  rewrite !length_app in P. simpl in P. lia.
Qed.

Lemma snoc_neq_prefix (d q : path) (n : string) :
  is_prefix q d = true -> path_eqb q (d ++ [n]) = false.
Proof.
  intros P. apply path_eqb_neq. intros ->.
  now rewrite snoc_not_prefix in P.
Qed.

Lemma no_file_on_spec p t :
  no_file_on p t = true ->
  forall q m x, is_prefix q p = true -> kind_at q t <> Some (KFile m x).
Proof.
  unfold no_file_on. rewrite forallb_forall. intros H q m x P K.
  apply is_prefix_spec in P. destruct P as [r ->].
  specialize (H (List.length q)).
  rewrite firstn_app, Nat.sub_diag, firstn_all, app_nil_r, K in H.
  assert (true = false); [|discriminate]. symmetry. apply H.
  apply in_seq. rewrite length_app. lia.
Qed.

Lemma no_file_on_dir p t : kind_at p t = Some KDir -> no_file_on p t = true.
Proof.
  intros D. unfold no_file_on. apply forallb_forall. intros k _.
  destruct (kind_at (firstn k p) t) as [[m x|]|] eqn:K; try reflexivity.
  exfalso. apply (dir_has_no_file_above p t D (firstn k p) m x); [|assumption].
  apply is_prefix_spec. exists (skipn k p). symmetry. apply firstn_skipn.
Qed.

(** ** The loop bound is never reached *)

Lemma rename_loop_ends src dd name ext fuel : forall i w N,
  i <= N < i + fuel ->
  exists_at (dd ++ [candidate_name name ext N]) (w_fs w) = false ->
  fst (rename_loop fuel src dd name ext i w) <> OutOfFuel.
Proof.
  induction fuel as [|fuel IH]; intros i w N R Fr; [lia|].
  cbn [rename_loop]. rewrite path_div_candidate. mrun.
  destruct (exists_at (dd ++ [candidate_name name ext i]) (w_fs w)) eqn:E.
  - mrun. apply (IH (S i) w N); [|assumption].
    destruct (Nat.eq_dec i N) as [->|]; [congruence | lia].
  - mrun. destruct (shutil_move src (dd ++ [candidate_name name ext i]) w)
      as [[u|e|] w'] eqn:Mv; cbn; try discriminate.
    exfalso. unfold shutil_move in Mv. revert Mv. mrun.
    destruct (is_dir_at _ _ && exists_at _ _)%bool; [discriminate|].
    destruct (lookup src (w_fs w)); [|discriminate].
    destruct (detach src (w_fs w)); [|discriminate].
    destruct (attach _ _ _); discriminate.
Qed.

Theorem safe_move_never_out_of_fuel src dd w : fst (safe_move src dd w) <> OutOfFuel.
Proof.
  unfold safe_move. unfold bind at 1.
  destruct (ensure_dir dd w) as [[u|e|] w1] eqn:En; cbn [fst]; try discriminate.
  - mrun.
    destruct (exists_at (dd // path_name src) (w_fs w1)) eqn:Ex; mrun.
    + (* renaming loop *)
      set (w2 := {| w_fs := w_fs w1; w_stats := incr_scanned (w_stats w1);
                    w_log := w_log w1 |}).
      assert (NT : fst (rename_loop (loop_bound dd (w_fs w1)) src dd
                          (path_stem src) (path_suffix src) 1 w2) <> OutOfFuel).
      { unfold loop_bound.
        destruct (lookup dd (w_fs w1)) as [[m x|es]|] eqn:L.
        - apply (rename_loop_ends _ _ _ _ 1 1 w2 1); [lia|].
          unfold exists_at. cbn [w2 w_fs]. rewrite lookup_app, L. reflexivity.
        - destruct (first_free_candidate es (path_stem src) (path_suffix src))
            as (N & RN & FN & _).
          apply (rename_loop_ends _ _ _ _ _ 1 w2 N); [lia|].
          cbn [w2 w_fs]. rewrite (exists_at_snoc dd _ _ es L). now rewrite FN.
        - apply (rename_loop_ends _ _ _ _ 1 1 w2 1); [lia|].
          unfold exists_at. cbn [w2 w_fs]. rewrite lookup_app, L. reflexivity. }
      destruct (rename_loop _ _ _ _ _ _ w2) as [[p|e|] w3]; cbn in *; congruence.
    + destruct (shutil_move src (dd // path_name src) _) as [[u'|e|] w3] eqn:Mv;
        cbn; try discriminate.
      exfalso. unfold shutil_move in Mv. revert Mv. mrun.
      destruct (is_dir_at _ _ && exists_at _ _)%bool; [discriminate|].
      destruct (lookup src (w_fs w1)); [|discriminate].
      destruct (detach src (w_fs w1)); [|discriminate].
      destruct (attach _ _ _); discriminate.
  - exfalso. unfold ensure_dir in En. revert En. mrun.
    destruct (exists_at dd (w_fs w)); mrun; [discriminate|].
    destruct (mkdir_p dd (w_fs w)); mrun; discriminate.
Qed.

(* ================================================================== *)
(** * Collision-safe moves *)
(* ================================================================== *)

Lemma incr_files_moved_scanned s :
  files_moved (incr_files_moved (incr_scanned s)) = (files_moved s + 1)%Z.
Proof. reflexivity. Qed.

(** The first free index is at most one more than the number of entries of
    the directory. *)
Lemma least_free_bounded dd t name ext N :
  kind_at dd t = Some KDir ->
  (forall j, 1 <= j < N ->
     exists_at (dd ++ [candidate_name name ext j]) t = true) ->
  N <= loop_bound dd t.
Proof.
  intros D Tk. apply kind_at_dir_lookup in D. destruct D as [es L].
  unfold loop_bound. rewrite L.
  destruct (first_free_candidate es name ext) as (N' & R & F & _).
  destruct (le_lt_dec N N') as [H|H]; [lia|].
  specialize (Tk N' ltac:(lia)).
  rewrite (exists_at_snoc dd _ t es L), F in Tk. discriminate.
Qed.

(** C3.  For paths within the limits of the platform: (1) When the
    destination directory already has an entry of the name of the source
    file, [safe_move] moves the file to the candidate name
    ["stem (N)suffix"] of the smallest [N >= 1] that no entry of the
    directory bears, which is at most one more than the number of its
    entries, and counts one file moved.  (2) When the directory, existing
    or yet to be made, has no entry of that name, the file is moved under
    its own name.  (3) Two different files of one name moved one after the
    other into one directory are both there afterwards, and the second one
    bears a candidate name unless the first one was the entry of that name
    itself.  The candidate names that the loop can come to try have to be
    within the limits, a candidate being longer than the name it comes
    from: beyond them the test [candidate.exists()] fails and nothing is
    moved. *)
Theorem safe_move_collision_safe :
  (forall w src dd m x,
      let cand i := dd ++ [candidate_name (path_stem src) (path_suffix src) i] in
      lookup src (w_fs w) = Some (File m x) ->
      plain (path_name src) = true ->
      exists_at (dd ++ [path_name src]) (w_fs w) = true ->
      nameable src = true ->
      (forall i, (1 <= i <= loop_bound dd (w_fs w))%nat ->
                 nameable (cand i) = true) ->
      exists N t',
        (1 <= N <= loop_bound dd (w_fs w))%nat /\
        (forall j, (1 <= j < N)%nat -> exists_at (cand j) (w_fs w) = true) /\
        exists_at (cand N) (w_fs w) = false /\
        safe_move src dd w =
          (Ret (cand N),
           {| w_fs := t';
              w_stats := incr_files_moved (incr_scanned (w_stats w));
              w_log := w_log w ++ [LogMovedRenamed src (cand N)] |}) /\
        lookup (cand N) t' = Some (File m x) /\
        exists_at src t' = false /\
        (forall q, q <> src -> q <> cand N ->
                   kind_at q t' = kind_at q (w_fs w)))
  /\
  (forall w src dd m x,
      lookup src (w_fs w) = Some (File m x) ->
      plain (path_name src) = true ->
      no_file_on dd (w_fs w) = true ->
      exists_at (dd ++ [path_name src]) (w_fs w) = false ->
      nameable src = true ->
      nameable (dd ++ [path_name src]) = true ->
      exists t',
        safe_move src dd w =
          (Ret (dd ++ [path_name src]),
           {| w_fs := t';
              w_stats := incr_files_moved (incr_scanned
                           (if exists_at dd (w_fs w) then w_stats w
                            else incr_folders_created (w_stats w)));
              w_log := w_log w ++ [LogMoved src (dd ++ [path_name src])] |}) /\
        lookup (dd ++ [path_name src]) t' = Some (File m x) /\
        exists_at src t' = false)
  /\
  (forall w src1 src2 dd m1 x1 m2 x2,
      src1 <> src2 ->
      path_name src1 = path_name src2 ->
      plain (path_name src1) = true ->
      lookup src1 (w_fs w) = Some (File m1 x1) ->
      lookup src2 (w_fs w) = Some (File m2 x2) ->
      no_file_on dd (w_fs w) = true ->
      nameable src1 = true ->
      nameable src2 = true ->
      nameable (dd ++ [path_name src1]) = true ->
      (forall i, (1 <= i <= S (loop_bound dd (w_fs w)))%nat ->
         nameable
           (dd ++ [candidate_name (path_stem src1) (path_suffix src1) i])
         = true) ->
      exists p1 p2 w1 w2,
        safe_move src1 dd w = (Ret p1, w1) /\
        safe_move src2 dd w1 = (Ret p2, w2) /\
        p1 <> p2 /\
        lookup p1 (w_fs w2) = Some (File m1 x1) /\
        lookup p2 (w_fs w2) = Some (File m2 x2) /\
        files_moved (w_stats w2) = (files_moved (w_stats w) + 2)%Z /\
        (src1 <> dd ++ [path_name src1] ->
         exists N,
           let cand i := dd ++ [candidate_name (path_stem src2) (path_suffix src2) i] in
           (1 <= N)%nat /\ p2 = cand N /\
           (forall j, (1 <= j < N)%nat -> exists_at (cand j) (w_fs w1) = true) /\
           exists_at (cand N) (w_fs w1) = false)).
Proof.
  split; [|split].
  - (* a name that is taken *)
    intros w src dd m x cand Hs Pl Ex _ _. subst cand.
    pose proof (exists_at_parent dd _ _ Ex) as Dd.
    assert (Edd : exists_at dd (w_fs w) = true)
      by (rewrite exists_at_kind, Dd; reflexivity).
    destruct (safe_move_moves src dd w m x Hs Pl (dir_has_no_file_above dd _ Dd))
      as (dest & t' & ev & Run & [(Ex' & _)|(_ & N & RN & -> & -> & Tk & Fr)] & K);
      [congruence|].
    rewrite Edd in Run.
    exists N, t'. cbv zeta. repeat split; try assumption.
    + now apply (least_free_bounded dd (w_fs w) (path_stem src) (path_suffix src)).
    + apply kind_at_file_lookup. rewrite K, path_eqb_refl. reflexivity.
    + rewrite exists_at_kind, K.
      destruct (path_eqb src _) eqn:E1.
      * apply path_eqb_eq in E1. rewrite <- E1 in Fr.
        unfold exists_at in Fr. rewrite Hs in Fr. discriminate.
      * now rewrite path_eqb_refl.
    + intros q Q1 Q2. rewrite K.
      apply path_eqb_neq in Q1, Q2. rewrite Q1, Q2.
      destruct (kind_at q (w_fs w)) eqn:E; [reflexivity|].
      destruct (is_prefix q dd) eqn:P; [|reflexivity].
      exfalso. apply (kind_at_prefix_exists q dd (w_fs w) P); congruence.
  - (* a name that is free *)
    intros w src dd m x Hs Pl FreeB Ex _ _.
    pose proof (no_file_on_spec dd _ FreeB) as Free.
    destruct (safe_move_moves src dd w m x Hs Pl Free)
      as (dest & t' & ev & Run & [(_ & -> & ->)|(Ex' & _)] & K); [|congruence].
    exists t'. repeat split; try assumption.
    + apply kind_at_file_lookup. rewrite K, path_eqb_refl. reflexivity.
    + rewrite exists_at_kind, K.
      destruct (path_eqb src _) eqn:E1.
      * apply path_eqb_eq in E1. rewrite <- E1 in Ex.
        unfold exists_at in Ex. rewrite Hs in Ex. discriminate.
      * now rewrite path_eqb_refl.
  - (* two files of one name *)
    intros w src1 src2 dd m1 x1 m2 x2 Ne Nm Pl H1 H2 FreeB _ _ _ _.
    pose proof (no_file_on_spec dd _ FreeB) as Free.
    destruct (safe_move_moves src1 dd w m1 x1 H1 Pl Free)
      as (p1 & t1 & ev1 & Run1 & C1 & K1).
    assert (Fr1 : exists_at p1 (w_fs w) = false).
    { destruct C1 as [(E & -> & _)|(_ & N & _ & -> & _ & _ & E)]; exact E. }
    assert (In1 : exists n1, p1 = dd ++ [n1]).
    { destruct C1 as [(_ & -> & _)|(_ & N & _ & -> & _)]; eauto. }
    assert (S2P1 : path_eqb src2 p1 = false).
    { apply path_eqb_neq. intros <-. unfold exists_at in Fr1.
      rewrite H2 in Fr1. discriminate. }
    assert (S2S1 : path_eqb src2 src1 = false) by (apply path_eqb_neq; congruence).
    set (w1 := {| w_fs := t1;
                  w_stats := incr_files_moved (incr_scanned
                               (if exists_at dd (w_fs w) then w_stats w
                                else incr_folders_created (w_stats w)));
                  w_log := w_log w ++ [ev1] |}) in *.
    assert (H2' : lookup src2 (w_fs w1) = Some (File m2 x2)).
    { apply kind_at_file_lookup. cbn [w1 w_fs]. rewrite K1, S2P1, S2S1.
      apply kind_at_file_lookup in H2. now rewrite H2. }
    assert (Free' : forall q m' x', is_prefix q dd = true ->
                      kind_at q (w_fs w1) <> Some (KFile m' x')).
    { intros q m' x' P. cbn [w1 w_fs]. rewrite K1.
      destruct In1 as [n1 ->]. rewrite (snoc_neq_prefix dd q n1 P).
      destruct (path_eqb q src1); [discriminate|].
      destruct (kind_at q (w_fs w)) as [k|] eqn:E.
      - rewrite <- E. now apply Free.
      - rewrite P. discriminate. }
    rewrite Nm in Pl.
    destruct (safe_move_moves src2 dd w1 m2 x2 H2' Pl Free')
      as (p2 & t2 & ev2 & Run2 & C2 & K2).
    assert (Fr2 : exists_at p2 (w_fs w1) = false).
    { destruct C2 as [(E & -> & _)|(_ & N & _ & -> & _ & _ & E)]; exact E. }
    assert (P12 : p1 <> p2).
    { intros <-. rewrite exists_at_kind in Fr2. cbn [w1 w_fs] in Fr2.
      rewrite K1, path_eqb_refl in Fr2. discriminate. }
    eexists p1, p2, w1, _. split; [exact Run1|]. split; [exact Run2|].
    split; [exact P12|]. cbn [w_fs w_stats]. repeat split.
    + apply kind_at_file_lookup. rewrite K2.
      assert (E1 : path_eqb p1 p2 = false) by now apply path_eqb_neq.
      assert (E2 : path_eqb p1 src2 = false).
      { apply path_eqb_neq. intros E. apply path_eqb_neq in S2P1. congruence. }
      rewrite E1, E2. cbn [w1 w_fs]. rewrite K1, path_eqb_refl. reflexivity.
    + apply kind_at_file_lookup. rewrite K2, path_eqb_refl. reflexivity.
    + unfold w1. cbn [w_stats w_fs].
      destruct (exists_at dd (w_fs w)), (exists_at dd t1); cbn; lia.
    + intros NotIn. rewrite <- Nm in C2.
      destruct C2 as [(E & _)|(_ & N & RN & -> & _ & Tk & Fr)].
      * exfalso. rewrite exists_at_kind in E. cbn [w1 w_fs] in E.
        rewrite K1 in E.
        destruct (path_eqb (dd ++ [path_name src1]) p1) eqn:Q1; [discriminate|].
        assert (Q2 : path_eqb (dd ++ [path_name src1]) src1 = false)
          by (apply path_eqb_neq; congruence).
        rewrite Q2 in E.
        destruct C1 as [(_ & -> & _)|(Ex1 & _)].
        -- now rewrite path_eqb_refl in Q1.
        -- rewrite exists_at_kind in Ex1.
           destruct (kind_at (dd ++ [path_name src1]) (w_fs w)); discriminate.
      * exists N. cbv zeta. repeat split; assumption.
Qed.

Lemma safe_move_collision_safe_witness :
  let w :=
    {| w_fs :=
         Dir [("in", Dir [("a", Dir [("report.pdf", File 10 "first")]);
                          ("b", Dir [("report.pdf", File 20 "second")])]);
              ("out", Dir [("report.pdf", File 5 "old");
                           ("report (1).pdf", File 6 "older")])];
       w_stats := make_stats; w_log := [] |} in
  let src1 := ["in"; "a"; "report.pdf"] in
  let src2 := ["in"; "b"; "report.pdf"] in
  (exists N t',
      safe_move src1 ["out"] w =
        (Ret (["out"] ++ [candidate_name "report" ".pdf" N]),
         {| w_fs := t';
            w_stats := incr_files_moved (incr_scanned make_stats);
            w_log := [LogMovedRenamed src1
                        (["out"] ++ [candidate_name "report" ".pdf" N])] |}) /\
      lookup (["out"] ++ [candidate_name "report" ".pdf" N]) t'
        = Some (File 10 "first"))
  /\
  (exists t',
      safe_move src1 ["new"; "dir"] w =
        (Ret ["new"; "dir"; "report.pdf"],
         {| w_fs := t';
            w_stats := incr_files_moved (incr_scanned
                         (incr_folders_created make_stats));
            w_log := [LogMoved src1 ["new"; "dir"; "report.pdf"]] |}) /\
      lookup ["new"; "dir"; "report.pdf"] t' = Some (File 10 "first"))
  /\
  (exists p1 p2 w1 w2,
      safe_move src1 ["out"] w = (Ret p1, w1) /\
      safe_move src2 ["out"] w1 = (Ret p2, w2) /\
      p1 <> p2 /\
      lookup p1 (w_fs w2) = Some (File 10 "first") /\
      lookup p2 (w_fs w2) = Some (File 20 "second")).
Proof.
  intros w src1 src2. split; [|split].
  - destruct (proj1 safe_move_collision_safe w src1 ["out"] 10%Z "first"
                eq_refl eq_refl eq_refl eq_refl)
      as (N & t' & _ & _ & _ & Run & L & _).
    { intros i Hi. destruct i as [|[|[|[|i]]]]; try reflexivity.
      vm_compute in Hi. lia. }
    exists N, t'. split; [exact Run | exact L].
  - destruct (proj1 (proj2 safe_move_collision_safe) w src1 ["new"; "dir"]
                10%Z "first" eq_refl eq_refl eq_refl eq_refl eq_refl eq_refl)
      as (t' & Run & L & _).
    exists t'. split; [exact Run | exact L].
  - destruct (proj2 (proj2 safe_move_collision_safe) w src1 src2 ["out"]
                10%Z "first" 20%Z "second"
                ltac:(discriminate) eq_refl eq_refl eq_refl eq_refl eq_refl
                eq_refl eq_refl eq_refl)
      as (p1 & p2 & w1 & w2 & R1 & R2 & Ne & L1 & L2 & _).
    { intros i Hi. destruct i as [|[|[|[|[|i]]]]]; try reflexivity.
      vm_compute in Hi. lia. }
    exists p1, p2, w1, w2. repeat split; assumption.
Defined.

(* ================================================================== *)
(** * Accounting *)
(* ================================================================== *)

Lemma shutil_move_stats src dst w :
  w_stats (snd (shutil_move src dst w)) = w_stats w /\
  w_log (snd (shutil_move src dst w)) = w_log w /\
  fst (shutil_move src dst w) <> OutOfFuel.
Proof.
  unfold shutil_move. mrun.
  destruct (is_dir_at dst (w_fs w) && exists_at _ _)%bool; [cbn; repeat split; discriminate|].
  destruct (lookup src (w_fs w)); [|cbn; repeat split; discriminate].
  destruct (detach src (w_fs w)); [|cbn; repeat split; discriminate].
  destruct (attach _ _ _); cbn; repeat split; discriminate.
Qed.

Lemma rename_loop_stats src dd name ext fuel : forall i w,
  match rename_loop fuel src dd name ext i w with
  | (Ret _, w') => w_stats w' = incr_files_moved (w_stats w)
  | (_, w') => w_stats w' = w_stats w
  end.
Proof.
  induction fuel as [|fuel IH]; intros i w; [reflexivity|].
  cbn [rename_loop]. mrun.
  destruct (exists_at (dd // candidate_name name ext i) (w_fs w)); mrun.
  - apply IH.
  - destruct (shutil_move_stats src (dd // candidate_name name ext i) w) as (St & _ & NT).
    destruct (shutil_move src (dd // candidate_name name ext i) w) as [[u|e|] w'];
      cbn in *; congruence.
Qed.

Lemma ensure_dir_stats p w :
  match ensure_dir p w with
  | (Ret _, w') => w_stats w' = w_stats w \/
                   w_stats w' = incr_folders_created (w_stats w)
  | (Raise _, w') => w' = w
  | (OutOfFuel, _) => False
  end.
Proof.
  unfold ensure_dir. mrun.
  destruct (exists_at p (w_fs w)); mrun.
  - left. reflexivity.
  - destruct (mkdir_p p (w_fs w)); mrun; [right; reflexivity | now destruct w].
Qed.

(** How [safe_move] counts, whatever it is given: when the directory cannot
    be made the call raises and no counter moves; otherwise the file is
    scanned, and it is either moved or an error. *)
Lemma safe_move_accounting src dd w :
  match safe_move src dd w with
  | (Ret _, w') =>
      exists s1, (s1 = w_stats w \/ s1 = incr_folders_created (w_stats w)) /\
                 w_stats w' = incr_files_moved (incr_scanned s1)
  | (Raise _, w') =>
      w' = w \/
      exists s1, (s1 = w_stats w \/ s1 = incr_folders_created (w_stats w)) /\
                 w_stats w' = incr_errors (incr_scanned s1)
  | (OutOfFuel, _) => False
  end.
Proof.
  pose proof (safe_move_never_out_of_fuel src dd w) as NT.
  unfold safe_move in *. unfold bind at 1. unfold bind at 1 in NT.
  pose proof (ensure_dir_stats dd w) as En.
  destruct (ensure_dir dd w) as [[u|e|] w1]; [|left; assumption|contradiction].
  revert NT. mrun.
  destruct (exists_at (dd // path_name src) (w_fs w1)); mrun.
  - set (w2 := {| w_fs := w_fs w1; w_stats := incr_scanned (w_stats w1);
                  w_log := w_log w1 |}).
    pose proof (rename_loop_stats src dd (path_stem src) (path_suffix src)
                  (loop_bound dd (w_fs w1)) 1 w2) as Lp.
    destruct (rename_loop _ _ _ _ _ _ w2) as [[p|e|] w3]; cbn in *; intros NT.
    + exists (w_stats w1). split; [intuition congruence | assumption].
    + right. exists (w_stats w1). split; [intuition congruence | now rewrite Lp].
    + congruence.
  - set (w2 := {| w_fs := w_fs w1; w_stats := incr_scanned (w_stats w1);
                  w_log := w_log w1 |}).
    destruct (shutil_move_stats src (dd // path_name src) w2) as (St & _ & NT').
    destruct (shutil_move src (dd // path_name src) w2) as [[u'|e|] w3];
      cbn in *; intros NT.
    + exists (w_stats w1). split; [intuition congruence | now rewrite St].
    + right. exists (w_stats w1). split; [intuition congruence | now rewrite St].
    + congruence.
Qed.

(** C4, the failing input.  The root [dl] holds a regular file named
    [Images] and the picture [a.jpg]; the planner asks for
    [dl/Images/2023/Mar]; the directory cannot be made; [safe_move] raises,
    and [errors] (as every other counter) is what it was. *)
Theorem safe_move_mkdir_failure_uncounted :
  let w := {| w_fs := Dir [("dl", Dir [("Images", File 0 "notes");
                                       ("a.jpg", File 1678886400 "A")])];
              w_stats := make_stats; w_log := [] |} in
  safe_move ["dl"; "a.jpg"] ["dl"; "Images"; "2023"; "Mar"] w = (Raise OSError, w)
  /\ errors (w_stats (snd (safe_move ["dl"; "a.jpg"]
                             ["dl"; "Images"; "2023"; "Mar"] w))) = 0%Z.
Proof. split; reflexivity. Qed.

(** A failure of the move itself is counted: the same file, sent to
    [dl/Images], a regular file, is scanned and is an error. *)
Lemma safe_move_move_failure_counted :
  let w := {| w_fs := Dir [("dl", Dir [("Images", File 0 "notes");
                                       ("a.jpg", File 1678886400 "A")])];
              w_stats := make_stats; w_log := [] |} in
  safe_move ["dl"; "a.jpg"] ["dl"; "Images"] w =
    (Raise OSError,
     {| w_fs := w_fs w;
        w_stats := incr_errors (incr_scanned make_stats);
        w_log := [LogFailedMove ["dl"; "a.jpg"]] |}).
Proof. reflexivity. Qed.

(* ================================================================== *)
(** * Directories created and directories counted *)
(* ================================================================== *)

Lemma count_dirs_cons n c r :
  count_dirs (Dir ((n, c) :: r)) = weight c + count_dirs (Dir r).
Proof. reflexivity. Qed.

Lemma count_dirs_snoc es n c :
  count_dirs (Dir (es ++ [(n, c)])) = count_dirs (Dir es) + weight c.
Proof.
  induction es as [|[k c0] es IH].
  - rewrite app_nil_l, count_dirs_cons. simpl. lia.
  - rewrite <- app_comm_cons, !count_dirs_cons, IH. lia.
Qed.

Lemma count_dirs_set_entry n c c' es :
  find_entry n es = Some c ->
  count_dirs (Dir (set_entry n c' es)) + weight c =
  count_dirs (Dir es) + weight c'.
Proof.
  induction es as [|[k c0] es IH]; intros F; [discriminate|].
  cbn [find_entry set_entry] in *.
  destruct (n =? k).
  - injection F as ->. rewrite !count_dirs_cons. lia.
  - rewrite !count_dirs_cons. specialize (IH F). lia.
Qed.

Lemma missing_segments_empty p : missing_segments p (Dir []) = List.length p.
Proof. destruct p; reflexivity. Qed.

Lemma mkdir_p_is_dir p t t' : mkdir_p p t = Some t' -> is_dir_node t' = true /\ is_dir_node t = true.
Proof.
  destruct t as [m x|es]; [destruct p; discriminate|].
  destruct p as [|n p]; cbn [mkdir_p].
  - intros H. injection H as <-. auto.
  - destruct (find_entry n es) as [c|].
    + destruct (mkdir_p p c); [|discriminate]. intros H. injection H as <-. auto.
    + destruct (mkdir_p p (Dir [])); [|discriminate]. intros H. injection H as <-. auto.
Qed.

(** [mkdir_p] makes one directory for each missing segment. *)
Lemma count_dirs_mkdir_p p : forall t t',
  mkdir_p p t = Some t' ->
  count_dirs t' = count_dirs t + missing_segments p t.
Proof.
  induction p as [|n p IH]; intros t t' H.
  - destruct t; [discriminate|]. injection H as <-. simpl. lia.
  - destruct t as [m x|es]; [discriminate|].
    cbn [mkdir_p missing_segments] in *.
    destruct (find_entry n es) as [c|] eqn:F.
    + destruct (mkdir_p p c) as [c'|] eqn:Mk; [|discriminate].
      injection H as <-.
      pose proof (count_dirs_set_entry n c c' es F) as E.
      pose proof (IH c c' Mk) as E'.
      destruct (mkdir_p_is_dir p c c' Mk) as [D' D].
      unfold weight in E. rewrite D, D' in E. lia.
    + destruct (mkdir_p p (Dir [])) as [c'|] eqn:Mk; [|discriminate].
      injection H as <-.
      pose proof (IH _ _ Mk) as E'. rewrite missing_segments_empty in E'.
      destruct (mkdir_p_is_dir p _ c' Mk) as [D' _].
      rewrite count_dirs_snoc. unfold weight. rewrite D'. simpl in E'. lia.
Qed.

Lemma missing_segments_positive p : forall t t',
  mkdir_p p t = Some t' -> exists_at p t = false -> 1 <= missing_segments p t.
Proof.
  induction p as [|n p IH]; intros t t' H E; [discriminate|].
  destruct t as [m x|es]; [discriminate|].
  cbn [mkdir_p missing_segments] in *. unfold exists_at in *. cbn [lookup] in E.
  destruct (find_entry n es) as [c|] eqn:F; [|lia].
  destruct (mkdir_p p c) as [c'|] eqn:Mk; [|discriminate].
  apply (IH c c' Mk E).
Qed.

(** C9.  A call of [ensure_dir] on a path that is not there, and that can
    be made, adds exactly one to [folders_created], while it makes as many
    directories as the path has missing segments, at least one; and this
    number can be larger than one: the counter counts the paths made, not
    the directories. *)
Theorem ensure_dir_counts_paths :
  (forall w p,
      exists_at p (w_fs w) = false ->
      no_file_on p (w_fs w) = true ->
      exists t',
        ensure_dir p w =
          (Ret tt, {| w_fs := t';
                      w_stats := incr_folders_created (w_stats w);
                      w_log := w_log w |}) /\
        folders_created (incr_folders_created (w_stats w)) =
          (folders_created (w_stats w) + 1)%Z /\
        is_dir_at p t' = true /\
        count_dirs t' = count_dirs (w_fs w) + missing_segments p (w_fs w) /\
        1 <= missing_segments p (w_fs w))
  /\
  (exists w p w',
      exists_at p (w_fs w) = false /\
      ensure_dir p w = (Ret tt, w') /\
      folders_created (w_stats w') = (folders_created (w_stats w) + 1)%Z /\
      count_dirs (w_fs w') = count_dirs (w_fs w) + 3).
Proof.
  split.
  - intros w p E NF.
    destruct (mkdir_p_succeeds p (w_fs w) (no_file_on_spec p _ NF)) as [t' Mk].
    exists t'. split; [now apply ensure_dir_created|].
    split; [reflexivity|]. split; [|split].
    + rewrite is_dir_at_kind, (mkdir_p_kind p _ _ Mk).
      rewrite exists_at_kind in E.
      destruct (kind_at p (w_fs w)); [discriminate|].
      now rewrite is_prefix_refl.
    + now apply count_dirs_mkdir_p.
    + eapply missing_segments_positive; eassumption.
  - exists {| w_fs := Dir [("dl", Dir [])]; w_stats := make_stats; w_log := [] |},
      ["dl"; "Images"; "2023"; "Mar"].
    eexists. repeat split.
Qed.

Lemma ensure_dir_counts_paths_witness :
  let w := {| w_fs := Dir [("dl", Dir [("a.jpg", File 1678886400 "A")])];
              w_stats := make_stats; w_log := [] |} in
  exists t',
    ensure_dir ["dl"; "Images"; "2023"; "Mar"] w =
      (Ret tt, {| w_fs := t'; w_stats := incr_folders_created make_stats;
                  w_log := [] |}) /\
    count_dirs t' = count_dirs (w_fs w) + 3.
Proof.
  intros w.
  destruct (proj1 ensure_dir_counts_paths w ["dl"; "Images"; "2023"; "Mar"]
              eq_refl eq_refl) as (t' & Run & _ & _ & Cn & _).
  exists t'. split; [exact Run | exact Cn].
Defined.

(* ================================================================== *)
(** * Calendar facts *)
(* ================================================================== *)

Lemma all_from_spec (f : Z -> bool) (n : nat) : forall z x,
  all_from f n z = true ->
  (z <= x < z + Z.of_nat n)%Z -> f x = true.
Proof.
  induction n as [|n IH]; intros z x H R; [lia|].
  cbn [all_from] in H. apply andb_true_iff in H. destruct H as [H0 H1].
  destruct (Z.eq_dec x z) as [->|Ne]; [assumption|].
  apply (IH (z + 1)%Z x H1). lia.
Qed.

(** The month of a day is one of the twelve. *)
Lemma civil_month_range (days : Z) : (1 <= snd (civil_of_days days) <= 12)%Z.
Proof.
  unfold civil_of_days. cbv zeta. cbn [snd].
  match goal with
  | |- context [if ?c then _ else _] => destruct c eqn:E
  end;
    [apply Z.ltb_lt in E | apply Z.ltb_ge in E];
    Z.to_euclidean_division_equations; lia.
Qed.

Lemma month_abbr_shape (m : Z) :
  (1 <= m <= 12)%Z ->
  String.length (month_abbr m) = 3 /\ plain (month_abbr m) = true.
Proof.
  intros R.
  assert (C : all_from (fun m => ((String.length (month_abbr m) =? 3)%nat
                                  && plain (month_abbr m))%bool) 12 1 = true)
    by reflexivity.
  pose proof (all_from_spec _ _ 1%Z m C ltac:(lia)) as H. cbv beta in H.
  apply andb_true_iff in H. destruct H as [H1 H2].
  apply Nat.eqb_eq in H1. auto.
Qed.

(** The decimal notation of a year that [datetime] holds is a proper
    segment, and has four digits from the year 1000 on. *)
Lemma year_str_shape (y : Z) :
  (1 <= y <= 9999)%Z ->
  plain (str_of_Z y) = true /\
  ((1000 <= y)%Z -> String.length (str_of_Z y) = 4).
Proof.
  intros R.
  assert (C : all_from (fun y => (plain (str_of_Z y) &&
                                  ((y <? 1000)%Z || (String.length (str_of_Z y) =? 4)%nat))%bool)
                (Z.to_nat 9999) 1 = true) by (vm_compute; reflexivity).
  pose proof (all_from_spec _ _ 1%Z y C) as H.
  cbv beta in H. rewrite Z2Nat.id in H by lia. specialize (H ltac:(lia)).
  apply andb_true_iff in H. destruct H as [H1 H2]. split; [assumption|].
  intros L. apply orb_true_iff in H2. destruct H2 as [H2|H2].
  - apply Z.ltb_lt in H2. lia.
  - now apply Nat.eqb_eq in H2.
Qed.

(* ================================================================== *)
(** * Move planner *)
(* ================================================================== *)

Lemma st_mtime_file p w m x :
  lookup p (w_fs w) = Some (File m x) -> st_mtime p w = (Ret m, w).
Proof. intros H. unfold st_mtime. mrun. rewrite H. reflexivity. Qed.

Lemma fromtimestamp_ok tz ts w y mo :
  civil_of_days ((ts + tz ts) / 86400) = (y, mo) ->
  (1 <= y <= 9999)%Z ->
  fromtimestamp tz ts w = (Ret (y, mo), w).
Proof.
  intros C R. unfold fromtimestamp. rewrite C. cbn [fst].
  assert (E : ((1 <=? y)%Z && (y <=? 9999)%Z)%bool = true).
  { apply andb_true_iff. split; apply Z.leb_le; lia. }
  now rewrite E.
Qed.

(** The three planners, for a regular file whose time stamp falls in the
    year [y] and the month [mo]. *)
Lemma organize_plans tz w p target rules m x y mo :
  lookup p (w_fs w) = Some (File m x) ->
  civil_of_days ((m + tz m) / 86400) = (y, mo) ->
  (1 <= y <= 9999)%Z ->
  let cat := resolve_folder_for_ext (normalize_ext (path_suffix p)) rules in
  organize_by_type_then_date tz p target rules w =
    safe_move p (target // cat // str_of_Z y // month_abbr mo) w /\
  organize_by_date_then_type tz p target rules w =
    safe_move p (target // str_of_Z y // month_abbr mo // cat) w /\
  organize_flat_type p target rules w = safe_move p (target // cat) w.
Proof.
  intros L C R cat.
  pose proof (st_mtime_file p w m x L) as St.
  pose proof (fromtimestamp_ok tz m w y mo C R) as Ft.
  repeat split.
  - unfold organize_by_type_then_date, month_name_from_ts.
    unfold bind at 1. rewrite St. unfold bind at 1. rewrite Ft.
    unfold bind at 1. unfold bind at 1. rewrite Ft. reflexivity.
  - unfold organize_by_date_then_type, month_name_from_ts.
    unfold bind at 1. rewrite St. unfold bind at 1. rewrite Ft.
    unfold bind at 1. unfold bind at 1. rewrite Ft. reflexivity.
Qed.

(** The number of digits of a year that [datetime] holds: four from the
    year 1000 on, fewer before, [str] padding with no zero. *)
Lemma year_str_digits (y : Z) :
  (1 <= y <= 9999)%Z ->
  (String.length (str_of_Z y) = 4 <-> (1000 <= y)%Z) /\
  1 <= String.length (str_of_Z y) <= 4.
Proof.
  intros R.
  assert (C : all_from
                (fun y => (Bool.eqb (String.length (str_of_Z y) =? 4)%nat
                                    (1000 <=? y)%Z &&
                           (1 <=? String.length (str_of_Z y))%nat &&
                           (String.length (str_of_Z y) <=? 4)%nat)%bool)
                (Z.to_nat 9999) 1 = true) by (vm_compute; reflexivity).
  pose proof (all_from_spec _ _ 1%Z y C) as H.
  cbv beta in H. rewrite Z2Nat.id in H by lia. specialize (H ltac:(lia)).
  apply andb_true_iff in H. destruct H as [H H3].
  apply andb_true_iff in H. destruct H as [H1 H2].
  apply Nat.leb_le in H2, H3. apply Bool.eqb_prop in H1.
  split; [|lia]. split; intros E.
  - apply Z.leb_le. rewrite <- H1. now apply Nat.eqb_eq.
  - apply Nat.eqb_eq. rewrite H1. now apply Z.leb_le.
Qed.

(** A time stamp that can be converted falls in a year that [datetime]
    holds. *)
Lemma convertible_year tz ts :
  convertible tz ts = true ->
  (1 <= fst (civil_of_days ((ts + tz ts) / 86400)) <= 9999)%Z.
Proof.
  unfold convertible, probes. cbn [forallb]. intros H.
  apply andb_true_iff in H. destruct H as [H _].
  apply andb_true_iff in H. destruct H as [H1 H2].
  apply Z.leb_le in H1, H2. unfold local_year in H1, H2. lia.
Qed.

(** C5 (as amended).  The planner of layout [type_only] (any method but
    ["type_date"] and ["date_type"]) moves every file to [target/category],
    reading no time.  For a regular file whose last-modified time can be
    converted by [datetime.fromtimestamp] and falls in the year [y] and the
    month [mo] of local time, the planner of layout [type_then_date]
    (method ["type_date"]) moves it to [target/category/year/month] and
    that of [date_then_type] (method ["date_type"]) to
    [target/year/month/category]; [category] is the classifier's answer
    for the normalized suffix, [year] the decimal notation of [y], which
    has four digits from the year 1000 on and fewer before, and [month]
    the three-letter abbreviation of [mo].  For a ["jpg"] file of March
    2023 and the default rules these are [Images/2023/Mar],
    [2023/Mar/Images] and [Images] below the target. *)
Theorem organize_destination :
  forall tz w p target rules,
    let cat := resolve_folder_for_ext (normalize_ext (path_suffix p)) rules in
    (forall method, method <> "type_date" -> method <> "date_type" ->
       organize tz method p target rules w = safe_move p (target // cat) w) /\
    (forall m x y mo,
        lookup p (w_fs w) = Some (File m x) ->
        convertible tz m = true ->
        civil_of_days ((m + tz m) / 86400) = (y, mo) ->
        let year := str_of_Z y in
        let mon := month_abbr mo in
        organize tz "type_date" p target rules w =
          safe_move p (target // cat // year // mon) w /\
        organize tz "date_type" p target rules w =
          safe_move p (target // year // mon // cat) w /\
        target // cat // year // mon = (target // cat) ++ [year; mon] /\
        target // year // mon // cat = (target ++ [year; mon]) // cat /\
        (1 <= y <= 9999)%Z /\ (1 <= mo <= 12)%Z /\
        String.length mon = 3 /\
        (String.length year = 4 <-> (1000 <= y)%Z) /\
        1 <= String.length year <= 4 /\
        (normalize_ext (path_suffix p) = "jpg" -> rules = build_rules [] ->
         y = 2023%Z -> mo = 3%Z ->
         target // cat // year // mon = target ++ ["Images"; "2023"; "Mar"] /\
         target // year // mon // cat = target ++ ["2023"; "Mar"; "Images"] /\
         target // cat = target ++ ["Images"])).
Proof.
  intros tz w p target rules cat. split.
  - intros method N1 N2. unfold organize.
    apply String.eqb_neq in N1, N2. now rewrite N1, N2.
  - intros m x y mo L Cv C year mon.
    assert (R : (1 <= y <= 9999)%Z).
    { pose proof (convertible_year tz m Cv) as H. now rewrite C in H. }
    destruct (organize_plans tz w p target rules m x y mo L C R) as (P1 & P2 & _).
    destruct (year_str_shape y R) as [Py _].
    destruct (year_str_digits y R) as [Ly Ry].
    assert (Rm : (1 <= mo <= 12)%Z).
    { pose proof (civil_month_range ((m + tz m) / 86400)) as H. now rewrite C in H. }
    destruct (month_abbr_shape mo Rm) as [Lm Pm].
    split; [exact P1|]. split; [exact P2|].
    split; [|split; [|split; [exact R|split; [exact Rm|split; [exact Lm|
      split; [exact Ly|split; [exact Ry|]]]]]]].
    + unfold year, mon.
      rewrite (path_div_plain _ (month_abbr mo) Pm), (path_div_plain _ (str_of_Z y) Py).
      now rewrite <- app_assoc.
    + unfold year, mon.
      rewrite (path_div_plain _ (month_abbr mo) Pm), (path_div_plain _ (str_of_Z y) Py).
      now rewrite <- app_assoc.
    + intros E -> -> ->. unfold cat, year, mon. rewrite E.
      replace (resolve_folder_for_ext "jpg" (build_rules [])) with "Images"
        by (vm_compute; reflexivity).
      replace (str_of_Z 2023) with "2023" by (vm_compute; reflexivity).
      replace (month_abbr 3) with "Mar" by (vm_compute; reflexivity).
      rewrite !path_div_plain by reflexivity.
      rewrite <- !app_assoc. repeat split.
Qed.

(** C5 as it is stated does not hold of every file: the year is written
    without padding, so a ["jpg"] file last modified on 15 June 906, a time
    the library converts, goes to [Images/906/Jun], whose year has three
    digits; and for a file last modified in the year 10000 the dated
    planners compute no destination at all, the conversion raising
    [ValueError]. *)
Lemma organize_year_not_four_digits :
  let utc := fun _ : Z => 0%Z in
  let p := ["dl"; "deed.jpg"] in
  let w906 :=
    {| w_fs := Dir [("dl", Dir [("deed.jpg", File (-33562339200) "A")])];
       w_stats := make_stats; w_log := [] |} in
  let w10000 :=
    {| w_fs := Dir [("dl", Dir [("deed.jpg", File 253402300800 "A")])];
       w_stats := make_stats; w_log := [] |} in
  convertible utc (-33562339200) = true /\
  organize utc "type_date" p ["dl"] (build_rules []) w906 =
    safe_move p ["dl"; "Images"; "906"; "Jun"] w906 /\
  organize utc "date_type" p ["dl"] (build_rules []) w906 =
    safe_move p ["dl"; "906"; "Jun"; "Images"] w906 /\
  String.length "906" <> 4 /\
  organize utc "type_date" p ["dl"] (build_rules []) w10000 =
    (Raise ValueError, w10000) /\
  organize utc "date_type" p ["dl"] (build_rules []) w10000 =
    (Raise ValueError, w10000).
Proof.
  cbv zeta.
  split; [vm_compute; reflexivity|].
  split; [vm_compute; reflexivity|].
  split; [vm_compute; reflexivity|].
  split; [discriminate|].
  split; vm_compute; reflexivity.
Qed.

Lemma organize_destination_witness :
  let w := {| w_fs := Dir [("dl", Dir [("holiday.JPG", File 1678886400 "A")])];
              w_stats := make_stats; w_log := [] |} in
  let p := ["dl"; "holiday.JPG"] in
  let utc := fun _ : Z => 0%Z in
  organize utc "type_date" p ["dl"] (build_rules []) w =
    safe_move p ["dl"; "Images"; "2023"; "Mar"] w /\
  organize utc "date_type" p ["dl"] (build_rules []) w =
    safe_move p ["dl"; "2023"; "Mar"; "Images"] w /\
  organize utc "type" p ["dl"] (build_rules []) w =
    safe_move p ["dl"; "Images"] w.
Proof.
  intros w p utc.
  destruct (organize_destination utc w p ["dl"] (build_rules [])) as (P3 & D).
  destruct (D 1678886400%Z "A" 2023%Z 3%Z eq_refl eq_refl eq_refl)
    as (P1 & P2 & _).
  split; [exact P1|]. split; [exact P2|].
  apply P3; discriminate.
Defined.

Lemma forallb_not_mem (x : string) (rules : list rule) :
  forallb (fun r => negb (Str.mem x (snd r))) rules = true ->
  forall r, In r rules -> ~ In x (snd r).
Proof.
  rewrite forallb_forall. intros H r I.
  apply mem_not_In. apply negb_true_iff. now apply H.
Qed.

(** C10.  A file whose name has no extension, its suffix being empty, is
    classified ["Others"] by every rule table none of whose entries lists
    the empty string, and each of the three planners then sends it to the
    [Others] folder of its layout. *)
Theorem no_extension_goes_to_others :
  forall tz w p target rules,
    path_suffix p = "" ->
    (forall r, In r rules -> ~ In "" (snd r)) ->
    resolve_folder_for_ext (normalize_ext (path_suffix p)) rules = "Others" /\
    organize_flat_type p target rules w = safe_move p (target ++ ["Others"]) w /\
    (forall m x y mo,
        lookup p (w_fs w) = Some (File m x) ->
        civil_of_days ((m + tz m) / 86400) = (y, mo) ->
        (1 <= y <= 9999)%Z ->
        organize_by_type_then_date tz p target rules w =
          safe_move p (target ++ ["Others"; str_of_Z y; month_abbr mo]) w /\
        organize_by_date_then_type tz p target rules w =
          safe_move p (target ++ [str_of_Z y; month_abbr mo; "Others"]) w).
Proof.
  intros tz w p target rules Sx NoEmpty.
  assert (Cat : resolve_folder_for_ext (normalize_ext (path_suffix p)) rules
                = "Others").
  { rewrite Sx. change (normalize_ext "") with "". now apply resolve_none. }
  split; [exact Cat|]. split.
  - unfold organize_flat_type. rewrite Cat. reflexivity.
  - intros m x y mo L C R.
    destruct (organize_plans tz w p target rules m x y mo L C R) as (P1 & P2 & _).
    destruct (year_str_shape y R) as [Py _].
    assert (Rm : (1 <= mo <= 12)%Z).
    { pose proof (civil_month_range ((m + tz m) / 86400)) as H. now rewrite C in H. }
    destruct (month_abbr_shape mo Rm) as [_ Pm].
    rewrite P1, P2, Cat.
    rewrite !(path_div_plain _ (month_abbr mo) Pm), !(path_div_plain _ (str_of_Z y) Py).
    rewrite !(path_div_plain _ "Others") by reflexivity.
    rewrite <- !app_assoc. split; reflexivity.
Qed.

Lemma no_extension_goes_to_others_witness :
  let w := {| w_fs := Dir [("dl", Dir [("README", File 1678886400 "text")])];
              w_stats := make_stats; w_log := [] |} in
  let p := ["dl"; "README"] in
  let utc := fun _ : Z => 0%Z in
  resolve_folder_for_ext (normalize_ext (path_suffix p)) (build_rules []) = "Others" /\
  organize_flat_type p ["dl"] (build_rules []) w =
    safe_move p ["dl"; "Others"] w /\
  organize_by_type_then_date utc p ["dl"] (build_rules []) w =
    safe_move p ["dl"; "Others"; "2023"; "Mar"] w /\
  organize_by_date_then_type utc p ["dl"] (build_rules []) w =
    safe_move p ["dl"; "2023"; "Mar"; "Others"] w.
Proof.
  intros w p utc.
  destruct (no_extension_goes_to_others utc w p ["dl"] (build_rules []) eq_refl
              (forallb_not_mem "" (build_rules []) eq_refl))
    as (C & F & D).
  destruct (D 1678886400%Z "text" 2023%Z 3%Z eq_refl eq_refl ltac:(lia)) as (D1 & D2).
  split; [exact C|]. split; [exact F|]. split; [exact D1 | exact D2].
Defined.

(* ================================================================== *)
(** * The counters over a run *)
(* ================================================================== *)

Lemma stats_le_refl s : stats_le s s.
Proof. unfold stats_le. lia. Qed.

Lemma stats_le_trans a b c : stats_le a b -> stats_le b c -> stats_le a c.
Proof. unfold stats_le. lia. Qed.

Lemma stats_step_refl s : stats_step s s.
Proof. split; [apply stats_le_refl | auto]. Qed.

Lemma stats_step_trans a b c : stats_step a b -> stats_step b c -> stats_step a c.
Proof.
  intros [L1 K1] [L2 K2]. split; [eapply stats_le_trans; eassumption | auto].
Qed.

Lemma step_folders_created s : stats_step s (incr_folders_created s).
Proof. unfold stats_step, stats_le, stats_ok. cbn. lia. Qed.

Lemma step_folders_deleted s : stats_step s (incr_folders_deleted s).
Proof. unfold stats_step, stats_le, stats_ok. cbn. lia. Qed.

Lemma step_moved s : stats_step s (incr_files_moved (incr_scanned s)).
Proof. unfold stats_step, stats_le, stats_ok. cbn. lia. Qed.

Lemma step_error s : stats_step s (incr_errors (incr_scanned s)).
Proof. unfold stats_step, stats_le, stats_ok. cbn. lia. Qed.

Lemma counts_well_ret {A} (a : A) : counts_well (ret a).
Proof. intros w. apply stats_step_refl. Qed.

Lemma counts_well_raise {A} (e : exn) : counts_well (@raise A e).
Proof. intros w. apply stats_step_refl. Qed.

Lemma counts_well_out_of_fuel {A} : counts_well (@out_of_fuel A).
Proof. intros w. apply stats_step_refl. Qed.

Lemma counts_well_log (e : event) : counts_well (log e).
Proof. intros w. apply stats_step_refl. Qed.

Lemma counts_well_bind {A B} (m : M A) (k : A -> M B) :
  counts_well m -> (forall a, counts_well (k a)) -> counts_well (bind m k).
Proof.
  intros Hm Hk w. unfold bind. specialize (Hm w).
  destruct (m w) as [[a|e|] w1]; cbn [snd] in *; try assumption.
  eapply stats_step_trans; [exact Hm | apply Hk].
Qed.

Lemma counts_well_try {A} (m : M A) (h : exn -> M A) :
  counts_well m -> (forall e, counts_well (h e)) -> counts_well (try_except m h).
Proof.
  intros Hm Hh w. unfold try_except. specialize (Hm w).
  destruct (m w) as [[a|e|] w1]; cbn [snd] in *; try assumption.
  eapply stats_step_trans; [exact Hm | apply Hh].
Qed.

Lemma counts_well_for_each {A} (xs : list A) (body : A -> M unit) :
  (forall x, counts_well (body x)) -> counts_well (for_each xs body).
Proof.
  intros H. induction xs as [|x xs IH]; cbn [for_each].
  - apply counts_well_ret.
  - apply counts_well_bind; [apply H | intros _; exact IH].
Qed.

(** A computation that leaves the counters alone. *)
Lemma counts_well_same {A} (m : M A) :
  (forall w, w_stats (snd (m w)) = w_stats w) -> counts_well m.
Proof. intros H w. rewrite H. apply stats_step_refl. Qed.

Lemma counts_well_ensure_dir p : counts_well (ensure_dir p).
Proof.
  intros w. pose proof (ensure_dir_stats p w) as H.
  destruct (ensure_dir p w) as [[u|e|] w1]; cbn [snd]; [|subst; apply stats_step_refl|contradiction].
  destruct H as [->| ->]; [apply stats_step_refl | apply step_folders_created].
Qed.

Lemma counts_well_safe_move src dd : counts_well (safe_move src dd).
Proof.
  intros w. pose proof (safe_move_accounting src dd w) as H.
  destruct (safe_move src dd w) as [[p|e|] w1]; cbn [snd]; [| |contradiction].
  - destruct H as (s1 & [->| ->] & ->).
    + apply step_moved.
    + eapply stats_step_trans; [apply step_folders_created | apply step_moved].
  - destruct H as [->|(s1 & [->| ->] & ->)].
    + apply stats_step_refl.
    + apply step_error.
    + eapply stats_step_trans; [apply step_folders_created | apply step_error].
Qed.

Lemma counts_well_scandir top : counts_well (scandir top).
Proof.
  apply counts_well_same. intros w. unfold scandir. mrun.
  now destruct (lookup top (w_fs w)) as [[|]|].
Qed.

Lemma counts_well_reap_body root dirs files : counts_well (reap_body root dirs files).
Proof.
  unfold reap_body. apply counts_well_for_each. intros d.
  apply counts_well_try; [|intros e; apply counts_well_log].
  apply counts_well_bind.
  - apply counts_well_same. intros w. unfold iterdir_any. mrun.
    now destruct (lookup (root // d) (w_fs w)) as [[|]|].
  - intros b. destruct b; cbn [negb]; [apply counts_well_ret|].
    apply counts_well_bind.
    + apply counts_well_same. intros w. unfold path_rmdir. mrun.
      destruct (lookup (root // d) (w_fs w)) as [[|[|]]|]; try reflexivity.
      now destruct (detach (root // d) (w_fs w)).
    + intros _. apply counts_well_bind; [|intros _; apply counts_well_log].
      intros w. cbn. apply step_folders_deleted.
Qed.

Lemma counts_well_walk_bottomup fuel body :
  (forall root dirs files, counts_well (body root dirs files)) ->
  forall top, counts_well (walk_bottomup fuel body top).
Proof.
  intros Hb. induction fuel as [|fuel IH]; intros top; cbn [walk_bottomup].
  - apply counts_well_out_of_fuel.
  - apply counts_well_bind; [apply counts_well_scandir|].
    intros [[dirs files]|]; [|apply counts_well_ret].
    apply counts_well_bind; [|intros _; apply Hb].
    apply counts_well_for_each. intros d. apply IH.
Qed.

Lemma counts_well_delete_empty_folders fuel p :
  counts_well (delete_empty_folders fuel p).
Proof. apply counts_well_walk_bottomup, counts_well_reap_body. Qed.

Lemma counts_well_st_mtime p : counts_well (st_mtime p).
Proof.
  apply counts_well_same. intros w. unfold st_mtime. mrun.
  now destruct (lookup p (w_fs w)) as [[|]|].
Qed.

Lemma counts_well_fromtimestamp tz ts : counts_well (fromtimestamp tz ts).
Proof.
  apply counts_well_same. intros w. unfold fromtimestamp.
  now destruct (_ && _)%bool.
Qed.

Ltac counts :=
  first [ apply counts_well_safe_move
        | apply counts_well_st_mtime
        | apply counts_well_fromtimestamp
        | apply counts_well_ret
        | apply counts_well_bind; [counts | intros ?; counts] ].

Lemma counts_well_organize tz method src target rules :
  counts_well (organize tz method src target rules).
Proof.
  unfold organize.
  destruct (method =? "type_date"); [|destruct (method =? "date_type")].
  - unfold organize_by_type_then_date, month_name_from_ts. counts.
  - unfold organize_by_date_then_type, month_name_from_ts. counts.
  - apply counts_well_safe_move.
Qed.

Lemma counts_well_scan_body tz target method recursive rules root dirs files :
  counts_well (scan_body tz target method recursive rules root dirs files).
Proof.
  unfold scan_body.
  destruct (_ && negb recursive)%bool; [apply counts_well_ret|].
  apply counts_well_bind.
  - apply counts_well_for_each. intros f.
    apply counts_well_try; [|intros e; apply counts_well_log].
    apply counts_well_bind; [apply counts_well_organize | intros _; apply counts_well_ret].
  - intros _. destruct (negb recursive); apply counts_well_ret.
Qed.

Lemma counts_well_walk_topdown fuel body :
  (forall root dirs files, counts_well (body root dirs files)) ->
  forall top, counts_well (walk_topdown fuel body top).
Proof.
  intros Hb. induction fuel as [|fuel IH]; intros top; cbn [walk_topdown].
  - apply counts_well_out_of_fuel.
  - apply counts_well_bind; [apply counts_well_scandir|].
    intros [[dirs files]|]; [|apply counts_well_ret].
    apply counts_well_bind; [apply Hb|].
    intros [|]; [|apply counts_well_ret].
    induction dirs as [|d r IHr]; [apply counts_well_ret|].
    apply counts_well_bind; [apply IH|].
    intros [|]; [exact IHr | apply counts_well_ret].
Qed.

Lemma counts_well_deep_scan tz fuel target method recursive delete_empty cfg :
  counts_well (deep_scan_and_organize tz fuel target method recursive
                 delete_empty cfg).
Proof.
  unfold deep_scan_and_organize.
  apply counts_well_bind.
  - apply counts_well_same. intros w. reflexivity.
  - intros e. destruct (negb e); [apply counts_well_log|].
    apply counts_well_bind.
    + apply counts_well_walk_topdown. intros. apply counts_well_scan_body.
    + intros _. destruct delete_empty;
        [apply counts_well_delete_empty_folders | apply counts_well_ret].
Qed.

Lemma run_op_step tz o w : stats_step (w_stats w) (w_stats (run_op tz o w)).
Proof.
  destruct o; cbn [run_op].
  - apply counts_well_safe_move.
  - apply counts_well_ensure_dir.
  - apply counts_well_delete_empty_folders.
  - apply counts_well_organize.
  - apply counts_well_deep_scan.
Qed.

Lemma run_ops_step tz ops : forall w,
  stats_step (w_stats w) (w_stats (run_ops tz ops w)).
Proof.
  induction ops as [|o ops IH]; intros w; cbn [run_ops fold_left].
  - apply stats_step_refl.
  - eapply stats_step_trans; [apply run_op_step | apply IH].
Qed.

Lemma make_stats_ok : stats_ok make_stats.
Proof. unfold stats_ok. cbn. lia. Qed.

(** C8.  From fresh counters, after any sequence of operations
    ([safe_move], [ensure_dir], [delete_empty_folders], and the planner and
    the scanner built on them) each of the five counters is non-negative,
    [files_moved <= scanned] and [errors + files_moved <= scanned] hold,
    and whatever operations follow, no counter goes down. *)
Theorem stats_invariant :
  forall (tz : Z -> Z) (fs : node) (ops more : list op),
    let w1 := run_ops tz ops (start_run fs) in
    let w2 := run_ops tz more w1 in
    stats_ok (w_stats w1) /\
    stats_le make_stats (w_stats w1) /\
    stats_le (w_stats w1) (w_stats w2) /\
    stats_ok (w_stats w2).
Proof.
  intros tz fs ops more w1 w2.
  destruct (run_ops_step tz ops (start_run fs)) as [L1 K1].
  destruct (run_ops_step tz more w1) as [L2 K2].
  pose proof (K1 make_stats_ok) as Ok1.
  repeat split; try assumption; try (apply Ok1); try (apply (K2 Ok1)); try apply L1; try apply L2.
Qed.

(* ================================================================== *)
(** * Trees, entry by entry *)
(* ================================================================== *)

Lemma wf_node_Dir es :
  wf_node (Dir es) =
  (forallb proper_name (map fst es) && distinct (map fst es) &&
   forallb (fun e => wf_node (snd e)) es)%bool.
Proof.
  cbn [wf_node]. f_equal.
  induction es as [|[n c] es IH]; [reflexivity|].
  cbn [forallb snd]. now rewrite IH.
Qed.

Lemma dirs_only_Dir es :
  dirs_only (Dir es) = forallb (fun e => dirs_only (snd e)) es.
Proof.
  cbn [dirs_only].
  induction es as [|[n c] es IH]; [reflexivity|].
  cbn [forallb snd]. now rewrite IH.
Qed.

Lemma height_cons n c es :
  height (Dir ((n, c) :: es)) = Nat.max (S (height c)) (height (Dir es)).
Proof. reflexivity. Qed.

Lemma height_child n c es :
  In (n, c) es -> height c < height (Dir es).
Proof.
  induction es as [|[k c0] es IH]; intros I; [contradiction|].
  rewrite height_cons. destruct I as [E|I].
  - injection E as -> ->. lia.
  - specialize (IH I). lia.
Qed.

Lemma find_entry_In_pair n es c : find_entry n es = Some c -> In (n, c) es.
Proof.
  induction es as [|[m c0] es IH]; cbn [find_entry]; intros H; [discriminate|].
  destruct (n =? m) eqn:E.
  - apply String.eqb_eq in E. injection H as ->. subst. now left.
  - right. now apply IH.
Qed.

Lemma In_find_entry n c es :
  NoDup (map fst es) -> In (n, c) es -> find_entry n es = Some c.
Proof.
  induction es as [|[m c0] es IH]; cbn [find_entry map fst]; intros N I; [contradiction|].
  inversion N as [|? ? Hm Hr]; subst.
  destruct I as [E|I].
  - injection E as -> ->. now rewrite String.eqb_refl.
  - destruct (n =? m) eqn:E.
    + apply String.eqb_eq in E. subst m. exfalso. apply Hm.
      apply (in_map fst) in I. exact I.
    + now apply IH.
Qed.

Lemma set_entry_keys n c es d :
  find_entry n es = Some d -> map fst (set_entry n c es) = map fst es.
Proof.
  induction es as [|[m c0] es IH]; cbn [find_entry set_entry]; intros H; [discriminate|].
  destruct (n =? m) eqn:E.
  - apply String.eqb_eq in E. now subst.
  - cbn [map fst]. now rewrite IH.
Qed.

Lemma set_entry_same n es d : find_entry n es = Some d -> set_entry n d es = es.
Proof.
  induction es as [|[m c0] es IH]; cbn [find_entry set_entry]; intros H; [discriminate|].
  destruct (n =? m) eqn:E.
  - apply String.eqb_eq in E. injection H as ->. now subst.
  - now rewrite IH.
Qed.

Lemma set_entry_twice n c c' es :
  set_entry n c' (set_entry n c es) = set_entry n c' es.
Proof.
  induction es as [|[m c0] es IH]; cbn [set_entry].
  - now rewrite String.eqb_refl.
  - destruct (n =? m) eqn:E; cbn [set_entry].
    + now rewrite String.eqb_refl.
    + now rewrite E, IH.
Qed.

Lemma forallb_set_entry (f : node -> bool) n c es :
  forallb (fun e => f (snd e)) es = true -> f c = true ->
  forallb (fun e => f (snd e)) (set_entry n c es) = true.
Proof.
  induction es as [|[m c0] es IH]; cbn [set_entry forallb snd]; intros H Hc.
  - now rewrite Hc.
  - apply andb_true_iff in H. destruct H as [H0 H1].
    destruct (n =? m); cbn [forallb snd].
    + now rewrite Hc, H1.
    + now rewrite H0, IH.
Qed.

Lemma forallb_remove_entry (f : string * node -> bool) n es :
  forallb f es = true -> forallb f (remove_entry n es) = true.
Proof.
  unfold remove_entry. rewrite !forallb_forall. intros H e I.
  apply filter_In in I. now apply H.
Qed.

Lemma wf_node_child n c es :
  wf_node (Dir es) = true -> find_entry n es = Some c -> wf_node c = true.
Proof.
  rewrite wf_node_Dir, !andb_true_iff. intros [_ H] F.
  rewrite forallb_forall in H. apply (H (n, c)). now apply find_entry_In_pair.
Qed.

Lemma wf_node_names es :
  wf_node (Dir es) = true ->
  NoDup (map fst es) /\ forall n, In n (map fst es) -> plain n = true.
Proof.
  rewrite wf_node_Dir, !andb_true_iff. intros [[P D] _]. split.
  - now apply distinct_NoDup.
  - intros n I. rewrite forallb_forall in P. now apply proper_name_plain, P.
Qed.

Lemma wf_node_set_entry n c c' es :
  wf_node (Dir es) = true -> find_entry n es = Some c -> wf_node c' = true ->
  wf_node (Dir (set_entry n c' es)) = true.
Proof.
  rewrite !wf_node_Dir, !andb_true_iff. intros [[P D] W] F W'.
  rewrite (set_entry_keys n c' es c F). repeat split; try assumption.
  now apply (forallb_set_entry wf_node).
Qed.

Lemma map_fst_remove_entry n es :
  map fst (remove_entry n es) = filter (fun k => negb (n =? k)) (map fst es).
Proof.
  unfold remove_entry. induction es as [|[m c] es IH]; [reflexivity|].
  cbn [filter map fst]. destruct (negb (n =? m)); cbn [map fst]; now rewrite IH.
Qed.

Lemma wf_node_remove_entry n es :
  wf_node (Dir es) = true -> wf_node (Dir (remove_entry n es)) = true.
Proof.
  rewrite !wf_node_Dir, !andb_true_iff. intros [[P D] W].
  rewrite map_fst_remove_entry. repeat split.
  - rewrite forallb_forall in *. intros k I. apply filter_In in I. now apply P.
  - apply distinct_NoDup. apply NoDup_filter. now apply distinct_NoDup.
  - now apply forallb_remove_entry.
Qed.

Lemma detach_cons_cons a p es :
  p <> [] ->
  detach (a :: p) (Dir es) =
  match find_entry a es with
  | Some c =>
      match detach p c with
      | Some c' => Some (Dir (set_entry a c' es))
      | None => None
      end
  | None => None
  end.
Proof. destruct p; [congruence | reflexivity]. Qed.

(** Taking an entry out keeps a tree well formed. *)
Lemma detach_wf p : forall t t',
  wf_node t = true -> detach p t = Some t' -> wf_node t' = true.
Proof.
  induction p as [|n p IH]; intros t t' W D; [discriminate|].
  destruct t as [m x|es]; [destruct p; discriminate|].
  destruct p as [|n' p'].
  - cbn [detach] in D. destruct (find_entry n es); [|discriminate].
    injection D as <-. now apply wf_node_remove_entry.
  - rewrite detach_cons_cons in D by discriminate.
    destruct (find_entry n es) as [c|] eqn:F; [|discriminate].
    destruct (detach (n' :: p') c) as [c'|] eqn:Dc; [|discriminate].
    injection D as <-.
    apply (wf_node_set_entry n c c' es W F).
    apply (IH c c'); [|assumption]. eapply wf_node_child; eassumption.
Qed.

(** ** Grafting *)

Lemma graft_lookup_id p : forall t c, lookup p t = Some c -> graft p c t = t.
Proof.
  induction p as [|n p IH]; intros t c H.
  - cbn in H. now injection H as ->.
  - destruct t as [m x|es]; [discriminate|]. cbn [lookup graft] in *.
    destruct (find_entry n es) as [d|] eqn:F; [|discriminate].
    rewrite (IH d c H). now rewrite (set_entry_same n es d F).
Qed.

Lemma lookup_graft p : forall t c d,
  lookup p t = Some d -> lookup p (graft p c t) = Some c.
Proof.
  induction p as [|n p IH]; intros t c d H; [reflexivity|].
  destruct t as [m x|es]; [discriminate|]. cbn [lookup graft] in *.
  destruct (find_entry n es) as [d0|] eqn:F; [|discriminate].
  cbn [lookup]. rewrite find_entry_set_same. now apply (IH d0 c d).
Qed.

Lemma graft_graft p : forall t c c',
  graft p c' (graft p c t) = graft p c' t.
Proof.
  induction p as [|n p IH]; intros t c c'; [reflexivity|].
  destruct t as [m x|es]; [reflexivity|]. cbn [graft].
  destruct (find_entry n es) as [d0|] eqn:F.
  - cbn [graft]. rewrite find_entry_set_same, IH, set_entry_twice. reflexivity.
  - cbn [graft]. now rewrite F.
Qed.

Lemma detach_app p : forall t c q,
  lookup p t = Some c -> q <> [] ->
  detach (p ++ q) t =
  match detach q c with Some c' => Some (graft p c' t) | None => None end.
Proof.
  induction p as [|n p IH]; intros t c q H NE.
  - cbn in H. injection H as ->. cbn. now destruct (detach q c).
  - destruct t as [m x|es]; [discriminate|]. cbn [lookup] in H.
    destruct (find_entry n es) as [d|] eqn:F; [|discriminate].
    change ((n :: p) ++ q) with (n :: (p ++ q)).
    rewrite detach_cons_cons by (destruct p; [assumption | discriminate]).
    rewrite F, (IH d c q H NE). cbn [graft]. rewrite F.
    now destruct (detach q c).
Qed.

Lemma path_div_app (p q : path) (d : string) : (p ++ q) // d = p ++ (q // d).
Proof.
  unfold path_div. destruct (plain d); [now rewrite app_assoc | reflexivity].
Qed.

(** ** Computations seen from inside a subtree *)

Lemma zoomed_ret {A} p (a : A) : zoomed p (ret a) (ret a).
Proof.
  intros w ws W L S. cbn. repeat split; try assumption.
  symmetry. now apply graft_lookup_id.
Qed.

Lemma zoomed_bind {A B} p (m ms : M A) (k ks : A -> M B) :
  zoomed p m ms -> (forall a, zoomed p (k a) (ks a)) ->
  zoomed p (bind m k) (bind ms ks).
Proof.
  intros Hm Hk w ws W L S. unfold bind.
  destruct (Hm w ws W L S) as (O & S1 & F1 & W1).
  destruct (m w) as [o w1], (ms ws) as [os ws1]. cbn [fst snd] in *. subst os.
  destruct o as [a|e|]; cbn [fst snd]; try (repeat split; assumption).
  assert (L1 : lookup p (w_fs w1) = Some (w_fs ws1)).
  { rewrite F1. eapply lookup_graft; eassumption. }
  destruct (Hk a w1 ws1 W1 L1 S1) as (O2 & S2 & F2 & W2).
  repeat split; try assumption.
  rewrite F2, F1. apply graft_graft.
Qed.

Lemma zoomed_try {A} p (m ms : M A) (h hs : exn -> M A) :
  zoomed p m ms -> (forall e, zoomed p (h e) (hs e)) ->
  zoomed p (try_except m h) (try_except ms hs).
Proof.
  intros Hm Hh w ws W L S. unfold try_except.
  destruct (Hm w ws W L S) as (O & S1 & F1 & W1).
  destruct (m w) as [o w1], (ms ws) as [os ws1]. cbn [fst snd] in *. subst os.
  destruct o as [a|e|]; cbn [fst snd]; try (repeat split; assumption).
  assert (L1 : lookup p (w_fs w1) = Some (w_fs ws1)).
  { rewrite F1. eapply lookup_graft; eassumption. }
  destruct (Hh e w1 ws1 W1 L1 S1) as (O2 & S2 & F2 & W2).
  repeat split; try assumption.
  rewrite F2, F1. apply graft_graft.
Qed.

Lemma zoomed_for_each {A} p (xs : list A) (body bodys : A -> M unit) :
  (forall x, In x xs -> zoomed p (body x) (bodys x)) ->
  zoomed p (for_each xs body) (for_each xs bodys).
Proof.
  induction xs as [|x xs IH]; intros H; cbn [for_each].
  - apply zoomed_ret.
  - apply zoomed_bind; [apply H; now left|].
    intros _. apply IH. intros y I. apply H. now right.
Qed.

Lemma zoomed_log p e e' : zoomed p (log e) (log e').
Proof.
  intros w ws W L S. cbn. repeat split; try assumption.
  symmetry. now apply graft_lookup_id.
Qed.

Lemma zoomed_modify_stats p f : zoomed p (modify_stats f) (modify_stats f).
Proof.
  intros w ws W L S. cbn. repeat split; try assumption.
  - now rewrite S.
  - symmetry. now apply graft_lookup_id.
Qed.

Lemma zoomed_iterdir_any p q : zoomed p (iterdir_any (p ++ q)) (iterdir_any q).
Proof.
  intros w ws W L S. unfold iterdir_any. mrun.
  rewrite lookup_app, L.
  destruct (lookup q (w_fs ws)) as [[m x|es]|]; cbn; repeat split; try assumption;
    symmetry; now apply graft_lookup_id.
Qed.

Lemma zoomed_scandir p q : zoomed p (scandir (p ++ q)) (scandir q).
Proof.
  intros w ws W L S. unfold scandir. mrun.
  rewrite lookup_app, L.
  destruct (lookup q (w_fs ws)) as [[m x|es]|]; cbn; repeat split; try assumption;
    symmetry; now apply graft_lookup_id.
Qed.

Lemma zoomed_rmdir p q : q <> [] -> zoomed p (path_rmdir (p ++ q)) (path_rmdir q).
Proof.
  intros NE w ws W L S. unfold path_rmdir. mrun.
  rewrite lookup_app, L.
  destruct (lookup q (w_fs ws)) as [[m x|[|e es]]|]; cbn;
    try (repeat split; try assumption; symmetry; now apply graft_lookup_id).
  rewrite (detach_app p (w_fs w) (w_fs ws) q L NE).
  destruct (detach q (w_fs ws)) as [c'|] eqn:D; cbn.
  - repeat split; try assumption. eapply detach_wf; eassumption.
  - repeat split; try assumption; symmetry; now apply graft_lookup_id.
Qed.

Lemma zoomed_reap_body p q dirs files :
  (forall d, In d dirs -> plain d = true) ->
  zoomed p (reap_body (p ++ q) dirs files) (reap_body q dirs files).
Proof.
  intros Pl. unfold reap_body. apply zoomed_for_each. intros d I.
  rewrite path_div_app. rewrite (path_div_plain q d (Pl d I)).
  apply zoomed_try; [|intros e; apply zoomed_log].
  apply zoomed_bind; [apply zoomed_iterdir_any|].
  intros b. destruct b; cbn [negb]; [apply zoomed_ret|].
  apply zoomed_bind; [apply zoomed_rmdir; now destruct q|].
  intros _. apply zoomed_bind; [apply zoomed_modify_stats | intros _; apply zoomed_log].
Qed.

Lemma listing_dirs_In es d :
  In d (fst (listing es)) -> In d (map fst es).
Proof.
  unfold listing. cbn [fst]. intros I. apply in_map_iff in I.
  destruct I as (e & <- & I). apply filter_In in I. now apply in_map.
Qed.

Lemma bind_ret_run {A B} (m : M A) (k : A -> M B) w a w1 :
  m w = (Ret a, w1) -> bind m k w = k a w1.
Proof. intros H. unfold bind. now rewrite H. Qed.

Lemma bind_raise_run {A B} (m : M A) (k : A -> M B) w e w1 :
  m w = (Raise e, w1) -> bind m k w = (Raise e, w1).
Proof. intros H. unfold bind. now rewrite H. Qed.

Lemma bind_out_of_fuel_run {A B} (m : M A) (k : A -> M B) w w1 :
  m w = (OutOfFuel, w1) -> bind m k w = (OutOfFuel, w1).
Proof. intros H. unfold bind. now rewrite H. Qed.

(** The bottom-up walk below [p] is the walk inside the subtree at [p]. *)
Lemma zoomed_walk_bottomup fuel : forall p q,
  zoomed p (walk_bottomup fuel reap_body (p ++ q)) (walk_bottomup fuel reap_body q).
Proof.
  induction fuel as [|fuel IH]; intros p q; cbn [walk_bottomup].
  - intros w ws W L S. cbn. repeat split; try assumption.
    symmetry. now apply graft_lookup_id.
  - intros w ws W L S.
    (* the listing is the same on both sides, and its names are plain *)
    destruct (zoomed_scandir p q w ws W L S) as (O & S1 & F1 & W1).
    destruct (scandir (p ++ q) w) as [o w1] eqn:Sc,
             (scandir q ws) as [os ws1] eqn:Scs.
    cbn [fst snd] in *. subst os.
    assert (Ews : ws1 = ws /\
                  forall dirs files, o = Ret (Some (dirs, files)) ->
                                     forall d, In d dirs -> plain d = true).
    { unfold scandir in Scs. revert Scs. mrun.
      destruct (lookup q (w_fs ws)) as [[m x|es]|] eqn:Lq; intros E;
        injection E as <- <-; split; try (now destruct ws); try discriminate.
      intros dirs files E d I. injection E as <- <-.
      assert (Wq : wf_node (Dir es) = true).
      { clear - W Lq. revert Lq. generalize (w_fs ws) as t, W.
        induction q as [|n q IHq]; intros t Wt Lq.
        - cbn in Lq. now injection Lq as ->.
        - destruct t as [|es0]; [discriminate|]. cbn [lookup] in Lq.
          destruct (find_entry n es0) as [c|] eqn:F; [|discriminate].
          apply (IHq c); [|assumption]. eapply wf_node_child; eassumption. }
      destruct (wf_node_names es Wq) as [_ Pl]. apply Pl.
      now apply listing_dirs_In. }
    destruct Ews as [-> Pl].
    destruct o as [[[dirs files]|]|e|];
      [ rewrite (bind_ret_run _ _ _ _ _ Sc), (bind_ret_run _ _ _ _ _ Scs)
      | rewrite (bind_ret_run _ _ _ _ _ Sc), (bind_ret_run _ _ _ _ _ Scs)
      | rewrite (bind_raise_run _ _ _ _ _ Sc), (bind_raise_run _ _ _ _ _ Scs)
      | rewrite (bind_out_of_fuel_run _ _ _ _ Sc), (bind_out_of_fuel_run _ _ _ _ Scs) ];
      cbn [fst snd]; try (repeat split; assumption).
    assert (L1 : lookup p (w_fs w1) = Some (w_fs ws)).
    { rewrite F1. eapply lookup_graft; eassumption. }
    assert (Z : zoomed p
                  (for_each dirs (fun d => walk_bottomup fuel reap_body ((p ++ q) ++ [d]));;
                   reap_body (p ++ q) dirs files)
                  (for_each dirs (fun d => walk_bottomup fuel reap_body (q ++ [d]));;
                   reap_body q dirs files)).
    { apply zoomed_bind.
      - apply zoomed_for_each. intros d _. rewrite <- app_assoc. apply IH.
      - intros _. apply zoomed_reap_body. apply (Pl dirs files eq_refl). }
    destruct (Z w1 ws W L1 S1) as (O2 & S2 & F2 & W2).
    split; [exact O2|]. split; [exact S2|]. split; [|exact W2].
    etransitivity; [exact F2|]. rewrite F1. apply graft_graft.
Qed.

(* ================================================================== *)
(** * The reaper on a tree of directories *)
(* ================================================================== *)

Lemma add_folders_deleted_0 s : add_folders_deleted 0 s = s.
Proof. destruct s. unfold add_folders_deleted. cbn. f_equal. lia. Qed.

Lemma add_folders_deleted_add a b s :
  add_folders_deleted b (add_folders_deleted a s) = add_folders_deleted (a + b) s.
Proof. unfold add_folders_deleted. cbn. f_equal. lia. Qed.

Lemma add_folders_deleted_1 s : incr_folders_deleted s = add_folders_deleted 1 s.
Proof. reflexivity. Qed.

Lemma dirs_only_is_dir c : dirs_only c = true -> is_dir_node c = true.
Proof. now destruct c. Qed.

Lemma listing_dirs_only es :
  forallb (fun e => dirs_only (snd e)) es = true ->
  listing es = (map fst es, []).
Proof.
  intros H. unfold listing.
  assert (E : forall e, In e es -> is_dir_node (snd e) = true).
  { rewrite forallb_forall in H. intros e I. now apply dirs_only_is_dir, H. }
  f_equal.
  - f_equal. clear H. induction es as [|e es IH]; [reflexivity|].
    cbn [filter]. rewrite (E e) by now left. f_equal. apply IH.
    intros e' I. apply E. now right.
  - clear H. induction es as [|e es IH]; [reflexivity|].
    cbn [filter]. rewrite (E e) by now left. cbn [negb]. apply IH.
    intros e' I. apply E. now right.
Qed.

Lemma find_entry_app_skip n l r :
  ~ In n (map fst l) -> find_entry n (l ++ r) = find_entry n r.
Proof.
  induction l as [|[m c] l IH]; simpl; intros H; [reflexivity|].
  destruct (n =? m) eqn:E.
  - apply String.eqb_eq in E. subst. exfalso. apply H. now left.
  - apply IH. intros I. apply H. now right.
Qed.

Lemma set_entry_app_skip n c l r :
  ~ In n (map fst l) -> set_entry n c (l ++ r) = l ++ set_entry n c r.
Proof.
  induction l as [|[m c0] l IH]; simpl; intros H; [reflexivity|].
  destruct (n =? m) eqn:E.
  - apply String.eqb_eq in E. subst. exfalso. apply H. now left.
  - f_equal. apply IH. intros I. apply H. now right.
Qed.

Lemma map_fst_emptied l : map fst (map emptied l) = map fst l.
Proof. rewrite map_map. reflexivity. Qed.

Lemma count_dirs_Dir es :
  forallb (fun e => dirs_only (snd e)) es = true ->
  count_dirs (Dir es) =
  list_sum (map (fun e => count_dirs (snd e)) es) + List.length es.
Proof.
  induction es as [|[n c] es IH]; intros H; [reflexivity|].
  cbn [forallb snd] in H. apply andb_true_iff in H. destruct H as [Hc Hr].
  rewrite count_dirs_cons, (IH Hr). unfold weight.
  rewrite (dirs_only_is_dir c Hc). simpl. lia.
Qed.

Section Reaper.

Variable fuel : nat.

(** What the walk does inside a tree of directories that the fuel
    covers. *)
Hypothesis walk_inside : forall t ws,
  wf_node t = true -> dirs_only t = true -> height t < fuel ->
  w_fs ws = t ->
  fst (walk_bottomup fuel reap_body [] ws) = Ret tt /\
  w_fs (snd (walk_bottomup fuel reap_body [] ws)) = Dir [] /\
  w_stats (snd (walk_bottomup fuel reap_body [] ws)) =
    add_folders_deleted (count_dirs t) (w_stats ws).

(** First loop: the sub-directories are walked one after the other, and
    each is left empty. *)
Lemma walk_children todo : forall done w,
  NoDup (map fst (done ++ todo)) ->
  forallb (fun e => wf_node (snd e)) todo = true ->
  forallb (fun e => dirs_only (snd e)) todo = true ->
  (forall e, In e todo -> height (snd e) < fuel) ->
  w_fs w = Dir (map emptied done ++ todo) ->
  let r := for_each (map fst todo)
             (fun d => walk_bottomup fuel reap_body ([] ++ [d])) w in
  fst r = Ret tt /\
  w_fs (snd r) = Dir (map emptied (done ++ todo)) /\
  w_stats (snd r) =
    add_folders_deleted (list_sum (map (fun e => count_dirs (snd e)) todo))
      (w_stats w).
Proof.
  induction todo as [|[n c] todo IH]; intros done w ND W D H Fs r.
  - subst r. cbn. rewrite app_nil_r in *. now rewrite add_folders_deleted_0.
  - cbn [forallb snd] in W, D.
    apply andb_true_iff in W, D. destruct W as [Wc Wr], D as [Dc Dr].
    assert (Nn : ~ In n (map fst (map emptied done))).
    { rewrite map_fst_emptied. rewrite map_app in ND.
      apply NoDup_remove_2 in ND. intros I. apply ND. apply in_or_app. now left. }
    set (ws := {| w_fs := c; w_stats := w_stats w; w_log := [] |}).
    assert (L : lookup [n] (w_fs w) = Some (w_fs ws)).
    { rewrite Fs. cbn [lookup]. rewrite (find_entry_app_skip n _ _ Nn).
      cbn [find_entry]. now rewrite String.eqb_refl. }
    destruct (zoomed_walk_bottomup fuel [n] [] w ws Wc L eq_refl)
      as (O & S1 & F1 & _).
    destruct (walk_inside c ws Wc Dc (H (n, c) (or_introl eq_refl)) eq_refl)
      as (Oi & Fi & Si).
    rewrite Oi in O. rewrite Si in S1. rewrite Fi in F1.
    subst r. cbn [map fst for_each].
    change ([n] ++ []) with ([] ++ [n]) in O, S1, F1.
    destruct (walk_bottomup fuel reap_body ([] ++ [n]) w) as [o w1] eqn:Wk.
    cbn [fst snd] in O, S1, F1. subst o.
    rewrite (bind_ret_run _ _ _ _ _ Wk).
    assert (Fs1 : w_fs w1 = Dir (map emptied (done ++ [(n, c)]) ++ todo)).
    { rewrite F1, Fs. cbn [graft]. rewrite (find_entry_app_skip n _ _ Nn).
      cbn [find_entry]. rewrite String.eqb_refl. cbn [graft].
      rewrite (set_entry_app_skip n _ _ _ Nn). cbn [set_entry].
      rewrite String.eqb_refl. rewrite map_app, <- app_assoc. reflexivity. }
    destruct (IH (done ++ [(n, c)]) w1) as (O2 & F2 & S2); try assumption.
    + now rewrite <- app_assoc.
    + intros e I. apply H. now right.
    + split; [exact O2|]. split.
      * rewrite F2. now rewrite <- app_assoc.
      * rewrite S2, S1. cbn [w_stats ws]. rewrite add_folders_deleted_add.
        simpl. reflexivity.
Qed.

End Reaper.

Lemma iterdir_any_run p w es :
  lookup p (w_fs w) = Some (Dir es) ->
  iterdir_any p w = (Ret (match es with [] => false | _ :: _ => true end), w).
Proof. intros H. unfold iterdir_any. mrun. now rewrite H. Qed.

Lemma path_rmdir_run p w t' :
  lookup p (w_fs w) = Some (Dir []) ->
  detach p (w_fs w) = Some t' ->
  path_rmdir p w = (Ret tt, set_fs t' w).
Proof. intros H D. unfold path_rmdir. mrun. now rewrite H, D. Qed.

(** Second loop: the body removes the emptied sub-directories one after
    the other. *)
Lemma reap_emptied todo : forall w,
  NoDup (map fst todo) ->
  (forall n, In n (map fst todo) -> plain n = true) ->
  w_fs w = Dir (map emptied todo) ->
  fst (reap_body [] (map fst todo) [] w) = Ret tt /\
  w_fs (snd (reap_body [] (map fst todo) [] w)) = Dir [] /\
  w_stats (snd (reap_body [] (map fst todo) [] w)) =
    add_folders_deleted (List.length todo) (w_stats w).
Proof.
  unfold reap_body.
  induction todo as [|[n c] todo IH]; intros w ND Pl Fs.
  - cbn. rewrite add_folders_deleted_0. auto.
  - cbn [map fst for_each].
    inversion ND as [|? ? Hn Hr]; subst.
    rewrite (path_div_plain [] n) by (apply Pl; now left).
    cbn [app].
    set (w1 := {| w_fs := Dir (map emptied todo);
                  w_stats := incr_folders_deleted (w_stats w);
                  w_log := w_log w ++ [LogDeletedEmpty [n]] |}).
    assert (Step :
      try_except
        (b <- iterdir_any [n];;
         (if negb b
          then path_rmdir [n];; modify_stats incr_folders_deleted;;
               log (LogDeletedEmpty [n])
          else ret tt))
        (fun _ : exn => log (LogCouldNotDelete [n])) w = (Ret tt, w1)).
    { assert (Lk : lookup [n] (w_fs w) = Some (Dir [])).
      { rewrite Fs. cbn [map emptied fst lookup find_entry].
        now rewrite String.eqb_refl. }
      assert (Dt : detach [n] (w_fs w) = Some (Dir (map emptied todo))).
      { rewrite Fs. cbn [map emptied fst detach find_entry].
        rewrite String.eqb_refl. do 2 f_equal.
        unfold remove_entry. cbn [filter fst]. rewrite String.eqb_refl. cbn [negb].
        clear - Hn. rewrite <- map_fst_emptied in Hn.
        induction (map emptied todo) as [|[k c0] l IHl]; [reflexivity|].
        cbn [filter fst]. destruct (n =? k) eqn:E.
        - apply String.eqb_eq in E. subst. exfalso. apply Hn. now left.
        - cbn [negb]. f_equal. apply IHl. intros I. apply Hn. now right. }
      unfold try_except.
      rewrite (bind_ret_run _ _ _ _ _ (iterdir_any_run [n] w [] Lk)).
      cbn [negb].
      rewrite (bind_ret_run _ _ _ _ _ (path_rmdir_run [n] w _ Lk Dt)).
      reflexivity. }
    rewrite (bind_ret_run _ _ _ _ _ Step).
    destruct (IH w1 Hr) as (O2 & F2 & S2).
    + intros k I. apply Pl. now right.
    + reflexivity.
    + split; [exact O2|]. split; [exact F2|].
      rewrite S2. cbn [w1 w_stats]. rewrite add_folders_deleted_1.
      rewrite add_folders_deleted_add. reflexivity.
Qed.

(** The walk inside a tree of directories: every directory goes, and each
    is counted once. *)
Lemma reap_inside fuel : forall t ws,
  wf_node t = true -> dirs_only t = true -> height t < fuel ->
  w_fs ws = t ->
  fst (walk_bottomup fuel reap_body [] ws) = Ret tt /\
  w_fs (snd (walk_bottomup fuel reap_body [] ws)) = Dir [] /\
  w_stats (snd (walk_bottomup fuel reap_body [] ws)) =
    add_folders_deleted (count_dirs t) (w_stats ws).
Proof.
  induction fuel as [|fuel IH]; intros t ws W D H Fs; [lia|].
  destruct t as [m x|es]; [discriminate|].
  cbn [walk_bottomup].
  assert (Sc : scandir [] ws = (Ret (Some (map fst es, [])), ws)).
  { unfold scandir. mrun. rewrite Fs. cbn [lookup].
    rewrite dirs_only_Dir in D. rewrite (listing_dirs_only es D). now destruct ws. }
  rewrite (bind_ret_run _ _ _ _ _ Sc).
  pose proof W as W'. rewrite wf_node_Dir in W'.
  apply andb_true_iff in W'. destruct W' as [_ Wc].
  destruct (wf_node_names es W) as [ND Pl].
  rewrite dirs_only_Dir in D.
  destruct (walk_children fuel IH es [] ws) as (O1 & F1 & S1); try assumption.
  - intros [n c] I. cbn [snd]. pose proof (height_child n c es I). lia.
  - cbv zeta in O1, F1, S1.
    destruct (for_each (map fst es)
                (fun d => walk_bottomup fuel reap_body ([] ++ [d])) ws)
      as [o w1] eqn:Lp.
    cbn [fst snd] in O1, F1, S1. subst o.
    rewrite (bind_ret_run _ _ _ _ _ Lp).
    cbn [app] in F1.
    destruct (reap_emptied es w1 ND Pl F1) as (O2 & F2 & S2).
    split; [exact O2|]. split; [exact F2|].
    rewrite S2, S1, add_folders_deleted_add. now rewrite (count_dirs_Dir es D).
Qed.

(* ================================================================== *)
(** * Names that the program makes up *)
(* ================================================================== *)

Lemma has_slash_app (a b : string) :
  has_slash (a ++ b)%string = (has_slash a || has_slash b)%bool.
Proof.
  induction a as [|c a IH]; [reflexivity|].
  cbn [String.append has_slash]. rewrite IH. now rewrite orb_assoc.
Qed.

Lemma has_slash_uint (d : Decimal.uint) :
  has_slash (NilEmpty.string_of_uint d) = false.
Proof. induction d; cbn; assumption || reflexivity. Qed.

Lemma has_slash_of_nat (i : nat) : has_slash (Str.of_nat i) = false.
Proof. apply has_slash_uint. Qed.

Lemma has_slash_stem_suffix (n : string) :
  has_slash n = false ->
  has_slash (stem_of n) = false /\ has_slash (suffix_of n) = false.
Proof.
  intros H. rewrite <- (stem_suffix n), has_slash_app in H.
  now apply orb_false_iff in H.
Qed.

Lemma dotdot_has_no_space (a b : string) : ((a ++ String " " b)%string =? "..") = false.
Proof.
  apply String.eqb_neq. intros E.
  destruct a as [|x [|y [|z a]]]; cbn in E; try discriminate;
    injection E; intros; try discriminate.
Qed.

(** The candidate names made from a proper name are proper. *)
Lemma proper_candidate (n : string) (i : nat) :
  proper_name n = true ->
  proper_name (candidate_name (stem_of n) (suffix_of n) i) = true.
Proof.
  unfold proper_name. rewrite !andb_true_iff, !negb_true_iff.
  intros [[_ _] Sl]. destruct (has_slash_stem_suffix n Sl) as [S1 S2].
  repeat split.
  - apply plain_candidate.
  - unfold candidate_name. apply dotdot_has_no_space.
  - unfold candidate_name. rewrite !has_slash_app, S1, S2, has_slash_of_nat.
    reflexivity.
Qed.

Lemma year_str_proper (y : Z) :
  (1 <= y <= 9999)%Z -> proper_name (str_of_Z y) = true.
Proof.
  intros R.
  assert (C : all_from (fun y => proper_name (str_of_Z y)) (Z.to_nat 9999) 1 = true)
    by (vm_compute; reflexivity).
  pose proof (all_from_spec _ _ 1%Z y C) as H.
  cbv beta in H. rewrite Z2Nat.id in H by lia. apply H. lia.
Qed.

Lemma month_abbr_proper (m : Z) :
  (1 <= m <= 12)%Z -> proper_name (month_abbr m) = true.
Proof.
  intros R.
  assert (C : all_from (fun m => proper_name (month_abbr m)) 12 1 = true)
    by reflexivity.
  apply (all_from_spec _ _ 1%Z m C). lia.
Qed.

Lemma proper_path_app (p q : path) :
  proper_path (p ++ q) = (proper_path p && proper_path q)%bool.
Proof. unfold proper_path. apply forallb_app. Qed.

Lemma path_div_proper (p : path) (s : string) :
  proper_name s = true -> p // s = p ++ [s].
Proof. intros H. apply path_div_plain. now apply proper_name_plain. Qed.

(* ================================================================== *)
(** * Well-formed trees under the file-system calls *)
(* ================================================================== *)

Lemma lookup_wf p : forall t c,
  wf_node t = true -> lookup p t = Some c -> wf_node c = true.
Proof.
  induction p as [|n p IH]; intros t c W L.
  - cbn in L. now injection L as <-.
  - destruct t as [|es]; [discriminate|]. cbn [lookup] in L.
    destruct (find_entry n es) as [d|] eqn:F; [|discriminate].
    apply (IH d c); [|assumption]. eapply wf_node_child; eassumption.
Qed.

Lemma distinct_snoc (l : list string) (n : string) :
  distinct l = true -> ~ In n l -> distinct (l ++ [n]) = true.
Proof.
  intros D N. apply distinct_NoDup. apply distinct_NoDup in D.
  apply NoDup_app; [assumption | repeat constructor; intros [] |].
  intros x I [<-|[]]. contradiction.
Qed.

Lemma find_entry_None_notin n es : find_entry n es = None -> ~ In n (map fst es).
Proof.
  induction es as [|[m c] es IH]; simpl; intros H; [tauto|].
  destruct (n =? m) eqn:E; [discriminate|].
  apply String.eqb_neq in E. intros [->|I]; [congruence | now apply IH].
Qed.

(** Setting an entry, old or new, to a well-formed node under a proper
    name keeps a directory well formed. *)
Lemma wf_node_set_any n c' es :
  wf_node (Dir es) = true -> proper_name n = true -> wf_node c' = true ->
  wf_node (Dir (set_entry n c' es)) = true.
Proof.
  intros W P W'.
  destruct (find_entry n es) as [c|] eqn:F.
  - eapply wf_node_set_entry; eassumption.
  - rewrite (set_entry_absent n c' es F).
    rewrite wf_node_Dir in *. rewrite !andb_true_iff in *.
    destruct W as [[Pn D] Wc]. rewrite map_app, !forallb_app. cbn [map fst forallb snd].
    rewrite Pn, Wc, P, W'. repeat split.
    apply distinct_snoc; [assumption | now apply find_entry_None_notin].
Qed.

Lemma attach_wf p : forall t c t',
  wf_node t = true -> wf_node c = true ->
  proper_name (path_name p) = true ->
  attach p c t = Some t' -> wf_node t' = true.
Proof.
  induction p as [|n p IH]; intros t c t' W Wc P A; [discriminate|].
  destruct t as [m x|es]; [destruct p; discriminate|].
  destruct p as [|n' p'].
  - cbn [attach] in A. injection A as <-.
    now apply wf_node_set_any.
  - rewrite attach_cons_cons in A by discriminate.
    destruct (find_entry n es) as [d|] eqn:F; [|discriminate].
    destruct (attach (n' :: p') c d) as [d'|] eqn:Ad; [|discriminate].
    injection A as <-.
    apply (wf_node_set_entry n d d' es W F).
    apply (IH d c d'); try assumption.
    eapply wf_node_child; eassumption.
Qed.

Lemma mkdir_p_wf p : forall t t',
  wf_node t = true -> proper_path p = true ->
  mkdir_p p t = Some t' -> wf_node t' = true.
Proof.
  induction p as [|n p IH]; intros t t' W P Mk.
  - destruct t; [discriminate|]. now injection Mk as <-.
  - destruct t as [m x|es]; [discriminate|].
    cbn [proper_path forallb] in P. apply andb_true_iff in P. destruct P as [Pn Pp].
    cbn [mkdir_p] in Mk.
    destruct (find_entry n es) as [c|] eqn:F.
    + destruct (mkdir_p p c) as [c'|] eqn:Mc; [|discriminate].
      injection Mk as <-.
      apply (wf_node_set_entry n c c' es W F).
      apply (IH c c'); try assumption. eapply wf_node_child; eassumption.
    + destruct (mkdir_p p (Dir [])) as [c'|] eqn:Mc; [|discriminate].
      injection Mk as <-. rewrite <- (set_entry_absent n c' es F).
      apply wf_node_set_any; try assumption.
      apply (IH (Dir []) c'); try assumption. reflexivity.
Qed.

(** The height of a well-formed tree is the length of its longest path. *)
Lemma height_deep_le t : forall b,
  (forall q, kind_at q t <> None -> List.length q <= b) -> wf_node t = true ->
  height t <= b.
Proof.
  induction t as [m x|es X] using node_induction; [cbn; lia|].
  intros b H W.
  destruct (wf_node_names es W) as [ND _].
  assert (Hc : forall n c, In (n, c) es -> S (height c) <= b).
  { intros n c I.
    pose proof (In_find_entry n c es ND I) as F.
    assert (Wc : wf_node c = true) by (eapply wf_node_child; eassumption).
    destruct b as [|b].
    - exfalso. specialize (H [n]). rewrite kind_at_cons, F in H.
      cbn in H. assert (1 <= 0) by (apply H; discriminate). lia.
    - apply le_n_S.
      rewrite Forall_forall in X. apply (X (n, c) I b); [|assumption].
      intros q K. specialize (H (n :: q)). rewrite kind_at_cons, F in H.
      specialize (H K). cbn in H. lia. }
  clear - Hc. induction es as [|[n c] es IH]; [cbn; lia|].
  rewrite height_cons. apply Nat.max_lub.
  - apply (Hc n c). now left.
  - apply IH. intros n' c' I. apply (Hc n' c'). now right.
Qed.

Lemma height_lookup p : forall t c, lookup p t = Some c -> height c + List.length p <= height t.
Proof.
  induction p as [|n p IH]; intros t c L.
  - cbn in L. injection L as <-. cbn. lia.
  - destruct t as [|es]; [discriminate|]. cbn [lookup] in L.
    destruct (find_entry n es) as [d|] eqn:F; [|discriminate].
    specialize (IH d c L).
    pose proof (height_child n d es (find_entry_In_pair n es d F)).
    cbn [List.length]. lia.
Qed.

(* ================================================================== *)
(** * What a computation keeps *)
(* ================================================================== *)

Lemma keeps_ret {A} I (a : A) : keeps I (ret a).
Proof. intros w H. exact H. Qed.

Lemma keeps_raise {A} I (e : exn) : keeps I (@raise A e).
Proof. intros w H. exact H. Qed.

Lemma keeps_out_of_fuel {A} I : keeps I (@out_of_fuel A).
Proof. intros w H. exact H. Qed.

Lemma keeps_bind {A B} I (m : M A) (k : A -> M B) :
  keeps I m -> (forall a, keeps I (k a)) -> keeps I (bind m k).
Proof.
  intros Hm Hk w H. unfold bind. specialize (Hm w H).
  destruct (m w) as [[a|e|] w1]; cbn [snd] in *; try assumption.
  now apply Hk.
Qed.

Lemma keeps_try {A} I (m : M A) (h : exn -> M A) :
  keeps I m -> (forall e, keeps I (h e)) -> keeps I (try_except m h).
Proof.
  intros Hm Hh w H. unfold try_except. specialize (Hm w H).
  destruct (m w) as [[a|e|] w1]; cbn [snd] in *; try assumption.
  now apply Hh.
Qed.

Lemma keeps_for_each {A} I (xs : list A) (body : A -> M unit) :
  (forall x, In x xs -> keeps I (body x)) -> keeps I (for_each xs body).
Proof.
  induction xs as [|x xs IH]; intros H; cbn [for_each].
  - apply keeps_ret.
  - apply keeps_bind; [apply H; now left|].
    intros _. apply IH. intros y Iy. apply H. now right.
Qed.

(** A computation that reads the state and leaves it as it is. *)
Lemma keeps_reader {A} I (m : M A) : (forall w, snd (m w) = w) -> keeps I m.
Proof. intros E w H. now rewrite E. Qed.

Lemma scandir_reads top w : snd (scandir top w) = w.
Proof.
  unfold scandir. mrun. destruct (lookup top (w_fs w)) as [[|]|]; now destruct w.
Qed.

Lemma iterdir_any_reads p w : snd (iterdir_any p w) = w.
Proof.
  unfold iterdir_any. mrun. destruct (lookup p (w_fs w)) as [[|]|]; now destruct w.
Qed.

Lemma st_mtime_reads p w : snd (st_mtime p w) = w.
Proof.
  unfold st_mtime. mrun. destruct (lookup p (w_fs w)) as [[|]|]; now destruct w.
Qed.

Lemma fromtimestamp_reads tz ts w : snd (fromtimestamp tz ts w) = w.
Proof. unfold fromtimestamp. now destruct (_ && _)%bool. Qed.

Lemma path_exists_reads p w : snd (path_exists p w) = w.
Proof. unfold path_exists. mrun. now destruct w. Qed.

Lemma keeps_walk_bottomup I fuel body :
  (forall root dirs files, keeps I (body root dirs files)) ->
  forall top, keeps I (walk_bottomup fuel body top).
Proof.
  intros Hb. induction fuel as [|fuel IH]; intros top; cbn [walk_bottomup].
  - apply keeps_out_of_fuel.
  - apply keeps_bind; [apply keeps_reader, scandir_reads|].
    intros [[dirs files]|]; [|apply keeps_ret].
    apply keeps_bind; [|intros _; apply Hb].
    apply keeps_for_each. intros d _. apply IH.
Qed.

(* ================================================================== *)
(** * The invariant of the scanner *)
(* ================================================================== *)

Lemma moves_app l l' : moves (l ++ l') = moves l ++ moves l'.
Proof.
  induction l as [|e l IH]; [reflexivity|].
  change (moves ((e :: l) ++ l')) with
    (match move_of e with
     | Some m => m :: moves (l ++ l')
     | None => moves (l ++ l')
     end).
  change (moves (e :: l)) with
    (match move_of e with Some m => m :: moves l | None => moves l end).
  destruct (move_of e); rewrite IH; reflexivity.
Qed.

Lemma scan_inv_log target b e w :
  (forall m, move_of e = Some m -> move_in_place target m) ->
  scan_inv target b w -> scan_inv target b (snd (log e w)).
Proof.
  intros He (W & D & L). unfold scan_inv, log. cbn [snd w_fs w_log].
  repeat split; try assumption.
  rewrite moves_app. apply Forall_app. split; [assumption|].
  change (moves [e]) with
    (match move_of e with Some m => [m] | None => [] end).
  destruct (move_of e) as [m|]; [|constructor].
  constructor; [now apply He | constructor].
Qed.

Lemma keeps_inv_log target b e :
  move_of e = None -> keeps (scan_inv target b) (log e).
Proof.
  intros N w H. apply scan_inv_log; [|assumption]. intros m E. congruence.
Qed.

Lemma keeps_inv_stats target b f : keeps (scan_inv target b) (modify_stats f).
Proof. intros w H. exact H. Qed.

Lemma detach_nonempty p t t' : detach p t = Some t' -> p <> [].
Proof. intros D ->. destruct t; discriminate. Qed.

Lemma keeps_inv_rmdir target b p : keeps (scan_inv target b) (path_rmdir p).
Proof.
  intros w (W & D & L). unfold path_rmdir. mrun.
  destruct (lookup p (w_fs w)) as [[m x|[|e es]]|] eqn:Lk;
    try (repeat split; assumption).
  destruct (detach p (w_fs w)) as [t'|] eqn:Dt; [|repeat split; assumption].
  unfold scan_inv. cbn [snd w_fs w_log]. repeat split; try assumption.
  - eapply detach_wf; eassumption.
  - intros q K. apply D.
    destruct (detach_kind p (w_fs w) _ (detach_nonempty _ _ _ Dt) Lk) as (t1 & Dt' & Kd).
    rewrite Dt in Dt'. injection Dt' as <-. rewrite Kd in K.
    now destruct (is_prefix p q).
Qed.

Lemma keeps_inv_reap_body target b root dirs files :
  keeps (scan_inv target b) (reap_body root dirs files).
Proof.
  unfold reap_body. apply keeps_for_each. intros d _.
  apply keeps_try; [|intros e; now apply keeps_inv_log].
  apply keeps_bind; [apply keeps_reader, iterdir_any_reads|].
  intros [|]; cbn [negb]; [apply keeps_ret|].
  apply keeps_bind; [apply keeps_inv_rmdir|].
  intros _. apply keeps_bind; [apply keeps_inv_stats|].
  intros _. now apply keeps_inv_log.
Qed.

Lemma keeps_inv_delete_empty target b fuel p :
  keeps (scan_inv target b) (delete_empty_folders fuel p).
Proof. apply keeps_walk_bottomup. intros. apply keeps_inv_reap_body. Qed.

(** ** The safe mover keeps trees well formed *)

Lemma ensure_dir_wf p w :
  wf_node (w_fs w) = true -> proper_path p = true ->
  wf_node (w_fs (snd (ensure_dir p w))) = true.
Proof.
  intros W P. unfold ensure_dir. mrun.
  destruct (exists_at p (w_fs w)); mrun; [assumption|].
  destruct (mkdir_p p (w_fs w)) as [t'|] eqn:Mk; mrun; [|assumption].
  eapply mkdir_p_wf; eassumption.
Qed.

Lemma shutil_move_wf src dst w :
  wf_node (w_fs w) = true ->
  proper_name (path_name dst) = true ->
  proper_name (path_name src) = true ->
  wf_node (w_fs (snd (shutil_move src dst w))) = true.
Proof.
  intros W Pd Ps. unfold shutil_move. mrun.
  destruct (is_dir_at dst (w_fs w)) eqn:I; cbn [andb].
  - destruct (exists_at (dst ++ [path_name src]) (w_fs w)); [assumption|].
    destruct (lookup src (w_fs w)) as [c|] eqn:L; [|assumption].
    destruct (detach src (w_fs w)) as [t1|] eqn:D; [|assumption].
    destruct (attach (dst ++ [path_name src]) c t1) as [t2|] eqn:A; [|assumption].
    cbn. apply (attach_wf (dst ++ [path_name src]) t1 c t2); try assumption.
    + eapply detach_wf; eassumption.
    + eapply lookup_wf; eassumption.
    + now rewrite path_name_snoc.
  - destruct (lookup src (w_fs w)) as [c|] eqn:L; [|assumption].
    destruct (detach src (w_fs w)) as [t1|] eqn:D; [|assumption].
    destruct (attach dst c t1) as [t2|] eqn:A; [|assumption].
    cbn. apply (attach_wf dst t1 c t2); try assumption.
    + eapply detach_wf; eassumption.
    + eapply lookup_wf; eassumption.
Qed.

Lemma shutil_move_fs_stats src dst w :
  w_stats (snd (shutil_move src dst w)) = w_stats w.
Proof. apply shutil_move_stats. Qed.

Lemma rename_loop_wf src dd fuel : forall i w,
  wf_node (w_fs w) = true ->
  proper_name (path_name src) = true ->
  wf_node (w_fs (snd (rename_loop fuel src dd (path_stem src) (path_suffix src) i w)))
  = true.
Proof.
  induction fuel as [|fuel IH]; intros i w W Ps; [assumption|].
  cbn [rename_loop]. rewrite path_div_candidate. mrun.
  destruct (exists_at _ (w_fs w)); mrun; [now apply IH|].
  pose proof (shutil_move_wf src (dd ++ [candidate_name (path_stem src) (path_suffix src) i])
                w W) as Mw.
  rewrite path_name_snoc in Mw.
  specialize (Mw (proper_candidate (path_name src) i Ps) Ps).
  destruct (shutil_move src _ w) as [[u|e|] w1]; cbn in *; assumption.
Qed.

Lemma safe_move_wf src dd w :
  wf_node (w_fs w) = true ->
  proper_path dd = true ->
  proper_name (path_name src) = true ->
  wf_node (w_fs (snd (safe_move src dd w))) = true.
Proof.
  intros W Pd Ps. unfold safe_move. unfold bind at 1.
  pose proof (ensure_dir_wf dd w W Pd) as W1.
  destruct (ensure_dir dd w) as [[u|e|] w1]; cbn [snd] in *; try assumption.
  rewrite (path_div_proper dd _ Ps). mrun.
  set (w2 := {| w_fs := w_fs w1; w_stats := incr_scanned (w_stats w1);
                w_log := w_log w1 |}).
  destruct (exists_at (dd ++ [path_name src]) (w_fs w1)); mrun.
  - pose proof (rename_loop_wf src dd (loop_bound dd (w_fs w1)) 1 w2 W1 Ps) as Lw.
    fold w2. destruct (rename_loop _ _ _ _ _ _ w2) as [[p|e|] w3]; cbn in *; assumption.
  - pose proof (shutil_move_wf src (dd ++ [path_name src]) w2 W1) as Mw.
    rewrite path_name_snoc in Mw. specialize (Mw Ps Ps).
    fold w2. destruct (shutil_move src _ w2) as [[u'|e|] w3]; cbn in *; assumption.
Qed.

(* ================================================================== *)
(** * The reaper returns *)
(* ================================================================== *)

Lemma reap_body_returns root dirs files w :
  fst (reap_body root dirs files w) = Ret tt.
Proof.
  unfold reap_body. revert w.
  induction dirs as [|d dirs IH]; intros w; [reflexivity|].
  cbn [for_each]. unfold bind at 1.
  match goal with
  | |- context [try_except ?m ?h w] =>
      assert (E : fst (try_except m h w) = Ret tt)
  end.
  { unfold try_except. unfold bind at 1.
    pose proof (iterdir_any_reads (root // d) w) as R.
    destruct (iterdir_any (root // d) w) as [[[|]|e|] w1] eqn:It; cbn [negb]; try reflexivity.
    - unfold path_rmdir. mrun.
      destruct (lookup (root // d) (w_fs w1)) as [[m x|[|e es]]|]; try reflexivity.
      destruct (detach (root // d) (w_fs w1)); reflexivity.
    - exfalso. unfold iterdir_any in It. revert It. mrun.
      destruct (lookup (root // d) (w_fs w)) as [[|]|]; discriminate. }
  destruct (try_except _ _ w) as [o w1]. cbn [fst] in E. subst o. apply IH.
Qed.

Lemma lookup_graft_sibling n d c t :
  n <> d -> lookup [d] (graft [n] c t) = lookup [d] t.
Proof.
  intros Ne. destruct t as [m x|es]; [reflexivity|]. cbn [graft].
  destruct (find_entry n es) as [c0|]; [|reflexivity].
  cbn [graft lookup]. rewrite (find_entry_set_other n d c es) by congruence.
  reflexivity.
Qed.

Section ReaperReturns.

Variable fuel : nat.

Hypothesis walk_returns : forall t ws,
  wf_node t = true -> height t < fuel -> w_fs ws = t ->
  fst (walk_bottomup fuel reap_body [] ws) = Ret tt.

Lemma walk_children_return ds : forall w,
  NoDup ds ->
  (forall d, In d ds ->
     exists c, lookup [d] (w_fs w) = Some c /\ wf_node c = true /\ height c < fuel) ->
  fst (for_each ds (fun d => walk_bottomup fuel reap_body ([] ++ [d])) w) = Ret tt.
Proof.
  induction ds as [|d ds IH]; intros w ND H; [reflexivity|].
  inversion ND as [|? ? Hd Hr]; subst.
  destruct (H d (or_introl eq_refl)) as (c & L & Wc & Hc).
  set (ws := {| w_fs := c; w_stats := w_stats w; w_log := [] |}).
  destruct (zoomed_walk_bottomup fuel [d] [] w ws Wc L eq_refl) as (O & _ & F1 & _).
  rewrite (walk_returns c ws Wc Hc eq_refl) in O.
  cbn [for_each]. change ([d] ++ []) with ([] ++ [d]) in O, F1.
  destruct (walk_bottomup fuel reap_body ([] ++ [d]) w) as [o w1] eqn:Wk.
  cbn [fst snd] in O, F1. subst o.
  rewrite (bind_ret_run _ _ _ _ _ Wk).
  apply IH; [assumption|].
  intros d' I. destruct (H d' (or_intror I)) as (c' & L' & Wc' & Hc').
  exists c'. split; [|auto].
  rewrite F1, lookup_graft_sibling; [assumption|].
  intros ->. contradiction.
Qed.

End ReaperReturns.

Lemma listing_In_dirs es d :
  NoDup (map fst es) ->
  In d (fst (listing es)) ->
  exists c, find_entry d es = Some c /\ is_dir_node c = true.
Proof.
  intros ND I. unfold listing in I. cbn [fst] in I.
  apply in_map_iff in I. destruct I as ([n c] & <- & I).
  apply filter_In in I. destruct I as [I D]. cbn [fst snd] in *.
  exists c. split; [now apply In_find_entry | assumption].
Qed.

Lemma listing_In_files es f :
  NoDup (map fst es) ->
  In f (snd (listing es)) ->
  exists m x, find_entry f es = Some (File m x).
Proof.
  intros ND I. unfold listing in I. cbn [snd] in I.
  apply in_map_iff in I. destruct I as ([n c] & <- & I).
  apply filter_In in I. destruct I as [I D]. cbn [fst snd] in *.
  destruct c as [m x|]; [|discriminate].
  exists m, x. now apply In_find_entry.
Qed.

Lemma listing_NoDup es :
  NoDup (map fst es) ->
  NoDup (fst (listing es)) /\ NoDup (snd (listing es)).
Proof.
  intros ND. unfold listing. cbn [fst snd].
  assert (G : forall f : string * node -> bool, NoDup (map fst (filter f es))).
  { intros f. clear - ND. induction es as [|[n c] es IH]; [constructor|].
    cbn [map fst] in ND. inversion ND as [|? ? Hn Hr]; subst.
    cbn [filter]. destruct (f (n, c)); [|now apply IH].
    cbn [map fst]. constructor; [|now apply IH].
    intros I. apply Hn. apply in_map_iff in I. destruct I as (e & E & I).
    apply filter_In in I. destruct I as [I _]. rewrite <- E. now apply in_map. }
  split; apply G.
Qed.

Lemma scandir_run top w :
  scandir top w =
  (Ret (match lookup top (w_fs w) with
        | Some (Dir es) => Some (listing es)
        | _ => None
        end), w).
Proof.
  unfold scandir. mrun. destruct (lookup top (w_fs w)) as [[|]|]; now destruct w.
Qed.

(** The walk of the reaper inside a well-formed tree returns, given fuel
    for the height of the tree. *)
Lemma reap_returns fuel : forall t ws,
  wf_node t = true -> height t < fuel -> w_fs ws = t ->
  fst (walk_bottomup fuel reap_body [] ws) = Ret tt.
Proof.
  induction fuel as [|fuel IH]; intros t ws W H Fs; [lia|].
  cbn [walk_bottomup].
  rewrite (bind_ret_run _ _ _ _ _ (scandir_run [] ws)). rewrite Fs. cbn [lookup].
  destruct t as [m x|es]; [reflexivity|].
    destruct (listing es) as [dirs files] eqn:Ls.
    destruct (wf_node_names es W) as [ND _].
    pose proof (walk_children_return fuel IH dirs ws) as Lp.
    destruct (for_each dirs _ ws) as [o w1] eqn:Lr.
    cbn [fst] in Lp.
    assert (Eo : o = Ret tt); [apply Lp | subst o].
    3: { rewrite (bind_ret_run _ _ _ _ _ Lr). apply reap_body_returns. }
    + pose proof (listing_NoDup es ND) as [N1 _]. now rewrite Ls in N1.
    + intros d I. destruct (listing_In_dirs es d ND) as (c & F & _).
      { now rewrite Ls. }
      exists c. rewrite Fs. cbn [lookup]. rewrite F. split; [reflexivity|]. split.
      * eapply wf_node_child; eassumption.
      * pose proof (height_child d c es (find_entry_In_pair d es c F)). lia.
Qed.

(** [delete_empty_folders] returns, given fuel for the height of the
    tree. *)
Lemma delete_empty_folders_returns fuel p w :
  wf_node (w_fs w) = true -> height (w_fs w) < fuel ->
  fst (delete_empty_folders fuel p w) = Ret tt.
Proof.
  intros W H. unfold delete_empty_folders.
  destruct (lookup p (w_fs w)) as [t|] eqn:L.
  - set (ws := {| w_fs := t; w_stats := w_stats w; w_log := [] |}).
    assert (Wt : wf_node t = true) by (eapply lookup_wf; eassumption).
    destruct (zoomed_walk_bottomup fuel p [] w ws Wt L eq_refl) as (O & _).
    rewrite app_nil_r in O. rewrite O.
    apply (reap_returns fuel t ws Wt); [|reflexivity].
    pose proof (height_lookup p _ _ L). lia.
  - destruct fuel as [|fuel]; [lia|]. cbn [walk_bottomup].
    rewrite (bind_ret_run _ _ _ _ _ (scandir_run p w)). now rewrite L.
Qed.

(* ================================================================== *)
(** * One file of the scan *)
(* ================================================================== *)

Lemma mkdir_p_blocked p t :
  no_file_on p t = false -> exists_at p t = false -> mkdir_p p t = None.
Proof.
  intros NF NE.
  destruct (mkdir_p p t) as [t'|] eqn:Mk; [exfalso|reflexivity].
  unfold no_file_on in NF.
  assert (exists k, match kind_at (firstn k p) t with
                    | Some (KFile _ _) => true | _ => false end = true)
    as [k Hk].
  { clear - NF. induction (seq 0 (S (List.length p))) as [|k l IH]; [discriminate|].
    cbn [forallb] in NF. apply andb_false_iff in NF. destruct NF as [NF|NF].
    - exists k. destruct (kind_at (firstn k p) t) as [[|]|]; now try discriminate.
    - now apply IH. }
  destruct (kind_at (firstn k p) t) as [[m x|]|] eqn:K; try discriminate.
  pose proof (mkdir_p_kind p t t' Mk) as Kp.
  assert (K' : kind_at (firstn k p) t' = Some (KFile m x)).
  { rewrite Kp, K. reflexivity. }
  assert (Kd : kind_at p t' = Some KDir).
  { rewrite Kp. rewrite exists_at_kind in NE.
    destruct (kind_at p t); [discriminate|]. now rewrite is_prefix_refl. }
  rewrite <- (firstn_skipn k p) in Kd, NE.
  destruct (skipn k p) as [|a r].
  - rewrite app_nil_r in *. rewrite exists_at_kind, K in NE. discriminate.
  - rewrite (kind_at_below_file _ (a :: r) t' m x K') in Kd; discriminate.
Qed.

Lemma attach_needs_dir d : forall n c t t',
  attach (d ++ [n]) c t = Some t' -> kind_at d t = Some KDir.
Proof.
  induction d as [|a d IH]; intros n c t t' A.
  - destruct t; [discriminate | reflexivity].
  - destruct t as [m x|es]; [destruct d; simpl in A; discriminate|].
    change ((a :: d) ++ [n]) with (a :: (d ++ [n])) in A.
    rewrite attach_cons_cons in A by (now destruct d).
    rewrite kind_at_cons.
    destruct (find_entry a es) as [c0|]; [|discriminate].
    destruct (attach (d ++ [n]) c c0) as [c1|] eqn:A1; [|discriminate].
    eapply IH; eassumption.
Qed.

(** A regular file handed to [safe_move] is either moved, and then the
    state is as [safe_move_moves] tells, or it stays, and then the file
    system is as it was and no move is logged. *)
Lemma safe_move_file_cases src dd w m x :
  lookup src (w_fs w) = Some (File m x) ->
  plain (path_name src) = true ->
  (exists dest t' ev s',
      safe_move src dd w =
        (Ret dest, {| w_fs := t'; w_stats := s'; w_log := w_log w ++ [ev] |}) /\
      move_of ev = Some (src, dest) /\
      (exists n, dest = dd ++ [n]) /\
      exists_at dest (w_fs w) = false /\
      forall q,
        kind_at q t' =
        if path_eqb q dest then Some (KFile m x)
        else if path_eqb q src then None
        else match kind_at q (w_fs w) with
             | Some k => Some k
             | None => if is_prefix q dd then Some KDir else None
             end)
  \/
  (exists e s' l',
      safe_move src dd w =
        (Raise e, {| w_fs := w_fs w; w_stats := s'; w_log := w_log w ++ l' |}) /\
      moves l' = []).
Proof.
  intros Hs Pl.
  destruct (no_file_on dd (w_fs w)) eqn:NF.
  - left.
    destruct (safe_move_moves src dd w m x Hs Pl (no_file_on_spec dd _ NF))
      as (dest & t' & ev & Run & C & K).
    exists dest, t', ev. eexists. split; [exact Run|].
    split; [|split; [|split; [|exact K]]].
    + destruct C as [(_ & _ & ->)|(_ & N & _ & _ & -> & _)]; reflexivity.
    + destruct C as [(_ & -> & _)|(_ & N & _ & -> & _)]; eauto.
    + destruct C as [(E & -> & _)|(_ & N & _ & _ & _ & _ & E)]; exact E.
  - right.
    destruct (exists_at dd (w_fs w)) eqn:Ex.
    + (* the destination "directory" is a regular file *)
      assert (Kd : exists m' x', kind_at dd (w_fs w) = Some (KFile m' x')).
      { rewrite exists_at_kind in Ex.
        destruct (kind_at dd (w_fs w)) as [[m' x'|]|] eqn:K; try discriminate; eauto.
        rewrite (no_file_on_dir dd _ K) in NF. discriminate. }
      destruct Kd as (m' & x' & Kd).
      pose proof (plain_name_nonempty src Pl) as NE.
      destruct (detach_file src (w_fs w) m x Hs NE) as (t1 & Dt & K1).
      assert (At : attach (dd ++ [path_name src]) (File m x) t1 = None).
      { destruct (attach (dd ++ [path_name src]) (File m x) t1) as [t2|] eqn:A;
          [exfalso|reflexivity].
        apply attach_needs_dir in A. rewrite K1 in A.
        destruct (path_eqb dd src); congruence. }
      assert (Fr : exists_at (dd ++ [path_name src]) (w_fs w) = false).
      { apply kind_at_none_exists. eapply kind_at_below_file; [eassumption|discriminate]. }
      exists OSError, (incr_errors (incr_scanned (w_stats w))), [LogFailedMove src].
      split; [|reflexivity].
      unfold safe_move. unfold bind at 1.
      rewrite (ensure_dir_present dd w Ex).
      rewrite (path_div_plain dd _ Pl). mrun. rewrite Fr. mrun.
      unfold shutil_move. mrun.
      assert (I : is_dir_at (dd ++ [path_name src]) (w_fs w) = false).
      { unfold is_dir_at. unfold exists_at in Fr.
        now destruct (lookup (dd ++ [path_name src]) (w_fs w)). }
      rewrite I. cbn [andb]. rewrite Hs, Dt, At. reflexivity.
    + exists OSError, (w_stats w), []. split; [|reflexivity].
      unfold safe_move. unfold bind at 1.
      rewrite (ensure_dir_failed dd w Ex (mkdir_p_blocked dd _ NF Ex)).
      rewrite app_nil_r. now destruct w.
Qed.

Lemma resolve_in_rules ext rules :
  resolve_folder_for_ext ext rules = "Others" \/
  In (resolve_folder_for_ext ext rules) (map fst rules).
Proof.
  induction rules as [|[f exts] rs IH]; [now left|].
  cbn [resolve_folder_for_ext map fst].
  destruct (Str.mem ext exts); [right; now left|].
  destruct IH as [IH|IH]; [now left | right; now right].
Qed.

Section ScanStep.

Variables (tz : Z -> Z) (target : path) (method : string) (rules : list rule).
Variable b : nat.

Hypothesis target_proper : proper_path target = true.
Hypothesis rules_proper : forall c, In c (map fst rules) -> proper_name c = true.
Hypothesis depth_bound : List.length target + 4 <= b.

Lemma category_proper ext : proper_name (resolve_folder_for_ext ext rules) = true.
Proof.
  destruct (resolve_in_rules ext rules) as [->|I]; [reflexivity | now apply rules_proper].
Qed.

Lemma planned_facts dd :
  planned target dd ->
  proper_path dd = true /\ is_prefix target dd = true /\
  List.length target < List.length dd /\ List.length dd + 1 <= b.
Proof.
  intros (rest & -> & P & L). rewrite proper_path_app, target_proper, P.
  rewrite is_prefix_app, length_app. repeat split; lia.
Qed.

(** What the planner does with a regular file: it hands it to [safe_move]
    with a planned directory, or it raises and nothing has changed. *)
Lemma organize_file src w m x :
  lookup src (w_fs w) = Some (File m x) ->
  exists dd, planned target dd /\
    (organize tz method src target rules w = safe_move src dd w \/
     exists e, organize tz method src target rules w = (Raise e, w)).
Proof.
  intros L.
  set (cat := resolve_folder_for_ext (normalize_ext (path_suffix src)) rules).
  pose proof (category_proper (normalize_ext (path_suffix src))) as Pc. fold cat in Pc.
  destruct (civil_of_days ((m + tz m) / 86400)) as [y mo] eqn:C.
  destruct ((1 <=? y)%Z && (y <=? 9999)%Z)%bool eqn:R.
  - apply andb_true_iff in R. destruct R as [R1 R2]. apply Z.leb_le in R1, R2.
    assert (Ry : (1 <= y <= 9999)%Z) by lia.
    destruct (organize_plans tz w src target rules m x y mo L C Ry) as (P1 & P2 & P3).
    pose proof (year_str_proper y Ry) as Py.
    assert (Rm : (1 <= mo <= 12)%Z).
    { pose proof (civil_month_range ((m + tz m) / 86400)) as H. now rewrite C in H. }
    pose proof (month_abbr_proper mo Rm) as Pm.
    unfold organize.
    destruct (method =? "type_date"); [|destruct (method =? "date_type")].
    + exists (target ++ [cat; str_of_Z y; month_abbr mo]). split.
      * exists [cat; str_of_Z y; month_abbr mo]. cbn [proper_path forallb List.length].
        rewrite Pc, Py, Pm. repeat split; lia.
      * left. rewrite P1. fold cat.
        rewrite !path_div_proper by assumption. now rewrite <- !app_assoc.
    + exists (target ++ [str_of_Z y; month_abbr mo; cat]). split.
      * exists [str_of_Z y; month_abbr mo; cat]. cbn [proper_path forallb List.length].
        rewrite Pc, Py, Pm. repeat split; lia.
      * left. rewrite P2. fold cat.
        rewrite !path_div_proper by assumption. now rewrite <- !app_assoc.
    + exists (target ++ [cat]). split.
      * exists [cat]. cbn [proper_path forallb List.length].
        rewrite Pc. repeat split; lia.
      * left. rewrite P3. fold cat. now rewrite path_div_proper.
  - pose proof (st_mtime_file src w m x L) as St.
    assert (Ft : fromtimestamp tz m w = (Raise ValueError, w)).
    { unfold fromtimestamp. rewrite C. cbn [fst]. now rewrite R. }
    unfold organize.
    destruct (method =? "type_date"); [|destruct (method =? "date_type")].
    + exists (target ++ [cat]). split.
      * exists [cat]. cbn [proper_path forallb List.length].
        rewrite Pc. repeat split; lia.
      * right. exists ValueError. unfold organize_by_type_then_date.
        unfold bind at 1. rewrite St. unfold bind at 1. now rewrite Ft.
    + exists (target ++ [cat]). split.
      * exists [cat]. cbn [proper_path forallb List.length].
        rewrite Pc. repeat split; lia.
      * right. exists ValueError. unfold organize_by_date_then_type.
        unfold bind at 1. rewrite St. unfold bind at 1. now rewrite Ft.
    + exists (target ++ [cat]). split.
      * exists [cat]. cbn [proper_path forallb List.length].
        rewrite Pc. repeat split; lia.
      * left. unfold organize_flat_type. fold cat. now rewrite path_div_proper.
Qed.

Lemma scan_file_step f w m x :
  scan_inv target b w ->
  proper_name f = true ->
  lookup (target ++ [f]) (w_fs w) = Some (File m x) ->
  fst (scan_file tz target method rules target f w) = Ret tt /\
  scan_inv target b (snd (scan_file tz target method rules target f w)) /\
  (forall q m' x',
      q <> target ++ [f] ->
      lookup q (w_fs w) = Some (File m' x') ->
      lookup q (w_fs (snd (scan_file tz target method rules target f w)))
        = Some (File m' x')).
Proof.
  intros (W & D & Lg) Pf L.
  set (src := target ++ [f]) in *.
  assert (Pn : proper_name (path_name src) = true)
    by (unfold src; now rewrite path_name_snoc).
  assert (Unf : scan_file tz target method rules target f w =
                try_except (organize tz method src target rules ;; ret tt)
                           (fun _ => log (LogFailedMove src)) w).
  { unfold scan_file. now rewrite (path_div_proper target f Pf). }
  destruct (organize_file src w m x L) as (dd & Pd & [Run|[e Run]]).
  - destruct (planned_facts dd Pd) as (Pp & Pre & Ld & Lb).
    pose proof (safe_move_wf src dd w W Pp Pn) as W'.
    destruct (safe_move_file_cases src dd w m x L (proper_name_plain _ Pn))
      as [(dest & t' & ev & s' & Sm & Mv & [n ->] & Fresh & K)|(e & s' & l' & Sm & Ml)].
    + (* moved *)
      assert (Step : scan_file tz target method rules target f w =
                     (Ret tt, {| w_fs := t'; w_stats := s';
                                 w_log := w_log w ++ [ev] |})).
      { rewrite Unf. unfold try_except.
        rewrite (bind_ret_run _ _ _ _ _ (eq_trans Run Sm)). reflexivity. }
      rewrite Sm in W'. cbn [snd w_fs] in W'.
      rewrite Step. cbn [fst snd].
      split; [reflexivity|]. split; [|].
      * unfold scan_inv. cbn [w_fs w_log]. split; [exact W'|]. split.
        -- intros q Kq. rewrite K in Kq.
           destruct (path_eqb q (dd ++ [n])) eqn:E1.
           ++ apply path_eqb_eq in E1. subst q. rewrite length_app. cbn. lia.
           ++ destruct (path_eqb q src); [congruence|].
              destruct (kind_at q (w_fs w)) eqn:E2.
              ** apply D. congruence.
              ** destruct (is_prefix q dd) eqn:P; [|congruence].
                 apply is_prefix_spec in P. destruct P as [r ->].
                 rewrite length_app in Lb. lia.
        -- rewrite moves_app. apply Forall_app. split; [assumption|].
           change (moves [ev]) with
             (match move_of ev with Some m => [m] | None => [] end).
           rewrite Mv. constructor; [|constructor].
           unfold move_in_place, src. cbn [fst snd].
           rewrite !length_app. cbn [List.length].
           repeat split; try lia.
           ++ apply is_prefix_app.
           ++ apply is_prefix_spec in Pre. destruct Pre as [r ->].
              rewrite <- app_assoc. apply is_prefix_app.
      * intros q m' x' Ne Lg'. cbn [w_fs].
        apply kind_at_file_lookup. rewrite K.
        assert (E1 : path_eqb q (dd ++ [n]) = false).
        { apply path_eqb_neq. intros ->. unfold exists_at in Fresh.
          rewrite Lg' in Fresh. discriminate. }
        assert (E2 : path_eqb q src = false) by now apply path_eqb_neq.
        rewrite E1, E2. apply kind_at_file_lookup in Lg'. now rewrite Lg'.
    + (* not moved *)
      assert (Step : scan_file tz target method rules target f w =
                     (Ret tt, {| w_fs := w_fs w; w_stats := s';
                                 w_log := (w_log w ++ l') ++ [LogFailedMove src] |})).
      { rewrite Unf. unfold try_except.
        rewrite (bind_raise_run _ _ _ _ _ (eq_trans Run Sm)). reflexivity. }
      rewrite Step. cbn [fst snd w_fs].
      split; [reflexivity|]. split; [|intros; assumption].
      unfold scan_inv. cbn [w_fs w_log]. repeat split; try assumption.
      rewrite !moves_app, Ml, app_nil_r.
      change (moves [LogFailedMove src]) with (@nil (path * path)).
      now rewrite app_nil_r.
  - assert (Step : scan_file tz target method rules target f w =
                   (Ret tt, {| w_fs := w_fs w; w_stats := w_stats w;
                               w_log := w_log w ++ [LogFailedMove src] |})).
    { rewrite Unf. unfold try_except.
      rewrite (bind_raise_run _ _ _ _ _ Run). reflexivity. }
    rewrite Step. cbn [fst snd w_fs].
    split; [reflexivity|]. split; [|intros; assumption].
    unfold scan_inv. cbn [w_fs w_log]. repeat split; try assumption.
    rewrite moves_app.
    change (moves [LogFailedMove src]) with (@nil (path * path)).
    now rewrite app_nil_r.
Qed.

(** The loop over the files of the target directory. *)
Lemma scan_files files : forall w,
  scan_inv target b w ->
  NoDup files ->
  (forall f, In f files ->
     proper_name f = true /\
     exists m x, lookup (target ++ [f]) (w_fs w) = Some (File m x)) ->
  fst (for_each files (scan_file tz target method rules target) w) = Ret tt /\
  scan_inv target b (snd (for_each files (scan_file tz target method rules target) w)) /\
  (forall q m' x',
      (forall f, In f files -> q <> target ++ [f]) ->
      lookup q (w_fs w) = Some (File m' x') ->
      lookup q (w_fs (snd (for_each files (scan_file tz target method rules target) w)))
        = Some (File m' x')).
Proof.
  induction files as [|f files IH]; intros w Inv ND H;
    [split; [reflexivity|split; [exact Inv|intros; assumption]]|].
  inversion ND as [|? ? Hf Hr]; subst.
  destruct (H f (or_introl eq_refl)) as (Pf & m & x & L).
  destruct (scan_file_step f w m x Inv Pf L) as (O & Inv1 & Keep).
  cbn [for_each].
  destruct (scan_file tz target method rules target f w) as [o w1] eqn:St. cbn [fst snd] in *. subst o.
  rewrite (bind_ret_run _ _ _ _ _ St).
  destruct (IH w1 Inv1 Hr) as (O2 & Inv2 & Keep2).
  2: { split; [exact O2|]. split; [exact Inv2|].
       intros q m' x' Nq Lq. apply Keep2.
       - intros g I. apply Nq. now right.
       - apply Keep; [apply Nq; now left | assumption]. }
  intros g I. destruct (H g (or_intror I)) as (Pg & m' & x' & Lg).
  split; [assumption|]. exists m', x'. apply Keep; [|assumption].
  intros E. apply app_inv_head in E. injection E as ->. contradiction.
Qed.

End ScanStep.

(* ================================================================== *)
(** * The log only grows *)
(* ================================================================== *)

Lemma grows_same {A} (m : M A) :
  (forall w, w_log (snd (m w)) = w_log w) -> grows m.
Proof. intros H w. exists []. now rewrite H, app_nil_r. Qed.

Lemma grows_ret {A} (a : A) : grows (ret a).
Proof. now apply grows_same. Qed.

Lemma grows_log e : grows (log e).
Proof. intros w. now exists [e]. Qed.

Lemma grows_bind {A B} (m : M A) (k : A -> M B) :
  grows m -> (forall a, grows (k a)) -> grows (bind m k).
Proof.
  intros Hm Hk w. unfold bind. destruct (Hm w) as [l El].
  destruct (m w) as [[a|e|] w1]; cbn [snd] in *; eauto.
  destruct (Hk a w1) as [l' El']. exists (l ++ l'). now rewrite El', El, app_assoc.
Qed.

Lemma grows_try {A} (m : M A) (h : exn -> M A) :
  grows m -> (forall e, grows (h e)) -> grows (try_except m h).
Proof.
  intros Hm Hh w. unfold try_except. destruct (Hm w) as [l El].
  destruct (m w) as [[a|e|] w1]; cbn [snd] in *; eauto.
  destruct (Hh e w1) as [l' El']. exists (l ++ l'). now rewrite El', El, app_assoc.
Qed.

Lemma grows_for_each {A} (xs : list A) (body : A -> M unit) :
  (forall x, grows (body x)) -> grows (for_each xs body).
Proof.
  intros H. induction xs as [|x xs IH]; cbn [for_each].
  - apply grows_ret.
  - apply grows_bind; [apply H | intros _; exact IH].
Qed.

Lemma grows_reader {A} (m : M A) : (forall w, snd (m w) = w) -> grows m.
Proof. intros H. apply grows_same. intros w. now rewrite H. Qed.

Lemma grows_shutil_move src dst : grows (shutil_move src dst).
Proof. apply grows_same. intros w. apply shutil_move_stats. Qed.

Lemma grows_modify_stats f : grows (modify_stats f).
Proof. now apply grows_same. Qed.

Lemma grows_rename_loop src dd name ext fuel : forall i,
  grows (rename_loop fuel src dd name ext i).
Proof.
  induction fuel as [|fuel IH]; intros i; cbn [rename_loop].
  - now apply grows_same.
  - apply grows_bind; [apply grows_reader, path_exists_reads|].
    intros [|]; cbn [negb]; [apply IH|].
    apply grows_bind; [apply grows_shutil_move|]. intros _.
    apply grows_bind; [apply grows_modify_stats|]. intros _.
    apply grows_bind; [apply grows_log | intros _; apply grows_ret].
Qed.

Lemma grows_ensure_dir p : grows (ensure_dir p).
Proof.
  apply grows_same. intros w. unfold ensure_dir. mrun.
  destruct (exists_at p (w_fs w)); mrun; [reflexivity|].
  destruct (mkdir_p p (w_fs w)); reflexivity.
Qed.

Lemma grows_safe_move src dd : grows (safe_move src dd).
Proof.
  unfold safe_move.
  apply grows_bind; [apply grows_ensure_dir|]. intros _.
  apply grows_bind; [apply grows_modify_stats|]. intros _.
  apply grows_try.
  - apply grows_bind; [apply grows_reader, path_exists_reads|].
    intros [|]; cbn [negb].
    + apply grows_bind; [now apply grows_same|]. intros t. apply grows_rename_loop.
    + apply grows_bind; [apply grows_shutil_move|]. intros _.
      apply grows_bind; [apply grows_modify_stats|]. intros _.
      apply grows_bind; [apply grows_log | intros _; apply grows_ret].
  - intros e. apply grows_bind; [apply grows_modify_stats|]. intros _.
    apply grows_bind; [apply grows_log | intros _; now apply grows_same].
Qed.

Ltac grow :=
  first [ apply grows_safe_move
        | apply grows_reader, st_mtime_reads
        | apply grows_reader, fromtimestamp_reads
        | apply grows_ret
        | apply grows_bind; [grow | intros ?; grow] ].

Lemma grows_organize tz method src target rules :
  grows (organize tz method src target rules).
Proof.
  unfold organize.
  destruct (method =? "type_date"); [|destruct (method =? "date_type")].
  - unfold organize_by_type_then_date, month_name_from_ts. grow.
  - unfold organize_by_date_then_type, month_name_from_ts. grow.
  - apply grows_safe_move.
Qed.

Lemma grows_reap_body root dirs files : grows (reap_body root dirs files).
Proof.
  unfold reap_body. apply grows_for_each. intros d.
  apply grows_try; [|intros e; apply grows_log].
  apply grows_bind; [apply grows_reader, iterdir_any_reads|].
  intros [|]; cbn [negb]; [apply grows_ret|].
  apply grows_bind.
  - apply grows_same. intros w. unfold path_rmdir. mrun.
    destruct (lookup (root // d) (w_fs w)) as [[|[|]]|]; try reflexivity.
    now destruct (detach (root // d) (w_fs w)).
  - intros _. apply grows_bind; [apply grows_modify_stats|].
    intros _. apply grows_log.
Qed.

Lemma grows_walk_bottomup fuel body :
  (forall root dirs files, grows (body root dirs files)) ->
  forall top, grows (walk_bottomup fuel body top).
Proof.
  intros Hb. induction fuel as [|fuel IH]; intros top; cbn [walk_bottomup].
  - now apply grows_same.
  - apply grows_bind; [apply grows_reader, scandir_reads|].
    intros [[dirs files]|]; [|apply grows_ret].
    apply grows_bind; [|intros _; apply Hb].
    apply grows_for_each. intros d. apply IH.
Qed.

Lemma grows_walk_topdown fuel body :
  (forall root dirs files, grows (body root dirs files)) ->
  forall top, grows (walk_topdown fuel body top).
Proof.
  intros Hb. induction fuel as [|fuel IH]; intros top; cbn [walk_topdown].
  - now apply grows_same.
  - apply grows_bind; [apply grows_reader, scandir_reads|].
    intros [[dirs files]|]; [|apply grows_ret].
    apply grows_bind; [apply Hb|].
    intros [|]; [|apply grows_ret].
    induction dirs as [|d r IHr]; [apply grows_ret|].
    apply grows_bind; [apply IH|].
    intros [|]; [exact IHr | apply grows_ret].
Qed.

Lemma grows_scan_body tz target method recursive rules root dirs files :
  grows (scan_body tz target method recursive rules root dirs files).
Proof.
  unfold scan_body.
  destruct (_ && negb recursive)%bool; [apply grows_ret|].
  apply grows_bind.
  - apply grows_for_each. intros f.
    apply grows_try; [|intros e; apply grows_log].
    apply grows_bind; [apply grows_organize | intros _; apply grows_ret].
  - intros _. destruct (negb recursive); apply grows_ret.
Qed.

Lemma grows_deep_scan tz fuel target method recursive delete_empty cfg :
  grows (deep_scan_and_organize tz fuel target method recursive delete_empty cfg).
Proof.
  unfold deep_scan_and_organize.
  apply grows_bind; [apply grows_reader, path_exists_reads|].
  intros e. destruct (negb e); [apply grows_log|].
  apply grows_bind.
  - apply grows_walk_topdown. intros. apply grows_scan_body.
  - intros _. destruct delete_empty; [|apply grows_ret].
    apply grows_walk_bottomup. intros. apply grows_reap_body.
Qed.

(* ================================================================== *)
(** * The reaper leaves the files alone *)
(* ================================================================== *)

Lemma keeps_file_rmdir q m x p :
  keeps (fun w => lookup q (w_fs w) = Some (File m x)) (path_rmdir p).
Proof.
  intros w L. unfold path_rmdir. mrun.
  destruct (lookup p (w_fs w)) as [[m' x'|[|e es]]|] eqn:Lp; try assumption.
  destruct (detach p (w_fs w)) as [t'|] eqn:Dt; [|assumption].
  cbn [snd w_fs].
  destruct (detach_kind p (w_fs w) _ (detach_nonempty _ _ _ Dt) Lp) as (t1 & Dt' & K).
  rewrite Dt in Dt'. injection Dt' as <-.
  apply kind_at_file_lookup. rewrite K.
  destruct (is_prefix p q) eqn:P.
  - exfalso. apply is_prefix_spec in P. destruct P as [r ->].
    rewrite lookup_app, Lp in L. destruct r; discriminate.
  - now apply kind_at_file_lookup.
Qed.

Lemma keeps_file_delete_empty q m x fuel p :
  keeps (fun w => lookup q (w_fs w) = Some (File m x)) (delete_empty_folders fuel p).
Proof.
  apply keeps_walk_bottomup. intros root dirs files.
  unfold reap_body. apply keeps_for_each. intros d _.
  apply keeps_try; [|intros e w H; exact H].
  apply keeps_bind; [apply keeps_reader, iterdir_any_reads|].
  intros [|]; cbn [negb]; [apply keeps_ret|].
  apply keeps_bind; [apply keeps_file_rmdir|].
  intros _. apply keeps_bind; [intros w H; exact H|].
  intros _ w H. exact H.
Qed.

(* ================================================================== *)
(** * One run of the scanner, recursion off *)
(* ================================================================== *)

Lemma path_exists_run p w : path_exists p w = (Ret (exists_at p (w_fs w)), w).
Proof. unfold path_exists. mrun. now destruct w. Qed.

Lemma skipn_length_self {A} (l : list A) : skipn (List.length l) l = [].
Proof. induction l; [reflexivity | assumption]. Qed.

(** At the root of the walk, with recursion off, the body of the scanner is
    the loop over the files followed by [break]. *)
Lemma scan_body_root tz target method rules dirs files :
  scan_body tz target method false rules target dirs files =
  (for_each files (scan_file tz target method rules target) ;; ret Break).
Proof.
  unfold scan_body. rewrite skipn_length_self. reflexivity.
Qed.

Lemma wf_node_proper es :
  wf_node (Dir es) = true -> forall n, In n (map fst es) -> proper_name n = true.
Proof.
  rewrite wf_node_Dir, !andb_true_iff. intros [[P _] _] n I.
  rewrite forallb_forall in P. now apply P.
Qed.

Lemma height_to_deep_le t b : height t <= b -> deep_le b t.
Proof.
  intros H q K. unfold kind_at in K.
  destruct (lookup q t) as [c|] eqn:L; [|contradiction].
  pose proof (height_lookup q t c L). lia.
Qed.

Section OneRun.

Variables (tz : Z -> Z) (target : path) (method : string).
Variables (delete_empty : bool) (cfg_rules : option rules_dict).
Variables (b fuel : nat).

Let custom : rules_dict := match cfg_rules with Some d => d | None => [] end.

Hypothesis target_proper : proper_path target = true.
Hypothesis custom_proper : forall c, In c (dict_keys custom) -> proper_name c = true.
Hypothesis depth_bound : List.length target + 4 <= b.
Hypothesis enough_fuel : b < fuel.

Lemma built_rules_proper :
  forall c, In c (map fst (build_rules custom)) -> proper_name c = true.
Proof.
  intros c I. rewrite build_rules_keys in I. apply in_app_or in I.
  destruct I as [I|I]; [now apply custom_proper|].
  apply filter_In in I. destruct I as [I _].
  assert (A : forallb proper_name (dict_keys DEFAULT_RULES) = true) by reflexivity.
  rewrite forallb_forall in A. now apply A.
Qed.

Let run : M unit :=
  deep_scan_and_organize tz fuel target method false delete_empty cfg_rules.

(** The walk at the root: the files of the target directory are handled,
    and the walk stops. *)
Lemma walk_root w :
  scan_inv target b w ->
  exists flow w1,
    walk_topdown fuel
      (scan_body tz target method false (build_rules custom)) target w
    = (Ret flow, w1) /\
    scan_inv target b w1 /\
    (forall q m x,
        S (List.length target) < List.length q ->
        lookup q (w_fs w) = Some (File m x) ->
        lookup q (w_fs w1) = Some (File m x)).
Proof.
  intros Inv. destruct fuel as [|k] eqn:Ef; [lia|].
  cbn [walk_topdown].
  rewrite (bind_ret_run _ _ _ _ _ (scandir_run target w)).
  destruct (lookup target (w_fs w)) as [[m0 x0|es]|] eqn:L;
    [ exists Next, w; split; [reflexivity | split; [assumption | intros; assumption]]
    |
    | exists Next, w; split; [reflexivity | split; [assumption | intros; assumption]] ].
  destruct (listing es) as [dirs files] eqn:Ls.
  destruct Inv as (W & D & Lg).
  assert (Wt : wf_node (Dir es) = true) by (eapply lookup_wf; eassumption).
  destruct (wf_node_names es Wt) as [ND _].
  destruct (listing_NoDup es ND) as [_ NDf]. rewrite Ls in NDf. cbn [snd] in NDf.
  destruct (scan_files tz target method (build_rules custom) b target_proper
              built_rules_proper depth_bound files w) as (O & Inv1 & Keep).
  - repeat split; assumption.
  - assumption.
  - intros f I.
    destruct (listing_In_files es f ND) as (m & x & F); [now rewrite Ls|].
    split.
    + apply (wf_node_proper es Wt). eapply find_entry_In; eassumption.
    + exists m, x. now rewrite (lookup_snoc target f _ es L).
  - rewrite scan_body_root.
    destruct (for_each files (scan_file tz target method (build_rules custom) target) w)
      as [o w1] eqn:Lp.
    cbn [fst snd] in O, Inv1, Keep. subst o.
    exists Break, w1. split; [|split; [assumption|]].
    + rewrite (bind_ret_run _ _ _ _ _
                 (bind_ret_run _ (fun _ => ret Break) _ _ _ Lp)).
      reflexivity.
    + intros q m x Lq Hq. apply Keep; [|assumption].
      intros f _ E. rewrite E, length_app in Lq. cbn in Lq. lia.
Qed.

(** One run: it returns, it keeps the invariant, and it leaves every
    regular file that lies below a sub-directory of the target where it
    is. *)
Lemma deep_scan_run w :
  scan_inv target b w ->
  fst (run w) = Ret tt /\
  scan_inv target b (snd (run w)) /\
  (forall q m x,
      S (List.length target) < List.length q ->
      lookup q (w_fs w) = Some (File m x) ->
      lookup q (w_fs (snd (run w))) = Some (File m x)).
Proof.
  intros Inv. unfold run, deep_scan_and_organize. fold custom.
  rewrite (bind_ret_run _ _ _ _ _ (path_exists_run target w)).
  destruct (exists_at target (w_fs w)); cbn [negb].
  - destruct (walk_root w Inv) as (flow & w1 & Wk & Inv1 & Keep).
    rewrite (bind_ret_run _ _ _ _ _ Wk).
    destruct delete_empty.
    + split; [|split].
      * destruct Inv1 as (W1 & D1 & _).
        apply delete_empty_folders_returns; [assumption|].
        pose proof (height_deep_le (w_fs w1) b D1 W1). lia.
      * now apply keeps_inv_delete_empty.
      * intros q m x Lq Hq. apply keeps_file_delete_empty. now apply Keep.
    + split; [reflexivity|]. split; [assumption|]. exact Keep.
  - split; [reflexivity|]. split; [|intros; assumption].
    apply scan_inv_log; [intros ? E; discriminate | assumption].
Qed.

End OneRun.

(* ================================================================== *)
(** * Two runs in a row *)
(* ================================================================== *)

(** C6 (as amended).  Let every category name of the custom rules be a
    proper folder name, the target a proper path and the tree well formed.
    Two runs of [deep_scan_and_organize] in a row with recursion off, given
    fuel for the depth of the tree, both return; the second continues the
    log of the first; every move of either run takes an entry of the
    target directory to a place below a sub-directory of the target, so
    that no move has for its source the destination of a move: no file is
    moved twice; and every regular file that lies below a sub-directory of
    the target after the first run is still there, unchanged, after the
    second. *)
Theorem deep_scan_twice_moves_once :
  forall (tz : Z -> Z) (fs : node) (target : path) (method : string)
         (delete_empty : bool) (cfg_rules : option rules_dict) (fuel : nat),
    wf_node fs = true ->
    proper_path target = true ->
    (forall c,
        In c (dict_keys (match cfg_rules with Some d => d | None => [] end)) ->
        proper_name c = true) ->
    Nat.max (height fs) (List.length target + 4) < fuel ->
    let run :=
      deep_scan_and_organize tz fuel target method false delete_empty cfg_rules in
    let r1 := run (start_run fs) in
    let r2 := run (snd r1) in
    fst r1 = Ret tt /\
    fst r2 = Ret tt /\
    (exists l2, w_log (snd r2) = w_log (snd r1) ++ l2) /\
    (forall m, In m (moves (w_log (snd r2))) -> move_in_place target m) /\
    (forall m m',
        In m (moves (w_log (snd r2))) -> In m' (moves (w_log (snd r2))) ->
        fst m' <> snd m) /\
    (forall q x y,
        S (List.length target) < List.length q ->
        lookup q (w_fs (snd r1)) = Some (File x y) ->
        lookup q (w_fs (snd r2)) = Some (File x y)).
Proof.
  intros tz fs target method delete_empty cfg_rules fuel W Pt Pc Fu run r1 r2.
  set (b := Nat.max (height fs) (List.length target + 4)) in *.
  assert (Db : List.length target + 4 <= b) by (unfold b; lia).
  assert (Inv0 : scan_inv target b (start_run fs)).
  { unfold scan_inv, start_run. cbn [w_fs w_log moves]. repeat split.
    - exact W.
    - apply height_to_deep_le. unfold b. lia.
    - constructor. }
  destruct (deep_scan_run tz target method delete_empty cfg_rules b fuel
              Pt Pc Db Fu (start_run fs) Inv0) as (O1 & Inv1 & _).
  destruct (deep_scan_run tz target method delete_empty cfg_rules b fuel
              Pt Pc Db Fu (snd r1) Inv1) as (O2 & Inv2 & Keep2).
  destruct Inv2 as (_ & _ & Mv). rewrite Forall_forall in Mv.
  split; [exact O1|]. split; [exact O2|]. split; [|split; [|split]].
  - apply grows_deep_scan.
  - exact Mv.
  - intros m m' I I' E.
    destruct (Mv m I) as (_ & Ld & _). destruct (Mv m' I') as (Ls & _).
    rewrite E in Ls. lia.
  - exact Keep2.
Qed.

Lemma deep_scan_twice_moves_once_witness :
  let fs := Dir [("dl", Dir [("a.jpg", File 1678886400 "A");
                             ("notes", File 1700000000 "n");
                             ("Images", Dir [("a.jpg", File 5 "old")]);
                             ("sub", Dir [("empty", Dir [])])])] in
  let run :=
    deep_scan_and_organize (fun _ => 0%Z) 6 ["dl"] "type" false true
      (Some [("Pics", ["png"])]) in
  let r1 := run (start_run fs) in
  let r2 := run (snd r1) in
  fst r1 = Ret tt /\
  fst r2 = Ret tt /\
  (forall m m',
      In m (moves (w_log (snd r2))) -> In m' (moves (w_log (snd r2))) ->
      fst m' <> snd m) /\
  lookup ["dl"; "Images"; "a (1).jpg"] (w_fs (snd r2))
    = Some (File 1678886400 "A").
Proof.
  intros fs run r1 r2.
  assert (Pc : forall c, In c (dict_keys [("Pics", ["png"])]) -> proper_name c = true).
  { intros c [<-|[]]. reflexivity. }
  destruct (deep_scan_twice_moves_once (fun _ => 0%Z) fs ["dl"] "type" true
              (Some [("Pics", ["png"])]) 6 eq_refl eq_refl Pc ltac:(cbn; lia))
    as (O1 & O2 & _ & _ & Once & Keep).
  split; [exact O1|]. split; [exact O2|]. split; [exact Once|].
  apply Keep; [cbn; lia | reflexivity].
Defined.

(** C6 as it is stated does not hold for every rule table: a category
    whose name is the empty string sends its files to the target directory
    itself, where each run finds them again.  The picture [a.jpg] is moved
    to [a (1).jpg] by the first run and from there to [a (1) (1).jpg] by the
    second. *)
Lemma deep_scan_empty_category_moves_again :
  let fs := Dir [("dl", Dir [("a.jpg", File 0 "A")])] in
  let run :=
    deep_scan_and_organize (fun _ => 0%Z) 6 ["dl"] "type" false true
      (Some [("", ["jpg"])]) in
  let r1 := run (start_run fs) in
  let r2 := run (snd r1) in
  fst r1 = Ret tt /\ fst r2 = Ret tt /\
  moves (w_log (snd r1)) = [(["dl"; "a.jpg"], ["dl"; "a (1).jpg"])] /\
  moves (w_log (snd r2)) =
    [(["dl"; "a.jpg"], ["dl"; "a (1).jpg"]);
     (["dl"; "a (1).jpg"], ["dl"; "a (1) (1).jpg"])] /\
  lookup ["dl"; "a (1).jpg"] (w_fs (snd r1)) = Some (File 0 "A") /\
  lookup ["dl"; "a (1).jpg"] (w_fs (snd r2)) = None /\
  lookup ["dl"; "a (1) (1).jpg"] (w_fs (snd r2)) = Some (File 0 "A") /\
  files_moved (w_stats (snd r2)) = 2%Z.
Proof. vm_compute. repeat split. Qed.

(* ================================================================== *)
(** * The order of the removals *)
(* ================================================================== *)

Lemma deletions_app l l' : deletions (l ++ l') = deletions l ++ deletions l'.
Proof.
  induction l as [|e l IH]; [reflexivity|].
  change (deletions ((e :: l) ++ l')) with
    (match deleted_of e with
     | Some p => p :: deletions (l ++ l')
     | None => deletions (l ++ l')
     end).
  change (deletions (e :: l)) with
    (match deleted_of e with Some p => p :: deletions l | None => deletions l end).
  destruct (deleted_of e); rewrite IH; reflexivity.
Qed.

Lemma children_first_app l l' :
  children_first l -> children_first l' ->
  (forall a c, In a l -> In c l' -> ~ below a c) ->
  children_first (l ++ l').
Proof.
  induction l as [|a l IH]; intros H H' X; [assumption|].
  cbn [app children_first] in *. destruct H as [Ha Hl]. split.
  - intros c I. apply in_app_or in I. destruct I as [I|I].
    + now apply Ha.
    + apply X; [now left | assumption].
  - apply IH; try assumption. intros a' c I I'. apply X; [now right | assumption].
Qed.

Ltac removed := unfold removed_count; cbn; lia.

Lemma removed_count_app w1 w2 w3 l l' :
  removed_count w1 w2 l -> removed_count w2 w3 l' -> removed_count w1 w3 (l ++ l').
Proof.
  unfold removed_count. intros H H'.
  rewrite deletions_app, length_app, Nat2Z.inj_add. lia.
Qed.

Lemma keeps_wf_rmdir p : keeps (fun w => wf_node (w_fs w) = true) (path_rmdir p).
Proof.
  intros w W. unfold path_rmdir. mrun.
  destruct (lookup p (w_fs w)) as [[m x|[|e es]]|]; try assumption.
  destruct (detach p (w_fs w)) as [t'|] eqn:Dt; [|assumption].
  cbn [snd w_fs]. eapply detach_wf; eassumption.
Qed.

Lemma keeps_wf_reap_body root dirs files :
  keeps (fun w => wf_node (w_fs w) = true) (reap_body root dirs files).
Proof.
  unfold reap_body. apply keeps_for_each. intros d _.
  apply keeps_try; [|intros e w H; exact H].
  apply keeps_bind; [apply keeps_reader, iterdir_any_reads|].
  intros [|]; cbn [negb]; [apply keeps_ret|].
  apply keeps_bind; [apply keeps_wf_rmdir|].
  intros _. apply keeps_bind; [intros w H; exact H|].
  intros _ w H. exact H.
Qed.

(** What the body of the reaper logs as removed are entries of its
    directory. *)
Lemma reap_body_log root dirs files : forall w,
  (forall d, In d dirs -> plain d = true) ->
  exists new,
    w_log (snd (reap_body root dirs files w)) = w_log w ++ new /\
    removed_count w (snd (reap_body root dirs files w)) new /\
    forall a, In a (deletions new) -> exists d, a = root ++ [d].
Proof.
  unfold reap_body. induction dirs as [|d dirs IH]; intros w Pl.
  - exists []. cbn. rewrite app_nil_r.
    split; [reflexivity | split; [removed | intros a []]].
  - cbn [for_each].
    rewrite (path_div_plain root d) by (apply Pl; now left).
    match goal with
    | |- context [bind (try_except ?m ?h) ?k] =>
        assert (St : exists o w1 new,
                   try_except m h w = (o, w1) /\ o <> Raise OSError /\
                   o <> Raise ValueError /\
                   w_log w1 = w_log w ++ new /\
                   removed_count w w1 new /\
                   forall a, In a (deletions new) -> a = root ++ [d])
    end.
    { unfold try_except. unfold bind at 1.
      pose proof (iterdir_any_reads (root ++ [d]) w) as R.
      destruct (iterdir_any (root ++ [d]) w) as [[[|]|e|] w0] eqn:It;
        cbn [snd] in R; subst w0; cbn [negb].
      - exists (Ret tt), w, []. rewrite app_nil_r.
        repeat split; try discriminate; try removed; try (intros a []).
      - unfold path_rmdir. mrun.
        destruct (lookup (root ++ [d]) (w_fs w)) as [[m x|[|e es]]|].
        + do 3 eexists. split; [reflexivity|]. cbn [w_log].
          repeat split; try discriminate; try removed; try (intros a []).
        + destruct (detach (root ++ [d]) (w_fs w)).
          * do 3 eexists. split; [reflexivity|]. cbn [w_log].
            repeat split; try discriminate; try removed.
            intros a [<-|[]]. reflexivity.
          * do 3 eexists. split; [reflexivity|]. cbn [w_log].
            repeat split; try discriminate; try removed; try (intros a []).
        + do 3 eexists. split; [reflexivity|]. cbn [w_log].
          repeat split; try discriminate; try removed; try (intros a []).
        + do 3 eexists. split; [reflexivity|]. cbn [w_log].
          repeat split; try discriminate; try removed; try (intros a []).
      - do 3 eexists. split; [reflexivity|]. cbn [w_log].
        repeat split; try discriminate; try removed; try (intros a []).
      - exists OutOfFuel, w, []. rewrite app_nil_r.
        repeat split; try discriminate; try removed; try (intros a []). }
    destruct St as (o & w1 & new & St & N1 & N2 & Lg & Rc & Dl).
    destruct o as [u|[|]|]; try congruence;
      [ rewrite (bind_ret_run _ _ _ _ _ St)
      | rewrite (bind_out_of_fuel_run _ _ _ _ St) ].
    + destruct (IH w1) as (new' & Lg' & Rc' & Dl').
      { intros d' I. apply Pl. now right. }
      exists (new ++ new'). split; [|split].
      * rewrite Lg', Lg. now rewrite app_assoc.
      * exact (removed_count_app _ _ _ _ _ Rc Rc').
      * intros a I. rewrite deletions_app in I. apply in_app_or in I.
        destruct I as [I|I]; [exists d; now apply Dl | now apply Dl'].
    + exists new. cbn [snd]. split; [assumption|]. split; [assumption|].
      intros a I. exists d. now apply Dl.
Qed.

Lemma lookup_names_plain top t es :
  wf_node t = true -> lookup top t = Some (Dir es) ->
  NoDup (fst (listing es)) /\
  forall d, In d (fst (listing es)) -> plain d = true.
Proof.
  intros W L.
  assert (Wt : wf_node (Dir es) = true) by (eapply lookup_wf; eassumption).
  destruct (wf_node_names es Wt) as [ND Pl]. split.
  - now apply listing_NoDup.
  - intros d I. apply Pl. now apply listing_dirs_In.
Qed.

Lemma below_trans_prefix top d a :
  is_prefix (top ++ [d]) a = true -> List.length (top ++ [d]) < List.length a ->
  is_prefix top a = true /\ List.length top < List.length a.
Proof.
  intros P L. apply is_prefix_spec in P. destruct P as [r ->].
  rewrite <- app_assoc. rewrite is_prefix_app. rewrite !length_app in *. cbn in *.
  split; [reflexivity | lia].
Qed.

Lemma siblings_apart top d d' a c :
  d <> d' ->
  is_prefix (top ++ [d]) a = true -> is_prefix (top ++ [d']) c = true ->
  ~ below a c.
Proof.
  intros Ne Pa Pc [P _].
  apply is_prefix_spec in Pa, Pc, P.
  destruct Pa as [r ->], Pc as [r' ->], P as [r'' E].
  rewrite <- !app_assoc in E. apply app_inv_head in E.
  cbn in E. injection E as E _. congruence.
Qed.

(** The reaper removes a directory only after the directories below it. *)
Lemma walk_bottomup_order fuel : forall top w,
  wf_node (w_fs w) = true ->
  exists new,
    w_log (snd (walk_bottomup fuel reap_body top w)) = w_log w ++ new /\
    removed_count w (snd (walk_bottomup fuel reap_body top w)) new /\
    (forall a, In a (deletions new) -> below top a) /\
    children_first (deletions new).
Proof.
  induction fuel as [|fuel IH]; intros top w W.
  - exists []. cbn. rewrite app_nil_r.
    split; [reflexivity | split; [removed | split; [intros a [] | exact I]]].
  - cbn [walk_bottomup].
    rewrite (bind_ret_run _ _ _ _ _ (scandir_run top w)).
    destruct (lookup top (w_fs w)) as [[m x|es]|] eqn:L;
      [ exists []; cbn; rewrite app_nil_r;
        split; [reflexivity | split; [removed | split; [intros a [] | exact I]]]
      |
      | exists []; cbn; rewrite app_nil_r;
        split; [reflexivity | split; [removed | split; [intros a [] | exact I]]] ].
    destruct (lookup_names_plain top _ es W L) as [ND Pl].
    destruct (listing es) as [dirs files]. cbn [fst] in ND, Pl.
    (* the walks of the sub-directories *)
    assert (Ch : forall ds w0,
               wf_node (w_fs w0) = true -> NoDup ds ->
               exists new,
                 w_log (snd (for_each ds
                               (fun d => walk_bottomup fuel reap_body (top ++ [d])) w0))
                   = w_log w0 ++ new /\
                 removed_count w0
                   (snd (for_each ds
                           (fun d => walk_bottomup fuel reap_body (top ++ [d])) w0))
                   new /\
                 wf_node (w_fs (snd (for_each ds
                               (fun d => walk_bottomup fuel reap_body (top ++ [d])) w0)))
                   = true /\
                 (forall a, In a (deletions new) ->
                    exists d, In d ds /\ below (top ++ [d]) a) /\
                 children_first (deletions new)).
    { induction ds as [|d ds IHd]; intros w0 W0 ND0.
      - exists []. cbn. rewrite app_nil_r.
        split; [reflexivity
               | split; [removed
                        | split; [assumption | split; [intros a [] | exact I]]]].
      - inversion ND0 as [|? ? Hd Hr]; subst. cbn [for_each].
        destruct (IH (top ++ [d]) w0 W0) as (n1 & L1 & R1 & B1 & C1).
        pose proof (keeps_walk_bottomup (fun w => wf_node (w_fs w) = true) fuel
                      reap_body keeps_wf_reap_body (top ++ [d]) w0 W0) as W1.
        destruct (walk_bottomup fuel reap_body (top ++ [d]) w0) as [[u|e|] w1] eqn:Wk;
          cbn [snd] in *;
          [ rewrite (bind_ret_run _ _ _ _ _ Wk)
          | rewrite (bind_raise_run _ _ _ _ _ Wk)
          | rewrite (bind_out_of_fuel_run _ _ _ _ Wk) ]; cbn [snd].
        + destruct (IHd w1 W1 Hr) as (n2 & L2 & R2 & W2 & B2 & C2).
          exists (n1 ++ n2). split; [|split; [|split; [|split]]].
          * rewrite L2, L1. now rewrite app_assoc.
          * exact (removed_count_app _ _ _ _ _ R1 R2).
          * exact W2.
          * intros a I. rewrite deletions_app in I. apply in_app_or in I.
            destruct I as [I|I].
            -- exists d. split; [now left | now apply B1].
            -- destruct (B2 a I) as (d' & I' & Bd). exists d'. split; [now right | assumption].
          * rewrite deletions_app. apply children_first_app; try assumption.
            intros a c Ia Ic.
            destruct (B2 c Ic) as (d' & I' & [Pc _]).
            destruct (B1 a Ia) as [Pa _].
            apply (siblings_apart top d d' a c); try assumption.
            intros ->. contradiction.
        + exists n1. split; [assumption|]. split; [assumption|].
          split; [assumption|]. split; [|assumption].
          intros a I. exists d. split; [now left | now apply B1].
        + exists n1. split; [assumption|]. split; [assumption|].
          split; [assumption|]. split; [|assumption].
          intros a I. exists d. split; [now left | now apply B1]. }
    destruct (Ch dirs w W ND) as (n1 & L1 & R1 & W1 & B1 & C1).
    destruct (for_each dirs _ w) as [[u|e|] w1] eqn:Fe; cbn [snd] in *;
      [ rewrite (bind_ret_run _ _ _ _ _ Fe) | | ].
    2: rewrite (bind_raise_run _ _ _ _ _ Fe); cbn [snd].
    3: rewrite (bind_out_of_fuel_run _ _ _ _ Fe); cbn [snd].
    + destruct (reap_body_log top dirs files w1 Pl) as (n2 & L2 & R2 & B2).
      exists (n1 ++ n2). split; [|split; [|split]].
      * rewrite L2, L1. now rewrite app_assoc.
      * exact (removed_count_app _ _ _ _ _ R1 R2).
      * intros a I. rewrite deletions_app in I. apply in_app_or in I.
        destruct I as [I|I].
        -- destruct (B1 a I) as (d & _ & [Pa La]).
           now apply (below_trans_prefix top d a).
        -- destruct (B2 a I) as (d & ->). split; [apply is_prefix_app|].
           rewrite length_app. cbn. lia.
      * rewrite deletions_app. apply children_first_app; try assumption.
        -- clear - B2. induction (deletions n2) as [|a l IHl]; [exact I|].
           cbn [children_first]. split.
           ++ intros c Ic [_ Lc].
              destruct (B2 a (or_introl eq_refl)) as (d & ->).
              destruct (B2 c (or_intror Ic)) as (d' & ->).
              rewrite !length_app in Lc. cbn in Lc. lia.
           ++ apply IHl. intros a' I'. apply B2. now right.
        -- intros a c Ia Ic [_ Lc].
           destruct (B1 a Ia) as (d & _ & [_ La]).
           destruct (B2 c Ic) as (d' & ->).
           rewrite !length_app in *. cbn in *. lia.
    + exists n1. split; [assumption|]. split; [assumption|]. split; [|assumption].
      intros a I. destruct (B1 a I) as (d & _ & [Pa La]).
      now apply (below_trans_prefix top d a).
    + exists n1. split; [assumption|]. split; [assumption|]. split; [|assumption].
      intros a I. destruct (B1 a I) as (d & _ & [Pa La]).
      now apply (below_trans_prefix top d a).
Qed.

(** C7.  When the file system is well formed and the tree below [root]
    holds directories only, [delete_empty_folders], given fuel for its
    depth, returns; the root is then an empty directory (no directory is
    left below it), the rest of the file system is as it was, and
    [folders_deleted] has grown by the number of directories that were
    below the root, the other counters being unchanged.  The log receives
    one removal per directory, each of a path below the root, and no
    directory is removed before one that lies below it: the walk is
    bottom-up, which is what lets a parent be removed in the pass that
    removed its children. *)
Theorem delete_empty_folders_clears :
  forall (w : world) (root : path) (t : node) (fuel : nat),
    wf_node (w_fs w) = true ->
    lookup root (w_fs w) = Some t ->
    dirs_only t = true ->
    height t < fuel ->
    let r := delete_empty_folders fuel root w in
    fst r = Ret tt /\
    lookup root (w_fs (snd r)) = Some (Dir []) /\
    count_dirs (Dir []) = 0 /\
    w_fs (snd r) = graft root (Dir []) (w_fs w) /\
    folders_deleted (w_stats (snd r)) =
      (folders_deleted (w_stats w) + Z.of_nat (count_dirs t))%Z /\
    w_stats (snd r) = add_folders_deleted (count_dirs t) (w_stats w) /\
    exists new,
      w_log (snd r) = w_log w ++ new /\
      List.length (deletions new) = count_dirs t /\
      (forall a, In a (deletions new) -> below root a) /\
      children_first (deletions new).
Proof.
  intros w root t fuel Wf L D H r.
  assert (W : wf_node t = true) by (eapply lookup_wf; eassumption).
  set (ws := {| w_fs := t; w_stats := w_stats w; w_log := [] |}).
  destruct (zoomed_walk_bottomup fuel root [] w ws W L eq_refl) as (O & S1 & F1 & _).
  destruct (reap_inside fuel t ws W D H eq_refl) as (Oi & Fi & Si).
  rewrite app_nil_r in O, S1, F1.
  rewrite Oi in O. rewrite Si in S1. rewrite Fi in F1.
  destruct (walk_bottomup_order fuel root w Wf) as (new & Lg & Rc & Bl & Cf).
  unfold r, delete_empty_folders.
  split; [exact O|].
  split; [|split; [reflexivity|split; [exact F1|split; [|split; [exact S1|]]]]].
  - rewrite F1. eapply lookup_graft; eassumption.
  - rewrite S1. reflexivity.
  - exists new. split; [exact Lg|]. split; [|split; [exact Bl | exact Cf]].
    unfold removed_count in Rc. rewrite S1 in Rc.
    change (folders_deleted (add_folders_deleted (count_dirs t) (w_stats ws)))
      with (folders_deleted (w_stats w) + Z.of_nat (count_dirs t))%Z in Rc.
    lia.
Qed.

Lemma delete_empty_folders_clears_witness :
  let fs := Dir [("dl", Dir [("a", Dir [("b", Dir [("c", Dir [])]);
                                        ("d", Dir [])]);
                             ("e", Dir [])]);
                 ("keep.txt", File 0 "k")] in
  let w := {| w_fs := fs; w_stats := make_stats; w_log := [] |} in
  let r := delete_empty_folders 4 ["dl"] w in
  fst r = Ret tt /\
  lookup ["dl"] (w_fs (snd r)) = Some (Dir []) /\
  folders_deleted (w_stats (snd r)) = 5%Z /\
  w_log (snd r) =
    [LogDeletedEmpty ["dl"; "a"; "b"; "c"]; LogDeletedEmpty ["dl"; "a"; "b"];
     LogDeletedEmpty ["dl"; "a"; "d"]; LogDeletedEmpty ["dl"; "a"];
     LogDeletedEmpty ["dl"; "e"]].
Proof.
  intros fs w r.
  destruct (delete_empty_folders_clears w ["dl"]
              (Dir [("a", Dir [("b", Dir [("c", Dir [])]); ("d", Dir [])]);
                    ("e", Dir [])])
              4 eq_refl eq_refl eq_refl ltac:(cbn; lia))
    as (O & L & _ & _ & Fd & _).
  split; [exact O|]. split; [exact L|]. split; [exact Fd|]. reflexivity.
Defined.

(* ================================================================== *)
(** * Extensions, as the rule table sees them *)
(* ================================================================== *)

Lemma lower_ascii_idem (c : ascii) :
  Str.lower_ascii (Str.lower_ascii c) = Str.lower_ascii c.
Proof. destruct c as [[] [] [] [] [] [] [] []]; reflexivity. Qed.

Lemma lower_ascii_dot (c : ascii) :
  Ascii.eqb (Str.lower_ascii c) "." = Ascii.eqb c ".".
Proof. destruct c as [[] [] [] [] [] [] [] []]; reflexivity. Qed.

Lemma lower_idem (s : string) : Str.lower (Str.lower s) = Str.lower s.
Proof.
  induction s as [|c s IH]; [reflexivity|].
  cbn [Str.lower]. now rewrite lower_ascii_idem, IH.
Qed.

Lemma lstrip_dots_idem (s : string) :
  Str.lstrip_dots (Str.lstrip_dots s) = Str.lstrip_dots s.
Proof.
  induction s as [|c s IH]; [reflexivity|].
  cbn [Str.lstrip_dots]. destruct (Ascii.eqb c ".") eqn:E; [assumption|].
  cbn [Str.lstrip_dots]. now rewrite E.
Qed.

(** Stripping and lowering commute: lowering makes no dot and unmakes
    none. *)
Lemma lstrip_dots_lower (s : string) :
  Str.lstrip_dots (Str.lower s) = Str.lower (Str.lstrip_dots s).
Proof.
  induction s as [|c s IH]; [reflexivity|].
  cbn [Str.lower Str.lstrip_dots]. rewrite lower_ascii_dot.
  destruct (Ascii.eqb c "."); [assumption | reflexivity].
Qed.

Lemma normalize_ext_idem (p : string) :
  normalize_ext (normalize_ext p) = normalize_ext p.
Proof.
  unfold normalize_ext.
  now rewrite <- lstrip_dots_lower, lower_idem, lstrip_dots_lower, lstrip_dots_idem.
Qed.

(** The classifier on a table that starts with a rule holding the
    extension: the answer is a category of that first part. *)
Lemma resolve_app_hit (ext : string) (pre rest : list rule) :
  (exists r, In r pre /\ In ext (snd r)) ->
  In (resolve_folder_for_ext ext (pre ++ rest)) (map fst pre).
Proof.
  induction pre as [|[f exts] pre IH]; intros (r & I & H); [destruct I|].
  simpl. destruct (Str.mem ext exts) eqn:M; [now left|]. right.
  apply IH. destruct I as [<-|I].
  - apply mem_In in H. cbn [snd] in H. congruence.
  - exists r. now split.
Qed.

Lemma others_in_built (custom : rules_dict) :
  In "Others" (map fst (build_rules custom)).
Proof.
  rewrite build_rules_keys. apply in_or_app.
  destruct (dict_mem "Others" custom) eqn:D.
  - left. now apply dict_mem_In.
  - right. apply filter_In. split; [|now rewrite D].
    cbn. repeat (try (left; reflexivity); right).
Qed.

(** ** The extension of a renamed file *)

Lemma rfind_dot_app (a b : string) :
  Str.rfind_dot (a ++ b)%string =
  match Str.rfind_dot b with
  | Some j => Some (String.length a + j)
  | None => Str.rfind_dot a
  end.
Proof.
  induction a as [|c a IH]; cbn [String.append Str.rfind_dot String.length].
  - now destruct (Str.rfind_dot b).
  - rewrite IH. destruct (Str.rfind_dot b) as [j|]; reflexivity.
Qed.

(** The last dot of a name cuts it in two, and the second part has no
    dot. *)
Lemma rfind_dot_split (n : string) : forall i,
  Str.rfind_dot n = Some i ->
  exists a b, n = (a ++ String "." b)%string /\ String.length a = i /\
              Str.rfind_dot b = None.
Proof.
  induction n as [|c n IH]; intros i H; [discriminate|].
  cbn [Str.rfind_dot] in H.
  destruct (Str.rfind_dot n) as [j|] eqn:E.
  - injection H as <-. destruct (IH j eq_refl) as (a & b & -> & L & N).
    exists (String c a), b. cbn. now rewrite L.
  - destruct (Ascii.eqb c ".") eqn:C; [|discriminate].
    injection H as <-. apply Ascii.eqb_eq in C. subst c.
    exists ""%string, n. now repeat split.
Qed.

Lemma substring_whole (s : string) : substring 0 (String.length s) s = s.
Proof. induction s as [|c s IH]; [reflexivity|]. cbn. now rewrite IH. Qed.

Lemma substring_app_tail (a s : string) :
  substring (String.length a) (String.length s) (a ++ s)%string = s.
Proof.
  induction a as [|c a IH]; [apply substring_whole | assumption].
Qed.

Lemma substring_app_head (a s : string) :
  substring 0 (String.length a) (a ++ s)%string = a.
Proof.
  induction a as [|c a IH]; cbn.
  - now destruct s.
  - now rewrite IH.
Qed.

(** A name with a suffix: a non-empty stem, a dot, and a non-empty rest
    without a dot. *)
Lemma suffix_shape (n : string) :
  suffix_of n <> ""%string ->
  exists a b,
    n = (a ++ String "." b)%string /\ a <> ""%string /\ b <> ""%string /\
    Str.rfind_dot b = None /\
    suffix_of n = String "." b /\ stem_of n = a.
Proof.
  unfold suffix_of, stem_of. intros H.
  destruct (Str.rfind_dot n) as [i|] eqn:E; [|contradiction].
  destruct ((0 <? i)%nat && (i <? String.length n - 1)%nat)%bool eqn:C;
    [|contradiction].
  apply andb_true_iff in C. destruct C as [C1 C2].
  apply Nat.ltb_lt in C1, C2.
  destruct (rfind_dot_split n i E) as (a & b & -> & L & N).
  rewrite string_app_length in C2. cbn [String.length] in C2.
  exists a, b. split; [reflexivity|]. split; [|split; [|split; [assumption|split]]].
  - intros ->. cbn in L. lia.
  - intros ->. cbn in C2. lia.
  - subst i. rewrite string_app_length.
    replace (String.length a + String.length (String "." b) - String.length a)
      with (String.length (String "." b)) by lia.
    apply substring_app_tail.
  - subst i. apply substring_app_head.
Qed.

Lemma candidate_name_assoc (name ext : string) (i : nat) :
  candidate_name name ext i =
  ((name ++ " (" ++ Str.of_nat i ++ ")") ++ ext)%string.
Proof.
  unfold candidate_name. now rewrite !string_app_assoc.
Qed.

(** The candidate names of a name with a suffix have the same suffix, and
    for stem the old stem with the index. *)
Lemma candidate_suffix (n : string) (i : nat) :
  suffix_of n <> ""%string ->
  suffix_of (candidate_name (stem_of n) (suffix_of n) i) = suffix_of n /\
  stem_of (candidate_name (stem_of n) (suffix_of n) i) =
    (stem_of n ++ " (" ++ Str.of_nat i ++ ")")%string.
Proof.
  intros H. destruct (suffix_shape n H) as (a & b & _ & Na & Nb & Nd & -> & ->).
  rewrite candidate_name_assoc.
  set (pre := (a ++ " (" ++ Str.of_nat i ++ ")")%string).
  assert (Lp : 0 < String.length pre).
  { unfold pre. destruct a; [contradiction | cbn; lia]. }
  assert (Lb : 0 < String.length b) by (destruct b; [contradiction | cbn; lia]).
  assert (R : Str.rfind_dot (pre ++ String "." b)%string
              = Some (String.length pre + 0)).
  { rewrite rfind_dot_app. cbn [Str.rfind_dot]. now rewrite Nd. }
  unfold suffix_of, stem_of. rewrite R.
  rewrite string_app_length. cbn [String.length].
  assert (C : ((0 <? String.length pre + 0)%nat &&
               (String.length pre + 0 <?
                String.length pre + S (String.length b) - 1)%nat)%bool = true).
  { apply andb_true_iff. split; apply Nat.ltb_lt; lia. }
  rewrite C. rewrite Nat.add_0_r. split.
  - replace (String.length pre + S (String.length b) - String.length pre)
      with (String.length (String "." b)) by (cbn; lia).
    apply substring_app_tail.
  - apply substring_app_head.
Qed.

Lemma lower_ascii_isascii (c : ascii) :
  (nat_of_ascii (Str.lower_ascii c) <? 128)%nat = (nat_of_ascii c <? 128)%nat.
Proof. destruct c as [[] [] [] [] [] [] [] []]; reflexivity. Qed.

Lemma lower_ascii_fixed (c : ascii) :
  Str.lower_ascii c = c -> nat_of_ascii c < 65 \/ 90 < nat_of_ascii c.
Proof.
  destruct c as [[] [] [] [] [] [] [] []]; intros H;
    try discriminate H; cbn; lia.
Qed.

Lemma isascii_lower (s : string) : isascii (Str.lower s) = isascii s.
Proof.
  induction s as [|c s IH]; [reflexivity|].
  cbn [Str.lower isascii]. now rewrite lower_ascii_isascii, IH.
Qed.

Lemma isascii_lstrip_dots (s : string) :
  isascii s = true -> isascii (Str.lstrip_dots s) = true.
Proof.
  induction s as [|c s IH]; [reflexivity|].
  intros H. cbn [Str.lstrip_dots].
  destruct (Ascii.eqb c "."); [|exact H].
  cbn [isascii] in H. apply andb_true_iff in H. now apply IH.
Qed.

Lemma lower_fixed_no_capital (s : string) :
  Str.lower s = s ->
  forall c, In c (list_ascii_of_string s) ->
            nat_of_ascii c < 65 \/ 90 < nat_of_ascii c.
Proof.
  induction s as [|a s IH]; intros E c I; [destruct I|].
  cbn [Str.lower] in E. injection E as Ea Es.
  cbn [list_ascii_of_string] in I. destruct I as [<-|I].
  - now apply lower_ascii_fixed.
  - now apply IH.
Qed.

(** X1.  On strings of ASCII characters [normalize_ext] gives a canonical
    spelling: the result is again such a string, normalizing it again
    changes nothing, it starts with no dot and holds no capital letter,
    a dot in front of the argument makes no difference, and two spellings
    that differ in the case of letters only are normalized to the same
    string. *)
Theorem normalize_ext_canonical :
  forall p q : string,
    isascii p = true ->
    isascii q = true ->
    isascii (normalize_ext p) = true /\
    normalize_ext (normalize_ext p) = normalize_ext p /\
    Str.lstrip_dots (normalize_ext p) = normalize_ext p /\
    (forall c, In c (list_ascii_of_string (normalize_ext p)) ->
               nat_of_ascii c < 65 \/ 90 < nat_of_ascii c) /\
    normalize_ext (String "." p) = normalize_ext p /\
    (Str.lower p = Str.lower q -> normalize_ext p = normalize_ext q).
Proof.
  intros p q Ap Aq.
  split; [|split; [apply normalize_ext_idem|split; [|split; [|split]]]].
  - unfold normalize_ext. rewrite isascii_lower. now apply isascii_lstrip_dots.
  - unfold normalize_ext. now rewrite <- lstrip_dots_lower, lstrip_dots_idem.
  - apply lower_fixed_no_capital. unfold normalize_ext. apply lower_idem.
  - reflexivity.
  - intros E. unfold normalize_ext. now rewrite <- !lstrip_dots_lower, E.
Qed.

Lemma normalize_ext_canonical_witness :
  normalize_ext ".JPG" = normalize_ext ".jpG" /\ normalize_ext ".JPG" = "jpg".
Proof.
  split; [|reflexivity].
  apply (normalize_ext_canonical ".JPG" ".jpG" eq_refl eq_refl). reflexivity.
Defined.

(** X2.  Every extension a table built by [build_rules] holds is in
    normalized spelling, the extensions of the custom rules included. *)
Theorem build_rules_normalized :
  forall (custom : rules_dict) (category : string) (exts : list string)
         (e : string),
    In (category, exts) (build_rules custom) ->
    In e exts ->
    normalize_ext e = e.
Proof.
  intros custom category exts e I Ie.
  rewrite build_rules_eq, <- map_app in I.
  apply in_map_iff in I. destruct I as ([k v] & E & _).
  unfold normalize_rule in E. cbn [fst snd] in E. injection E as _ <-.
  apply in_map_iff in Ie. destruct Ie as (x & <- & _).
  apply normalize_ext_idem.
Qed.

Lemma build_rules_normalized_witness :
  normalize_ext "png" = "png".
Proof.
  apply (build_rules_normalized [("Pics", [".PNG"])] "Pics" ["png"] "png").
  - left. reflexivity.
  - left. reflexivity.
Defined.

(** X3.  Custom rules come first: a suffix that, normalized, is an
    extension some custom rule lists, in whatever spelling the rule has it,
    is classified into a custom category. *)
Theorem custom_rules_take_priority :
  forall (custom : rules_dict) (k : string) (v : list string)
         (x suffix : string),
    In (k, v) custom ->
    In x v ->
    normalize_ext suffix = normalize_ext x ->
    In (resolve_folder_for_ext (normalize_ext suffix) (build_rules custom))
       (dict_keys custom).
Proof.
  intros custom k v x suffix I Ix E.
  rewrite build_rules_eq. rewrite E. unfold dict_keys.
  rewrite <- (normalize_rule_keys custom).
  apply resolve_app_hit.
  exists (normalize_rule (k, v)). split.
  - now apply in_map.
  - cbn [normalize_rule snd]. now apply in_map.
Qed.

Lemma custom_rules_take_priority_witness :
  In (resolve_folder_for_ext (normalize_ext ".JPG")
        (build_rules [("Pics", [".Jpg"; "png"])]))
     (dict_keys [("Pics", [".Jpg"; "png"])]).
Proof.
  apply (custom_rules_take_priority [("Pics", [".Jpg"; "png"])]
           "Pics" [".Jpg"; "png"] ".Jpg" ".JPG").
  - left. reflexivity.
  - left. reflexivity.
  - reflexivity.
Defined.

(** X4.  On a table built by [build_rules] the classifier always answers
    with a category of the table: the fallback ["Others"] is one, whether
    the custom rules redefine it or not. *)
Theorem classifier_answers_table_category :
  forall (custom : rules_dict) (ext : string),
    In (resolve_folder_for_ext ext (build_rules custom))
       (map fst (build_rules custom)).
Proof.
  intros custom ext.
  destruct (resolve_in_rules ext (build_rules custom)) as [->|I];
    [apply others_in_built | exact I].
Qed.

(** X5.  Renaming keeps the extension: for a name with a suffix, every
    candidate name [safe_move] forms has the same suffix, hence the same
    normalized extension, and its stem is the old stem followed by the
    index in brackets. *)
Theorem candidate_keeps_suffix :
  forall (src : path) (i : nat),
    path_suffix src <> ""%string ->
    let candidate := candidate_name (path_stem src) (path_suffix src) i in
    suffix_of candidate = path_suffix src /\
    normalize_ext (suffix_of candidate) = normalize_ext (path_suffix src) /\
    stem_of candidate = (path_stem src ++ " (" ++ Str.of_nat i ++ ")")%string.
Proof.
  intros src i H candidate. unfold candidate, path_suffix, path_stem in *.
  destruct (candidate_suffix (path_name src) i H) as [E1 E2].
  split; [exact E1|]. split; [now rewrite E1 | exact E2].
Qed.

Lemma candidate_keeps_suffix_witness :
  suffix_of (candidate_name (path_stem ["dl"; "archive.tar.gz"])
               (path_suffix ["dl"; "archive.tar.gz"]) 2) = ".gz".
Proof.
  destruct (candidate_keeps_suffix ["dl"; "archive.tar.gz"] 2) as (E & _).
  - discriminate.
  - exact E.
Defined.

(* ================================================================== *)
(** * The safe mover: every outcome *)
(* ================================================================== *)

Lemma try_raise_run {A} (m : M A) (h : exn -> M A) w e w1 :
  m w = (Raise e, w1) -> try_except m h w = h e w1.
Proof. intros H. unfold try_except. now rewrite H. Qed.

Lemma try_ret_run {A} (m : M A) (h : exn -> M A) w a w1 :
  m w = (Ret a, w1) -> try_except m h w = (Ret a, w1).
Proof. intros H. unfold try_except. now rewrite H. Qed.

Lemma shutil_move_missing src dst w :
  lookup src (w_fs w) = None ->
  exists_at dst (w_fs w) = false ->
  shutil_move src dst w = (Raise OSError, w).
Proof.
  intros L E. unfold shutil_move. mrun.
  assert (I : is_dir_at dst (w_fs w) = false).
  { unfold is_dir_at. unfold exists_at in E.
    now destruct (lookup dst (w_fs w)). }
  rewrite I, L. cbn [andb]. now destruct w.
Qed.

(** The renaming loop for a source that is not there: the first free
    candidate is found, and the move to it fails. *)
Lemma rename_loop_missing src dd name ext fuel : forall i w N,
  lookup src (w_fs w) = None ->
  i <= N < i + fuel ->
  (forall j, i <= j < N ->
     exists_at (dd ++ [candidate_name name ext j]) (w_fs w) = true) ->
  exists_at (dd ++ [candidate_name name ext N]) (w_fs w) = false ->
  rename_loop fuel src dd name ext i w = (Raise OSError, w).
Proof.
  induction fuel as [|fuel IH]; intros i w N L R Tk Fr; [lia|].
  cbn [rename_loop]. rewrite path_div_candidate.
  rewrite (bind_ret_run _ _ _ _ _ (path_exists_run _ w)).
  destruct (Nat.eq_dec i N) as [->|Ne].
  - rewrite Fr. cbn [negb].
    now rewrite (bind_raise_run _ _ _ _ _ (shutil_move_missing src _ w L Fr)).
  - rewrite (Tk i) by lia. cbn [negb].
    apply (IH (S i) w N); auto; try lia.
    intros j Hj. apply Tk. lia.
Qed.

(** [safe_move] for a source that is not there, towards a directory that
    is there or can be made. *)
Lemma safe_move_missing src dd w :
  lookup src (w_fs w) = None ->
  plain (path_name src) = true ->
  is_prefix src dd = false ->
  no_file_on dd (w_fs w) = true ->
  exists t',
    safe_move src dd w =
      (Raise OSError,
       {| w_fs := t';
          w_stats := incr_errors (incr_scanned
                       (if exists_at dd (w_fs w) then w_stats w
                        else incr_folders_created (w_stats w)));
          w_log := w_log w ++ [LogFailedMove src] |}) /\
    forall q,
      kind_at q t' =
      match kind_at q (w_fs w) with
      | Some k => Some k
      | None => if is_prefix q dd then Some KDir else None
      end.
Proof.
  intros Hs Pl Np NF.
  destruct (ensure_dir_returns dd w (no_file_on_spec dd _ NF)) as (t1 & En & K1).
  set (s1 := if exists_at dd (w_fs w) then w_stats w
             else incr_folders_created (w_stats w)) in *.
  exists t1. split; [|exact K1].
  assert (Hs1 : lookup src t1 = None).
  { pose proof (K1 src) as K. unfold kind_at in K at 2. rewrite Hs in K.
    cbn [option_map] in K. rewrite Np in K. unfold kind_at in K.
    now destruct (lookup src t1). }
  set (w1 := {| w_fs := t1; w_stats := incr_scanned s1; w_log := w_log w |}).
  assert (Body :
            (e <- path_exists (dd ++ [path_name src]) ;;
             if negb e then
               shutil_move src (dd ++ [path_name src]) ;;
               modify_stats incr_files_moved ;;
               log (LogMoved src (dd ++ [path_name src])) ;;
               ret (dd ++ [path_name src])
             else
               t <- get_fs ;;
               rename_loop (loop_bound dd t) src dd (path_stem src)
                 (path_suffix src) 1) w1
            = (Raise OSError, w1) ->
          safe_move src dd w =
          (Raise OSError,
           {| w_fs := t1; w_stats := incr_errors (incr_scanned s1);
              w_log := w_log w ++ [LogFailedMove src] |})).
  { intros B. unfold safe_move.
    rewrite (bind_ret_run _ _ _ _ _ En).
    unfold modify_stats at 1. unfold bind at 1. cbn [w_fs w_stats w_log].
    fold w1. rewrite (path_div_plain dd (path_name src) Pl).
    rewrite (try_raise_run _ _ _ _ _ B). reflexivity. }
  destruct (exists_at (dd ++ [path_name src]) t1) eqn:Ex.
  - pose proof (exists_at_parent dd _ _ Ex) as D1.
    apply kind_at_dir_lookup in D1. destruct D1 as [es L1].
    destruct (first_free_candidate es (path_stem src) (path_suffix src))
      as (N & RN & FN & Least).
    apply Body.
    rewrite (bind_ret_run _ _ _ _ _ (path_exists_run _ w1)).
    cbn [w1 w_fs]. rewrite Ex. cbn [negb]. fold w1.
    unfold get_fs at 1. unfold bind at 1. cbn [w1 w_fs].
    unfold loop_bound. rewrite L1. fold w1.
    apply (rename_loop_missing src dd _ _ (S (List.length es)) 1 w1 N).
    + exact Hs1.
    + lia.
    + intros j Hj. cbn [w1 w_fs]. rewrite (exists_at_snoc dd _ t1 es L1).
      specialize (Least j Hj).
      destruct (find_entry (candidate_name _ _ j) es); [reflexivity | congruence].
    + cbn [w1 w_fs]. rewrite (exists_at_snoc dd _ t1 es L1). now rewrite FN.
  - apply Body.
    rewrite (bind_ret_run _ _ _ _ _ (path_exists_run _ w1)).
    cbn [w1 w_fs]. rewrite Ex. cbn [negb]. fold w1.
    now rewrite (bind_raise_run _ _ _ _ _
                   (shutil_move_missing src _ w1 Hs1 Ex)).
Qed.

(** X6.  How [safe_move] counts, for every source, destination and state:
    it never runs out of its loop bound; when it returns, the file is
    scanned and moved; when it raises, either nothing at all has changed
    (the directory could not be made) or the file is scanned and is an
    error; [folders_created] grows by one at most, and [folders_deleted]
    stays. *)
Theorem safe_move_counts_every_outcome :
  forall (src dd : path) (w : world),
    let r := safe_move src dd w in
    let s := w_stats w in
    let s' := w_stats (snd r) in
    folders_deleted s' = folders_deleted s /\
    (folders_created s <= folders_created s' <= folders_created s + 1)%Z /\
    match fst r with
    | Ret _ =>
        scanned s' = (scanned s + 1)%Z /\
        files_moved s' = (files_moved s + 1)%Z /\
        errors s' = errors s
    | Raise _ =>
        snd r = w \/
        (scanned s' = (scanned s + 1)%Z /\
         files_moved s' = files_moved s /\
         errors s' = (errors s + 1)%Z)
    | OutOfFuel => False
    end.
Proof.
  intros src dd w r s s'. subst r s s'.
  pose proof (safe_move_accounting src dd w) as A.
  destruct (safe_move src dd w) as [[p|e|] w'] eqn:Sm; cbn [fst snd].
  - destruct A as (s1 & [->| ->] & ->); cbn; repeat split; lia.
  - destruct A as [->|(s1 & [->| ->] & ->)]; cbn.
    + repeat split; try lia; try (left; reflexivity).
    + repeat split; try lia; try (right; repeat split; lia).
    + repeat split; try lia; try (right; repeat split; lia).
  - contradiction.
Qed.

(** X7.  A source that is not there (any more): when the destination
    directory is there or can be made, [safe_move] makes it and counts it
    where it was missing, counts the file as scanned and as an error, logs
    the failure and raises; nothing else changes in the file system. *)
Theorem safe_move_missing_source :
  forall (src dd : path) (w : world),
    lookup src (w_fs w) = None ->
    plain (path_name src) = true ->
    is_prefix src dd = false ->
    no_file_on dd (w_fs w) = true ->
    exists t',
      safe_move src dd w =
        (Raise OSError,
         {| w_fs := t';
            w_stats := incr_errors (incr_scanned
                         (if exists_at dd (w_fs w) then w_stats w
                          else incr_folders_created (w_stats w)));
            w_log := w_log w ++ [LogFailedMove src] |}) /\
      is_dir_at dd t' = true /\
      (forall q k, kind_at q (w_fs w) = Some k -> kind_at q t' = Some k) /\
      (forall q, is_prefix q dd = false -> kind_at q t' = kind_at q (w_fs w)).
Proof.
  intros src dd w Hs Pl Np NF.
  destruct (safe_move_missing src dd w Hs Pl Np NF) as (t' & Run & K).
  exists t'. split; [exact Run|]. split; [|split].
  - rewrite is_dir_at_kind, K.
    destruct (kind_at dd (w_fs w)) as [[m x|]|] eqn:E.
    + exfalso. apply (no_file_on_spec dd _ NF dd m x (is_prefix_refl dd) E).
    + reflexivity.
    + now rewrite is_prefix_refl.
  - intros q k E. now rewrite K, E.
  - intros q P. rewrite K, P. now destruct (kind_at q (w_fs w)).
Qed.

Lemma safe_move_missing_source_witness :
  let w := {| w_fs := Dir [("dl", Dir [])]; w_stats := make_stats; w_log := [] |} in
  exists t',
    safe_move ["dl"; "gone.txt"] ["dl"; "Documents"] w =
      (Raise OSError,
       {| w_fs := t';
          w_stats := incr_errors (incr_scanned (incr_folders_created make_stats));
          w_log := [LogFailedMove ["dl"; "gone.txt"]] |}) /\
    is_dir_at ["dl"; "Documents"] t' = true.
Proof.
  intros w.
  destruct (safe_move_missing_source ["dl"; "gone.txt"] ["dl"; "Documents"] w
              eq_refl eq_refl eq_refl eq_refl) as (t' & Run & D & _).
  exists t'. split; [exact Run | exact D].
Defined.

(** X8.  [safe_move] of a regular file overwrites and loses nothing:
    whatever the outcome, every other regular file is where it was, with
    its time and contents; when the call returns, the returned path was
    free before and now holds the file, and the source is gone; when it
    raises, the file system is as it was. *)
Theorem safe_move_never_overwrites :
  forall (src dd : path) (w : world) (m : Z) (x : string),
    lookup src (w_fs w) = Some (File m x) ->
    plain (path_name src) = true ->
    let r := safe_move src dd w in
    (forall q m' x',
        q <> src ->
        lookup q (w_fs w) = Some (File m' x') ->
        lookup q (w_fs (snd r)) = Some (File m' x')) /\
    match fst r with
    | Ret dest =>
        exists_at dest (w_fs w) = false /\
        lookup dest (w_fs (snd r)) = Some (File m x) /\
        exists_at src (w_fs (snd r)) = false
    | _ => w_fs (snd r) = w_fs w
    end.
Proof.
  intros src dd w m x Hs Pl r. subst r.
  destruct (safe_move_file_cases src dd w m x Hs Pl)
    as [(dest & t' & ev & s' & Sm & _ & _ & Fresh & K)|(e & s' & l' & Sm & _)];
    rewrite Sm; cbn [fst snd w_fs].
  - assert (Ne : dest <> src).
    { intros ->. unfold exists_at in Fresh. now rewrite Hs in Fresh. }
    split; [|split; [exact Fresh|split]].
    + intros q m' x' Nq Lq. apply kind_at_file_lookup. rewrite K.
      assert (E1 : path_eqb q dest = false).
      { apply path_eqb_neq. intros ->. unfold exists_at in Fresh.
        now rewrite Lq in Fresh. }
      assert (E2 : path_eqb q src = false) by now apply path_eqb_neq.
      rewrite E1, E2. apply kind_at_file_lookup in Lq. now rewrite Lq.
    + apply kind_at_file_lookup. now rewrite K, path_eqb_refl.
    + apply kind_at_none_exists. rewrite K.
      assert (E1 : path_eqb src dest = false).
      { apply path_eqb_neq. congruence. }
      now rewrite E1, path_eqb_refl.
  - split; [intros; assumption | reflexivity].
Qed.

Lemma safe_move_never_overwrites_witness :
  let w := {| w_fs := Dir [("dl", Dir [("a.txt", File 1 "new");
                                       ("Documents", Dir [("a.txt", File 0 "old")])])];
              w_stats := make_stats; w_log := [] |} in
  let r := safe_move ["dl"; "a.txt"] ["dl"; "Documents"] w in
  lookup ["dl"; "Documents"; "a.txt"] (w_fs (snd r)) = Some (File 0 "old") /\
  fst r = Ret ["dl"; "Documents"; "a (1).txt"].
Proof.
  intros w r.
  destruct (safe_move_never_overwrites ["dl"; "a.txt"] ["dl"; "Documents"] w
              1%Z "new" eq_refl eq_refl) as (Keep & _).
  split; [|reflexivity].
  apply (Keep ["dl"; "Documents"; "a.txt"] 0%Z "old"); [discriminate | reflexivity].
Defined.

(** X9.  [ensure_dir] counts a path once: after a call that returned, the
    path is a directory and a second call changes nothing, the counter
    included. *)
Theorem ensure_dir_twice :
  forall (p : path) (w : world),
    exists_at p (w_fs w) = false ->
    fst (ensure_dir p w) = Ret tt ->
    is_dir_at p (w_fs (snd (ensure_dir p w))) = true /\
    ensure_dir p (snd (ensure_dir p w)) = (Ret tt, snd (ensure_dir p w)) /\
    folders_created (w_stats (snd (ensure_dir p w))) =
      (folders_created (w_stats w) + 1)%Z.
Proof.
  intros p w E R.
  destruct (mkdir_p p (w_fs w)) as [t'|] eqn:Mk.
  - rewrite (ensure_dir_created p w t' E Mk). cbn [snd w_fs w_stats].
    assert (D : is_dir_at p t' = true).
    { rewrite is_dir_at_kind, (mkdir_p_kind p _ _ Mk).
      rewrite exists_at_kind in E.
      destruct (kind_at p (w_fs w)); [discriminate|].
      now rewrite is_prefix_refl. }
    split; [exact D|]. split; [|reflexivity].
    apply ensure_dir_present. cbn [w_fs].
    rewrite is_dir_at_kind in D. rewrite exists_at_kind.
    now destruct (kind_at p t').
  - rewrite (ensure_dir_failed p w E Mk) in R. discriminate.
Qed.

Lemma ensure_dir_twice_witness :
  let w := {| w_fs := Dir [("dl", Dir [])]; w_stats := make_stats; w_log := [] |} in
  let p := ["dl"; "Images"; "2023"; "Mar"] in
  ensure_dir p (snd (ensure_dir p w)) = (Ret tt, snd (ensure_dir p w)) /\
  folders_created (w_stats (snd (ensure_dir p w))) = 1%Z.
Proof.
  intros w p.
  destruct (ensure_dir_twice p w eq_refl eq_refl) as (_ & T & C).
  split; [exact T | exact C].
Defined.

(* ================================================================== *)
(** * The planner on files that are gone or in place *)
(* ================================================================== *)

Lemma st_mtime_missing p w :
  lookup p (w_fs w) = None -> st_mtime p w = (Raise OSError, w).
Proof. intros H. unfold st_mtime. mrun. rewrite H. now destruct w. Qed.

(** X10.  A source that is not there: the two dated planners fail on its
    time stamp and leave the state untouched, no counter moved; the flat
    planner, which reads no time stamp, goes on to [safe_move], which makes
    and counts the category folder, counts the file as scanned and as an
    error, and raises. *)
Theorem organize_missing_source :
  forall (tz : Z -> Z) (method : string) (src target : path)
         (ordered_rules : list rule) (w : world),
    lookup src (w_fs w) = None ->
    (method = "type_date" \/ method = "date_type" ->
     organize tz method src target ordered_rules w = (Raise OSError, w))
    /\
    (method <> "type_date" -> method <> "date_type" ->
     let dd := target //
                 resolve_folder_for_ext (normalize_ext (path_suffix src))
                   ordered_rules in
     plain (path_name src) = true ->
     is_prefix src dd = false ->
     no_file_on dd (w_fs w) = true ->
     exists t',
       organize tz method src target ordered_rules w =
         (Raise OSError,
          {| w_fs := t';
             w_stats := incr_errors (incr_scanned
                          (if exists_at dd (w_fs w) then w_stats w
                           else incr_folders_created (w_stats w)));
             w_log := w_log w ++ [LogFailedMove src] |}) /\
       is_dir_at dd t' = true).
Proof.
  intros tz method src target rules w Hs. split.
  - intros [-> | ->]; cbn [organize String.eqb Ascii.eqb Bool.eqb].
    + unfold organize. cbn.
      unfold organize_by_type_then_date.
      now rewrite (bind_raise_run _ _ _ _ _ (st_mtime_missing src w Hs)).
    + unfold organize. cbn.
      unfold organize_by_date_then_type.
      now rewrite (bind_raise_run _ _ _ _ _ (st_mtime_missing src w Hs)).
  - intros N1 N2 dd Pl Np NF.
    apply String.eqb_neq in N1, N2.
    unfold organize. rewrite N1, N2. unfold organize_flat_type. fold dd.
    destruct (safe_move_missing src dd w Hs Pl Np NF) as (t' & Run & K).
    exists t'. split; [exact Run|].
    rewrite is_dir_at_kind, K.
    destruct (kind_at dd (w_fs w)) as [[m x|]|] eqn:E.
    + exfalso. apply (no_file_on_spec dd _ NF dd m x (is_prefix_refl dd) E).
    + reflexivity.
    + now rewrite is_prefix_refl.
Qed.

Lemma organize_missing_source_witness :
  let w := {| w_fs := Dir [("dl", Dir [])]; w_stats := make_stats; w_log := [] |} in
  organize (fun _ => 0%Z) "type_date" ["dl"; "gone.jpg"] ["dl"] (build_rules []) w
    = (Raise OSError, w) /\
  exists t',
    organize (fun _ => 0%Z) "type" ["dl"; "gone.jpg"] ["dl"] (build_rules []) w =
      (Raise OSError,
       {| w_fs := t';
          w_stats := incr_errors (incr_scanned (incr_folders_created make_stats));
          w_log := [LogFailedMove ["dl"; "gone.jpg"]] |}) /\
    is_dir_at ["dl"; "Images"] t' = true.
Proof.
  intros w. split.
  - apply (organize_missing_source (fun _ => 0%Z) "type_date" ["dl"; "gone.jpg"]
             ["dl"] (build_rules []) w eq_refl). now left.
  - destruct (proj2 (organize_missing_source (fun _ => 0%Z) "type"
                       ["dl"; "gone.jpg"] ["dl"] (build_rules []) w eq_refl))
      as (t' & Run & D); try discriminate; try reflexivity.
    exists t'. split; [exact Run | exact D].
Defined.

(** X11.  The planner knows no file that is in place: a regular file that
    already lies in the directory planned for it is moved all the same,
    within that directory, to the first free candidate name, and is counted
    as scanned and as moved. *)
Theorem organize_in_place_renames :
  forall (tz : Z -> Z) (method : string) (target : path)
         (ordered_rules : list rule) (w : world)
         (n : string) (m : Z) (x : string),
    let dd := plan tz method target ordered_rules n m in
    let cand i := dd ++ [candidate_name (stem_of n) (suffix_of n) i] in
    lookup (dd ++ [n]) (w_fs w) = Some (File m x) ->
    plain n = true ->
    (1 <= fst (civil_of_days ((m + tz m) / 86400)) <= 9999)%Z ->
    exists N t',
      1 <= N /\
      (forall j, 1 <= j < N -> exists_at (cand j) (w_fs w) = true) /\
      exists_at (cand N) (w_fs w) = false /\
      organize tz method (dd ++ [n]) target ordered_rules w =
        (Ret (cand N),
         {| w_fs := t';
            w_stats := incr_files_moved (incr_scanned (w_stats w));
            w_log := w_log w ++ [LogMovedRenamed (dd ++ [n]) (cand N)] |}) /\
      lookup (cand N) t' = Some (File m x) /\
      exists_at (dd ++ [n]) t' = false.
Proof.
  intros tz method target rules w n m x dd cand Hs Pl Ry.
  set (src := dd ++ [n]) in *.
  assert (Pn : path_name src = n) by apply path_name_snoc.
  destruct (civil_of_days ((m + tz m) / 86400)) as [y mo] eqn:C.
  cbn [fst] in Ry.
  destruct (organize_plans tz w src target rules m x y mo Hs C Ry) as (P1 & P2 & P3).
  assert (Run : organize tz method src target rules w = safe_move src dd w).
  { unfold organize, dd, plan. rewrite C. cbn [fst snd].
    unfold path_suffix in P1, P2, P3. rewrite Pn in P1, P2, P3.
    destruct (method =? "type_date"); [exact P1|].
    destruct (method =? "date_type"); [exact P2 | exact P3]. }
  assert (Ex : exists_at (dd ++ [path_name src]) (w_fs w) = true).
  { rewrite Pn. unfold exists_at. fold src. now rewrite Hs. }
  pose proof (exists_at_parent dd _ _ Ex) as D.
  assert (Pl' : plain (path_name src) = true) by now rewrite Pn.
  destruct (safe_move_moves src dd w m x Hs Pl' (dir_has_no_file_above dd _ D))
    as (dest & t' & ev & Sm & [(Ex' & _)|(_ & N & RN & -> & -> & Tk & Fr)] & K);
    [congruence|].
  unfold path_stem, path_suffix in *. rewrite Pn in *.
  assert (Ed : exists_at dd (w_fs w) = true).
  { rewrite exists_at_kind, D. reflexivity. }
  rewrite Ed in Sm.
  exists N, t'. split; [exact RN|]. split; [exact Tk|]. split; [exact Fr|].
  split; [now rewrite Run|]. split.
  - apply kind_at_file_lookup. now rewrite K, path_eqb_refl.
  - apply kind_at_none_exists. rewrite K.
    assert (E1 : path_eqb src (cand N) = false).
    { apply path_eqb_neq. intros E. unfold cand in E.
      rewrite <- E in Fr. unfold exists_at in Fr. now rewrite Hs in Fr. }
    unfold cand in E1. now rewrite E1, path_eqb_refl.
Qed.

Lemma organize_in_place_renames_witness :
  let w := {| w_fs := Dir [("dl", Dir [("Images", Dir [("a.jpg", File 0 "A")])])];
              w_stats := make_stats; w_log := [] |} in
  exists N,
    1 <= N /\
    fst (organize (fun _ => 0%Z) "type" ["dl"; "Images"; "a.jpg"] ["dl"]
           (build_rules []) w)
    = Ret (["dl"; "Images"] ++ [candidate_name "a" ".jpg" N]).
Proof.
  intros w.
  destruct (organize_in_place_renames (fun _ => 0%Z) "type" ["dl"] (build_rules [])
              w "a.jpg" 0%Z "A" eq_refl eq_refl)
    as (N & t' & RN & Tk & Fr & Run & _).
  - split; apply Z.leb_le; vm_compute; reflexivity.
  - exists N. split; [exact RN|]. exact (f_equal fst Run).
Defined.

(** X18.  A regular file in the way of the destination directory: when it
    stands at the destination path itself, [safe_move] takes the path for
    the directory, fails in the move, counts the file as scanned and as an
    error and logs the failure; when it stands above the destination path,
    the directory cannot be made and [safe_move] raises before any counter
    has moved and before anything is logged.  In both cases the file
    system is as it was. *)
Theorem safe_move_blocked :
  forall (src dd : path) (w : world) (m : Z) (x : string),
    lookup src (w_fs w) = Some (File m x) ->
    plain (path_name src) = true ->
    no_file_on dd (w_fs w) = false ->
    (exists_at dd (w_fs w) = true ->
     safe_move src dd w =
       (Raise OSError,
        {| w_fs := w_fs w;
           w_stats := incr_errors (incr_scanned (w_stats w));
           w_log := w_log w ++ [LogFailedMove src] |}))
    /\
    (exists_at dd (w_fs w) = false -> safe_move src dd w = (Raise OSError, w)).
Proof.
  intros src dd w m x Hs Pl NF. split; intros Ex.
  - assert (Kd : exists m' x', kind_at dd (w_fs w) = Some (KFile m' x')).
    { rewrite exists_at_kind in Ex.
      destruct (kind_at dd (w_fs w)) as [[m' x'|]|] eqn:K; try discriminate; eauto.
      rewrite (no_file_on_dir dd _ K) in NF. discriminate. }
    destruct Kd as (m' & x' & Kd).
    pose proof (plain_name_nonempty src Pl) as NE.
    destruct (detach_file src (w_fs w) m x Hs NE) as (t1 & Dt & K1).
    assert (At : attach (dd ++ [path_name src]) (File m x) t1 = None).
    { destruct (attach (dd ++ [path_name src]) (File m x) t1) as [t2|] eqn:A;
        [exfalso|reflexivity].
      apply attach_needs_dir in A. rewrite K1 in A.
      destruct (path_eqb dd src); congruence. }
    assert (Fr : exists_at (dd ++ [path_name src]) (w_fs w) = false).
    { apply kind_at_none_exists. eapply kind_at_below_file; [eassumption|discriminate]. }
    unfold safe_move. unfold bind at 1.
    rewrite (ensure_dir_present dd w Ex).
    rewrite (path_div_plain dd _ Pl). mrun. rewrite Fr. mrun.
    unfold shutil_move. mrun.
    assert (I : is_dir_at (dd ++ [path_name src]) (w_fs w) = false).
    { unfold is_dir_at. unfold exists_at in Fr.
      now destruct (lookup (dd ++ [path_name src]) (w_fs w)). }
    rewrite I. cbn [andb]. rewrite Hs, Dt, At. reflexivity.
  - unfold safe_move. unfold bind at 1.
    now rewrite (ensure_dir_failed dd w Ex (mkdir_p_blocked dd _ NF Ex)).
Qed.

Lemma safe_move_blocked_witness :
  let w := {| w_fs := Dir [("dl", Dir [("Images", File 0 "notes");
                                       ("a.jpg", File 1678886400 "A")])];
              w_stats := make_stats; w_log := [] |} in
  errors (w_stats (snd (safe_move ["dl"; "a.jpg"] ["dl"; "Images"] w))) = 1%Z /\
  errors (w_stats (snd (safe_move ["dl"; "a.jpg"] ["dl"; "Images"; "2023"] w)))
    = 0%Z.
Proof.
  intros w.
  destruct (safe_move_blocked ["dl"; "a.jpg"] ["dl"; "Images"] w 1678886400%Z "A"
              eq_refl eq_refl eq_refl) as (A & _).
  destruct (safe_move_blocked ["dl"; "a.jpg"] ["dl"; "Images"; "2023"] w
              1678886400%Z "A" eq_refl eq_refl eq_refl) as (_ & B).
  rewrite (A eq_refl), (B eq_refl). split; reflexivity.
Defined.

(* ================================================================== *)
(** * The reaper on any tree *)
(* ================================================================== *)

Lemma prune_Dir es : prune (Dir es) = Dir (filter kept (map pruned es)).
Proof.
  cbn [prune]. f_equal.
  induction es as [|[n c] es IH]; [reflexivity|].
  unfold kept, pruned in *. cbn [map filter fst snd].
  rewrite IH. destruct (prune c) as [m x|[|e l]]; reflexivity.
Qed.

Lemma reaped_Dir es :
  reaped (Dir es) =
  list_sum (map (fun e => reaped (snd e)) es) +
  List.length (filter (fun e => is_empty_dir (snd e)) (map pruned es)).
Proof.
  cbn [reaped].
  induction es as [|[n c] es IH]; [reflexivity|].
  unfold pruned in *. cbn [map filter list_sum fst snd].
  rewrite IH. destruct (prune c) as [m x|[|e l]]; simpl; lia.
Qed.

Lemma prune_is_dir c : is_dir_node (prune c) = is_dir_node c.
Proof. now destruct c. Qed.

Lemma map_fst_pruned l : map fst (map pruned l) = map fst l.
Proof. rewrite map_map. reflexivity. Qed.

Lemma listing_cons n c es :
  listing ((n, c) :: es) =
  if is_dir_node c then (n :: fst (listing es), snd (listing es))
  else (fst (listing es), n :: snd (listing es)).
Proof. unfold listing. cbn [filter map fst snd]. now destruct (is_dir_node c). Qed.

Lemma listing_dirs_pruned es : fst (listing (map pruned es)) = fst (listing es).
Proof.
  induction es as [|[n c] es IH]; [reflexivity|].
  cbn [map]. unfold pruned at 1. cbn [fst snd].
  rewrite !listing_cons, prune_is_dir.
  destruct (is_dir_node c); cbn [fst]; now rewrite IH.
Qed.

Lemma remove_entry_absent n es : ~ In n (map fst es) -> remove_entry n es = es.
Proof.
  unfold remove_entry. induction es as [|[k c] es IH]; intros H; [reflexivity|].
  cbn [filter fst]. destruct (n =? k) eqn:E.
  - apply String.eqb_eq in E. subst. exfalso. apply H. now left.
  - cbn [negb]. f_equal. apply IH. intros I. apply H. now right.
Qed.

Lemma remove_entry_middle n c l r :
  ~ In n (map fst l) -> ~ In n (map fst r) ->
  remove_entry n (l ++ (n, c) :: r) = l ++ r.
Proof.
  intros Hl Hr. unfold remove_entry. rewrite filter_app. cbn [filter fst].
  rewrite String.eqb_refl. cbn [negb].
  fold (remove_entry n l). fold (remove_entry n r).
  now rewrite !remove_entry_absent.
Qed.

Section ReaperAny.

Variable fuel : nat.

(** What the walk does inside a tree that the fuel covers. *)
Hypothesis walk_inside : forall t ws,
  wf_node t = true -> height t < fuel ->
  w_fs ws = t ->
  fst (walk_bottomup fuel reap_body [] ws) = Ret tt /\
  w_fs (snd (walk_bottomup fuel reap_body [] ws)) = prune t /\
  w_stats (snd (walk_bottomup fuel reap_body [] ws)) =
    add_folders_deleted (reaped t) (w_stats ws).

(** First loop: the sub-directories are walked one after the other, and
    each is left pruned; the regular files are not visited. *)
Lemma walk_children_any todo : forall done w,
  NoDup (map fst (done ++ todo)) ->
  forallb (fun e => wf_node (snd e)) todo = true ->
  (forall e, In e todo -> height (snd e) < fuel) ->
  w_fs w = Dir (map pruned done ++ todo) ->
  let r := for_each (fst (listing todo))
             (fun d => walk_bottomup fuel reap_body ([] ++ [d])) w in
  fst r = Ret tt /\
  w_fs (snd r) = Dir (map pruned (done ++ todo)) /\
  w_stats (snd r) =
    add_folders_deleted (list_sum (map (fun e => reaped (snd e)) todo))
      (w_stats w).
Proof.
  induction todo as [|[n c] todo IH]; intros done w ND W H Fs r.
  - subst r. cbn. rewrite app_nil_r in *. now rewrite add_folders_deleted_0.
  - cbn [forallb snd] in W. apply andb_true_iff in W. destruct W as [Wc Wr].
    assert (Step : forall w1,
               w_fs w1 = Dir (map pruned (done ++ [(n, c)]) ++ todo) ->
               let r1 := for_each (fst (listing todo))
                           (fun d => walk_bottomup fuel reap_body ([] ++ [d])) w1 in
               fst r1 = Ret tt /\
               w_fs (snd r1) = Dir (map pruned (done ++ (n, c) :: todo)) /\
               w_stats (snd r1) =
                 add_folders_deleted
                   (list_sum (map (fun e => reaped (snd e)) todo)) (w_stats w1)).
    { intros w1 Fs1.
      destruct (IH (done ++ [(n, c)]) w1) as (O2 & F2 & S2); try assumption.
      - now rewrite <- app_assoc.
      - intros e I. apply H. now right.
      - cbv zeta. split; [exact O2|]. split; [|exact S2].
        rewrite F2. now rewrite <- app_assoc. }
    destruct c as [m x|es].
    + (* a regular file: not listed among the directories *)
      subst r. rewrite listing_cons. cbn [is_dir_node fst].
      destruct (Step w) as (O & F & S1).
      * rewrite Fs, map_app, <- app_assoc. reflexivity.
      * split; [exact O|]. split; [exact F|].
        rewrite S1. cbn [map list_sum snd reaped]. reflexivity.
    + assert (Nn : ~ In n (map fst (map pruned done))).
      { rewrite map_fst_pruned. rewrite map_app in ND.
        apply NoDup_remove_2 in ND. intros I. apply ND. apply in_or_app. now left. }
      set (c := Dir es) in *.
      set (ws := {| w_fs := c; w_stats := w_stats w; w_log := [] |}).
      assert (L : lookup [n] (w_fs w) = Some (w_fs ws)).
      { rewrite Fs. cbn [lookup]. rewrite (find_entry_app_skip n _ _ Nn).
        cbn [find_entry]. now rewrite String.eqb_refl. }
      destruct (zoomed_walk_bottomup fuel [n] [] w ws Wc L eq_refl)
        as (O & S1 & F1 & _).
      destruct (walk_inside c ws Wc (H (n, c) (or_introl eq_refl)) eq_refl)
        as (Oi & Fi & Si).
      rewrite Oi in O. rewrite Si in S1. rewrite Fi in F1.
      subst r. rewrite listing_cons.
      change (is_dir_node c) with true. cbn [fst for_each].
      change ([n] ++ []) with ([] ++ [n]) in O, S1, F1.
      destruct (walk_bottomup fuel reap_body ([] ++ [n]) w) as [o w1] eqn:Wk.
      cbn [fst snd] in O, S1, F1. subst o.
      rewrite (bind_ret_run _ _ _ _ _ Wk).
      assert (Fs1 : w_fs w1 = Dir (map pruned (done ++ [(n, c)]) ++ todo)).
      { rewrite F1, Fs. cbn [graft]. rewrite (find_entry_app_skip n _ _ Nn).
        cbn [find_entry]. rewrite String.eqb_refl. cbn [graft].
        rewrite (set_entry_app_skip n _ _ _ Nn). cbn [set_entry].
        rewrite String.eqb_refl. rewrite map_app, <- app_assoc. reflexivity. }
      destruct (Step w1 Fs1) as (O2 & F2 & S2).
      split; [exact O2|]. split; [exact F2|].
      rewrite S2, S1. cbn [w_stats ws]. rewrite add_folders_deleted_add.
      cbn [map list_sum snd]. reflexivity.
Qed.

End ReaperAny.

(** Second loop: the body removes the sub-directories that are empty, one
    after the other, and leaves the others. *)
Lemma reap_pruned todo : forall done w,
  NoDup (map fst (done ++ todo)) ->
  (forall n, In n (map fst todo) -> plain n = true) ->
  w_fs w = Dir (done ++ todo) ->
  fst (reap_body [] (fst (listing todo)) [] w) = Ret tt /\
  w_fs (snd (reap_body [] (fst (listing todo)) [] w)) =
    Dir (done ++ filter kept todo) /\
  w_stats (snd (reap_body [] (fst (listing todo)) [] w)) =
    add_folders_deleted
      (List.length (filter (fun e => is_empty_dir (snd e)) todo)) (w_stats w).
Proof.
  induction todo as [|[n c] todo IH]; intros done w ND Pl Fs.
  - cbn. rewrite add_folders_deleted_0, app_nil_r. rewrite app_nil_r in Fs. auto.
  - assert (Nd : ~ In n (map fst done) /\ ~ In n (map fst todo)).
    { rewrite map_app in ND. pose proof (NoDup_remove_2 _ _ _ ND) as N.
      split; intros I; apply N; apply in_or_app; [now left | now right]. }
    destruct Nd as [Nd Nt].
    assert (Keep : forall w1,
               w_fs w1 = Dir ((done ++ [(n, c)]) ++ todo) ->
               kept (n, c) = true ->
               fst (reap_body [] (fst (listing todo)) [] w1) = Ret tt /\
               w_fs (snd (reap_body [] (fst (listing todo)) [] w1)) =
                 Dir (done ++ filter kept ((n, c) :: todo)) /\
               w_stats (snd (reap_body [] (fst (listing todo)) [] w1)) =
                 add_folders_deleted
                   (List.length (filter (fun e => is_empty_dir (snd e))
                                   ((n, c) :: todo))) (w_stats w1)).
    { intros w1 Fs1 K.
      destruct (IH (done ++ [(n, c)]) w1) as (O2 & F2 & S2); try assumption.
      - now rewrite <- app_assoc.
      - intros k I. apply Pl. now right.
      - split; [exact O2|]. split.
        + rewrite F2. cbn [filter]. rewrite K. now rewrite <- app_assoc.
        + rewrite S2. cbn [filter snd]. unfold kept in K. cbn [snd] in K.
          apply negb_true_iff in K. now rewrite K. }
    rewrite listing_cons.
    destruct c as [m x|es]; cbn [is_dir_node fst].
    + apply Keep; [|reflexivity]. now rewrite Fs, <- app_assoc.
    + unfold reap_body. cbn [for_each].
      rewrite (path_div_plain [] n) by (apply Pl; now left).
      cbn [app].
      assert (Lk : lookup [n] (w_fs w) = Some (Dir es)).
      { rewrite Fs. cbn [lookup]. rewrite (find_entry_app_skip n _ _ Nd).
        cbn [find_entry]. now rewrite String.eqb_refl. }
      destruct es as [|e es].
      * (* empty: removed *)
        set (w1 := {| w_fs := Dir (done ++ todo);
                      w_stats := incr_folders_deleted (w_stats w);
                      w_log := w_log w ++ [LogDeletedEmpty [n]] |}).
        assert (Dt : detach [n] (w_fs w) = Some (Dir (done ++ todo))).
        { rewrite Fs. cbn [detach]. rewrite (find_entry_app_skip n _ _ Nd).
          cbn [find_entry]. rewrite String.eqb_refl.
          now rewrite remove_entry_middle. }
        assert (Step :
          try_except
            (b <- iterdir_any [n];;
             (if negb b
              then path_rmdir [n];; modify_stats incr_folders_deleted;;
                   log (LogDeletedEmpty [n])
              else ret tt))
            (fun _ : exn => log (LogCouldNotDelete [n])) w = (Ret tt, w1)).
        { apply try_ret_run.
          rewrite (bind_ret_run _ _ _ _ _ (iterdir_any_run [n] w [] Lk)).
          cbn [negb].
          rewrite (bind_ret_run _ _ _ _ _ (path_rmdir_run [n] w _ Lk Dt)).
          reflexivity. }
        rewrite (bind_ret_run _ _ _ _ _ Step).
        destruct (IH done w1) as (O2 & F2 & S2).
        -- rewrite map_app in *. cbn [map fst] in ND.
           apply NoDup_remove_1 in ND. exact ND.
        -- intros k I. apply Pl. now right.
        -- reflexivity.
        -- fold (reap_body [] (fst (listing todo)) []) in *.
           split; [exact O2|]. split.
           ++ rewrite F2. reflexivity.
           ++ rewrite S2. cbn [w1 w_stats filter snd is_empty_dir List.length].
              rewrite add_folders_deleted_1, add_folders_deleted_add. reflexivity.
      * (* not empty: left *)
        assert (Step :
          try_except
            (b <- iterdir_any [n];;
             (if negb b
              then path_rmdir [n];; modify_stats incr_folders_deleted;;
                   log (LogDeletedEmpty [n])
              else ret tt))
            (fun _ : exn => log (LogCouldNotDelete [n])) w = (Ret tt, w)).
        { apply try_ret_run.
          rewrite (bind_ret_run _ _ _ _ _ (iterdir_any_run [n] w _ Lk)).
          reflexivity. }
        rewrite (bind_ret_run _ _ _ _ _ Step).
        fold (reap_body [] (fst (listing todo)) []).
        apply Keep; [|reflexivity]. now rewrite Fs, <- app_assoc.
Qed.

(** The walk inside any well-formed tree: what is left is the pruned tree,
    and each directory taken away is counted once. *)
Lemma reap_any fuel : forall t ws,
  wf_node t = true -> height t < fuel ->
  w_fs ws = t ->
  fst (walk_bottomup fuel reap_body [] ws) = Ret tt /\
  w_fs (snd (walk_bottomup fuel reap_body [] ws)) = prune t /\
  w_stats (snd (walk_bottomup fuel reap_body [] ws)) =
    add_folders_deleted (reaped t) (w_stats ws).
Proof.
  induction fuel as [|fuel IH]; intros t ws W H Fs; [lia|].
  cbn [walk_bottomup].
  rewrite (bind_ret_run _ _ _ _ _ (scandir_run [] ws)).
  cbn [lookup]. rewrite Fs.
  destruct t as [m x|es].
  - cbn. rewrite add_folders_deleted_0. auto.
  - pose proof W as W'. rewrite wf_node_Dir in W'.
    apply andb_true_iff in W'. destruct W' as [_ Wc].
    destruct (wf_node_names es W) as [ND Pl].
    destruct (walk_children_any fuel IH es [] ws) as (O1 & F1 & S1); try assumption.
    + intros [n c] I. cbn [snd]. pose proof (height_child n c es I). lia.
    + cbv zeta in O1, F1, S1.
      destruct (listing es) as [dirs files] eqn:Ls. cbn [fst] in *.
      destruct (for_each dirs
                  (fun d => walk_bottomup fuel reap_body ([] ++ [d])) ws)
        as [o w1] eqn:Lp.
      cbn [fst snd] in O1, F1, S1. subst o.
      rewrite (bind_ret_run _ _ _ _ _ Lp).
      cbn [app] in F1.
      destruct (reap_pruned (map pruned es) [] w1) as (O2 & F2 & S2).
      * rewrite app_nil_l. now rewrite map_fst_pruned.
      * intros n I. rewrite map_fst_pruned in I. now apply Pl.
      * exact F1.
      * rewrite listing_dirs_pruned, Ls in O2, F2, S2. cbn [fst app] in O2, F2, S2.
        assert (E : reap_body [] dirs files w1 = reap_body [] dirs [] w1)
          by reflexivity.
        rewrite E. split; [exact O2|]. split.
        -- now rewrite F2, prune_Dir.
        -- rewrite S2, S1, add_folders_deleted_add. now rewrite reaped_Dir.
Qed.

(** ** What pruning leaves *)

Lemma In_pruned_kept n c1 es :
  In (n, c1) (filter kept (map pruned es)) ->
  exists c, In (n, c) es /\ c1 = prune c /\ is_empty_dir c1 = false.
Proof.
  intros I. apply filter_In in I. destruct I as [I K].
  apply in_map_iff in I. destruct I as ([k c] & E & I).
  unfold pruned in E. cbn [fst snd] in E. injection E as -> <-.
  exists c. split; [assumption|]. split; [reflexivity|].
  unfold kept in K. cbn [snd] in K. now apply negb_true_iff in K.
Qed.

(** Below the root of a pruned tree no directory is empty. *)
Lemma prune_no_empty q : forall t es,
  q <> [] -> lookup q (prune t) = Some (Dir es) -> es <> [].
Proof.
  induction q as [|n q IH]; intros t es NE L; [congruence|].
  destruct t as [m x|l]; [discriminate|].
  rewrite prune_Dir in L. cbn [lookup] in L.
  destruct (find_entry n (filter kept (map pruned l))) as [c1|] eqn:F;
    [|discriminate].
  apply find_entry_In_pair in F.
  destruct (In_pruned_kept n c1 l F) as (c & _ & -> & K).
  destruct q as [|k q].
  - cbn [lookup] in L. injection L as E. rewrite E in K. now destruct es.
  - apply (IH c es); [discriminate | exact L].
Qed.

Lemma kept_pruned_cons n c es :
  filter kept (map pruned ((n, c) :: es)) =
  if is_empty_dir (prune c) then filter kept (map pruned es)
  else (n, prune c) :: filter kept (map pruned es).
Proof.
  cbn [map filter]. unfold kept at 1, pruned at 1 2. cbn [fst snd].
  now destruct (is_empty_dir (prune c)).
Qed.

Lemma prune_idem t : prune (prune t) = prune t.
Proof.
  induction t as [m x|es IH] using node_induction; [reflexivity|].
  rewrite prune_Dir, prune_Dir. f_equal.
  induction es as [|[n c] es IHes]; [reflexivity|].
  inversion IH as [|? ? Hc Hr]; subst. cbn [snd] in Hc.
  rewrite kept_pruned_cons.
  destruct (is_empty_dir (prune c)) eqn:E.
  - now apply IHes.
  - rewrite kept_pruned_cons, Hc, E. f_equal. now apply IHes.
Qed.

Lemma reaped_prune t : reaped (prune t) = 0.
Proof.
  induction t as [m x|es IH] using node_induction; [reflexivity|].
  rewrite prune_Dir, reaped_Dir.
  induction es as [|[n c] es IHes]; [reflexivity|].
  inversion IH as [|? ? Hc Hr]; subst. cbn [snd] in Hc.
  rewrite kept_pruned_cons.
  destruct (is_empty_dir (prune c)) eqn:E.
  - now apply IHes.
  - cbn [map filter list_sum snd]. unfold pruned at 2. cbn [fst snd].
    rewrite Hc, prune_idem, E. specialize (IHes Hr).
    unfold list_sum in *. cbn [fold_right]. lia.
Qed.

Lemma height_prune t : height (prune t) <= height t.
Proof.
  induction t as [m x|es IH] using node_induction; [reflexivity|].
  rewrite prune_Dir.
  induction es as [|[n c] es IHes]; [reflexivity|].
  inversion IH as [|? ? Hc Hr]; subst. cbn [snd] in Hc.
  rewrite kept_pruned_cons.
  specialize (IHes Hr). rewrite height_cons.
  destruct (is_empty_dir (prune c)).
  - lia.
  - rewrite height_cons. lia.
Qed.

(** The reaper below a path of any well-formed file system. *)
Lemma delete_empty_folders_run w root t fuel :
  wf_node (w_fs w) = true ->
  lookup root (w_fs w) = Some t ->
  height t < fuel ->
  fst (delete_empty_folders fuel root w) = Ret tt /\
  w_fs (snd (delete_empty_folders fuel root w)) = graft root (prune t) (w_fs w) /\
  w_stats (snd (delete_empty_folders fuel root w)) =
    add_folders_deleted (reaped t) (w_stats w) /\
  wf_node (prune t) = true.
Proof.
  intros Wf L H.
  assert (W : wf_node t = true) by (eapply lookup_wf; eassumption).
  set (ws := {| w_fs := t; w_stats := w_stats w; w_log := [] |}).
  destruct (zoomed_walk_bottomup fuel root [] w ws W L eq_refl) as (O & S1 & F1 & W1).
  destruct (reap_any fuel t ws W H eq_refl) as (Oi & Fi & Si).
  rewrite app_nil_r in O, S1, F1.
  rewrite Oi in O. rewrite Si in S1. rewrite Fi in F1, W1.
  unfold delete_empty_folders. repeat split; assumption.
Qed.

(** X12.  The reaper on any well-formed file system, given fuel for the
    depth of the tree below the root: it returns; afterwards no directory
    below the root is empty, the root itself being left even when it is;
    every regular file is where it was; the file system is the old one
    with the tree below the root pruned of the directories that held no
    regular file at any depth, and [folders_deleted] has grown by their
    number, no other counter having moved; the log has one removal for
    each, and none of a directory before one that lay below it. *)
Theorem delete_empty_folders_leaves_no_empty :
  forall (w : world) (root : path) (t : node) (fuel : nat),
    wf_node (w_fs w) = true ->
    lookup root (w_fs w) = Some t ->
    height t < fuel ->
    let r := delete_empty_folders fuel root w in
    fst r = Ret tt /\
    (forall q es,
        q <> [] ->
        lookup (root ++ q) (w_fs (snd r)) = Some (Dir es) -> es <> []) /\
    (forall q m x,
        lookup q (w_fs w) = Some (File m x) ->
        lookup q (w_fs (snd r)) = Some (File m x)) /\
    is_dir_node t = is_dir_at root (w_fs (snd r)) /\
    w_fs (snd r) = graft root (prune t) (w_fs w) /\
    w_stats (snd r) = add_folders_deleted (reaped t) (w_stats w) /\
    exists new,
      w_log (snd r) = w_log w ++ new /\
      List.length (deletions new) = reaped t /\
      children_first (deletions new).
Proof.
  intros w root t fuel Wf L H r. subst r.
  destruct (delete_empty_folders_run w root t fuel Wf L H) as (O & F & S1 & _).
  assert (Lr : lookup root (w_fs (snd (delete_empty_folders fuel root w)))
               = Some (prune t)).
  { rewrite F. eapply lookup_graft; eassumption. }
  split; [exact O|].
  split; [|split; [|split; [|split; [exact F | split; [exact S1|]]]]].
  - intros q es NE Lq. rewrite lookup_app, Lr in Lq.
    eapply prune_no_empty; eassumption.
  - intros q m x Lq. now apply keeps_file_delete_empty.
  - unfold is_dir_at. rewrite Lr. destruct t as [m0 x0|es0]; [reflexivity|].
    now rewrite prune_Dir.
  - destruct (walk_bottomup_order fuel root w Wf) as (new & Lg & Rc & _ & Cf).
    exists new. split; [exact Lg|]. split; [|exact Cf].
    unfold removed_count in Rc.
    fold (delete_empty_folders fuel root) in Rc. rewrite S1 in Rc.
    cbn [add_folders_deleted folders_deleted] in Rc. lia.
Qed.

Lemma delete_empty_folders_leaves_no_empty_witness :
  let fs := Dir [("dl", Dir [("old", Dir [("deep", Dir [])]);
                             ("Images", Dir [("2023", Dir [("Mar", Dir [("a.jpg", File 0 "A")])]);
                                             ("2022", Dir [("Dec", Dir [])])]);
                             ("notes.txt", File 1 "n")])] in
  let w := {| w_fs := fs; w_stats := make_stats; w_log := [] |} in
  let r := delete_empty_folders 5 ["dl"] w in
  fst r = Ret tt /\
  w_fs (snd r) =
    Dir [("dl", Dir [("Images", Dir [("2023", Dir [("Mar", Dir [("a.jpg", File 0 "A")])])]);
                     ("notes.txt", File 1 "n")])] /\
  folders_deleted (w_stats (snd r)) = 4%Z.
Proof.
  intros fs w r.
  destruct (delete_empty_folders_leaves_no_empty w ["dl"]
              (Dir [("old", Dir [("deep", Dir [])]);
                    ("Images", Dir [("2023", Dir [("Mar", Dir [("a.jpg", File 0 "A")])]);
                                    ("2022", Dir [("Dec", Dir [])])]);
                    ("notes.txt", File 1 "n")])
              5 eq_refl eq_refl ltac:(cbn; lia))
    as (O & _ & _ & _ & F & S1 & _).
  split; [exact O|]. split; [exact F|]. exact (f_equal folders_deleted S1).
Defined.

(** X13.  One pass of the reaper is enough: a second pass right after the
    first returns as well, removes nothing, logs no removal, and leaves the
    file system and every counter as the first pass left them. *)
Theorem delete_empty_folders_twice :
  forall (w : world) (root : path) (t : node) (fuel : nat),
    wf_node (w_fs w) = true ->
    lookup root (w_fs w) = Some t ->
    height t < fuel ->
    let r1 := delete_empty_folders fuel root w in
    let r2 := delete_empty_folders fuel root (snd r1) in
    fst r2 = Ret tt /\
    w_fs (snd r2) = w_fs (snd r1) /\
    w_stats (snd r2) = w_stats (snd r1) /\
    exists new, w_log (snd r2) = w_log (snd r1) ++ new /\ deletions new = [].
Proof.
  intros w root t fuel Wf L H r1 r2. subst r1 r2.
  destruct (delete_empty_folders_run w root t fuel Wf L H) as (O & F & S1 & Wp).
  set (w1 := snd (delete_empty_folders fuel root w)) in *.
  assert (Wf1 : wf_node (w_fs w1) = true).
  { apply (keeps_walk_bottomup (fun w => wf_node (w_fs w) = true) fuel reap_body
             keeps_wf_reap_body root w Wf). }
  assert (L1 : lookup root (w_fs w1) = Some (prune t)).
  { rewrite F. eapply lookup_graft; eassumption. }
  assert (H1 : height (prune t) < fuel) by (pose proof (height_prune t); lia).
  destruct (delete_empty_folders_run w1 root (prune t) fuel Wf1 L1 H1)
    as (O2 & F2 & S2 & _).
  rewrite prune_idem in F2. rewrite reaped_prune, add_folders_deleted_0 in S2.
  split; [exact O2|]. split; [|split; [exact S2|]].
  - rewrite F2, F. apply graft_graft.
  - destruct (walk_bottomup_order fuel root w1 Wf1) as (new & Lg & Rc & _).
    exists new. split; [exact Lg|].
    unfold removed_count in Rc.
    fold (delete_empty_folders fuel root) in Rc. rewrite S2 in Rc.
    destruct (deletions new); [reflexivity | cbn in Rc; lia].
Qed.

Lemma delete_empty_folders_twice_witness :
  let fs := Dir [("dl", Dir [("old", Dir [("deep", Dir [])]);
                             ("Images", Dir [("a.jpg", File 0 "A")])])] in
  let w := {| w_fs := fs; w_stats := make_stats; w_log := [] |} in
  let r1 := delete_empty_folders 3 ["dl"] w in
  let r2 := delete_empty_folders 3 ["dl"] (snd r1) in
  fst r2 = Ret tt /\ w_fs (snd r2) = w_fs (snd r1) /\
  folders_deleted (w_stats (snd r2)) = 2%Z.
Proof.
  intros fs w r1 r2.
  destruct (delete_empty_folders_twice w ["dl"]
              (Dir [("old", Dir [("deep", Dir [])]);
                    ("Images", Dir [("a.jpg", File 0 "A")])])
              3 eq_refl eq_refl ltac:(cbn; lia))
    as (O & F & S1 & _).
  split; [exact O|]. split; [exact F|]. exact (f_equal folders_deleted S1).
Defined.

(* ================================================================== *)
(** * The scanner, recursion on or off *)
(* ================================================================== *)

Lemma keeps_deep_rmdir b p :
  keeps (fun w => wf_node (w_fs w) = true /\ deep_le b (w_fs w)) (path_rmdir p).
Proof.
  intros w (W & D). unfold path_rmdir. mrun.
  destruct (lookup p (w_fs w)) as [[m x|[|e es]]|] eqn:Lk;
    try (split; assumption).
  destruct (detach p (w_fs w)) as [t'|] eqn:Dt; [|split; assumption].
  cbn [snd w_fs]. split.
  - eapply detach_wf; eassumption.
  - intros q K. apply D.
    destruct (detach_kind p (w_fs w) _ (detach_nonempty _ _ _ Dt) Lk) as (t1 & Dt' & Kd).
    rewrite Dt in Dt'. injection Dt' as <-. rewrite Kd in K.
    now destruct (is_prefix p q).
Qed.

Lemma keeps_deep_delete_empty b fuel p :
  keeps (fun w => wf_node (w_fs w) = true /\ deep_le b (w_fs w))
        (delete_empty_folders fuel p).
Proof.
  apply keeps_walk_bottomup. intros root dirs files.
  unfold reap_body. apply keeps_for_each. intros d _.
  apply keeps_try; [|intros e w H; exact H].
  apply keeps_bind; [apply keeps_reader, iterdir_any_reads|].
  intros [|]; cbn [negb]; [apply keeps_ret|].
  apply keeps_bind; [apply keeps_deep_rmdir|].
  intros _. apply keeps_bind; [intros w H; exact H|].
  intros _ w H. exact H.
Qed.

Lemma moves_inside_quiet old target w w' l :
  w_log w' = w_log w ++ l -> moves l = [] ->
  moves_inside old target w -> moves_inside old target w'.
Proof.
  intros E Ml (new & En & F). exists (new ++ l). split.
  - now rewrite E, En, app_assoc.
  - now rewrite moves_app, Ml, app_nil_r.
Qed.

Lemma keeps_moves_inside_reap old target fuel p :
  keeps (moves_inside old target) (delete_empty_folders fuel p).
Proof.
  apply keeps_walk_bottomup. intros root dirs files.
  unfold reap_body. apply keeps_for_each. intros d _.
  apply keeps_try.
  - apply keeps_bind; [apply keeps_reader, iterdir_any_reads|].
    intros [|]; cbn [negb]; [apply keeps_ret|].
    apply keeps_bind.
    + intros w H. apply (moves_inside_quiet old target w _ []);
        [|reflexivity|exact H].
      rewrite app_nil_r. unfold path_rmdir. mrun.
      destruct (lookup (root // d) (w_fs w)) as [[m x|[|e es]]|]; try reflexivity.
      destruct (detach (root // d) (w_fs w)); reflexivity.
    + intros _. apply keeps_bind.
      * intros w H. exact H.
      * intros _ w H.
        apply (moves_inside_quiet old target w _ [LogDeletedEmpty (root // d)]);
          [reflexivity|reflexivity|exact H].
  - intros e w H.
    apply (moves_inside_quiet old target w _ [LogCouldNotDelete (root // d)]);
      [reflexivity|reflexivity|exact H].
Qed.

Section ScanAny.

Variables (tz : Z -> Z) (target : path) (method : string) (rules : list rule).
Variable b : nat.
Variables (m0 : Z) (x0 : string).
Variable old : list event.

Hypothesis target_proper : proper_path target = true.
Hypothesis rules_proper : forall c, In c (map fst rules) -> proper_name c = true.
Hypothesis depth_bound : List.length target + 4 <= b.

(** The tree is well formed and no deeper than [b]. *)
Local Abbreviation sound w := (wf_node (w_fs w) = true /\ deep_le b (w_fs w)).

(** The file of time [m0] and contents [x0] is somewhere. *)
Local Abbreviation held w := (exists q, lookup q (w_fs w) = Some (File m0 x0)).

Lemma scan_file_any root f w m x :
  sound w ->
  proper_name f = true ->
  lookup (root ++ [f]) (w_fs w) = Some (File m x) ->
  fst (scan_file tz target method rules root f w) = Ret tt /\
  sound (snd (scan_file tz target method rules root f w)) /\
  (held w -> held (snd (scan_file tz target method rules root f w))) /\
  (forall q m' x',
      q <> root ++ [f] ->
      lookup q (w_fs w) = Some (File m' x') ->
      lookup q (w_fs (snd (scan_file tz target method rules root f w)))
        = Some (File m' x')) /\
  (moves_inside old target w ->
   moves_inside old target (snd (scan_file tz target method rules root f w))).
Proof.
  intros (W & D) Pf L.
  set (src := root ++ [f]) in *.
  assert (Pn : proper_name (path_name src) = true)
    by (unfold src; now rewrite path_name_snoc).
  assert (Unf : scan_file tz target method rules root f w =
                try_except (organize tz method src target rules ;; ret tt)
                           (fun _ => log (LogFailedMove src)) w).
  { unfold scan_file. now rewrite (path_div_proper root f Pf). }
  assert (Same : forall s' l',
             moves l' = [] ->
             scan_file tz target method rules root f w =
               (Ret tt, {| w_fs := w_fs w; w_stats := s';
                           w_log := w_log w ++ l' |}) ->
             fst (scan_file tz target method rules root f w) = Ret tt /\
             sound (snd (scan_file tz target method rules root f w)) /\
             (held w -> held (snd (scan_file tz target method rules root f w))) /\
             (forall q m' x',
                 q <> src ->
                 lookup q (w_fs w) = Some (File m' x') ->
                 lookup q (w_fs (snd (scan_file tz target method rules root f w)))
                 = Some (File m' x')) /\
             (moves_inside old target w ->
              moves_inside old target
                (snd (scan_file tz target method rules root f w)))).
  { intros s' l' Ml Step. rewrite Step. cbn [fst snd w_fs].
    split; [reflexivity|]. split; [split; assumption|].
    split; [intros H; exact H|]. split; [intros; assumption|].
    now apply (moves_inside_quiet old target w _ l'). }
  destruct (organize_file tz target method rules b rules_proper depth_bound
              src w m x L) as (dd & Pd & [Run|[e Run]]).
  - destruct (planned_facts target b target_proper depth_bound dd Pd)
      as (Pp & Pre & Ld & Lb).
    pose proof (safe_move_wf src dd w W Pp Pn) as W'.
    destruct (safe_move_file_cases src dd w m x L (proper_name_plain _ Pn))
      as [(dest & t' & ev & s' & Sm & Mv & [n ->] & Fresh & K)|(e & s' & l' & Sm & Ml)].
    + (* moved *)
      assert (Step : scan_file tz target method rules root f w =
                     (Ret tt, {| w_fs := t'; w_stats := s';
                                 w_log := w_log w ++ [ev] |})).
      { rewrite Unf.
        apply try_ret_run.
        rewrite (bind_ret_run _ _ _ _ _ (eq_trans Run Sm)). reflexivity. }
      rewrite Sm in W'. cbn [snd w_fs] in W'.
      assert (Keep : forall q m' x',
                 q <> src ->
                 lookup q (w_fs w) = Some (File m' x') ->
                 lookup q t' = Some (File m' x')).
      { intros q m' x' Ne Lg'.
        apply kind_at_file_lookup. rewrite K.
        assert (E1 : path_eqb q (dd ++ [n]) = false).
        { apply path_eqb_neq. intros ->. unfold exists_at in Fresh.
          rewrite Lg' in Fresh. discriminate. }
        assert (E2 : path_eqb q src = false) by now apply path_eqb_neq.
        rewrite E1, E2. apply kind_at_file_lookup in Lg'. now rewrite Lg'. }
      rewrite Step. cbn [fst snd w_fs].
      split; [reflexivity|]. split; [|split; [|split; [exact Keep|]]].
      3: { intros (new & En & Hi). exists (new ++ [ev]). cbn [w_log].
           split; [now rewrite En, app_assoc|].
           rewrite moves_app. apply Forall_app. split; [exact Hi|].
           change (moves [ev]) with
             (match move_of ev with Some m => [m] | None => [] end).
           rewrite Mv. constructor; [|constructor]. cbn [snd].
           split.
           - apply is_prefix_spec in Pre. destruct Pre as [r ->].
             rewrite <- app_assoc. apply is_prefix_app.
           - rewrite length_app. cbn [List.length]. lia. }
      * split; [exact W'|].
        intros q Kq. rewrite K in Kq.
        destruct (path_eqb q (dd ++ [n])) eqn:E1.
        -- apply path_eqb_eq in E1. subst q. rewrite length_app. cbn. lia.
        -- destruct (path_eqb q src); [congruence|].
           destruct (kind_at q (w_fs w)) eqn:E2.
           ++ apply D. congruence.
           ++ destruct (is_prefix q dd) eqn:P; [|congruence].
              apply is_prefix_spec in P. destruct P as [r ->].
              rewrite length_app in Lb. lia.
      * intros [q Hq].
        destruct (list_eq_dec string_dec q src) as [->|Ne].
        -- exists (dd ++ [n]). rewrite L in Hq. injection Hq as <- <-.
           apply kind_at_file_lookup. now rewrite K, path_eqb_refl.
        -- exists q. now apply (Keep q m0 x0).
    + (* not moved *)
      eapply (Same _ (l' ++ [LogFailedMove src])).
      * now rewrite moves_app, Ml.
      * rewrite Unf.
        rewrite (try_raise_run _ _ _ _ _
                   (bind_raise_run _ _ _ _ _ (eq_trans Run Sm))).
        unfold log. cbn [w_fs w_stats w_log]. now rewrite <- app_assoc.
  - eapply (Same _ [LogFailedMove src]).
    + reflexivity.
    + rewrite Unf.
      rewrite (try_raise_run _ _ _ _ _ (bind_raise_run _ _ _ _ _ Run)).
      reflexivity.
Qed.

(** The loop over the files of a directory. *)
Lemma scan_files_any root files : forall w,
  sound w ->
  NoDup files ->
  (forall f, In f files ->
     proper_name f = true /\
     exists m x, lookup (root ++ [f]) (w_fs w) = Some (File m x)) ->
  fst (for_each files (scan_file tz target method rules root) w) = Ret tt /\
  sound (snd (for_each files (scan_file tz target method rules root) w)) /\
  (held w -> held (snd (for_each files (scan_file tz target method rules root) w))) /\
  (moves_inside old target w ->
   moves_inside old target
     (snd (for_each files (scan_file tz target method rules root) w))).
Proof.
  induction files as [|f files IH]; intros w Inv ND H;
    [split; [reflexivity
            |split; [exact Inv|split; [intros X; exact X|intros X; exact X]]]|].
  inversion ND as [|? ? Hf Hr]; subst.
  destruct (H f (or_introl eq_refl)) as (Pf & m & x & L).
  destruct (scan_file_any root f w m x Inv Pf L) as (O & Inv1 & Hd & Keep & Hi).
  cbn [for_each].
  destruct (scan_file tz target method rules root f w) as [o w1] eqn:St.
  cbn [fst snd] in O, Inv1, Hd, Keep, Hi. subst o.
  rewrite (bind_ret_run _ _ _ _ _ St).
  destruct (IH w1 Inv1 Hr) as (O2 & Inv2 & Hd2 & Hi2).
  - intros f' I. destruct (H f' (or_intror I)) as (Pf' & m' & x' & L').
    split; [assumption|]. exists m', x'. apply Keep; [|assumption].
    intros E. apply app_inj_tail in E. destruct E as [_ ->]. contradiction.
  - split; [exact O2|]. split; [exact Inv2|].
    split; [intros X; apply Hd2, Hd, X | intros X; apply Hi2, Hi, X].
Qed.

(** The body of the loop of the scanner, on the listing of a directory. *)
Lemma scan_body_any recursive root es w :
  sound w ->
  lookup root (w_fs w) = Some (Dir es) ->
  exists fl,
    fst (scan_body tz target method recursive rules root
           (fst (listing es)) (snd (listing es)) w) = Ret fl /\
    sound (snd (scan_body tz target method recursive rules root
                  (fst (listing es)) (snd (listing es)) w)) /\
    (held w ->
     held (snd (scan_body tz target method recursive rules root
                  (fst (listing es)) (snd (listing es)) w))) /\
    (moves_inside old target w ->
     moves_inside old target
       (snd (scan_body tz target method recursive rules root
               (fst (listing es)) (snd (listing es)) w))).
Proof.
  intros Inv L. unfold scan_body.
  match goal with
  | |- context [if ?c then ret Next else _] => destruct c
  end.
  - exists Next. split; [reflexivity|].
    split; [exact Inv | split; intros X; exact X].
  - destruct Inv as (W & D).
    assert (Wt : wf_node (Dir es) = true) by (eapply lookup_wf; eassumption).
    destruct (wf_node_names es Wt) as [ND _].
    destruct (listing_NoDup es ND) as [_ NDf].
    destruct (scan_files_any root (snd (listing es)) w (conj W D) NDf)
      as (O & Inv1 & Hd & Hi).
    { intros f I. destruct (listing_In_files es f ND I) as (m & x & F).
      split.
      - apply (wf_node_proper es Wt). eapply find_entry_In; eassumption.
      - exists m, x. now rewrite (lookup_snoc root f _ es L). }
    change (for_each (snd (listing es))
              (fun f : string =>
               let src := root // f in
               try_except (organize tz method src target rules;; ret tt)
                 (fun _ : exn => log (LogFailedMove src))))
      with (for_each (snd (listing es)) (scan_file tz target method rules root)).
    destruct (for_each (snd (listing es)) (scan_file tz target method rules root) w)
      as [o w1] eqn:Lp.
    cbn [fst snd] in O, Inv1, Hd, Hi. subst o.
    rewrite (bind_ret_run _ _ _ _ _ Lp).
    destruct recursive; cbn [negb];
      [exists Next | exists Break];
      (split; [reflexivity | split; [exact Inv1 | split; [exact Hd | exact Hi]]]).
Qed.

(** The walk of the scanner from any directory. *)
Lemma walk_any recursive fuel : forall top w,
  sound w ->
  1 <= fuel ->
  b < fuel + List.length top ->
  exists fl,
    fst (walk_topdown fuel (scan_body tz target method recursive rules) top w)
      = Ret fl /\
    sound (snd (walk_topdown fuel
                  (scan_body tz target method recursive rules) top w)) /\
    (held w ->
     held (snd (walk_topdown fuel
                  (scan_body tz target method recursive rules) top w))) /\
    (moves_inside old target w ->
     moves_inside old target
       (snd (walk_topdown fuel
               (scan_body tz target method recursive rules) top w))).
Proof.
  induction fuel as [|fuel IH]; intros top w Inv F1 Fb; [lia|].
  cbn [walk_topdown].
  rewrite (bind_ret_run _ _ _ _ _ (scandir_run top w)).
  destruct (lookup top (w_fs w)) as [[m x|es]|] eqn:L;
    [ exists Next; split; [reflexivity|split; [exact Inv|split; intros X; exact X]]
    |
    | exists Next; split; [reflexivity|split; [exact Inv|split; intros X; exact X]] ].
  destruct (scan_body_any recursive top es w Inv L) as (f & O & Inv1 & Hd & Hi).
  assert (Fk : fst (listing es) = [] \/
               (1 <= fuel /\ forall d, b < fuel + List.length (top ++ [d]))).
  { destruct (fst (listing es)) as [|d ds] eqn:Ld; [now left|]. right.
    destruct Inv as (W & D).
    assert (Wt : wf_node (Dir es) = true) by (eapply lookup_wf; eassumption).
    destruct (wf_node_names es Wt) as [ND _].
    destruct (listing_In_dirs es d ND) as (c & Fc & _); [rewrite Ld; now left|].
    assert (Ex : kind_at (top ++ [d]) (w_fs w) <> None).
    { unfold kind_at. rewrite (lookup_snoc top d _ es L), Fc. discriminate. }
    apply D in Ex. rewrite length_app in Ex. cbn in Ex.
    split; [lia|]. intros d'. rewrite length_app. cbn. lia. }
  destruct (listing es) as [dirs files]. cbn [fst snd] in *.
  destruct (scan_body tz target method recursive rules top dirs files w)
    as [o w1] eqn:Bd.
  cbn [fst snd] in O, Inv1, Hd, Hi. subst o.
  rewrite (bind_ret_run _ _ _ _ _ Bd).
  destruct f.
  2: { exists Break. split; [reflexivity|].
       split; [exact Inv1 | split; [exact Hd | exact Hi]]. }
  clear Bd L.
  assert (Each : forall ds w2,
             (ds = [] \/
              (1 <= fuel /\ forall d, b < fuel + List.length (top ++ [d]))) ->
             sound w2 ->
             exists fl,
               fst ((fix each (ds : list string) : M flow :=
                       match ds with
                       | [] => ret Next
                       | d :: r =>
                           f' <- walk_topdown fuel
                                   (scan_body tz target method recursive rules)
                                   (top ++ [d]) ;;
                           match f' with
                           | Break => ret Break
                           | Next => each r
                           end
                       end) ds w2) = Ret fl /\
               sound (snd ((fix each (ds : list string) : M flow :=
                       match ds with
                       | [] => ret Next
                       | d :: r =>
                           f' <- walk_topdown fuel
                                   (scan_body tz target method recursive rules)
                                   (top ++ [d]) ;;
                           match f' with
                           | Break => ret Break
                           | Next => each r
                           end
                       end) ds w2)) /\
               (held w2 ->
                held (snd ((fix each (ds : list string) : M flow :=
                       match ds with
                       | [] => ret Next
                       | d :: r =>
                           f' <- walk_topdown fuel
                                   (scan_body tz target method recursive rules)
                                   (top ++ [d]) ;;
                           match f' with
                           | Break => ret Break
                           | Next => each r
                           end
                       end) ds w2))) /\
               (moves_inside old target w2 ->
                moves_inside old target (snd ((fix each (ds : list string) : M flow :=
                       match ds with
                       | [] => ret Next
                       | d :: r =>
                           f' <- walk_topdown fuel
                                   (scan_body tz target method recursive rules)
                                   (top ++ [d]) ;;
                           match f' with
                           | Break => ret Break
                           | Next => each r
                           end
                       end) ds w2)))).
  { induction ds as [|d r IHr]; intros w2 Fd Inv2.
    - exists Next. split; [reflexivity|].
      split; [exact Inv2 | split; intros X; exact X].
    - destruct Fd as [Fd|[Fd1 Fd2]]; [discriminate|].
      destruct (IH (top ++ [d]) w2 Inv2 Fd1 (Fd2 d))
        as (f' & O' & Inv' & Hd' & Hi').
      destruct (walk_topdown fuel (scan_body tz target method recursive rules)
                  (top ++ [d]) w2) as [o w3] eqn:Wk.
      cbn [fst snd] in O', Inv', Hd', Hi'. subst o.
      rewrite (bind_ret_run _ _ _ _ _ Wk).
      destruct f'.
      + destruct (IHr w3 (or_intror (conj Fd1 Fd2)) Inv')
          as (f2 & O2 & Inv2' & Hd2 & Hi2).
        exists f2. split; [exact O2|]. split; [exact Inv2'|].
        split; [intros X; apply Hd2, Hd', X | intros X; apply Hi2, Hi', X].
      + exists Break. split; [reflexivity|].
        split; [exact Inv' | split; [exact Hd' | exact Hi']]. }
  destruct (Each dirs w1 Fk Inv1) as (f2 & O2 & Inv2 & Hd2 & Hi2).
  exists f2. split; [exact O2|]. split; [exact Inv2|].
  split; [intros X; apply Hd2, Hd, X | intros X; apply Hi2, Hi, X].
Qed.

End ScanAny.

(** One scan, whatever its flags. *)
Lemma deep_scan_any tz target method recursive delete_empty cfg_rules b fuel
    m0 x0 old w :
  proper_path target = true ->
  (forall c,
      In c (dict_keys (match cfg_rules with Some d => d | None => [] end)) ->
      proper_name c = true) ->
  List.length target + 4 <= b ->
  b < fuel ->
  wf_node (w_fs w) = true /\ deep_le b (w_fs w) ->
  let r := deep_scan_and_organize tz fuel target method recursive delete_empty
             cfg_rules w in
  fst r = Ret tt /\
  (wf_node (w_fs (snd r)) = true /\ deep_le b (w_fs (snd r))) /\
  ((exists q, lookup q (w_fs w) = Some (File m0 x0)) ->
   exists q, lookup q (w_fs (snd r)) = Some (File m0 x0)) /\
  (moves_inside old target w -> moves_inside old target (snd r)).
Proof.
  intros Pt Pc Db Fb Inv r. subst r. unfold deep_scan_and_organize.
  rewrite (bind_ret_run _ _ _ _ _ (path_exists_run target w)).
  destruct (exists_at target (w_fs w)); cbn [negb].
  - destruct (walk_any tz target method
                (build_rules (match cfg_rules with Some d => d | None => [] end))
                b m0 x0 old Pt (built_rules_proper cfg_rules Pc) Db
                recursive fuel target w Inv) as (fl & O & Inv1 & Hd & Hi); try lia.
    destruct (walk_topdown fuel _ target w) as [o w1] eqn:Wk.
    cbn [fst snd] in O, Inv1, Hd, Hi. subst o.
    rewrite (bind_ret_run _ _ _ _ _ Wk).
    destruct delete_empty.
    + split; [|split; [|split]].
      * destruct Inv1 as (W1 & D1).
        apply delete_empty_folders_returns; [assumption|].
        pose proof (height_deep_le (w_fs w1) b D1 W1). lia.
      * now apply keeps_deep_delete_empty.
      * intros X. destruct (Hd X) as [q Hq]. exists q.
        now apply keeps_file_delete_empty.
      * intros X. apply keeps_moves_inside_reap, Hi, X.
    + split; [reflexivity|]. split; [exact Inv1 | split; [exact Hd | exact Hi]].
  - split; [reflexivity|]. split; [exact Inv|].
    split; [intros X; exact X|].
    intros X.
    apply (moves_inside_quiet old target w _ [LogTargetMissing target]);
      [reflexivity|reflexivity|exact X].
Qed.

(** X14.  A scan never aborts and loses no file, recursion on or off,
    cleanup on or off, whatever the method: on a well-formed file system,
    with proper category names and fuel for the depth of the tree, it
    returns; the file system stays well formed; and every regular file of
    before is found afterwards, with its time and contents, where it was
    or where it was moved to. *)
Theorem deep_scan_loses_no_file :
  forall (tz : Z -> Z) (w : world) (target : path) (method : string)
         (recursive delete_empty : bool) (cfg_rules : option rules_dict)
         (fuel : nat),
    wf_node (w_fs w) = true ->
    proper_path target = true ->
    (forall c,
        In c (dict_keys (match cfg_rules with Some d => d | None => [] end)) ->
        proper_name c = true) ->
    Nat.max (height (w_fs w)) (List.length target + 4) < fuel ->
    let r := deep_scan_and_organize tz fuel target method recursive delete_empty
               cfg_rules w in
    fst r = Ret tt /\
    wf_node (w_fs (snd r)) = true /\
    forall q m x,
      lookup q (w_fs w) = Some (File m x) ->
      exists q', lookup q' (w_fs (snd r)) = Some (File m x).
Proof.
  intros tz w target method recursive delete_empty cfg_rules fuel W Pt Pc Fb r.
  set (b := Nat.max (height (w_fs w)) (List.length target + 4)) in *.
  assert (Inv : wf_node (w_fs w) = true /\ deep_le b (w_fs w)).
  { split; [exact W|]. apply height_to_deep_le. unfold b. lia. }
  split; [|split].
  - apply (deep_scan_any tz target method recursive delete_empty cfg_rules b fuel
             0%Z ""%string [] w Pt Pc); [unfold b; lia | lia | exact Inv].
  - apply (deep_scan_any tz target method recursive delete_empty cfg_rules b fuel
             0%Z ""%string [] w Pt Pc); [unfold b; lia | lia | exact Inv].
  - intros q m x L.
    apply (deep_scan_any tz target method recursive delete_empty cfg_rules b fuel
             m x [] w Pt Pc); [unfold b; lia | lia | exact Inv | now exists q].
Qed.

Lemma deep_scan_loses_no_file_witness :
  let fs := Dir [("dl", Dir [("a.jpg", File 1678886400 "A");
                             ("sub", Dir [("b.PDF", File 1700000000 "B");
                                          ("empty", Dir [])]);
                             ("Images", Dir [("a.jpg", File 5 "old")])])] in
  let r := deep_scan_and_organize (fun _ => 0%Z) 7 ["dl"] "type" true true None
             (start_run fs) in
  fst r = Ret tt /\
  (exists q', lookup q' (w_fs (snd r)) = Some (File 1700000000 "B")) /\
  lookup ["dl"; "Documents"; "b.PDF"] (w_fs (snd r)) = Some (File 1700000000 "B").
Proof.
  intros fs r.
  destruct (deep_scan_loses_no_file (fun _ => 0%Z) (start_run fs) ["dl"] "type"
              true true None 7 eq_refl eq_refl)
    as (O & _ & Keep).
  - intros c [].
  - cbn. lia.
  - split; [exact O|]. split; [|reflexivity].
    apply (Keep ["dl"; "sub"; "b.PDF"]). reflexivity.
Defined.

(* ================================================================== *)
(** * The headless run and the watch handler *)
(* ================================================================== *)

Lemma reap_nothing fuel root w :
  1 <= fuel ->
  (forall es, lookup root (w_fs w) <> Some (Dir es)) ->
  delete_empty_folders fuel root w = (Ret tt, w).
Proof.
  intros F N. destruct fuel as [|fuel]; [lia|].
  unfold delete_empty_folders. cbn [walk_bottomup].
  rewrite (bind_ret_run _ _ _ _ _ (scandir_run root w)).
  destruct (lookup root (w_fs w)) as [[m x|es]|]; try reflexivity.
  exfalso. now apply (N es).
Qed.

(** The reaper run twice in a row, from any root. *)
Lemma reap_again fuel root w :
  wf_node (w_fs w) = true ->
  height (w_fs w) < fuel ->
  let r1 := delete_empty_folders fuel root w in
  let r2 := delete_empty_folders fuel root (snd r1) in
  fst r1 = Ret tt /\ fst r2 = Ret tt /\
  w_fs (snd r2) = w_fs (snd r1) /\
  w_stats (snd r2) = w_stats (snd r1) /\
  (forall q es,
      q <> [] -> lookup (root ++ q) (w_fs (snd r1)) = Some (Dir es) -> es <> []).
Proof.
  intros Wf H r1 r2. subst r1 r2.
  destruct (lookup root (w_fs w)) as [t|] eqn:L.
  - assert (Ht : height t < fuel).
    { pose proof (height_lookup root _ _ L). lia. }
    destruct (delete_empty_folders_run w root t fuel Wf L Ht) as (O & F & S1 & Wp).
    set (w1 := snd (delete_empty_folders fuel root w)) in *.
    assert (Wf1 : wf_node (w_fs w1) = true).
    { apply (keeps_walk_bottomup (fun w => wf_node (w_fs w) = true) fuel reap_body
               keeps_wf_reap_body root w Wf). }
    assert (L1 : lookup root (w_fs w1) = Some (prune t)).
    { rewrite F. eapply lookup_graft; eassumption. }
    assert (H1 : height (prune t) < fuel) by (pose proof (height_prune t); lia).
    destruct (delete_empty_folders_run w1 root (prune t) fuel Wf1 L1 H1)
      as (O2 & F2 & S2 & _).
    rewrite prune_idem in F2. rewrite reaped_prune, add_folders_deleted_0 in S2.
    split; [exact O|]. split; [exact O2|]. split; [|split; [exact S2|]].
    + rewrite F2, F. apply graft_graft.
    + intros q es NE Lq. rewrite lookup_app, L1 in Lq.
      eapply prune_no_empty; eassumption.
  - assert (E : delete_empty_folders fuel root w = (Ret tt, w)).
    { apply reap_nothing; [lia|]. intros es. rewrite L. discriminate. }
    rewrite E. cbn [snd]. rewrite E. cbn [fst snd].
    repeat split; try reflexivity.
    intros q es _ Lq. rewrite lookup_app, L in Lq. discriminate.
Qed.

Lemma deep_scan_unfold tz fuel target method recursive de cfg_rules w :
  deep_scan_and_organize tz fuel target method recursive de cfg_rules w =
  if exists_at target (w_fs w)
  then (walk_topdown fuel
          (scan_body tz target method recursive
             (build_rules (match cfg_rules with Some d => d | None => [] end)))
          target ;;
        if de then delete_empty_folders fuel target else ret tt) w
  else log (LogTargetMissing target) w.
Proof.
  unfold deep_scan_and_organize. cbv zeta.
  rewrite (bind_ret_run _ _ _ _ _ (path_exists_run target w)).
  now destruct (exists_at target (w_fs w)).
Qed.

(** The scan followed by the reaper, with the cleanup of the scan on and
    off. *)
Lemma scan_then_reap tz target method recursive cfg_rules b fuel w :
  proper_path target = true ->
  (forall c,
      In c (dict_keys (match cfg_rules with Some d => d | None => [] end)) ->
      proper_name c = true) ->
  List.length target + 4 <= b ->
  b < fuel ->
  wf_node (w_fs w) = true /\ deep_le b (w_fs w) ->
  let run de :=
    (deep_scan_and_organize tz fuel target method recursive de cfg_rules ;;
     delete_empty_folders fuel target) w in
  fst (run true) = Ret tt /\ fst (run false) = Ret tt /\
  w_fs (snd (run true)) = w_fs (snd (run false)) /\
  w_stats (snd (run true)) = w_stats (snd (run false)) /\
  (forall q es,
      q <> [] ->
      lookup (target ++ q) (w_fs (snd (run false))) = Some (Dir es) -> es <> []).
Proof.
  intros Pt Pc Db Fb Inv run. subst run. cbv beta.
  assert (Again : forall w1,
             wf_node (w_fs w1) = true /\ deep_le b (w_fs w1) ->
             let r1 := delete_empty_folders fuel target w1 in
             let r2 := delete_empty_folders fuel target (snd r1) in
             fst r1 = Ret tt /\ fst r2 = Ret tt /\
             w_fs (snd r2) = w_fs (snd r1) /\
             w_stats (snd r2) = w_stats (snd r1) /\
             (forall q es,
                 q <> [] ->
                 lookup (target ++ q) (w_fs (snd r1)) = Some (Dir es) -> es <> [])).
  { intros w1 (W1 & D1). apply reap_again; [assumption|].
    pose proof (height_deep_le (w_fs w1) b D1 W1). lia. }
  pose proof (deep_scan_unfold tz fuel target method recursive true cfg_rules w) as Dt.
  pose proof (deep_scan_unfold tz fuel target method recursive false cfg_rules w) as Df.
  destruct (exists_at target (w_fs w)).
  - destruct (walk_any tz target method
                (build_rules (match cfg_rules with Some d => d | None => [] end))
                b 0%Z ""%string [] Pt (built_rules_proper cfg_rules Pc) Db
                recursive fuel target w Inv) as (fl & O & Inv1 & _); try lia.
    destruct (walk_topdown fuel _ target w) as [o w1] eqn:Wk.
    cbn [fst snd] in O, Inv1. subst o.
    destruct (Again w1 Inv1) as (O1 & O2 & F2 & S2 & NE).
    destruct (delete_empty_folders fuel target w1) as [o1 w2] eqn:R1.
    cbn [fst snd] in O1, O2, F2, S2, NE. subst o1.
    rewrite (bind_ret_run _ _ _ _ _ Wk) in Dt.
    rewrite (bind_ret_run _ _ _ _ _ Wk) in Df. rewrite R1 in Dt.
    change (ret tt w1) with (@Ret unit tt, w1) in Df.
    rewrite (bind_ret_run _ _ _ _ _ Dt), (bind_ret_run _ _ _ _ _ Df), R1.
    cbn [fst snd].
    split; [exact O2|]. split; [reflexivity|].
    split; [exact F2|]. split; [exact S2 | exact NE].
  - set (w1 := snd (log (LogTargetMissing target) w)).
    assert (Inv1 : wf_node (w_fs w1) = true /\ deep_le b (w_fs w1)) by exact Inv.
    destruct (Again w1 Inv1) as (O1 & _ & _ & _ & NE).
    change (log (LogTargetMissing target) w) with (@Ret unit tt, w1) in Dt, Df.
    rewrite (bind_ret_run _ _ _ _ _ Dt), (bind_ret_run _ _ _ _ _ Df).
    split; [exact O1|]. split; [exact O1|].
    split; [reflexivity|]. split; [reflexivity | exact NE].
Qed.

(** X15.  In a headless run the option [delete_empty] decides nothing: the
    reaper runs after the scan in any case, so that with the option off
    the run ends, as with the option on, with no empty directory left
    below the target, and with the same file system and the same
    counters. *)
Theorem run_ignores_delete_empty :
  forall (tz : Z -> Z) (s : session) (target : path) (method : string)
         (recursive : bool) (custom_rules : option rules_dict) (fuel : nat),
    wf_node (s_fs s) = true ->
    proper_path target = true ->
    (forall c,
        In c (dict_keys (match custom_rules with Some d => d | None => [] end)) ->
        proper_name c = true) ->
    Nat.max (height (s_fs s)) (List.length target + 4) < fuel ->
    let r1 := run_headless_run tz fuel target method recursive true
                custom_rules s in
    let r2 := run_headless_run tz fuel target method recursive false
                custom_rules s in
    fst r1 = Ret tt /\ fst r2 = Ret tt /\
    s_fs (snd r1) = s_fs (snd r2) /\
    s_stats (snd r1) = s_stats (snd r2) /\
    (forall q es,
        q <> [] ->
        lookup (target ++ q) (s_fs (snd r2)) = Some (Dir es) -> es <> []).
Proof.
  intros tz s target method recursive custom_rules fuel W Pt Pc Fb r1 r2.
  set (b := Nat.max (height (s_fs s)) (List.length target + 4)) in *.
  set (w0 := {| w_fs := s_fs s; w_stats := make_stats; w_log := [] |}).
  assert (Inv : wf_node (w_fs w0) = true /\ deep_le b (w_fs w0)).
  { split; [exact W|]. apply height_to_deep_le. unfold b. cbn [w0 w_fs]. lia. }
  destruct (scan_then_reap tz target method recursive custom_rules b fuel w0
              Pt Pc ltac:(unfold b; lia) Fb Inv) as (O1 & O2 & F & S1 & NE).
  subst r1 r2. unfold run_headless_run, engine, note.
  cbn [s_fs s_stats s_out fst snd]. fold w0.
  cbv zeta in O1, O2, F, S1, NE.
  rewrite O1, O2. cbn [fst snd s_fs s_stats].
  repeat split; assumption.
Qed.

Lemma run_ignores_delete_empty_witness :
  let fs := Dir [("dl", Dir [("a.jpg", File 1678886400 "A");
                             ("sub", Dir [("empty", Dir [])])])] in
  let s := {| s_fs := fs; s_stats := make_stats; s_out := [] |} in
  let r2 := run_headless_run (fun _ => 0%Z) 7 ["dl"] "type" false false None s in
  fst r2 = Ret tt /\
  s_fs (snd r2) = Dir [("dl", Dir [("Images", Dir [("a.jpg", File 1678886400 "A")])])] /\
  folders_deleted (s_stats (snd r2)) = 2%Z.
Proof.
  intros fs s r2.
  destruct (run_ignores_delete_empty (fun _ => 0%Z) s ["dl"] "type" false None 7
              eq_refl eq_refl)
    as (_ & O2 & _).
  - intros c [].
  - cbn. lia.
  - split; [exact O2|]. split; reflexivity.
Defined.

Lemma wf_lookup_name d n t c :
  wf_node t = true -> lookup (d ++ [n]) t = Some c -> proper_name n = true.
Proof.
  intros W L. rewrite lookup_app in L.
  destruct (lookup d t) as [[m x|es]|] eqn:Ld; try discriminate.
  cbn [lookup] in L.
  destruct (find_entry n es) as [c0|] eqn:F; [|discriminate].
  apply (wf_node_proper es); [eapply lookup_wf; eassumption|].
  eapply find_entry_In; eassumption.
Qed.

(** The body of the scanner for one file and the planner leave the same
    file system and counters. *)
Lemma scan_file_organize tz target method rules root f w :
  proper_name f = true ->
  w_fs (snd (scan_file tz target method rules root f w)) =
    w_fs (snd (organize tz method (root ++ [f]) target rules w)) /\
  (fst (scan_file tz target method rules root f w) = Ret tt ->
   fst (organize tz method (root ++ [f]) target rules w) <> OutOfFuel).
Proof.
  intros Pf. unfold scan_file. rewrite (path_div_proper root f Pf).
  unfold try_except, bind.
  destruct (organize tz method (root ++ [f]) target rules w) as [[p|e|] w1];
    cbn; split; try reflexivity; try discriminate.
Qed.

(** X16.  The watch handler returns for every event: an event of a
    directory changes nothing; for a regular file of a well-formed file
    system, with proper category names and fuel for the depth of the
    tree, the call returns whether the move succeeds or fails, the file
    system stays well formed, and no regular file is lost. *)
Theorem on_created_returns :
  forall (tz : Z -> Z) (s : session) (target : path) (method : string)
         (delete_empty : bool) (ordered_rules : list rule)
         (src : path) (m : Z) (x : string) (fuel : nat),
    wf_node (s_fs s) = true ->
    src <> [] ->
    lookup src (s_fs s) = Some (File m x) ->
    proper_path target = true ->
    (forall c, In c (map fst ordered_rules) -> proper_name c = true) ->
    Nat.max (height (s_fs s)) (List.length target + 4) < fuel ->
    let r := on_created tz fuel target method delete_empty ordered_rules
               false src s in
    fst r = Ret tt /\
    wf_node (s_fs (snd r)) = true /\
    (forall q m' x',
        lookup q (s_fs s) = Some (File m' x') ->
        exists q', lookup q' (s_fs (snd r)) = Some (File m' x')) /\
    on_created tz fuel target method delete_empty ordered_rules true src s
      = (Ret tt, s).
Proof.
  intros tz s target method delete_empty rules src m x fuel W NE L Pt Pr Fb r.
  set (b := Nat.max (height (s_fs s)) (List.length target + 4)) in *.
  set (w0 := {| w_fs := s_fs s; w_stats := s_stats s; w_log := [] |}).
  destruct (exists_last NE) as (root & f & E). subst src.
  assert (Pf : proper_name f = true) by (eapply wf_lookup_name; eassumption).
  assert (Db : List.length target + 4 <= b) by (unfold b; lia).
  assert (Inv : wf_node (w_fs w0) = true /\ deep_le b (w_fs w0)).
  { split; [exact W|]. apply height_to_deep_le. unfold b. cbn [w0 w_fs]. lia. }
  assert (Core : forall m0 x0,
             let o := organize tz method (root ++ [f]) target rules w0 in
             fst o <> OutOfFuel /\
             (wf_node (w_fs (snd o)) = true /\ deep_le b (w_fs (snd o))) /\
             ((exists q, lookup q (s_fs s) = Some (File m0 x0)) ->
              exists q, lookup q (w_fs (snd o)) = Some (File m0 x0))).
  { intros m0 x0 o. subst o.
    destruct (scan_file_any tz target method rules b m0 x0 [] Pt Pr Db root f w0 m x
                Inv Pf L) as (O & Inv1 & Hd & _).
    destruct (scan_file_organize tz target method rules root f w0 Pf) as (Ef & Nf).
    rewrite Ef in Inv1, Hd. split; [now apply Nf|]. split; [exact Inv1 | exact Hd]. }
  assert (All : forall m0 x0,
             fst r = Ret tt /\
             wf_node (s_fs (snd r)) = true /\
             ((exists q, lookup q (s_fs s) = Some (File m0 x0)) ->
              exists q, lookup q (s_fs (snd r)) = Some (File m0 x0))).
  { intros m0 x0. destruct (Core m0 x0) as (No & (W1 & D1) & Hd).
    subst r. unfold on_created, engine, note. cbn [fst snd]. fold w0.
    destruct (organize tz method (root ++ [f]) target rules w0) as [[p|e|] w1] eqn:Og;
      cbn [fst snd] in No, W1, D1, Hd; [| |congruence].
    - rewrite (bind_ret_run _ _ _ _ _ Og).
      destruct delete_empty.
      + assert (O2 : fst (delete_empty_folders fuel target w1) = Ret tt).
        { apply delete_empty_folders_returns; [assumption|].
          pose proof (height_deep_le (w_fs w1) b D1 W1). lia. }
        rewrite O2. cbn [fst snd s_fs].
        split; [reflexivity|]. split.
        * apply (keeps_deep_delete_empty b fuel target w1 (conj W1 D1)).
        * intros X. destruct (Hd X) as [q Hq]. exists q.
          now apply keeps_file_delete_empty.
      + cbn [ret fst snd s_fs w_fs].
        split; [reflexivity|]. split; [exact W1 | exact Hd].
    - rewrite (bind_raise_run _ _ _ _ _ Og). cbn [fst snd s_fs w_fs].
      split; [reflexivity|]. split; [exact W1 | exact Hd]. }
  split; [apply (All 0%Z ""%string)|]. split; [apply (All 0%Z ""%string)|].
  split; [|reflexivity].
  intros q m' x' Lq. apply (All m' x'). now exists q.
Qed.

Lemma on_created_returns_witness :
  let fs := Dir [("dl", Dir [("Images", File 0 "in the way");
                             ("a.jpg", File 1678886400 "A")])] in
  let s := {| s_fs := fs; s_stats := make_stats; s_out := [] |} in
  let r := on_created (fun _ => 0%Z) 6 ["dl"] "type" true (build_rules [])
             false ["dl"; "a.jpg"] s in
  fst r = Ret tt /\
  s_fs (snd r) = fs /\
  s_out (snd r) = [inl (LogFailedMove ["dl"; "a.jpg"]);
                   inr (NoteErrorHandling ["dl"; "a.jpg"])].
Proof.
  intros fs s r.
  destruct (on_created_returns (fun _ => 0%Z) s ["dl"] "type" true (build_rules [])
              ["dl"; "a.jpg"] 1678886400%Z "A" 6 eq_refl)
    as (O & _).
  - discriminate.
  - reflexivity.
  - reflexivity.
  - intros c I. cbn in I.
    repeat (destruct I as [<-|I]; [reflexivity|]). destruct I.
  - cbn. lia.
  - split; [exact O|]. split; reflexivity.
Defined.

(** X19.  A target that is no directory.  When nothing exists at the
    target path the scan logs that the target folder does not exist and
    returns, with the file system and the counters untouched and no
    cleanup run.  When the target path is a regular file the scan finds
    nothing to walk and returns in silence: nothing is moved, counted or
    logged. *)
Theorem deep_scan_bad_target :
  forall (tz : Z -> Z) (fuel : nat) (target : path) (method : string)
         (recursive delete_empty : bool) (cfg_rules : option rules_dict)
         (w : world),
    (lookup target (w_fs w) = None ->
     deep_scan_and_organize tz fuel target method recursive delete_empty
       cfg_rules w =
     (Ret tt, {| w_fs := w_fs w; w_stats := w_stats w;
                 w_log := w_log w ++ [LogTargetMissing target] |}))
    /\
    (forall m x,
        lookup target (w_fs w) = Some (File m x) ->
        1 <= fuel ->
        deep_scan_and_organize tz fuel target method recursive delete_empty
          cfg_rules w = (Ret tt, w)).
Proof.
  intros tz fuel target method recursive delete_empty cfg_rules w. split.
  - intros L. rewrite deep_scan_unfold. unfold exists_at. now rewrite L.
  - intros m x L F. rewrite deep_scan_unfold. unfold exists_at. rewrite L.
    destruct fuel as [|k]; [lia|].
    assert (Wk : walk_topdown (S k)
                   (scan_body tz target method recursive
                      (build_rules (match cfg_rules with
                                    | Some d => d | None => [] end)))
                   target w = (Ret Next, w)).
    { cbn [walk_topdown].
      rewrite (bind_ret_run _ _ _ _ _ (scandir_run target w)). now rewrite L. }
    rewrite (bind_ret_run _ _ _ _ _ Wk).
    destruct delete_empty; [|reflexivity].
    apply reap_nothing; [lia|]. intros es. rewrite L. discriminate.
Qed.

Lemma deep_scan_bad_target_witness :
  let w := start_run (Dir [("dl", File 0 "a file")]) in
  deep_scan_and_organize (fun _ => 0%Z) 3 ["dl"] "type" true true None w
    = (Ret tt, w) /\
  w_log (snd (deep_scan_and_organize (fun _ => 0%Z) 3 ["nowhere"] "type" true
                true None w)) = [LogTargetMissing ["nowhere"]].
Proof.
  intros w.
  destruct (deep_scan_bad_target (fun _ => 0%Z) 3 ["dl"] "type" true true None w)
    as (_ & B).
  destruct (deep_scan_bad_target (fun _ => 0%Z) 3 ["nowhere"] "type" true true
              None w) as (A & _).
  split.
  - apply (B 0%Z "a file" eq_refl). lia.
  - rewrite (A eq_refl). reflexivity.
Defined.

(* ================================================================== *)
(** * A run over the files of the target *)
(* ================================================================== *)

Lemma reap_counters fuel p w :
  let w' := snd (delete_empty_folders fuel p w) in
  scanned (w_stats w') = scanned (w_stats w) /\
  folders_created (w_stats w') = folders_created (w_stats w) /\
  files_moved (w_stats w') = files_moved (w_stats w) /\
  errors (w_stats w') = errors (w_stats w).
Proof.
  set (I := fun w' : world =>
              scanned (w_stats w') = scanned (w_stats w) /\
              folders_created (w_stats w') = folders_created (w_stats w) /\
              files_moved (w_stats w') = files_moved (w_stats w) /\
              errors (w_stats w') = errors (w_stats w)).
  assert (K : keeps I (delete_empty_folders fuel p)).
  { apply keeps_walk_bottomup. intros root dirs files.
    unfold reap_body. apply keeps_for_each. intros d _.
    apply keeps_try; [|intros e w1 H; exact H].
    apply keeps_bind; [apply keeps_reader, iterdir_any_reads|].
    intros [|]; cbn [negb]; [apply keeps_ret|].
    apply keeps_bind.
    - intros w1 H. unfold path_rmdir. mrun.
      destruct (lookup (root // d) (w_fs w1)) as [[m x|[|e es]]|]; try exact H.
      destruct (detach (root // d) (w_fs w1)); exact H.
    - intros _. apply keeps_bind; [intros w1 H; exact H|].
      intros _ w1 H. exact H. }
  apply (K w). unfold I. repeat split.
Qed.

Lemma reap_makes_no_file fuel p q :
  keeps (fun w => forall m x, lookup q (w_fs w) <> Some (File m x))
        (delete_empty_folders fuel p).
Proof.
  apply keeps_walk_bottomup. intros root dirs files.
  unfold reap_body. apply keeps_for_each. intros d _.
  apply keeps_try; [|intros e w H; exact H].
  apply keeps_bind; [apply keeps_reader, iterdir_any_reads|].
  intros [|]; cbn [negb]; [apply keeps_ret|].
  apply keeps_bind.
  - intros w H. unfold path_rmdir. mrun.
    destruct (lookup (root // d) (w_fs w)) as [[m x|[|e es]]|] eqn:Lk; try exact H.
    destruct (detach (root // d) (w_fs w)) as [t'|] eqn:Dt; [|exact H].
    cbn [snd w_fs]. intros m x Lq.
    destruct (detach_kind (root // d) (w_fs w) _ (detach_nonempty _ _ _ Dt) Lk)
      as (t1 & Dt' & Kd).
    rewrite Dt in Dt'. injection Dt' as <-.
    apply kind_at_file_lookup in Lq. rewrite Kd in Lq.
    destruct (is_prefix (root // d) q); [discriminate|].
    apply kind_at_file_lookup in Lq. now apply (H m x).
  - intros _. apply keeps_bind; [intros w H; exact H|].
    intros _ w H. exact H.
Qed.

Section RunOverFiles.

Variables (tz : Z -> Z) (target : path) (method : string) (rules : list rule).

Hypothesis rules_proper : forall c, In c (map fst rules) -> proper_name c = true.

Local Abbreviation year_of m := (fst (civil_of_days ((m + tz m) / 86400))).

(** The planned directory lies [plan_depth] proper segments below the
    target. *)
Lemma plan_shape f m :
  (1 <= year_of m <= 9999)%Z ->
  exists rest,
    plan tz method target rules f m = target ++ rest /\
    List.length rest = plan_depth method.
Proof.
  intros Ry. unfold plan, plan_depth.
  pose proof (category_proper rules rules_proper (normalize_ext (suffix_of f))) as Pc.
  pose proof (year_str_proper _ Ry) as Py.
  pose proof (month_abbr_proper _ (civil_month_range ((m + tz m) / 86400))) as Pm.
  destruct (method =? "type_date"); [|destruct (method =? "date_type")];
    rewrite !path_div_proper by assumption; rewrite <- ?app_assoc; cbn [app];
    eexists; split; reflexivity.
Qed.

Lemma organize_is_plan root f w m x :
  lookup (root ++ [f]) (w_fs w) = Some (File m x) ->
  (1 <= year_of m <= 9999)%Z ->
  organize tz method (root ++ [f]) target rules w =
  safe_move (root ++ [f]) (plan tz method target rules f m) w.
Proof.
  intros L Ry.
  destruct (civil_of_days ((m + tz m) / 86400)) as [y mo] eqn:C.
  cbn [fst] in Ry.
  destruct (organize_plans tz w (root ++ [f]) target rules m x y mo L C Ry)
    as (P1 & P2 & P3).
  unfold organize, plan. rewrite C. cbn [fst snd].
  unfold path_suffix in P1, P2, P3. rewrite path_name_snoc in P1, P2, P3.
  destruct (method =? "type_date"); [exact P1|].
  destruct (method =? "date_type"); [exact P2 | exact P3].
Qed.

(** One file of the target, ready: it is moved into its planned
    directory. *)
Lemma scan_file_ready f w m x :
  proper_name f = true ->
  lookup (target ++ [f]) (w_fs w) = Some (File m x) ->
  (1 <= year_of m <= 9999)%Z ->
  (forall q m' x',
      is_prefix q (plan tz method target rules f m) = true ->
      kind_at q (w_fs w) <> Some (KFile m' x')) ->
  exists n t' s' l',
    scan_file tz target method rules target f w =
      (Ret tt, {| w_fs := t'; w_stats := s'; w_log := l' |}) /\
    scanned s' = (scanned (w_stats w) + 1)%Z /\
    files_moved s' = (files_moved (w_stats w) + 1)%Z /\
    errors s' = errors (w_stats w) /\
    folders_deleted s' = folders_deleted (w_stats w) /\
    exists_at (plan tz method target rules f m ++ [n]) (w_fs w) = false /\
    forall q,
      kind_at q t' =
      if path_eqb q (plan tz method target rules f m ++ [n])
      then Some (KFile m x)
      else if path_eqb q (target ++ [f]) then None
      else match kind_at q (w_fs w) with
           | Some k => Some k
           | None =>
               if is_prefix q (plan tz method target rules f m)
               then Some KDir else None
           end.
Proof.
  intros Pf L Ry Free.
  set (src := target ++ [f]) in *.
  set (dd := plan tz method target rules f m) in *.
  assert (Pl : plain (path_name src) = true).
  { unfold src. rewrite path_name_snoc. now apply proper_name_plain. }
  destruct (safe_move_moves src dd w m x L Pl Free)
    as (dest & t' & ev & Sm & C & K).
  assert (Dn : exists n, dest = dd ++ [n] /\ exists_at dest (w_fs w) = false).
  { destruct C as [(E & -> & _)|(_ & N & _ & -> & _ & _ & E)]; eauto. }
  destruct Dn as (n & -> & Fresh).
  exists n, t'. do 2 eexists.
  split; [|split; [|split; [|split; [|split; [|split; [exact Fresh | exact K]]]]]].
  - unfold scan_file. rewrite (path_div_proper target f Pf). fold src.
    apply try_ret_run.
    rewrite (bind_ret_run _ _ _ _ _
               (eq_trans (organize_is_plan target f w m x L Ry) Sm)).
    reflexivity.
  - destruct (exists_at dd (w_fs w)); reflexivity.
  - destruct (exists_at dd (w_fs w)); reflexivity.
  - destruct (exists_at dd (w_fs w)); reflexivity.
  - destruct (exists_at dd (w_fs w)); reflexivity.
Qed.

(** The loop over the files of the target, all ready. *)
Lemma scan_files_ready files : forall w,
  NoDup files ->
  (forall f, In f files -> ready tz method target rules w f) ->
  let r := for_each files (scan_file tz target method rules target) w in
  fst r = Ret tt /\
  scanned (w_stats (snd r)) =
    (scanned (w_stats w) + Z.of_nat (List.length files))%Z /\
  files_moved (w_stats (snd r)) =
    (files_moved (w_stats w) + Z.of_nat (List.length files))%Z /\
  errors (w_stats (snd r)) = errors (w_stats w) /\
  folders_deleted (w_stats (snd r)) = folders_deleted (w_stats w) /\
  (forall f m x,
      In f files ->
      lookup (target ++ [f]) (w_fs w) = Some (File m x) ->
      exists n,
        lookup (plan tz method target rules f m ++ [n]) (w_fs (snd r))
        = Some (File m x)) /\
  (forall q m x,
      List.length q <= S (List.length target) ->
      lookup q (w_fs (snd r)) = Some (File m x) ->
      lookup q (w_fs w) = Some (File m x) /\
      forall f, In f files -> q <> target ++ [f]) /\
  (forall q m x,
      (forall f, In f files -> q <> target ++ [f]) ->
      lookup q (w_fs w) = Some (File m x) ->
      lookup q (w_fs (snd r)) = Some (File m x)).
Proof.
  induction files as [|f files IH]; intros w ND Rd r; subst r.
  - cbn [for_each ret fst snd List.length Z.of_nat].
    split; [reflexivity|]. split; [lia|]. split; [lia|].
    split; [reflexivity|]. split; [reflexivity|].
    split; [intros f m x []|]. split; [|intros; assumption].
    intros q m x _ Lq. split; [exact Lq | intros f []].
  - inversion ND as [|? ? Hf Hr]; subst.
    destruct (Rd f (or_introl eq_refl)) as (Pf & m & x & L & Ry & Free).
    destruct (plan_shape f m Ry) as (rest & Ep & Lr).
    destruct (scan_file_ready f w m x Pf L Ry Free)
      as (n & t' & s' & l' & Step & S1 & S2 & S3 & S4 & Fresh & K).
    set (dd := plan tz method target rules f m) in *.
    set (w1 := {| w_fs := t'; w_stats := s'; w_log := l' |}) in *.
    assert (Ld : S (List.length target) < List.length (dd ++ [n])).
    { rewrite Ep, !length_app, Lr. cbn [List.length].
      unfold plan_depth.
      destruct (method =? "type_date"); [lia|].
      destruct (method =? "date_type"); lia. }
    assert (Keep : forall q m' x',
               q <> target ++ [f] ->
               lookup q (w_fs w) = Some (File m' x') ->
               lookup q t' = Some (File m' x')).
    { intros q m' x' Ne Lq. apply kind_at_file_lookup. rewrite K.
      assert (E1 : path_eqb q (dd ++ [n]) = false).
      { apply path_eqb_neq. intros ->. unfold exists_at in Fresh.
        now rewrite Lq in Fresh. }
      assert (E2 : path_eqb q (target ++ [f]) = false) by now apply path_eqb_neq.
      rewrite E1, E2. apply kind_at_file_lookup in Lq. now rewrite Lq. }
    assert (Back : forall q m' x',
               List.length q <= S (List.length target) ->
               lookup q t' = Some (File m' x') ->
               lookup q (w_fs w) = Some (File m' x') /\ q <> target ++ [f]).
    { intros q m' x' Lq Hq. apply kind_at_file_lookup in Hq. rewrite K in Hq.
      destruct (path_eqb q (dd ++ [n])) eqn:E1.
      { apply path_eqb_eq in E1. subst q. lia. }
      destruct (path_eqb q (target ++ [f])) eqn:E2; [discriminate|].
      apply path_eqb_neq in E2. split; [|exact E2].
      apply kind_at_file_lookup.
      destruct (kind_at q (w_fs w)) as [k|]; [exact Hq|].
      destruct (is_prefix q dd); discriminate. }
    assert (Rd1 : forall g, In g files -> ready tz method target rules w1 g).
    { intros g Ig.
      destruct (Rd g (or_intror Ig)) as (Pg & mg & xg & Lg & Ryg & Freeg).
      assert (Ng : target ++ [g] <> target ++ [f]).
      { intros E. apply app_inj_tail in E. destruct E as [_ ->]. contradiction. }
      split; [exact Pg|]. exists mg, xg.
      split; [now apply Keep|]. split; [exact Ryg|].
      intros q m' x' Pq Kq. cbn [w1 w_fs] in Kq. rewrite K in Kq.
      destruct (plan_shape g mg Ryg) as (restg & Eg & Lrg).
      destruct (path_eqb q (dd ++ [n])) eqn:E1.
      { apply path_eqb_eq in E1. subst q.
        apply is_prefix_spec in Pq. destruct Pq as [r Pq].
        apply (f_equal (@List.length string)) in Pq.
        rewrite Eg, Ep, !length_app, Lr, Lrg in Pq. cbn [List.length] in Pq. lia. }
      destruct (path_eqb q (target ++ [f])); [discriminate|].
      destruct (kind_at q (w_fs w)) as [k|] eqn:Kw.
      - apply (Freeg q m' x' Pq). congruence.
      - destruct (is_prefix q dd); discriminate. }
    destruct (IH w1 Hr Rd1) as (O & T1 & T2 & T3 & T4 & Placed & Back2 & Keep2).
    cbn [for_each]. rewrite (bind_ret_run _ _ _ _ _ Step). fold w1.
    destruct (for_each files (scan_file tz target method rules target) w1)
      as [o w2] eqn:Lp.
    cbn [fst snd w1 w_stats w_fs] in *. subst o.
    split; [reflexivity|].
    split; [rewrite T1, S1; cbn [List.length]; lia|].
    split; [rewrite T2, S2; cbn [List.length]; lia|].
    split; [rewrite T3, S3; reflexivity|].
    split; [rewrite T4, S4; reflexivity|].
    split; [|split].
    + intros g mg xg [<-|Ig] Lg.
      * rewrite L in Lg. injection Lg as <- <-.
        exists n. apply Keep2.
        -- intros g Ig E. unfold dd in Ld.
           rewrite E, length_app in Ld. cbn [List.length] in Ld. lia.
        -- apply kind_at_file_lookup. now rewrite K, path_eqb_refl.
      * apply (Placed g mg xg Ig). apply Keep; [|exact Lg].
        intros E. apply app_inj_tail in E. destruct E as [_ ->]. contradiction.
    + intros q m' x' Lq Hq.
      destruct (Back2 q m' x' Lq Hq) as (H1 & H2).
      destruct (Back q m' x' Lq H1) as (H3 & H4).
      split; [exact H3|]. intros g [<-|Ig]; [exact H4 | now apply H2].
    + intros q m' x' Nq Lq. apply Keep2.
      * intros g Ig. apply Nq. now right.
      * apply Keep; [|exact Lq]. apply Nq. now left.
Qed.

End RunOverFiles.

Lemma listing_files_In es f m x :
  find_entry f es = Some (File m x) -> In f (snd (listing es)).
Proof.
  intros F. apply find_entry_In_pair in F. unfold listing. cbn [snd].
  apply in_map_iff. exists (f, File m x). split; [reflexivity|].
  apply filter_In. now split.
Qed.

(** X17.  A run with recursion off organizes every file of the target.
    Let the target be a directory of a well-formed file system, the
    category names proper, the fuel enough for the depth of the tree, and
    let every regular file of the target have a time stamp of a year that
    [datetime] has and no regular file standing on the way to its planned
    directory.  Then the run returns; every one of these files is found,
    with its time and contents, in its planned directory, under its name
    or a candidate name; no regular file is left in the target itself; and
    [scanned] and [files_moved] have both grown by the number of these
    files, with no error counted. *)
Theorem scan_organizes_every_file :
  forall (tz : Z -> Z) (w : world) (target : path) (method : string)
         (delete_empty : bool) (cfg_rules : option rules_dict) (fuel : nat)
         (es : entries),
    let ordered_rules :=
      build_rules (match cfg_rules with Some d => d | None => [] end) in
    wf_node (w_fs w) = true ->
    proper_path target = true ->
    (forall c,
        In c (dict_keys (match cfg_rules with Some d => d | None => [] end)) ->
        proper_name c = true) ->
    Nat.max (height (w_fs w)) (List.length target + 4) < fuel ->
    lookup target (w_fs w) = Some (Dir es) ->
    (forall f m x,
        find_entry f es = Some (File m x) ->
        (1 <= fst (civil_of_days ((m + tz m) / 86400)) <= 9999)%Z /\
        no_file_on (plan tz method target ordered_rules f m) (w_fs w) = true) ->
    let r := deep_scan_and_organize tz fuel target method false delete_empty
               cfg_rules w in
    let count := Z.of_nat (List.length (snd (listing es))) in
    fst r = Ret tt /\
    (forall f m x,
        find_entry f es = Some (File m x) ->
        exists n,
          lookup (plan tz method target ordered_rules f m ++ [n]) (w_fs (snd r))
          = Some (File m x)) /\
    (forall f m x, lookup (target ++ [f]) (w_fs (snd r)) <> Some (File m x)) /\
    scanned (w_stats (snd r)) = (scanned (w_stats w) + count)%Z /\
    files_moved (w_stats (snd r)) = (files_moved (w_stats w) + count)%Z /\
    errors (w_stats (snd r)) = errors (w_stats w).
Proof.
  intros tz w target method delete_empty cfg_rules fuel es rules W Pt Pc Fb L Rd
         r count.
  set (b := Nat.max (height (w_fs w)) (List.length target + 4)) in *.
  pose proof (built_rules_proper cfg_rules Pc) as Pr. fold rules in Pr.
  assert (Db : List.length target + 4 <= b) by (unfold b; lia).
  assert (Inv : wf_node (w_fs w) = true /\ deep_le b (w_fs w)).
  { split; [exact W|]. apply height_to_deep_le. unfold b. lia. }
  assert (Wt : wf_node (Dir es) = true) by (eapply lookup_wf; eassumption).
  destruct (wf_node_names es Wt) as [ND _].
  destruct (listing_NoDup es ND) as [_ NDf].
  set (files := snd (listing es)) in *.
  assert (Fl : forall f, In f files ->
                 proper_name f = true /\
                 exists m x, find_entry f es = Some (File m x) /\
                             lookup (target ++ [f]) (w_fs w) = Some (File m x)).
  { intros f I. destruct (listing_In_files es f ND I) as (m & x & F).
    split; [apply (wf_node_proper es Wt); eapply find_entry_In; eassumption|].
    exists m, x. split; [exact F|]. now rewrite (lookup_snoc target f _ es L). }
  (* the loop over the files *)
  destruct (scan_files_ready tz target method rules Pr files w NDf)
    as (O & T1 & T2 & T3 & _ & Placed & Back & _).
  { intros f I. destruct (Fl f I) as (Pf & m & x & F & Lf).
    destruct (Rd f m x F) as (Ry & NF).
    split; [exact Pf|]. exists m, x. split; [exact Lf|]. split; [exact Ry|].
    now apply no_file_on_spec. }
  destruct (scan_files_any tz target method rules b 0%Z ""%string [] Pt Pr Db
              target files w Inv NDf) as (_ & Inv1 & _).
  { intros f I. destruct (Fl f I) as (Pf & m & x & _ & Lf). split; eauto. }
  cbv zeta in O, T1, T2, T3, Placed, Back.
  destruct (for_each files (scan_file tz target method rules target) w)
    as [o w1] eqn:Lp.
  cbn [fst snd] in O, T1, T2, T3, Placed, Back, Inv1. subst o.
  (* the walk stops at the root *)
  assert (Wk : walk_topdown fuel (scan_body tz target method false rules) target w
               = (Ret Break, w1)).
  { destruct fuel as [|k]; [lia|]. cbn [walk_topdown].
    rewrite (bind_ret_run _ _ _ _ _ (scandir_run target w)). rewrite L.
    destruct (listing es) as [dirs fs0] eqn:Ls. cbn [snd] in files. subst files.
    rewrite scan_body_root.
    rewrite (bind_ret_run _ _ _ _ _
               (bind_ret_run _ (fun _ => ret Break) _ _ _ Lp)).
    reflexivity. }
  assert (NoRoot : forall f m x,
             lookup (target ++ [f]) (w_fs w1) <> Some (File m x)).
  { intros f m x Lf.
    destruct (Back (target ++ [f]) m x) as (L0 & Nf); [|exact Lf|].
    - rewrite length_app. cbn. lia.
    - rewrite (lookup_snoc target f _ es L) in L0.
      apply (Nf f); [|reflexivity]. eapply listing_files_In; eassumption. }
  assert (Pl : forall f m x,
             find_entry f es = Some (File m x) ->
             exists n, lookup (plan tz method target rules f m ++ [n]) (w_fs w1)
                       = Some (File m x)).
  { intros f m x F. apply Placed.
    - eapply listing_files_In; eassumption.
    - now rewrite (lookup_snoc target f _ es L). }
  subst r. rewrite deep_scan_unfold.
  assert (Ex : exists_at target (w_fs w) = true)
    by (unfold exists_at; now rewrite L).
  rewrite Ex. fold rules. rewrite (bind_ret_run _ _ _ _ _ Wk).
  destruct delete_empty.
  - destruct Inv1 as (W1 & D1).
    assert (O2 : fst (delete_empty_folders fuel target w1) = Ret tt).
    { apply delete_empty_folders_returns; [assumption|].
      pose proof (height_deep_le (w_fs w1) b D1 W1). lia. }
    destruct (reap_counters fuel target w1) as (C1 & _ & C3 & C4).
    split; [exact O2|]. split; [|split; [|split; [|split]]].
    + intros f m x F. destruct (Pl f m x F) as [n Hn]. exists n.
      now apply keeps_file_delete_empty.
    + intros f. apply (reap_makes_no_file fuel target (target ++ [f]) w1).
      intros m x. apply NoRoot.
    + rewrite C1. exact T1.
    + rewrite C3. exact T2.
    + rewrite C4. exact T3.
  - cbn [ret fst snd].
    split; [reflexivity|]. split; [exact Pl|]. split; [exact NoRoot|].
    split; [exact T1|]. split; [exact T2 | exact T3].
Qed.

Lemma scan_organizes_every_file_witness :
  let fs := Dir [("dl", Dir [("a.jpg", File 1678886400 "A");
                             ("notes", File 1700000000 "n");
                             ("b.PDF", File 0 "B");
                             ("Images", Dir [("a.jpg", File 5 "old")])])] in
  let r := deep_scan_and_organize (fun _ => 0%Z) 6 ["dl"] "type_date" false true
             None (start_run fs) in
  fst r = Ret tt /\
  (exists n, lookup (["dl"; "Images"; "2023"; "Mar"] ++ [n]) (w_fs (snd r))
             = Some (File 1678886400 "A")) /\
  lookup ["dl"; "a.jpg"] (w_fs (snd r)) = None /\
  files_moved (w_stats (snd r)) = 3%Z /\
  errors (w_stats (snd r)) = 0%Z.
Proof.
  intros fs r.
  destruct (scan_organizes_every_file (fun _ => 0%Z) (start_run fs) ["dl"]
              "type_date" true None 6
              [("a.jpg", File 1678886400 "A"); ("notes", File 1700000000 "n");
               ("b.PDF", File 0 "B"); ("Images", Dir [("a.jpg", File 5 "old")])]
              eq_refl eq_refl)
    as (O & Pl & _ & _ & Fm & Er).
  - intros c [].
  - cbn. lia.
  - reflexivity.
  - intros f m x F. cbn [find_entry] in F.
    destruct (f =? "a.jpg") eqn:E1;
      [apply String.eqb_eq in E1; subst f; injection F as <- <-;
       split; [split; apply Z.leb_le; vm_compute; reflexivity
              | vm_compute; reflexivity]|].
    destruct (f =? "notes") eqn:E2;
      [apply String.eqb_eq in E2; subst f; injection F as <- <-;
       split; [split; apply Z.leb_le; vm_compute; reflexivity
              | vm_compute; reflexivity]|].
    destruct (f =? "b.PDF") eqn:E3;
      [apply String.eqb_eq in E3; subst f; injection F as <- <-;
       split; [split; apply Z.leb_le; vm_compute; reflexivity
              | vm_compute; reflexivity]|].
    destruct (f =? "Images"); discriminate.
  - split; [exact O|]. split; [exact (Pl "a.jpg" 1678886400%Z "A" eq_refl)|].
    split; [reflexivity|]. split; [exact Fm | exact Er].
Defined.

(* ================================================================== *)
(** * Counters and log *)
(* ================================================================== *)

Lemma agrees_quiet {A} (m : M A) :
  (forall w, w_stats (snd (m w)) = w_stats w /\ w_log (snd (m w)) = w_log w) ->
  keeps log_agrees m.
Proof.
  intros E w H. destruct (E w) as [Es El]. unfold log_agrees. now rewrite Es, El.
Qed.

Lemma agrees_log e :
  move_of e = None -> deleted_of e = None -> keeps log_agrees (log e).
Proof.
  intros Hm Hd w [H1 H2]. unfold log_agrees, log. cbn [snd w_stats w_log].
  rewrite moves_app, deletions_app.
  change (moves [e]) with (match move_of e with Some m => [m] | None => [] end).
  change (deletions [e]) with (match deleted_of e with Some p => [p] | None => [] end).
  rewrite Hm, Hd, !app_nil_r. now split.
Qed.

Lemma agrees_stats f :
  (forall s, files_moved (f s) = files_moved s /\
             folders_deleted (f s) = folders_deleted s) ->
  keeps log_agrees (modify_stats f).
Proof.
  intros E w [H1 H2]. unfold log_agrees, modify_stats. cbn [snd w_stats w_log].
  destruct (E (w_stats w)) as [-> ->]. now split.
Qed.

(** A move counted and logged. *)
Lemma agrees_moved {A} ev (a : A) src dest :
  move_of ev = Some (src, dest) -> deleted_of ev = None ->
  keeps log_agrees (modify_stats incr_files_moved ;; log ev ;; ret a).
Proof.
  intros Hm Hd w [H1 H2]. unfold log_agrees. mrun. cbn [snd w_stats w_log].
  rewrite moves_app, deletions_app.
  change (moves [ev]) with (match move_of ev with Some m => [m] | None => [] end).
  change (deletions [ev]) with (match deleted_of ev with Some p => [p] | None => [] end).
  rewrite Hm, Hd, app_nil_r, length_app. cbn [incr_files_moved files_moved
    folders_deleted List.length]. split; [lia | exact H2].
Qed.

(** A removal counted and logged. *)
Lemma agrees_deleted p :
  keeps log_agrees (modify_stats incr_folders_deleted ;; log (LogDeletedEmpty p)).
Proof.
  intros w [H1 H2]. unfold log_agrees. mrun. cbn [snd w_stats w_log].
  rewrite moves_app, deletions_app, app_nil_r, length_app.
  cbn [incr_folders_deleted files_moved folders_deleted List.length deletions
       deleted_of]. split; [exact H1 | lia].
Qed.

Lemma agrees_shutil_move src dst : keeps log_agrees (shutil_move src dst).
Proof.
  apply agrees_quiet. intros w.
  destruct (shutil_move_stats src dst w) as (Es & El & _). now split.
Qed.

Lemma agrees_rmdir p : keeps log_agrees (path_rmdir p).
Proof.
  apply agrees_quiet. intros w. unfold path_rmdir. mrun.
  destruct (lookup p (w_fs w)) as [[m x|[|e es]]|]; try (now split).
  destruct (detach p (w_fs w)); now split.
Qed.

Lemma agrees_ensure_dir p : keeps log_agrees (ensure_dir p).
Proof.
  unfold ensure_dir.
  apply keeps_bind; [apply keeps_reader, path_exists_reads|].
  intros e. destruct (negb e); [|apply keeps_ret].
  apply keeps_bind.
  - apply agrees_quiet. intros w. unfold path_mkdir. mrun.
    destruct (mkdir_p p (w_fs w)); now split.
  - intros _. apply agrees_stats. intros s. now split.
Qed.

Lemma agrees_rename_loop src dd name ext fuel : forall i,
  keeps log_agrees (rename_loop fuel src dd name ext i).
Proof.
  induction fuel as [|fuel IH]; intros i; cbn [rename_loop].
  - apply keeps_out_of_fuel.
  - apply keeps_bind; [apply keeps_reader, path_exists_reads|].
    intros e. destruct (negb e); [|apply IH].
    apply keeps_bind; [apply agrees_shutil_move|].
    intros _. now apply (agrees_moved _ _ src (dd // candidate_name name ext i)).
Qed.

Lemma agrees_safe_move src dd : keeps log_agrees (safe_move src dd).
Proof.
  unfold safe_move.
  apply keeps_bind; [apply agrees_ensure_dir|]. intros _.
  apply keeps_bind; [apply agrees_stats; intros s; now split|]. intros _.
  apply keeps_try.
  - apply keeps_bind; [apply keeps_reader, path_exists_reads|].
    intros e. destruct (negb e).
    + apply keeps_bind; [apply agrees_shutil_move|].
      intros _. now apply (agrees_moved _ _ src (dd // path_name src)).
    + apply keeps_bind; [apply keeps_reader; intros w; reflexivity|].
      intros t. apply agrees_rename_loop.
  - intros e.
    apply keeps_bind; [apply agrees_stats; intros s; now split|]. intros _.
    apply keeps_bind; [now apply agrees_log|]. intros _. apply keeps_raise.
Qed.

Lemma agrees_organize tz method src target rules :
  keeps log_agrees (organize tz method src target rules).
Proof.
  unfold organize.
  destruct (method =? "type_date"); [|destruct (method =? "date_type")].
  - unfold organize_by_type_then_date, month_name_from_ts.
    apply keeps_bind; [apply keeps_reader, st_mtime_reads|]. intros ts.
    apply keeps_bind; [apply keeps_reader, fromtimestamp_reads|]. intros ym.
    apply keeps_bind.
    + apply keeps_bind; [apply keeps_reader, fromtimestamp_reads|].
      intros ym'. apply keeps_ret.
    + intros mon. apply agrees_safe_move.
  - unfold organize_by_date_then_type, month_name_from_ts.
    apply keeps_bind; [apply keeps_reader, st_mtime_reads|]. intros ts.
    apply keeps_bind; [apply keeps_reader, fromtimestamp_reads|]. intros ym.
    apply keeps_bind.
    + apply keeps_bind; [apply keeps_reader, fromtimestamp_reads|].
      intros ym'. apply keeps_ret.
    + intros mon. apply agrees_safe_move.
  - apply agrees_safe_move.
Qed.

Lemma agrees_delete_empty fuel p : keeps log_agrees (delete_empty_folders fuel p).
Proof.
  apply keeps_walk_bottomup. intros root dirs files.
  unfold reap_body. apply keeps_for_each. intros d _.
  apply keeps_try; [|intros e; now apply agrees_log].
  apply keeps_bind; [apply keeps_reader, iterdir_any_reads|].
  intros [|]; cbn [negb]; [apply keeps_ret|].
  apply keeps_bind; [apply agrees_rmdir|].
  intros _. apply agrees_deleted.
Qed.

Lemma keeps_walk_topdown I fuel body :
  (forall root dirs files, keeps I (body root dirs files)) ->
  forall top, keeps I (walk_topdown fuel body top).
Proof.
  intros Hb. induction fuel as [|fuel IH]; intros top; cbn [walk_topdown].
  - apply keeps_out_of_fuel.
  - apply keeps_bind; [apply keeps_reader, scandir_reads|].
    intros [[dirs files]|]; [|apply keeps_ret].
    apply keeps_bind; [apply Hb|].
    intros [|]; [|apply keeps_ret].
    induction dirs as [|d r IHr]; [apply keeps_ret|].
    apply keeps_bind; [apply IH|].
    intros [|]; [exact IHr | apply keeps_ret].
Qed.

Lemma agrees_deep_scan tz fuel target method recursive delete_empty cfg :
  keeps log_agrees
    (deep_scan_and_organize tz fuel target method recursive delete_empty cfg).
Proof.
  unfold deep_scan_and_organize.
  apply keeps_bind; [apply keeps_reader, path_exists_reads|].
  intros e. destruct (negb e); [now apply agrees_log|].
  apply keeps_bind.
  - apply keeps_walk_topdown. intros root dirs files. unfold scan_body.
    destruct (_ && negb recursive)%bool; [apply keeps_ret|].
    apply keeps_bind.
    + apply keeps_for_each. intros f _.
      apply keeps_try; [|intros e'; now apply agrees_log].
      apply keeps_bind; [apply agrees_organize | intros _; apply keeps_ret].
    + intros _. destruct (negb recursive); apply keeps_ret.
  - intros _. destruct delete_empty; [apply agrees_delete_empty | apply keeps_ret].
Qed.

Lemma agrees_run_op tz o w : log_agrees w -> log_agrees (run_op tz o w).
Proof.
  destruct o; cbn [run_op].
  - apply agrees_safe_move.
  - apply agrees_ensure_dir.
  - apply agrees_delete_empty.
  - apply agrees_organize.
  - apply agrees_deep_scan.
Qed.

(** X20.  The counters agree with the log.  After any sequence of
    operations run from fresh counters and an empty log, [files_moved] is
    the number of moves the log records and [folders_deleted] the number of
    removals it records. *)
Theorem counters_agree_with_log :
  forall (tz : Z -> Z) (ops : list op) (fs : node),
    let w := run_ops tz ops (start_run fs) in
    files_moved (w_stats w) = Z.of_nat (List.length (moves (w_log w))) /\
    folders_deleted (w_stats w) = Z.of_nat (List.length (deletions (w_log w))).
Proof.
  intros tz ops fs w. subst w.
  assert (G : forall w0, log_agrees w0 -> log_agrees (run_ops tz ops w0)).
  { induction ops as [|o ops IH]; intros w0 H; cbn [run_ops fold_left];
      [exact H|].
    apply IH. now apply agrees_run_op. }
  apply (G (start_run fs)). split; reflexivity.
Qed.

(** X21.  Whatever the scan moves, it moves into a folder below the target:
    on a well-formed file system, with proper category names and fuel for
    the depth of the tree, the scan only appends to the log, and the
    destination of every move it records lies under the target, at least
    two segments below it (a category or date folder, then the name),
    recursion on or off, cleanup on or off, whatever the method. *)
Theorem deep_scan_moves_into_target :
  forall (tz : Z -> Z) (w : world) (target : path) (method : string)
         (recursive delete_empty : bool) (cfg_rules : option rules_dict)
         (fuel : nat),
    wf_node (w_fs w) = true ->
    proper_path target = true ->
    (forall c,
        In c (dict_keys (match cfg_rules with Some d => d | None => [] end)) ->
        proper_name c = true) ->
    Nat.max (height (w_fs w)) (List.length target + 4) < fuel ->
    let r := deep_scan_and_organize tz fuel target method recursive delete_empty
               cfg_rules w in
    exists new,
      w_log (snd r) = w_log w ++ new /\
      forall src dest,
        In (src, dest) (moves new) ->
        is_prefix target dest = true /\
        S (List.length target) < List.length dest.
Proof.
  intros tz w target method recursive delete_empty cfg_rules fuel W Pt Pc Fb r.
  set (b := Nat.max (height (w_fs w)) (List.length target + 4)) in *.
  assert (Inv : wf_node (w_fs w) = true /\ deep_le b (w_fs w)).
  { split; [exact W|]. apply height_to_deep_le. unfold b. lia. }
  destruct (deep_scan_any tz target method recursive delete_empty cfg_rules b
              fuel 0%Z ""%string (w_log w) w Pt Pc) as (_ & _ & _ & Hi);
    [unfold b; lia | lia | exact Inv |].
  destruct Hi as (new & En & F).
  { exists []. split; [now rewrite app_nil_r | constructor]. }
  exists new. split; [exact En|].
  intros src dest I.
  rewrite Forall_forall in F. exact (F (src, dest) I).
Qed.

Lemma deep_scan_moves_into_target_witness :
  let fs := Dir [("dl", Dir [("a.jpg", File 1678886400 "A");
                             ("sub", Dir [("b.PDF", File 1700000000 "B");
                                          ("empty", Dir [])]);
                             ("Images", Dir [("a.jpg", File 5 "old")])])] in
  let r := deep_scan_and_organize (fun _ => 0%Z) 7 ["dl"] "date" true true None
             (start_run fs) in
  exists new,
    w_log (snd r) = [] ++ new /\
    forall src dest,
      In (src, dest) (moves new) ->
      is_prefix ["dl"] dest = true /\ 2 < List.length dest.
Proof.
  intros fs r.
  apply (deep_scan_moves_into_target (fun _ => 0%Z) (start_run fs) ["dl"] "date"
           true true None 7 eq_refl eq_refl).
  - intros c [].
  - cbn. lia.
Defined.
